(** * Arovia backend: the analysis normaliser, the retry wrapper and the sanitizer

    A shallow embedding of [src/services/analyzeService.ts] (both revisions
    present in the repository: the flat-schema one with the classifying
    retry wrapper, and the baseline/projection/deltas one with the
    legacy fallback) and of [src/services/groqAdapter.ts].

    JavaScript values are embedded as an inductive type whose numbers are
    IEEE-754 binary64 floats (the kernel's primitive floats), objects are
    association lists in property order, thrown values are ordinary
    values, and effects (calls to the model service, timers, log lines)
    are the events a computation of a small monad leaves, in order. *)

From Stdlib Require Import ZArith List String Ascii Bool Lia.
From Stdlib Require Import PrimFloat FloatOps FloatAxioms SpecFloat.
From Stdlib Require Uint63.
Import ListNotations.

Local Open Scope list_scope.
Local Open Scope string_scope.
Local Set Warnings "-register-all".

(* ================================================================== *)
(** ** JavaScript values *)
(* ================================================================== *)

Module JS.

(** The values the program handles: JSON documents, [undefined], and
    error objects (objects with a [message] and optional status fields). *)
Inductive value : Type :=
| JUndef
| JNull
| JBool (b : bool)
| JNum (x : float)
| JStr (s : string)
| JArr (items : list value)
| JObj (props : list (string * value)).

(** Induction that reaches the values nested in arrays and objects. *)
Section value_induction.
Variable P : value -> Prop.
Hypothesis HUndef : P JUndef.
Hypothesis HNull : P JNull.
Hypothesis HBool : forall b, P (JBool b).
Hypothesis HNum : forall x, P (JNum x).
Hypothesis HStr : forall s, P (JStr s).
Hypothesis HArr : forall items, Forall P items -> P (JArr items).
Hypothesis HObj :
  forall props, Forall (fun kv => P (snd kv)) props -> P (JObj props).

Fixpoint value_nested_ind (v : value) : P v :=
  match v with
  | JUndef => HUndef
  | JNull => HNull
  | JBool b => HBool b
  | JNum x => HNum x
  | JStr s => HStr s
  | JArr items =>
      HArr items
        ((fix go (l : list value) : Forall P l :=
            match l with
            | [] => Forall_nil P
            | x :: r => Forall_cons x (value_nested_ind x) (go r)
            end) items)
  | JObj props =>
      HObj props
        ((fix go (l : list (string * value))
            : Forall (fun kv => P (snd kv)) l :=
            match l with
            | [] => Forall_nil _
            | kv :: r => Forall_cons kv (value_nested_ind (snd kv)) (go r)
            end) props)
  end.
End value_induction.

(** [typeof v === "string"], [typeof v === "number"], [Array.isArray]. *)
Definition is_string (v : value) : bool :=
  match v with JStr _ => true | _ => false end.

Definition is_number (v : value) : bool :=
  match v with JNum _ => true | _ => false end.

Definition is_array (v : value) : bool :=
  match v with JArr _ => true | _ => false end.

(** [typeof v === "object"]: objects, arrays and [null]. *)
Definition typeof_object (v : value) : bool :=
  match v with JObj _ | JArr _ | JNull => true | _ => false end.

Definition nullish (v : value) : bool :=
  match v with JUndef | JNull => true | _ => false end.

(** ToBoolean: [undefined], [null], [false], [0], [-0], [NaN] and the
    empty string are falsy; every object and array is truthy. *)
Definition truthy (v : value) : bool :=
  match v with
  | JUndef | JNull => false
  | JBool b => b
  | JNum x => negb (PrimFloat.is_zero x || PrimFloat.is_nan x)
  | JStr s => negb (s =? "")
  | JArr _ | JObj _ => true
  end.

(** [a || b] and [a ?? b]. *)
Definition or_else (a b : value) : value := if truthy a then a else b.
Definition coalesce (a b : value) : value := if nullish a then b else a.

(** *** Own properties of an object, in property order *)

Fixpoint lookup (k : string) (props : list (string * value)) : value :=
  match props with
  | [] => JUndef
  | (k', v) :: rest => if k' =? k then v else lookup k rest
  end.

Fixpoint has_key (k : string) (props : list (string * value)) : bool :=
  match props with
  | [] => false
  | (k', _) :: rest => (k' =? k) || has_key k rest
  end.

Fixpoint remove (k : string) (props : list (string * value))
  : list (string * value) :=
  match props with
  | [] => []
  | (k', v) :: rest =>
      if k' =? k then remove k rest else (k', v) :: remove k rest
  end.

(** Assignment keeps the position of an existing key and appends a new one. *)
Fixpoint assign (k : string) (v : value) (props : list (string * value))
  : list (string * value) :=
  match props with
  | [] => [(k, v)]
  | (k', v') :: rest =>
      if k' =? k then (k, v) :: rest else (k', v') :: assign k v rest
  end.

(** *** Thrown values and outcomes *)

(** [new Error(msg)] and the engine's own errors: an object whose
    [message] is the text; [name] tells the classes apart. *)
Definition mkError (name msg : string) : value :=
  JObj [("name", JStr name); ("message", JStr msg)].

Definition Error (msg : string) : value := mkError "Error" msg.
Definition TypeError (msg : string) : value := mkError "TypeError" msg.
Definition SyntaxError (msg : string) : value := mkError "SyntaxError" msg.

Inductive outcome (A : Type) : Type :=
| Ret (a : A)
| Throw (e : value).
Arguments Ret {A} a.
Arguments Throw {A} e.

Definition obind {A B} (c : outcome A) (k : A -> outcome B) : outcome B :=
  match c with
  | Ret a => k a
  | Throw e => Throw e
  end.

(** Property access [o.k], for the keys this program reads through it:
    a TypeError on [undefined] and [null]; an object gives what it owns
    under the key; a primitive or an array gives [undefined], as none of
    these keys is an index or a property of a prototype.  (The one key
    of the program that a prototype has, [sub] of a text in the token
    check, is read by [Auth.payload_sub]; the length and the first
    element are read by [length_opt] and [first_opt].)  The message of
    the TypeError stands for the message of the engine, which names the
    key. *)
Definition get (o : value) (k : string) : outcome value :=
  match o with
  | JUndef | JNull =>
      Throw (TypeError "Cannot read properties of undefined or null")
  | JObj props => Ret (lookup k props)
  | _ => Ret JUndef
  end.

(** Optional chaining [o?.k]. *)
Definition get_opt (o : value) (k : string) : value :=
  match o with
  | JObj props => lookup k props
  | _ => JUndef
  end.

(** [delete o.k]. *)
Definition delete (o : value) (k : string) : outcome value :=
  match o with
  | JUndef | JNull =>
      Throw (TypeError "Cannot convert undefined or null to object")
  | JObj props => Ret (JObj (remove k props))
  | _ => Ret o
  end.

End JS.
Export JS.

Declare Scope outcome_scope.
Delimit Scope outcome_scope with outcome.
Notation "x <- c ;; k" := (obind c (fun x => k))
  (at level 61, c at next level, right associativity) : outcome_scope.

(* ================================================================== *)
(** ** What the platform provides *)
(* ================================================================== *)

(** The built-ins the code calls and the process environment it reads.
    Every theorem below holds whatever they are; [Reference.platform] at
    the end of the file gives an instance to run the code on concrete
    inputs. *)
Class Platform : Type := {
  (** [Number.prototype.toString] (radix 10). *)
  Number_toString : float -> string;
  (** [JSON.parse]: [None] stands for the SyntaxError it throws. *)
  JSON_parse : string -> option value;
  (** [process.env.GROQ_MODEL]: a string, or [JUndef] when unset. *)
  env_GROQ_MODEL : value
}.

(* ================================================================== *)
(** ** Strings *)
(* ================================================================== *)

Module Str.

(** A text is held as the bytes of its UTF-8 form; JavaScript counts and
    cuts its UTF-16 code units.  [units] reads the code units off the
    bytes: one for a character of one, two or three bytes, the two
    surrogates for a character of four bytes.  A lone surrogate, which a
    cut through a surrogate pair leaves, is held as its three bytes; a
    byte that starts no character is read as the code unit of its
    number. *)

Definition byte (c : ascii) : Z := Z.of_N (N_of_ascii c).
Definition char (b : Z) : ascii := ascii_of_N (Z.to_N b).

(** A byte [10xxxxxx], which continues a character. *)
Definition continues (c : ascii) : bool :=
  ((128 <=? byte c) && (byte c <? 192))%Z.

(** The two code units of a character beyond the basic plane. *)
Definition surrogates (cp : Z) : list Z :=
  [(55296 + (cp - 65536) / 1024)%Z; (56320 + (cp - 65536) mod 1024)%Z].

Fixpoint units (s : string) : list Z :=
  match s with
  | EmptyString => []
  | String a r =>
      let x := byte a in
      let alone := x :: units r in
      if (x <? 192)%Z then alone
      else
        match r with
        | String b r1 =>
            if negb (continues b) then alone
            else if (x <? 224)%Z then
              ((x - 192) * 64 + (byte b - 128))%Z :: units r1
            else
              match r1 with
              | String c r2 =>
                  if negb (continues c) then alone
                  else if (x <? 240)%Z then
                    ((x - 224) * 4096 + (byte b - 128) * 64
                     + (byte c - 128))%Z
                      :: units r2
                  else
                    match r2 with
                    | String d r3 =>
                        let cp := ((x - 240) * 262144
                                   + (byte b - 128) * 4096
                                   + (byte c - 128) * 64
                                   + (byte d - 128))%Z in
                        if continues d && (65536 <=? cp)%Z
                           && (cp <? 1114112)%Z
                        then (surrogates cp ++ units r3)%list
                        else alone
                    | EmptyString => alone
                    end
              | EmptyString => alone
              end
        | EmptyString => alone
        end
  end.

(** A code unit: sixteen bits. *)
Definition code_unit (u : Z) : Prop := (0 <= u < 65536)%Z.

Definition is_high (u : Z) : bool := ((55296 <=? u) && (u <? 56320))%Z.
Definition is_low (u : Z) : bool := ((56320 <=? u) && (u <? 57344))%Z.

(** The three bytes of a code unit from [0x800] on. *)
Definition three (u : Z) (rest : string) : string :=
  String (char (224 + u / 4096))
    (String (char (128 + (u / 64) mod 64))
       (String (char (128 + u mod 64)) rest)).

(** The text of some code units: a high surrogate and the low surrogate
    after it make one character of four bytes. *)
Fixpoint text (us : list Z) : string :=
  match us with
  | [] => EmptyString
  | u :: rest =>
      if (u <? 128)%Z then String (char u) (text rest)
      else if (u <? 2048)%Z then
        String (char (192 + u / 64))
          (String (char (128 + u mod 64)) (text rest))
      else
        match rest with
        | v :: rest' =>
            if is_high u && is_low v then
              let cp := (65536 + (u - 55296) * 1024 + (v - 56320))%Z in
              String (char (240 + cp / 262144))
                (String (char (128 + (cp / 4096) mod 64))
                   (String (char (128 + (cp / 64) mod 64))
                      (String (char (128 + cp mod 64)) (text rest'))))
            else three u (text rest)
        | [] => three u (text rest)
        end
  end.

(** [s.length]: the number of code units. *)
Definition length (s : string) : nat := List.length (units s).

(** [s.slice(-n)]: the last [n] code units, all of a shorter string. *)
Definition slice_last (n : nat) (s : string) : string :=
  text (skipn (List.length (units s) - n) (units s)).

(** [s.slice(0, n)]: the first [n] code units. *)
Definition slice_first (n : nat) (s : string) : string :=
  text (firstn n (units s)).

(** [parts.join(sep)]. *)
Fixpoint join (sep : string) (parts : list string) : string :=
  match parts with
  | [] => ""
  | [p] => p
  | p :: rest => p ++ sep ++ join sep rest
  end.

(** [hay.includes(needle)]. *)
Definition includes (needle hay : string) : bool :=
  match index 0 needle hay with
  | Some _ => true
  | None => false
  end.

(** [s.toLowerCase()] on the ASCII letters. *)
Definition lower_char (c : ascii) : ascii :=
  let n := nat_of_ascii c in
  if (65 <=? n)%nat && (n <=? 90)%nat then ascii_of_nat (n + 32) else c.

Fixpoint toLowerCase (s : string) : string :=
  match s with
  | EmptyString => EmptyString
  | String c r => String (lower_char c) (toLowerCase r)
  end.

End Str.

(* ================================================================== *)
(** ** The sanitizer ([groqAdapter.ts], [sanitizePayload]) *)
(* ================================================================== *)

Section Sanitizer.
Context {P : Platform}.

Local Open Scope outcome_scope.

(** [String(v)].  An array joins the strings of its elements, [null]
    and [undefined] counting as empty.  An object is converted by the
    [toString] it finds: the inherited one, which gives
    [[object Object]], unless the object owns a [toString] key; the
    value under such a key is no function (a document holds none), so
    that the conversion tries [valueOf], which gives no primitive, and
    throws a TypeError. *)
Fixpoint ToString (v : value) : outcome string :=
  match v with
  | JUndef => Ret "undefined"
  | JNull => Ret "null"
  | JBool true => Ret "true"
  | JBool false => Ret "false"
  | JNum x => Ret (Number_toString x)
  | JStr s => Ret s
  | JArr items =>
      parts <- (fix each (l : list value) : outcome (list string) :=
                  match l with
                  | [] => Ret []
                  | e :: rest =>
                      p <- match e with
                           | JUndef | JNull => Ret ""
                           | _ => ToString e
                           end ;;
                      ps <- each rest ;;
                      Ret (p :: ps)
                  end) items ;;
      Ret (Str.join "," parts)
  | JObj props =>
      if has_key "toString" props
      then Throw (TypeError "Cannot convert object to primitive value")
      else Ret "[object Object]"
  end.

(** How the engine names a primitive in an error message. *)
Definition primitive_text (v : value) : string :=
  match v with
  | JStr s => "string '" ++ s ++ "'"
  | JNum x => "number '" ++ Number_toString x ++ "'"
  | JBool true => "boolean 'true'"
  | JBool false => "boolean 'false'"
  | _ => ""
  end.

(** [o.k = v] in a strict-mode module: a TypeError on [undefined], [null]
    and on primitives, with the message of the engine of Node.js, which
    quotes the primitive.  An array takes the property beside its
    elements; such a property is not represented (no validator or reader
    of this program looks at it). *)
Definition set (o : value) (k : string) (v : value) : outcome value :=
  match o with
  | JObj props => Ret (JObj (assign k v props))
  | JArr items => Ret (JArr items)
  | JUndef =>
      Throw (TypeError ("Cannot set properties of undefined (setting '"
                        ++ k ++ "')"))
  | JNull =>
      Throw (TypeError ("Cannot set properties of null (setting '"
                        ++ k ++ "')"))
  | _ =>
      Throw (TypeError ("Cannot create property '" ++ k ++ "' on "
                        ++ primitive_text o))
  end.

(** What [JSON.parse(JSON.stringify(v))] makes of a value nested in a
    document: [undefined] array slots, [NaN] and the infinities become
    [null], [-0] becomes [0], object properties holding [undefined] go. *)
Fixpoint json_copy (v : value) : value :=
  match v with
  | JUndef => JNull
  | JNull => JNull
  | JBool b => JBool b
  | JNum x =>
      if PrimFloat.is_nan x || PrimFloat.is_infinity x then JNull
      else if PrimFloat.is_zero x then JNum PrimFloat.zero
      else JNum x
  | JStr s => JStr s
  | JArr items => JArr (map json_copy items)
  | JObj props =>
      JObj ((fix copy_props (ps : list (string * value)) :=
               match ps with
               | [] => []
               | (k, JUndef) :: rest => copy_props rest
               | (k, v) :: rest => (k, json_copy v) :: copy_props rest
               end) props)
  end.

(** At the top level [JSON.stringify(undefined)] is [undefined], which
    [JSON.parse] rejects. *)
Definition JSON_roundtrip (raw : value) : outcome value :=
  match raw with
  | JUndef => Throw (SyntaxError "undefined is not valid JSON")
  | _ => Ret (json_copy raw)
  end.

Definition sanitizePayload (raw : value) : outcome value :=
  copy <- JSON_roundtrip raw ;;
  (* Remove or pseudonymize obvious identifiers *)
  copy <- delete copy "name" ;;
  copy <- delete copy "email" ;;
  copy <- delete copy "phone" ;;
  abha_id <- get copy "abha_id" ;;
  copy <- (if truthy abha_id
           then
             text <- ToString abha_id ;;
             set copy "abha_id" (JStr ("user_" ++ Str.slice_last 6 text))
           else Ret copy) ;;
  (* Optionally trim long free-text notes *)
  notes <- get copy "notes" ;;
  copy <- (match notes with
           | JStr s =>
               if truthy notes
               then set copy "notes" (JStr (Str.slice_first 1000 s))
               else Ret copy
           | _ => Ret copy
           end) ;;
  Ret copy.

End Sanitizer.

(* ================================================================== *)
(** ** Numbers *)
(* ================================================================== *)

Module Num.

(** The float of an integer (exact up to 2^53 in magnitude). *)
Definition of_Z (z : Z) : float :=
  match z with
  | Z0 => PrimFloat.zero
  | Zpos _ => PrimFloat.of_uint63 (Uint63.of_Z z)
  | Zneg p => PrimFloat.opp (PrimFloat.of_uint63 (Uint63.of_Z (Zpos p)))
  end.

Definition of_nat (n : nat) : float := of_Z (Z.of_nat n).

(** [Math.round]: the nearest integer, ties towards +infinity, computed
    exactly on the binary expansion [(-1)^s * m * 2^e]; the sign of a
    zero result is the sign of the argument. *)
Definition Math_round (x : float) : float :=
  match Prim2SF x with
  | S754_finite s m e =>
      if (0 <=? e)%Z then x
      else
        let d := (2 ^ (- e))%Z in
        let twice := (if s then - (2 * Zpos m) else 2 * Zpos m)%Z in
        let n := ((twice + d) / (2 * d))%Z in
        if (n =? 0)%Z then (if s then PrimFloat.neg_zero else PrimFloat.zero)
        else of_Z n
  | _ => x
  end.

(** [Number.isInteger]. *)
Definition Number_isInteger (x : float) : bool :=
  match Prim2SF x with
  | S754_zero _ => true
  | S754_finite _ m e =>
      (0 <=? e)%Z || (Zpos m mod 2 ^ (- e) =? 0)%Z
  | _ => false
  end.

(** [Math.round(p * 10) / 10], the rounding of a percentage to one
    decimal place in the flat-schema revision. *)
Definition round_1_decimal (p : float) : float :=
  (Math_round (p * 10) / 10)%float.

End Num.

(* ================================================================== *)
(** ** zod *)
(* ================================================================== *)

Module Zod.

Inductive check : Type :=
| CInt           (* .int() *)
| CNonnegative.  (* .nonnegative() *)

(** The schema constructors the two services use. *)
Inductive schema : Type :=
| ZString
| ZNumber (checks : list check)
| ZBoolean
| ZAny
| ZArray (elem : schema)
| ZObject (shape : list (string * schema))
| ZOptional (inner : schema).

Definition check_ok (x : float) (c : check) : bool :=
  match c with
  | CInt => Num.Number_isInteger x
  | CNonnegative => (0 <=? x)%float
  end.

(** [schema.safeParse(v)]: [Some data] on success, [None] on failure (the
    issue list is not modelled).  An object schema is in zod's default
    strip mode: the data holds the keys of the shape, in the order of the
    shape, and a key whose parsed value is [undefined] only when the input
    owns that key; keys outside the shape are dropped. *)
Fixpoint safeParse (s : schema) (v : value) {struct s} : option value :=
  match s with
  | ZString => match v with JStr _ => Some v | _ => None end
  | ZNumber checks =>
      match v with
      | JNum x =>
          if PrimFloat.is_nan x then None
          else if forallb (check_ok x) checks then Some v else None
      | _ => None
      end
  | ZBoolean => match v with JBool _ => Some v | _ => None end
  | ZAny => Some v
  | ZArray elem =>
      match v with
      | JArr items =>
          option_map JArr
            ((fix each (l : list value) : option (list value) :=
                match l with
                | [] => Some []
                | x :: rest =>
                    match safeParse elem x, each rest with
                    | Some y, Some ys => Some (y :: ys)
                    | _, _ => None
                    end
                end) items)
      | _ => None
      end
  | ZObject shape =>
      match v with
      | JObj props =>
          option_map JObj
            ((fix fields (sh : list (string * schema))
                : option (list (string * value)) :=
                match sh with
                | [] => Some []
                | (k, sk) :: rest =>
                    match safeParse sk (lookup k props), fields rest with
                    | Some JUndef, Some out =>
                        Some (if has_key k props then (k, JUndef) :: out
                              else out)
                    | Some y, Some out => Some ((k, y) :: out)
                    | _, _ => None
                    end
                end) shape)
      | _ => None
      end
  | ZOptional inner =>
      match v with
      | JUndef => Some JUndef
      | _ => safeParse inner v
      end
  end.

End Zod.
Import Zod.

(* ================================================================== *)
(** ** The schemas *)
(* ================================================================== *)

(** [analyzeService.ts], baseline/projection/deltas revision. *)
Module V2Schemas.

Definition Pred : schema :=
  ZObject [
    ("condition", ZString);
    ("years", ZNumber []);
    ("probability_pct", ZNumber []);
    ("rationale", ZOptional ZString);
    ("preventable", ZOptional ZBoolean);
    ("interventions", ZOptional (ZArray ZString));
    ("citations", ZOptional (ZArray ZString))
  ].

Definition AnalysisV2 : schema :=
  ZObject [
    ("model_version", ZString);
    ("generated_on", ZString);
    ("summary", ZOptional ZString);
    ("baseline", ZOptional (ZObject [("predictions", ZArray Pred)]));
    ("projection", ZOptional (ZObject [("predictions", ZArray Pred)]));
    ("deltas", ZOptional (ZArray (ZObject [
        ("condition", ZString);
        ("baseline_pct", ZNumber []);
        ("projection_pct", ZNumber []);
        ("delta_pct", ZNumber [])
      ])));
    ("explainability", ZOptional (ZObject [
        ("top_features",
         ZArray (ZObject [("feature", ZString); ("impact", ZNumber [])]))
      ]))
  ].

(** Backwards-compatible older Analysis schema. *)
Definition LegacyAnalysis : schema :=
  ZObject [
    ("model_version", ZOptional ZString);
    ("generated_on", ZOptional ZString);
    ("summary", ZOptional ZString);
    ("predictions", ZOptional (ZArray Pred));
    ("explainability", ZOptional ZAny)
  ].

End V2Schemas.

(** [analyzeService.ts], flat-schema revision. *)
Module FlatSchemas.

Definition PredictionSchema : schema :=
  ZObject [
    ("condition", ZString);
    ("years", ZNumber [CInt; CNonnegative]);
    ("probability_pct", ZNumber []);
    ("rationale", ZOptional ZString);
    ("preventable", ZOptional ZBoolean);
    ("interventions", ZOptional (ZArray ZString));
    ("citations", ZOptional (ZArray ZString))
  ].

Definition AnalysisSchema : schema :=
  ZObject [
    ("model_version", ZString);
    ("generated_on", ZString);
    ("summary", ZOptional ZString);
    ("predictions", ZArray PredictionSchema);
    ("explainability", ZOptional (ZObject [
        ("top_features",
         ZArray (ZObject [("feature", ZString); ("impact", ZNumber [])]))
      ]))
  ].

End FlatSchemas.

(* ================================================================== *)
(** ** Effects: the model service, timers and log lines *)
(* ================================================================== *)

(** What [client.chat.completions.create] is called with.  The two
    message texts are fixed templates around the sanitized payload and
    the list of guidance sources; the request keeps those two instead of
    the rendered text. *)
Record request : Type := {
  req_payload : value;
  req_healthDatabases : list string;
  req_model : value;
  req_max_tokens : value;
  req_temperature : value
}.

Inductive event : Type :=
| EvRequest (r : request)                          (* a call to the service *)
| EvSleep (ms : Z)                                 (* setTimeout(r, ms) awaited *)
| EvLog (level : string) (fields : value) (msg : string)   (* logger.level(fields, msg) *)
| EvConsole (level : string) (msg : string) (arg : value). (* console.level(msg, arg) *)

(** The world outside: a state [S] that answers each call to the service
    with a completion or a thrown error, and a clock. *)
Class Service (S : Type) : Type := {
  create : request -> S -> outcome value * S;
  toISOString_now : S -> string
}.

Section Effects.
Context {S : Type}.

(** A computation starts in a state of the world outside, and returns or
    throws, leaving a new state and the events it caused, in order. *)
Definition M (A : Type) : Type := S -> outcome A * S * list event.

Definition ret {A} (a : A) : M A := fun s => (Ret a, s, []).
Definition throw {A} (e : value) : M A := fun s => (Throw e, s, []).

Definition bind {A B} (c : M A) (k : A -> M B) : M B :=
  fun s =>
    match c s with
    | (Ret a, s1, t1) => let '(r, s2, t2) := k a s1 in (r, s2, (t1 ++ t2)%list)
    | (Throw e, s1, t1) => (Throw e, s1, t1)
    end.

(** [try { c } catch (err) { h err }]. *)
Definition try_catch {A} (c : M A) (h : value -> M A) : M A :=
  fun s =>
    match c s with
    | (Ret a, s1, t1) => (Ret a, s1, t1)
    | (Throw e, s1, t1) => let '(r, s2, t2) := h e s1 in (r, s2, (t1 ++ t2)%list)
    end.

Definition lift {A} (o : outcome A) : M A := fun s => (o, s, []).

Definition emit (e : event) : M unit := fun s => (Ret tt, s, [e]).

Definition sleep (ms : Z) : M unit := emit (EvSleep ms).

Definition logger (level : string) (fields : value) (msg : string) : M unit :=
  emit (EvLog level fields msg).

Definition console (level : string) (msg : string) (arg : value) : M unit :=
  emit (EvConsole level msg arg).

Definition call_service {Svc : Service S} (r : request) : M value :=
  fun s => let (res, s1) := create r s in (res, s1, [EvRequest r]).

Definition now {Svc : Service S} : M value :=
  fun s => (Ret (JStr (toISOString_now s)), s, []).

End Effects.
Arguments M : clear implicits.

Declare Scope io_scope.
Delimit Scope io_scope with io.
Notation "x <- c ;; k" := (bind c (fun x => k))
  (at level 61, c at next level, right associativity) : io_scope.
Notation "c ;; k" := (bind c (fun _ => k))
  (at level 61, right associativity) : io_scope.

(** The calls to the service and the timers awaited, among some events. *)
Definition requests (t : list event) : list request :=
  flat_map (fun e => match e with EvRequest r => [r] | _ => [] end) t.

Definition sleeps (t : list event) : list Z :=
  flat_map (fun e => match e with EvSleep ms => [ms] | _ => [] end) t.

(* ================================================================== *)
(** ** The retry wrappers *)
(* ================================================================== *)

(** [analyzeService.ts], flat-schema revision: retries on rate limits,
    5xx and errors without a status, with exponential backoff. *)
Module Classifying.
Section withRetries.
Context {S : Type} {T : Type}.
Local Open Scope io_scope.

(** [err?.response?.status || err?.status || err?.code] *)
Definition status_of (err : value) : value :=
  or_else (get_opt (get_opt err "response") "status")
    (or_else (get_opt err "status") (get_opt err "code")).

(** [err?.message?.includes('rate limit')]: a string searches itself, an
    array searches its elements, an absent message gives [undefined], and
    any other message has no [includes] to call. *)
Definition message_includes_rate_limit (err : value) : outcome value :=
  match get_opt err "message" with
  | JUndef | JNull => Ret JUndef
  | JStr m => Ret (JBool (Str.includes "rate limit" m))
  | JArr items =>
      Ret (JBool (existsb (fun e => match e with
                                    | JStr s => s =? "rate limit"
                                    | _ => false
                                    end) items))
  | _ => Throw (TypeError "err.message.includes is not a function")
  end.

(** [status === 429] *)
Definition is_429 (status : value) : bool :=
  match status with
  | JNum x => (x =? 429)%float
  | _ => false
  end.

(** [typeof status === 'number' && status >= 500] *)
Definition is_5xx (status : value) : bool :=
  match status with
  | JNum x => (500 <=? x)%float
  | _ => false
  end.

(** The guard of the retry branch:
    [isRateLimit || (typeof status === 'number' && status >= 500) || !status]. *)
Definition transient (err : value) : outcome bool :=
  let status := status_of err in
  obind (message_includes_rate_limit err) (fun inc =>
  let isRateLimit := truthy inc || is_429 status in
  Ret (isRateLimit || is_5xx status || negb (truthy status))).

(** The [for] loop from counter [i] with [n] iterations left. *)
Fixpoint withRetries_from (fn : M S T) (baseDelayMs : Z)
    (i : nat) (n : nat) (lastErr : value) : M S T :=
  match n with
  | O => throw lastErr
  | Datatypes.S n' =>
      try_catch fn (fun err =>
        retry <- lift (transient err) ;;
        if retry : bool then
          let delay := (baseDelayMs * 2 ^ Z.of_nat i)%Z in
          logger "warn"
            (JObj [("err", err); ("attempt", JNum (Num.of_nat (i + 1)));
                   ("delay", JNum (Num.of_Z delay))])
            "Transient error from analyzeWithGroq — retrying" ;;
          sleep delay ;;
          withRetries_from fn baseDelayMs (i + 1) n' err
        else
          (* non-transient -> rethrow *)
          throw err)
  end.

Definition withRetries (fn : M S T) (retries : nat) (baseDelayMs : Z)
  : M S T :=
  withRetries_from fn baseDelayMs 0 retries JNull.

End withRetries.
End Classifying.

(** [analyzeService.ts], baseline/projection/deltas revision: retries on
    every error, with a fixed delay between attempts. *)
Module Simple.
Section withRetries.
Context {S : Type} {T : Type}.
Local Open Scope io_scope.

Fixpoint withRetries_from (fn : M S T) (delayMs : Z)
    (i : nat) (n : nat) (lastErr : value) : M S T :=
  match n with
  | O => throw lastErr
  | Datatypes.S n' =>
      try_catch fn (fun err =>
        message <- lift (get err "message") ;;
        logger "warn"
          (JObj [("attempt", JNum (Num.of_nat (i + 1)));
                 ("error", message)])
          "Retrying analyzeWithGroq..." ;;
        (* i < retries - 1 *)
        (if (0 <? n')%nat then sleep delayMs else ret tt) ;;
        withRetries_from fn delayMs (i + 1) n' err)
  end.

Definition withRetries (fn : M S T) (retries : nat) (delayMs : Z)
  : M S T :=
  withRetries_from fn delayMs 0 retries JUndef.

End withRetries.
End Simple.

(* ================================================================== *)
(** ** The adapter ([groqAdapter.ts], [analyzeWithGroq]) *)
(* ================================================================== *)

Module Regex.

(** The text from the first opening brace on. *)
Fixpoint from_first_open (s : string) : option string :=
  match s with
  | EmptyString => None
  | String c r =>
      if (c =? "{")%char then Some s else from_first_open r
  end.

(** The text up to the last closing brace. *)
Fixpoint upto_last_close (s : string) : option string :=
  match s with
  | EmptyString => None
  | String c r =>
      match upto_last_close r with
      | Some t => Some (String c t)
      | None => if (c =? "}")%char then Some (String c EmptyString) else None
      end
  end.

(** [text.match(/\{[\s\S]*\}/)]: the leftmost match starts at the first
    opening brace that has a closing brace after it, and the greedy
    [[\s\S]*] runs to the last closing brace of the text. *)
Definition match_braces (text : string) : option string :=
  match from_first_open text with
  | Some t => upto_last_close t
  | None => None
  end.

End Regex.

Record adapter_args : Type := {
  arg_userId : string;
  arg_mergedData : value;
  arg_healthDatabases : option (list string);
  arg_model : value;
  arg_max_tokens : value;
  arg_temperature : value
}.

Section Adapter.
Context {P : Platform} {S : Type} {Svc : Service S}.
Local Open Scope io_scope.

(** A default parameter value applies when the argument is [undefined]. *)
Definition default_to (dflt given : value) : value :=
  match given with
  | JUndef => dflt
  | _ => given
  end.

(** [v?.[0]] *)
Definition first_opt (v : value) : value :=
  match v with
  | JArr (x :: _) => x
  | JObj props => lookup "0" props
  | JStr s =>
      match Str.units s with
      | u :: _ => JStr (Str.text [u])
      | [] => JUndef
      end
  | _ => JUndef
  end.

(** [JSON.parse(outputText)], then the first JSON block of the text. *)
Definition parse_output (outputText : string) : outcome value :=
  match JSON_parse outputText with
  | Some parsed => Ret parsed
  | None =>
      match Regex.match_braces outputText with
      | Some jsonMatch =>
          match JSON_parse jsonMatch with
          | Some parsed => Ret parsed
          | None =>
              Throw (Error "Failed to parse JSON from the model output after extracting JSON block")
          end
      | None =>
          Throw (Error "Failed to parse JSON from model output and no JSON block found")
      end
  end.

(** [parsed.model_version = parsed.model_version || `${model}-v1`;
     parsed.generated_on = parsed.generated_on || new Date().toISOString();] *)
Definition ensure_metadata (model : value) (parsed : value) : M S value :=
  mv <- lift (get parsed "model_version") ;;
  tag <- lift (if truthy mv then Ret mv
               else obind (ToString model)
                      (fun m => Ret (JStr (m ++ "-v1")))) ;;
  parsed <- lift (set parsed "model_version" tag) ;;
  go <- lift (get parsed "generated_on") ;;
  stamp <- (if truthy go then ret go else now) ;;
  parsed <- lift (set parsed "generated_on" stamp) ;;
  ret parsed.

(** [(error?.message || "").toLowerCase()] *)
Definition lowercase_message (error : value) : outcome string :=
  match or_else (get_opt error "message") (JStr "") with
  | JStr m => Ret (Str.toLowerCase m)
  | _ => Throw (TypeError "toLowerCase is not a function")
  end.

Definition analyzeWithGroq (args : adapter_args) : M S value :=
  let userId := arg_userId args in
  let mergedData := arg_mergedData args in
  let healthDatabases :=
    match arg_healthDatabases args with
    | Some dbs => dbs
    | None => ["NHANES"; "PubMed"; "WHO"; "ADA"; "AHA"]
    end in
  let model :=
    default_to (or_else env_GROQ_MODEL (JStr "llama-3.3-70b-versatile"))
      (arg_model args) in
  let max_tokens := default_to (JNum 1200) (arg_max_tokens args) in
  let temperature := default_to (JNum 0) (arg_temperature args) in
  sanitized <- lift (sanitizePayload mergedData) ;;
  try_catch
    (chatCompletion <-
       call_service {| req_payload := sanitized;
                       req_healthDatabases := healthDatabases;
                       req_model := model;
                       req_max_tokens := max_tokens;
                       req_temperature := temperature |} ;;
     usage <- lift (get chatCompletion "usage") ;;
     (if truthy usage
      then console "log" "Groq usage:"
             (JObj [("prompt_tokens", get_opt usage "prompt_tokens");
                    ("completion_tokens", get_opt usage "completion_tokens");
                    ("total_tokens", get_opt usage "total_tokens")])
      else ret tt) ;;
     let firstChoice := first_opt (get_opt chatCompletion "choices") in
     let outputContent :=
       coalesce (get_opt (get_opt firstChoice "message") "content")
         (coalesce (get_opt firstChoice "message") JNull) in
     if truthy outputContent && typeof_object outputContent
        && negb (is_array outputContent)
     then
       (* Groq returned a parsed JSON object directly *)
       ensure_metadata model outputContent
     else
       match outputContent with
       | JStr outputText =>
           if negb (truthy outputContent)
           then throw (Error "Groq returned no textual output")
           else
             parsed <- lift (parse_output outputText) ;;
             ensure_metadata model parsed
       | _ => throw (Error "Groq returned no textual output")
       end)
    (fun error =>
       console "error" "Groq API error:" error ;;
       msg <- lift (lowercase_message error) ;;
       if Str.includes "rate limit" msg || Str.includes "quota" msg
       then throw (Error "Groq rate limit or quota error — try again later.")
       else if Str.includes "model_not_found" msg
               || Str.includes "does not exist" msg
               || Str.includes "not supported" msg
       then
         message <- lift (ToString (get_opt error "message")) ;;
         throw (Error ("Model error from Groq: " ++ message))
       else throw error).

End Adapter.

(* ================================================================== *)
(** ** [analyzeMerged], baseline/projection/deltas revision *)
(* ================================================================== *)

(** [v?.length] *)
Definition length_opt (v : value) : value :=
  match v with
  | JArr items => JNum (Num.of_nat (List.length items))
  | JStr s => JNum (Num.of_nat (Str.length s))
  | JObj props => lookup "length" props
  | _ => JUndef
  end.

(** [arr.map(f)] on a validated array. *)
Definition array_map (f : value -> value) (arr : value) : value :=
  match arr with
  | JArr items => JArr (map f items)
  | _ => JUndef
  end.

Module V2.
Import V2Schemas.
Section analyzeMerged.
Context {P : Platform} {S : Type} {Svc : Service S}.
Local Open Scope io_scope.

(** The conversion of a validated legacy document (the body of
    [if (legacy.success)]): baseline empty, projection = the legacy
    predictions, one delta per prediction. *)
Definition upgrade_legacy (legacyData : value) (timestamp : value) : value :=
  let predictions := or_else (get_opt legacyData "predictions") (JArr []) in
  let projection := JObj [("predictions", predictions)] in
  JObj [
    ("model_version",
     or_else (get_opt legacyData "model_version") (JStr "unknown-legacy"));
    ("generated_on", timestamp);
    ("summary", or_else (get_opt legacyData "summary") (JStr ""));
    ("baseline", JObj [("predictions", JArr [])]);
    ("projection", projection);
    ("deltas",
     array_map (fun p =>
       JObj [
         ("condition", get_opt p "condition");
         ("baseline_pct", JNum (-1));
         ("projection_pct",
          coalesce
            (coalesce (get_opt p "probability_pct") (get_opt p "probability"))
            (JNum 0));
         ("delta_pct", JNum (-1))
       ]) predictions);
    ("explainability",
     or_else (get_opt legacyData "explainability") (JObj []))
  ].

(** What [analyzeMerged] does with the adapter's result: lines 90-124. *)
Definition validate (userId : string) (raw : value) : M S value :=
  (* Try to validate as v2 *)
  match safeParse AnalysisV2 raw with
  | Some analysis =>
      logger "info"
        (JObj [("userId", JStr userId);
               ("model", get_opt analysis "model_version");
               ("preds",
                or_else
                  (length_opt
                     (get_opt (get_opt analysis "projection") "predictions"))
                  (JNum 0))])
        "analysis v2 ok" ;;
      ret analysis
  | None =>
      (* Fallback: try legacy *)
      match safeParse LegacyAnalysis raw with
      | Some legacyData =>
          let go := get_opt legacyData "generated_on" in
          stamp <- (if truthy go then ret go else now) ;;
          let out := upgrade_legacy legacyData stamp in
          logger "warn" (JObj [("userId", JStr userId)])
            "legacy analysis returned, converting to v2 shape" ;;
          ret out
      | None =>
          (* No valid schema *)
          logger "error" (JObj [("raw", raw)])
            "Invalid analysis schema from LLM" ;;
          throw (Error "Invalid analysis returned from model")
      end
  end.

Definition analyzeMerged (userId : string) (mergedPayload : value)
    (healthDatabases : option (list string)) (options : value)
  : M S value :=
  (* Guard *)
  if negb (truthy mergedPayload)
  then throw (Error "mergedPayload is required")
  else
    (* Call LLM adapter with retries *)
    raw <- Simple.withRetries
             (analyzeWithGroq
                {| arg_userId := userId;
                   arg_mergedData := mergedPayload;
                   arg_healthDatabases := healthDatabases;
                   arg_model := get_opt options "model";
                   arg_temperature := get_opt options "temperature";
                   arg_max_tokens := get_opt options "max_tokens" |})
             3 1000 ;;
    validate userId raw.

End analyzeMerged.
End V2.

(* ================================================================== *)
(** ** [analyzeMerged] and [analyzeBatch], flat-schema revision *)
(* ================================================================== *)

Record analysis_request : Type := {
  userId : string;
  mergedPayload : value;
  healthDatabases : option (list string)
}.

Module Flat.
Import FlatSchemas.
Section analyzeMerged.
Context {P : Platform} {S : Type} {Svc : Service S}.
(** The adapter this revision imports (the earlier [groqAdapter.ts]). *)
Variable analyzeWithGroq : adapter_args -> M S value.
Local Open Scope io_scope.

(** Round probabilities to 1 decimal:
    [{ ...p, probability_pct: typeof p.probability_pct === 'number'
         ? Math.round(p.probability_pct * 10) / 10 : p.probability_pct }] *)
Definition round_prediction (p : value) : value :=
  match p with
  | JObj props =>
      JObj (assign "probability_pct"
              (match lookup "probability_pct" props with
               | JNum x => JNum (Num.round_1_decimal x)
               | other => other
               end) props)
  | _ => p
  end.

(** What [analyzeMerged] does with the adapter's result: lines 94-121.
    The [issues] field of the error log line is not modelled. *)
Definition validate (userId : string) (rawResult : value) : M S value :=
  (* Validate shape *)
  match safeParse AnalysisSchema rawResult with
  | None =>
      logger "error" (JObj [("rawResult", rawResult)])
        "Groq returned invalid analysis schema" ;;
      throw (Error "Invalid analysis result from Groq")
  | Some analysis =>
      (* Optionally normalize numeric values *)
      analysis <- lift (set analysis "predictions"
                          (array_map round_prediction
                             (get_opt analysis "predictions"))) ;;
      (* Attach model metadata if missing *)
      analysis <- lift (set analysis "model_version"
                          (or_else (get_opt analysis "model_version")
                             (or_else env_GROQ_MODEL
                                (JStr "llama-3.2-70b-versatile")))) ;;
      let go := get_opt analysis "generated_on" in
      stamp <- (if truthy go then ret go else now) ;;
      analysis <- lift (set analysis "generated_on" stamp) ;;
      logger "info"
        (JObj [("userId", JStr userId);
               ("model", get_opt analysis "model_version");
               ("predictions",
                length_opt (get_opt analysis "predictions"))])
        "analysis completed with Groq" ;;
      ret analysis
  end.

Definition analyzeMerged (userId : string) (mergedPayload : value)
    (healthDatabases : option (list string)) (options : value)
  : M S value :=
  (* Defensive: ensure we have something to send *)
  if negb (truthy mergedPayload)
  then throw (Error "mergedPayload is required")
  else
    (* Call Groq adapter with retries *)
    rawResult <- Classifying.withRetries
                   (analyzeWithGroq
                      {| arg_userId := userId;
                         arg_mergedData := mergedPayload;
                         arg_healthDatabases := healthDatabases;
                         arg_model :=
                           or_else (get_opt options "model")
                             (or_else env_GROQ_MODEL
                                (JStr "llama-3.2-70b-versatile"));
                         arg_temperature :=
                           or_else (get_opt options "temperature")
                             (JNum 0x1.6666666666666p-1 (* 0.7 *));
                         arg_max_tokens :=
                           or_else (get_opt options "max_tokens")
                             (JNum 1200) |})
                   3 500 ;;
    validate userId rawResult.

(** [Promise.allSettled(cs)], when each call runs to its end before the
    next one starts: every computation runs, in array order, and settles
    as fulfilled or rejected; nothing is thrown.  This is one of the runs
    the engine can make; the calls in flight together, whose pieces
    interleave, are [Async.allSettled] below, which ends with this one
    for the calls that are left. *)
Fixpoint allSettled {A} (cs : list (M S A)) : M S (list (outcome A)) :=
  match cs with
  | [] => ret []
  | c :: rest =>
      fun s =>
        let '(r, s1, t1) := c s in
        let '(rs, s2, t2) := allSettled rest s1 in
        (obind rs (fun l => Ret (r :: l)), s2, (t1 ++ t2)%list)
  end.

(** The [forEach] that collects one batch. *)
Fixpoint collect (batch : list analysis_request)
    (batchResults : list (outcome value)) (results : list value)
  : M S (list value) :=
  match batch, batchResults with
  | item :: batch', Ret v :: rest =>
      collect batch' rest (results ++ [v])
  | item :: batch', Throw reason :: rest =>
      logger "error"
        (JObj [("error", reason); ("userId", JStr (userId item))])
        "Batch analysis failed for user" ;;
      collect batch' rest (results ++ [JNull])
  | _, _ => ret results
  end.

(** The [for] loop of [analyzeBatch] from index [i]; [fuel] bounds the
    number of iterations, and [None] is a loop that is still running
    when the fuel is spent. *)
Fixpoint analyzeBatch_from (fuel : nat) (analyses : list analysis_request)
    (batchSize : nat) (delayMs : Z) (i : nat) (results : list value)
  : M S (option (list value)) :=
  if (i <? List.length analyses)%nat then
    match fuel with
    | O => ret None
    | Datatypes.S fuel' =>
        let batch := firstn batchSize (skipn i analyses) in
        (* Process batch in parallel *)
        batchResults <-
          allSettled
            (map (fun r =>
                    analyzeMerged (userId r) (mergedPayload r)
                      (healthDatabases r) JUndef) batch) ;;
        (* Collect results and handle failures *)
        results <- collect batch batchResults results ;;
        (* Add delay between batches to respect rate limits *)
        (if (i + batchSize <? List.length analyses)%nat
         then sleep delayMs else ret tt) ;;
        analyzeBatch_from fuel' analyses batchSize delayMs
          (i + batchSize) results
    end
  else ret (Some results).

Definition analyzeBatch (fuel : nat) (analyses : list analysis_request)
    (batchSize : nat) (delayMs : Z) : M S (option (list value)) :=
  analyzeBatch_from fuel analyses batchSize delayMs 0 [].

End analyzeMerged.
End Flat.

(* ================================================================== *)
(** ** A reference platform *)
(* ================================================================== *)

(** An instance of [Platform] to run the code on concrete inputs:
    [JSON.parse] after ECMA-404 and [Number.prototype.toString] after
    ECMA-262 (Number::toString, radix 10), both with exact integer
    arithmetic on the binary expansion of a double.  Strings hold the
    UTF-8 bytes of their text, as everywhere in this development (the
    code unit of a [\u] escape is stored as its bytes), and integer-like
    keys stay in text order. *)
Module Reference.

Local Open Scope Z_scope.

(** *** Decimal text to the nearest double *)

(** [a * 10^p] against [b * 2^q], for positive [a] and [b]. *)
Definition compare_scaled (a p b q : Z) : comparison :=
  (a * 10 ^ Z.max p 0 * 2 ^ Z.max (- q) 0
   ?= b * 2 ^ Z.max q 0 * 10 ^ Z.max (- p) 0).

(** The double nearest to [N / D] (ties to even), for positive [N], [D]. *)
Definition nearest_double (N D : Z) : float :=
  let e0 := Z.log2 N - Z.log2 D - 52 in
  let quot e := if 0 <=? e then N / (D * 2 ^ e) else (N * 2 ^ (- e)) / D in
  let e1 := if quot e0 <? 2 ^ 52 then e0 - 1 else e0 in
  let e := Z.max e1 (-1074) in
  let num := if 0 <=? e then N else N * 2 ^ (- e) in
  let den := if 0 <=? e then D * 2 ^ e else D in
  let q := num / den in
  let r := num mod den in
  let q' := if (den <? 2 * r) || ((den =? 2 * r) && Z.odd q) then q + 1 else q in
  if 971 <? e then PrimFloat.infinity
  else FloatOps.Z.ldexp (PrimFloat.of_uint63 (Uint63.of_Z q')) e.

(** The double of the decimal [digits * 10^exp10]. *)
Definition double_of_decimal (neg : bool) (digits exp10 : Z) : float :=
  let x :=
    if digits =? 0 then PrimFloat.zero
    else if 330 <? Z.log2 digits / 3 + exp10 then PrimFloat.infinity
    else if Z.log2 digits / 3 + exp10 + 1 <? -330 then PrimFloat.zero
    else if 0 <=? exp10 then nearest_double (digits * 10 ^ exp10) 1
    else nearest_double digits (10 ^ (- exp10)) in
  if neg then PrimFloat.opp x else x.

(** *** A double to its shortest decimal text *)

Definition digit_char (d : Z) : ascii := ascii_of_nat (48 + Z.to_nat d).

(** The decimal digits of a non-negative integer, at least one. *)
Fixpoint digits_of (fuel : nat) (n : Z) (acc : string) : string :=
  match fuel with
  | O => acc
  | S f =>
      let acc' := String (digit_char (n mod 10)) acc in
      if n <? 10 then acc' else digits_of f (n / 10) acc'
  end.

Definition decimal (n : Z) : string :=
  digits_of (S (Z.to_nat (Z.log2 n))) n EmptyString.

Fixpoint zeros (n : nat) : string :=
  match n with
  | O => EmptyString
  | S k => String "0" (zeros k)
  end.

(** [n] with [10^(n-1) <= m * 2^e < 10^n], searched from an estimate. *)
Fixpoint magnitude_from (fuel : nat) (m e n : Z) : Z :=
  match fuel with
  | O => n
  | S f =>
      match compare_scaled 1 n m e with
      | Gt => (* 10^n > x *)
          match compare_scaled 1 (n - 1) m e with
          | Gt => magnitude_from f m e (n - 1)
          | _ => n
          end
      | _ => magnitude_from f m e (n + 1)
      end
  end.

Definition magnitude (m e : Z) : Z :=
  magnitude_from 8 m e ((Z.log2 m + e) * 1233 / 4096).

(** Whether [s * 10^p] rounds to the double [m * 2^e]: it lies between
    the midpoints to the neighbouring doubles, which belong to the
    interval when [m] is even. *)
Definition rounds_to (m e s p : Z) : bool :=
  let below := if (m =? 2 ^ 52) && (-1074 <? e) then 4 * m - 1 else 4 * m - 2 in
  let above := 4 * m + 2 in
  let lo := compare_scaled s p below (e - 2) in
  let hi := compare_scaled s p above (e - 2) in
  match lo, hi with
  | Gt, Lt => true
  | Eq, _ => Z.even m
  | _, Eq => Z.even m
  | _, _ => false
  end.

(** The shortest [k]-digit [s] with [s * 10^(n-k)] rounding to the
    double, searched for [k = 1, 2, ...]; of two candidates the nearer
    one, and the even one on a tie. *)
Fixpoint shortest_from (fuel : nat) (m e n k : Z) : Z * Z * Z :=
  let p := n - k in
  (* floor (m * 2^e / 10^p) *)
  let s_lo := (m * 2 ^ Z.max e 0 * 10 ^ Z.max (- p) 0)
              / (10 ^ Z.max p 0 * 2 ^ Z.max (- e) 0) in
  let s_hi := s_lo + 1 in
  let ok_lo := rounds_to m e s_lo p in
  let ok_hi := rounds_to m e s_hi p in
  (* is s_hi nearer than s_lo?  compare (s_lo + s_hi) * 10^p with 2x *)
  let mid := compare_scaled (s_lo + s_hi) p (2 * m) e in
  let pick :=
    if ok_lo && ok_hi then
      match mid with
      | Lt => Some s_hi
      | Gt => Some s_lo
      | Eq => Some (if Z.even s_lo then s_lo else s_hi)
      end
    else if ok_lo then Some s_lo
    else if ok_hi then Some s_hi
    else None in
  match pick, fuel with
  | Some s, _ => if s =? 10 ^ k then (1, 1, n + 1) else (s, k, n)
  | None, O => (s_lo, k, n)
  | None, S f => shortest_from f m e n (k + 1)
  end.

(** Number::toString of a positive finite double [m * 2^e]. *)
Definition positive_toString (m e : Z) : string :=
  let '(s, k, n) := shortest_from 20 m e (magnitude m e) 1 in
  let ds := decimal s in
  if (k <=? n) && (n <=? 21) then
    (ds ++ zeros (Z.to_nat (n - k)))%string
  else if (0 <? n) && (n <=? 21) then
    (substring 0 (Z.to_nat n) ds ++ "."
       ++ substring (Z.to_nat n) (Z.to_nat (k - n)) ds)%string
  else if (-6 <? n) && (n <=? 0) then
    ("0." ++ zeros (Z.to_nat (- n)) ++ ds)%string
  else
    let ex := n - 1 in
    let sign := if ex <? 0 then "-" else "+" in
    let mant := if k =? 1 then ds
                else (substring 0 1 ds ++ "."
                        ++ substring 1 (Z.to_nat (k - 1)) ds)%string in
    (mant ++ "e" ++ sign ++ decimal (Z.abs ex))%string.

Definition Number_toString (x : float) : string :=
  match Prim2SF x with
  | S754_nan => "NaN"
  | S754_zero _ => "0"
  | S754_infinity false => "Infinity"
  | S754_infinity true => "-Infinity"
  | S754_finite false m e => positive_toString (Zpos m) e
  | S754_finite true m e => ("-" ++ positive_toString (Zpos m) e)%string
  end.

(** *** JSON.parse *)

Definition quote : ascii := "034".
Definition backslash : ascii := "092".

Definition is_ws (c : ascii) : bool :=
  (Ascii.eqb c " ") || (Ascii.eqb c "009") || (Ascii.eqb c "010") || (Ascii.eqb c "013").

Fixpoint skip_ws (s : string) : string :=
  match s with
  | String c r => if is_ws c then skip_ws r else s
  | EmptyString => s
  end.

Definition digit_value (c : ascii) : option Z :=
  let n := Z.of_nat (nat_of_ascii c) in
  if (48 <=? n) && (n <=? 57) then Some (n - 48) else None.

Definition hex_value (c : ascii) : option Z :=
  let n := Z.of_nat (nat_of_ascii c) in
  if (48 <=? n) && (n <=? 57) then Some (n - 48)
  else if (65 <=? n) && (n <=? 70) then Some (n - 55)
  else if (97 <=? n) && (n <=? 102) then Some (n - 87)
  else None.

Definition byte (n : Z) : ascii := ascii_of_nat (Z.to_nat n).

(** The UTF-8 bytes of a code unit. *)
Definition utf8 (cp : Z) (rest : string) : string :=
  if cp <? 128 then String (byte cp) rest
  else if cp <? 2048 then
    String (byte (192 + cp / 64)) (String (byte (128 + cp mod 64)) rest)
  else
    String (byte (224 + cp / 4096))
      (String (byte (128 + (cp / 64) mod 64))
         (String (byte (128 + cp mod 64)) rest)).

(** The characters of a string literal after its opening quote, and the
    text after its closing quote. *)
Fixpoint string_body (s : string) : option (string * string) :=
  match s with
  | EmptyString => None
  | String c r =>
      if Ascii.eqb c quote then Some (EmptyString, r)
      else if Ascii.eqb c backslash then
        match r with
        | String "u" (String h1 (String h2 (String h3 (String h4 r')))) =>
            match hex_value h1, hex_value h2, hex_value h3, hex_value h4,
                  string_body r' with
            | Some a, Some b, Some c', Some d, Some (body, rest) =>
                Some (utf8 (((a * 16 + b) * 16 + c') * 16 + d) body, rest)
            | _, _, _, _, _ => None
            end
        | String e r' =>
            let unescaped :=
              if Ascii.eqb e quote then Some quote
              else if Ascii.eqb e backslash then Some backslash
              else if Ascii.eqb e "/" then Some "/"%char
              else if Ascii.eqb e "b" then Some "008"%char
              else if Ascii.eqb e "f" then Some "012"%char
              else if Ascii.eqb e "n" then Some "010"%char
              else if Ascii.eqb e "r" then Some "013"%char
              else if Ascii.eqb e "t" then Some "009"%char
              else None in
            match unescaped, string_body r' with
            | Some c', Some (body, rest) => Some (String c' body, rest)
            | _, _ => None
            end
        | EmptyString => None
        end
      else if (nat_of_ascii c <? 32)%nat then None
      else
        match string_body r with
        | Some (body, rest) => Some (String c body, rest)
        | None => None
        end
  end.

(** The text of a string literal: two [\u] escapes that form a surrogate
    pair are one character. *)
Definition paired (body : string) : string := Str.text (Str.units body).

(** A run of decimal digits: its value, its length, and the rest. *)
Fixpoint digit_run (s : string) (acc : Z) (len : Z) : Z * Z * string :=
  match s with
  | String c r =>
      match digit_value c with
      | Some d => digit_run r (acc * 10 + d) (len + 1)
      | None => (acc, len, s)
      end
  | EmptyString => (acc, len, s)
  end.

(** A number literal: an optional minus sign; an integer part that is
    a single zero or digits not starting with zero; an optional fraction
    (a point and at least one digit); an optional exponent ([e] or [E],
    an optional sign, at least one digit). *)
Definition number_literal (s : string) : option (float * string) :=
  let (neg, s1) := match s with
                   | String "-" r => (true, r)
                   | _ => (false, s)
                   end in
  let '(int, int_len, s2) := digit_run s1 0 0 in
  let leading_zero := match s1 with String "0" _ => true | _ => false end in
  if (int_len =? 0) || (leading_zero && (1 <? int_len)) then None
  else
    let frac :=
      match s2 with
      | String "." r =>
          let '(all, frac_len, s3) := digit_run r int 0 in
          if frac_len =? 0 then None else Some (all, frac_len, s3)
      | _ => Some (int, 0, s2)
      end in
    match frac with
    | None => None
    | Some (digits, frac_len, s3) =>
        let expo :=
          match s3 with
          | String c r =>
              if (Ascii.eqb c "e") || (Ascii.eqb c "E") then
                let (eneg, r1) := match r with
                                  | String "-" r' => (true, r')
                                  | String "+" r' => (false, r')
                                  | _ => (false, r)
                                  end in
                let '(ev, elen, s4) := digit_run r1 0 0 in
                if elen =? 0 then None
                else Some ((if eneg then - ev else ev), s4)
              else Some (0, s3)
          | EmptyString => Some (0, s3)
          end in
        match expo with
        | None => None
        | Some (ev, s4) =>
            Some (double_of_decimal neg digits (ev - frac_len), s4)
        end
    end.

Fixpoint starts_with (prefix s : string) : option string :=
  match prefix, s with
  | EmptyString, _ => Some s
  | String a p, String b r => if Ascii.eqb a b then starts_with p r else None
  | _, EmptyString => None
  end.

(** What the parser is in the middle of. *)
Inductive parsing : Type :=
| AValue
| Elements (acc : list value)
| Members (acc : list (string * value)).

(** One value, the elements of an array after its bracket or a comma, or
    the members of an object after its brace or a comma; the result comes
    with the text that follows. *)
Fixpoint parse (fuel : nat) (what : parsing) (s : string)
  : option (value * string) :=
  match fuel with
  | O => None
  | S fuel' =>
      match what with
      | AValue =>
          match skip_ws s with
          | String "{" r =>
              match skip_ws r with
              | String "}" r' => Some (JObj [], r')
              | _ => parse fuel' (Members []) r
              end
          | String "[" r =>
              match skip_ws r with
              | String "]" r' => Some (JArr [], r')
              | _ => parse fuel' (Elements []) r
              end
          | String c r as t =>
              if Ascii.eqb c quote then
                match string_body r with
                | Some (body, rest) => Some (JStr (paired body), rest)
                | None => None
                end
              else
                match starts_with "true" t, starts_with "false" t,
                      starts_with "null" t with
                | Some rest, _, _ => Some (JBool true, rest)
                | _, Some rest, _ => Some (JBool false, rest)
                | _, _, Some rest => Some (JNull, rest)
                | _, _, _ =>
                    match number_literal t with
                    | Some (x, rest) => Some (JNum x, rest)
                    | None => None
                    end
                end
          | EmptyString => None
          end
      | Elements acc =>
          match parse fuel' AValue s with
          | Some (v, rest) =>
              match skip_ws rest with
              | String "," r => parse fuel' (Elements (acc ++ [v])) r
              | String "]" r => Some (JArr (acc ++ [v]), r)
              | _ => None
              end
          | None => None
          end
      | Members acc =>
          match skip_ws s with
          | String c r =>
              if Ascii.eqb c quote then
                match string_body r with
                | Some (key, rest) =>
                    match skip_ws rest with
                    | String ":" r1 =>
                        match parse fuel' AValue r1 with
                        | Some (v, rest1) =>
                            match skip_ws rest1 with
                            | String "," r2 =>
                                parse fuel'
                                  (Members (assign (paired key) v acc)) r2
                            | String "}" r2 =>
                                Some (JObj (assign (paired key) v acc), r2)
                            | _ => None
                            end
                        | None => None
                        end
                    | _ => None
                    end
                | None => None
                end
              else None
          | EmptyString => None
          end
      end
  end.

(** [JSON.parse(text)]: one value, with only white space around it. *)
Definition JSON_parse (text : string) : option value :=
  match parse (2 * String.length text + 2) AValue text with
  | Some (v, rest) =>
      match skip_ws rest with
      | EmptyString => Some v
      | _ => None
      end
  | None => None
  end.

Local Close Scope Z_scope.

#[export] Instance platform : Platform :=
  Build_Platform Number_toString JSON_parse JUndef.

(** Apostrophes to double quotes, to write JSON texts legibly. *)
Fixpoint dq (s : string) : string :=
  match s with
  | EmptyString => EmptyString
  | String c r => String (if Ascii.eqb c "'" then quote else c) (dq r)
  end.

(** A scripted service: the answers to the successive calls. *)
#[export] Instance scripted : Service (list (outcome value)) := {|
  create := fun _ script =>
    match script with
    | answer :: rest => (answer, rest)
    | [] => (Throw (Error "connect ECONNREFUSED"), [])
    end;
  toISOString_now := fun _ => "2025-01-01T00:00:00.000Z"
|}.

End Reference.

Local Open Scope list_scope.
Local Open Scope string_scope.

(* ================================================================== *)
(** ** The vocabulary of the statements *)
(* ================================================================== *)

(** Whether an object owns a key. *)
Definition owns (v : value) (k : string) : bool :=
  match v with
  | JObj props => has_key k props
  | _ => false
  end.

Section SanitizerVocabulary.
Context {P : Platform}.

(** The properties of a copied object. *)
Fixpoint copy_props (ps : list (string * value)) : list (string * value) :=
  match ps with
  | [] => []
  | (k, JUndef) :: rest => copy_props rest
  | (k, v) :: rest => (k, json_copy v) :: copy_props rest
  end.

(** A copied value: nothing in it is changed by copying. *)
Definition copied (v : value) : Prop := json_copy v = v.

Definition copied_props (ps : list (string * value)) : Prop :=
  Forall (fun kv => snd kv <> JUndef /\ copied (snd kv)) ps.

(** *** The steps of [sanitizePayload] on the properties of the copy *)

(** The pseudonym of an [abha_id] whose string form is [text]. *)
Definition pseudonym (text : string) : value :=
  JStr ("user_" ++ Str.slice_last 6 text).

Definition drop_identifiers (ps : list (string * value)) :=
  remove "phone" (remove "email" (remove "name" ps)).

Definition pseudonymize (text : string) (ps : list (string * value)) :=
  if truthy (lookup "abha_id" ps)
  then assign "abha_id" (pseudonym text) ps
  else ps.

Definition trim_notes (ps : list (string * value)) :=
  match lookup "notes" ps with
  | JStr s =>
      if truthy (JStr s)
      then assign "notes" (JStr (Str.slice_first 1000 s)) ps
      else ps
  | _ => ps
  end.

Definition sanitize_props (text : string) (ps : list (string * value)) :=
  trim_notes (pseudonymize text (drop_identifiers ps)).

(** The string form of the [abha_id] of some properties, as the
    sanitizer takes it: of a truthy [abha_id] only (the empty text stands
    for the string form that is not taken). *)
Definition abha_text (ps : list (string * value)) : outcome string :=
  if truthy (lookup "abha_id" ps)
  then ToString (lookup "abha_id" ps)
  else Ret "".

(** The strings of the elements of an array, as [ToString] joins them. *)
Fixpoint element_strings (l : list value) : outcome (list string) :=
  match l with
  | [] => Ret []
  | e :: rest =>
      obind (match e with
             | JUndef | JNull => Ret ""
             | _ => ToString e
             end)
        (fun p => obind (element_strings rest) (fun ps => Ret (p :: ps)))
  end.

(** The [abha_id] the sanitizer sees: that of the serialised copy. *)
Definition abha_id_of (raw : value) : value :=
  get_opt (json_copy raw) "abha_id".

(** Sanitizing twice. *)
Definition sanitize_twice (raw : value) : outcome value :=
  obind (sanitizePayload raw) sanitizePayload.

End SanitizerVocabulary.

(** *** zod *)

(** The element-wise parse of an array and the key-wise parse of an
    object, as [Zod.safeParse] runs them. *)
Fixpoint parse_items (elem : Zod.schema) (l : list value)
  : option (list value) :=
  match l with
  | [] => Some []
  | x :: rest =>
      match Zod.safeParse elem x, parse_items elem rest with
      | Some y, Some ys => Some (y :: ys)
      | _, _ => None
      end
  end.

Fixpoint parse_fields (props : list (string * value))
    (sh : list (string * Zod.schema)) : option (list (string * value)) :=
  match sh with
  | [] => Some []
  | (k, sk) :: rest =>
      match Zod.safeParse sk (lookup k props), parse_fields props rest with
      | Some JUndef, Some out =>
          Some (if has_key k props then (k, JUndef) :: out else out)
      | Some y, Some out => Some ((k, y) :: out)
      | _, _ => None
      end
  end.

(** Induction on a schema that reaches the schemas of a shape. *)
Section schema_induction.
Variable Q : Zod.schema -> Prop.
Hypothesis HString : Q Zod.ZString.
Hypothesis HNumber : forall checks, Q (Zod.ZNumber checks).
Hypothesis HBoolean : Q Zod.ZBoolean.
Hypothesis HAny : Q Zod.ZAny.
Hypothesis HArray : forall elem, Q elem -> Q (Zod.ZArray elem).
Hypothesis HObject :
  forall shape, Forall (fun ks => Q (snd ks)) shape -> Q (Zod.ZObject shape).
Hypothesis HOptional : forall inner, Q inner -> Q (Zod.ZOptional inner).

Fixpoint schema_nested_ind (s : Zod.schema) : Q s :=
  match s with
  | Zod.ZString => HString
  | Zod.ZNumber checks => HNumber checks
  | Zod.ZBoolean => HBoolean
  | Zod.ZAny => HAny
  | Zod.ZArray elem => HArray elem (schema_nested_ind elem)
  | Zod.ZObject shape =>
      HObject shape
        ((fix go (l : list (string * Zod.schema))
            : Forall (fun ks => Q (snd ks)) l :=
            match l with
            | [] => Forall_nil _
            | ks :: r => Forall_cons ks (schema_nested_ind (snd ks)) (go r)
            end) shape)
  | Zod.ZOptional inner => HOptional inner (schema_nested_ind inner)
  end.
End schema_induction.

(** [trimmed d v]: [d] is the document [v] with some object keys left
    out, at any depth; every value that remains is the value of [v]. *)
Inductive trimmed : value -> value -> Prop :=
| trimmed_same : forall v, trimmed v v
| trimmed_array : forall ds vs,
    Forall2 trimmed ds vs -> trimmed (JArr ds) (JArr vs)
| trimmed_object : forall dprops vprops,
    Forall (fun kd => trimmed (snd kd) (lookup (fst kd) vprops)) dprops ->
    trimmed (JObj dprops) (JObj vprops).

(** How many predictions a flat (legacy) document lists. *)
Definition predictions_count (doc : value) : nat :=
  match get_opt doc "predictions" with
  | JArr items => List.length items
  | _ => 0
  end.

(** The [probability_pct] of the predictions of one part ([baseline] or
    [projection]) of a document, in order. *)
Definition probabilities (part : string) (doc : value) : list value :=
  match get_opt (get_opt doc part) "predictions" with
  | JArr items => map (fun p => get_opt p "probability_pct") items
  | _ => []
  end.

(** [x] already has one decimal place: rounding it as the flat-schema
    revision does gives [x] back. *)
Definition has_one_decimal (x : float) : bool :=
  PrimFloat.Leibniz.eqb (Num.round_1_decimal x) x.

(** *** The service *)

Section ServiceVocabulary.
Context {P : Platform} {S : Type} {Svc : Service S}.

(** The adapter call of [V2.analyzeMerged], with its retries. *)
Definition V2_fetch (userId : string) (mergedPayload : value)
    (healthDatabases : option (list string)) (options : value)
  : M S value :=
  Simple.withRetries
    (analyzeWithGroq
       {| arg_userId := userId;
          arg_mergedData := mergedPayload;
          arg_healthDatabases := healthDatabases;
          arg_model := get_opt options "model";
          arg_temperature := get_opt options "temperature";
          arg_max_tokens := get_opt options "max_tokens" |})
    3 1000.

(** The adapter call of [Flat.analyzeMerged], with its retries. *)
Definition Flat_fetch (adapter : adapter_args -> M S value)
    (userId : string) (mergedPayload : value)
    (healthDatabases : option (list string)) (options : value)
  : M S value :=
  Classifying.withRetries
    (adapter
       {| arg_userId := userId;
          arg_mergedData := mergedPayload;
          arg_healthDatabases := healthDatabases;
          arg_model :=
            or_else (get_opt options "model")
              (or_else env_GROQ_MODEL (JStr "llama-3.2-70b-versatile"));
          arg_temperature :=
            or_else (get_opt options "temperature")
              (JNum 0x1.6666666666666p-1);
          arg_max_tokens :=
            or_else (get_opt options "max_tokens") (JNum 1200) |})
    3 500.

(** The timestamp of an upgraded document: the legacy one, or the clock. *)
Definition legacy_stamp (legacyData : value) (s : S) : value :=
  if truthy (get_opt legacyData "generated_on")
  then get_opt legacyData "generated_on"
  else JStr (toISOString_now s).

(** The document [Flat.validate] returns for validated [fields]: the
    predictions rounded, and the two metadata strings filled in when
    they are empty. *)
Definition flat_result (fields : list (string * value)) (s : S) : value :=
  let f1 :=
    assign "predictions"
      (array_map Flat.round_prediction (lookup "predictions" fields))
      fields in
  let f2 :=
    assign "model_version"
      (or_else (lookup "model_version" f1)
         (or_else env_GROQ_MODEL (JStr "llama-3.2-70b-versatile"))) f1 in
  JObj (assign "generated_on"
          (if truthy (lookup "generated_on" f2)
           then lookup "generated_on" f2
           else JStr (toISOString_now s)) f2).

End ServiceVocabulary.

(** The [probability_pct] of the predictions of a flat document, in order. *)
Definition flat_probabilities (doc : value) : list value :=
  match get_opt doc "predictions" with
  | JArr items => map (fun p => get_opt p "probability_pct") items
  | _ => []
  end.

(** A probability, rounded to one decimal place when it is a number. *)
Definition rounded (v : value) : value :=
  match v with
  | JNum x => JNum (Num.round_1_decimal x)
  | other => other
  end.

(** *** The retry wrappers *)

Section RetryVocabulary.
Context {S T : Type}.

(** [fn] with a counter of its invocations beside the state. *)
Definition counting (fn : M S T) : M (S * nat) T :=
  fun sn =>
    let '(r, s1, t) := fn (fst sn) in
    (r, (s1, Datatypes.S (snd sn)), t).

(** [fn] awaits no timer of its own. *)
Definition never_sleeps (fn : M S T) : Prop :=
  forall s, sleeps (snd (fn s)) = [].

(** From the state [s], [fn] fails [k] times, with a transient error
    each time, and then returns [v] in the state [s']. *)
Inductive fails_then_succeeds (fn : M S T) : nat -> S -> T -> S -> Prop :=
| succeeds_at_once : forall s v s' t,
    fn s = (Ret v, s', t) ->
    fails_then_succeeds fn 0 s v s'
| fails_once_more : forall k s e s1 t v s',
    fn s = (Throw e, s1, t) ->
    Classifying.transient e = Ret true ->
    fails_then_succeeds fn k s1 v s' ->
    fails_then_succeeds fn (Datatypes.S k) s v s'.

(** Whatever the state, [fn] throws (a value that is not [undefined] or
    [null]). *)
Definition always_fails (fn : M S T) : Prop :=
  forall s, exists e s1 t, fn s = (Throw e, s1, t) /\ nullish e = false.

End RetryVocabulary.

(** The delays [base * 2^j] for [j = i, ..., i + k - 1]. *)
Definition backoff (base : Z) (i k : nat) : list Z :=
  map (fun j => (base * 2 ^ Z.of_nat j)%Z) (seq i k).

(** A non-transient error, in the words of the specification: its
    status is present, is a number other than 429 and below 500, and its
    message does not speak of a rate limit. *)
Definition non_transient (e : value) : Prop :=
  exists x : float,
    Classifying.status_of e = JNum x
    /\ truthy (JNum x) = true
    /\ (x =? 429)%float = false
    /\ (x <? 500)%float = true
    /\ exists inc : value,
         Classifying.message_includes_rate_limit e = Ret inc
         /\ truthy inc = false.

(** The HTTP status of an error: [err.response.status], or
    [err.status]. *)
Definition http_status (e : value) : value :=
  or_else (get_opt (get_opt e "response") "status") (get_opt e "status").

(** A transient error, in the words of the specification: an HTTP status
    of 500 or more, the HTTP status 429, or no status code at all (a
    failure of the network). *)
Definition transient_in_words (e : value) : bool :=
  Classifying.is_5xx (http_status e)
  || Classifying.is_429 (http_status e)
  || nullish (http_status e).

(** *** The batch *)

(** What a settled call leaves in the results: its value, or [null]. *)
Definition nullable (o : outcome value) : value :=
  match o with
  | Ret v => v
  | Throw _ => JNull
  end.

(** [o] is the outcome of [analyzeMerged] on the request [req], run in
    some state of the world. *)
Definition settled_by {P : Platform} {S : Type} {Svc : Service S}
    (adapter : adapter_args -> M S value)
    (req : analysis_request) (o : outcome value) : Prop :=
  exists (s1 s2 : S) (t : list event),
    Flat.analyzeMerged adapter (userId req) (mergedPayload req)
      (healthDatabases req) JUndef s1
    = (o, s2, t).

(** *** Prose around a JSON object *)

(** [c] does not occur in [s]. *)
Fixpoint free_of (c : ascii) (s : string) : bool :=
  match s with
  | EmptyString => true
  | String a r => negb (Ascii.eqb a c) && free_of c r
  end.

(** A text that starts with an opening brace and ends with a closing one. *)
Definition braced (obj : string) : Prop :=
  exists middle : string, obj = String "{" (middle ++ "}").

(* ================================================================== *)
(** ** Concrete runs *)
(* ================================================================== *)

Module Examples.
Import Reference.

(** A completion whose first choice carries the text [content]. *)
Definition completion (content : string) : value :=
  JObj [("choices",
         JArr [JObj [("message", JObj [("content", JStr content)])]])].

Definition payload : value :=
  JObj [("baselineRecords", JArr []);
        ("lifestyle", JObj [("smoker", JBool true)])].

(** A legacy response that carries its two metadata strings. *)
Definition legacy_text : string :=
  dq "{'model_version':'m1','generated_on':'2024-05-01','predictions':[{'condition':'Type 2 Diabetes','years':2,'probability_pct':40}]}".

(** A legacy response as the model writes it: its predictions, and
    nothing else. *)
Definition plain_legacy_text : string :=
  dq "{'predictions':[{'condition':'Type 2 Diabetes','years':2,'probability_pct':40}]}".

(** A legacy response with a free-form [explainability]. *)
Definition legacy_freeform_text : string :=
  dq "{'predictions':[{'condition':'Type 2 Diabetes','years':2,'probability_pct':40},{'condition':'Hypertension','years':5,'probability_pct':-1}],'explainability':'bmi and hba1c'}".

(** A current-shape response: one projection prediction, no baseline. *)
Definition current_text : string :=
  dq "{'model_version':'m2','generated_on':'2024-05-01','projection':{'predictions':[{'condition':'COPD','years':10,'probability_pct':40.25}]},'note':'extra'}".

(** Two responses that fit neither shape. *)
Definition invalid_text_a : string := dq "{'summary': true}".
Definition invalid_text_b : string := dq "{'summary': false}".

(** A JSON object in prose that has a closing brace of its own. *)
Definition prose_text : string :=
  dq "Here is the analysis: {'summary':'ok'} (ends with the closing })".

(** Errors of the service. *)
Definition bad_request : value :=
  JObj [("status", JNum 400); ("message", JStr "Bad Request")].
Definition unavailable : value :=
  JObj [("status", JNum 503); ("message", JStr "Service Unavailable")].
Definition too_many : value :=
  JObj [("status", JNum 429); ("message", JStr "Too Many Requests")].

Definition a_request : request :=
  {| req_payload := payload;
     req_healthDatabases := ["WHO"];
     req_model := JStr "llama-3.3-70b-versatile";
     req_max_tokens := JNum 1200;
     req_temperature := JNum 0 |}.

(** The operation the retry wrappers are run on: one call to the service. *)
Definition one_call : M (list (outcome value)) value :=
  call_service a_request.

Definition requests_of_batch : list analysis_request :=
  [ {| userId := "u1"; mergedPayload := payload; healthDatabases := None |};
    {| userId := "u2"; mergedPayload := JNull; healthDatabases := None |};
    {| userId := "u3"; mergedPayload := payload; healthDatabases := None |} ].

End Examples.

Local Open Scope string_scope.
Local Open Scope list_scope.

(* ================================================================== *)
(** ** More vocabulary: runs of a failing operation *)
(* ================================================================== *)

Section FailureVocabulary.
Context {S T : Type}.

(** From the state [s], [fn] fails [n] times in a row ([n] at least one),
    each time with an error that satisfies [ok]; [e] is the last of these
    errors and [s'] the state the last failure leaves. *)
Inductive keeps_failing (ok : value -> Prop) (fn : M S T)
  : nat -> S -> value -> S -> Prop :=
| fails_last : forall s e s1 t,
    fn s = (Throw e, s1, t) ->
    ok e ->
    keeps_failing ok fn 1 s e s1
| fails_again : forall k s e s1 t e' s',
    fn s = (Throw e, s1, t) ->
    ok e ->
    keeps_failing ok fn k s1 e' s' ->
    keeps_failing ok fn (Datatypes.S k) s e' s'.

(** From the state [s], [fn] fails [k] times, each time with an error
    that satisfies [ok], and then returns [v] in the state [s']. *)
Inductive fails_then_returns (ok : value -> Prop) (fn : M S T)
  : nat -> S -> T -> S -> Prop :=
| returns_at_once : forall s v s' t,
    fn s = (Ret v, s', t) ->
    fails_then_returns ok fn 0 s v s'
| fails_before : forall k s e s1 t v s',
    fn s = (Throw e, s1, t) ->
    ok e ->
    fails_then_returns ok fn k s1 v s' ->
    fails_then_returns ok fn (Datatypes.S k) s v s'.

End FailureVocabulary.

(** The errors the classifying wrapper retries. *)
Definition retried (e : value) : Prop := Classifying.transient e = Ret true.

(** The thrown values that have a [message] to read: all but [undefined]
    and [null]. *)
Definition readable (e : value) : Prop := nullish e = false.

(* ================================================================== *)
(** ** More vocabulary: what the adapter sends *)
(* ================================================================== *)

Section AdapterVocabulary.
Context {P : Platform}.

(** The request [analyzeWithGroq] makes for [args], once the payload is
    sanitized: the parameters given, or their defaults. *)
Definition adapter_request (args : adapter_args) (sanitized : value)
  : request :=
  {| req_payload := sanitized;
     req_healthDatabases :=
       match arg_healthDatabases args with
       | Some dbs => dbs
       | None => ["NHANES"; "PubMed"; "WHO"; "ADA"; "AHA"]
       end;
     req_model :=
       default_to (or_else env_GROQ_MODEL (JStr "llama-3.3-70b-versatile"))
         (arg_model args);
     req_max_tokens := default_to (JNum 1200) (arg_max_tokens args);
     req_temperature := default_to (JNum 0) (arg_temperature args) |}.

End AdapterVocabulary.

(** A line written to the console. *)
Definition console_line (e : event) : Prop :=
  match e with
  | EvConsole _ _ _ => True
  | _ => False
  end.

(** A line written to the console or to the logger. *)
Definition written_line (e : event) : Prop :=
  match e with
  | EvConsole _ _ _ | EvLog _ _ _ => True
  | _ => False
  end.

(** An error object as [new Error(...)] and the engine make them: a name
    and a message, and no status of any kind. *)
Definition plain_error (e : value) : Prop :=
  exists name msg : string, e = mkError name msg.

(** *** The steps of [analyzeWithGroq] *)

Section AdapterSteps.
Context {P : Platform} {S : Type} {Svc : Service S}.
Local Open Scope io_scope.

(** [firstChoice?.message?.content ?? firstChoice?.message ?? null] *)
Definition output_content (chatCompletion : value) : value :=
  let firstChoice := first_opt (get_opt chatCompletion "choices") in
  coalesce (get_opt (get_opt firstChoice "message") "content")
    (coalesce (get_opt firstChoice "message") JNull).

(** What the [try] block does with the content of the completion. *)
Definition use_content (model outputContent : value) : M S value :=
  if truthy outputContent && typeof_object outputContent
     && negb (is_array outputContent)
  then ensure_metadata model outputContent
  else
    match outputContent with
    | JStr outputText =>
        if negb (truthy outputContent)
        then throw (Error "Groq returned no textual output")
        else
          parsed <- lift (parse_output outputText) ;;
          ensure_metadata model parsed
    | _ => throw (Error "Groq returned no textual output")
    end.

(** The version tag: the version the document has or, without one, the
    name of the model and [-v1]. *)
Definition version_tag (model mv : value) : outcome value :=
  if truthy mv then Ret mv
  else obind (ToString model) (fun m => Ret (JStr (m ++ "-v1"))).

(** The [try] block after the call to the service. *)
Definition read_completion (model chatCompletion : value) : M S value :=
  usage <- lift (get chatCompletion "usage") ;;
  (if truthy usage
   then console "log" "Groq usage:"
          (JObj [("prompt_tokens", get_opt usage "prompt_tokens");
                 ("completion_tokens", get_opt usage "completion_tokens");
                 ("total_tokens", get_opt usage "total_tokens")])
   else ret tt) ;;
  use_content model (output_content chatCompletion).

(** The [catch] block. *)
Definition on_error (error : value) : M S value :=
  console "error" "Groq API error:" error ;;
  msg <- lift (lowercase_message error) ;;
  if Str.includes "rate limit" msg || Str.includes "quota" msg
  then throw (Error "Groq rate limit or quota error — try again later.")
  else if Str.includes "model_not_found" msg
          || Str.includes "does not exist" msg
          || Str.includes "not supported" msg
  then
    message <- lift (ToString (get_opt error "message")) ;;
    throw (Error ("Model error from Groq: " ++ message))
  else throw error.

End AdapterSteps.

(** A document that has its two metadata fields: a truthy
    [model_version], and a [generated_on] that is truthy or read from the
    clock. *)
Definition has_metadata {S : Type} {Svc : Service S} (out : value) : Prop :=
  exists props : list (string * value),
    out = JObj props
    /\ truthy (lookup "model_version" props) = true
    /\ has_key "generated_on" props = true
    /\ (truthy (lookup "generated_on" props) = true
        \/ exists s : S,
             lookup "generated_on" props = JStr (toISOString_now s)).

(* ================================================================== *)
(** ** More vocabulary: what a run sends and awaits *)
(* ================================================================== *)

(** Whatever the state, [fn] sends at most one request to the service,
    a request that satisfies [Q], and awaits no timer. *)
Definition calls_at_most_once {S T : Type} (Q : request -> Prop)
    (fn : M S T) : Prop :=
  forall s : S,
    List.length (requests (snd (fn s))) <= 1
    /\ Forall Q (requests (snd (fn s)))
    /\ sleeps (snd (fn s)) = [].

(** A request that carries the sanitized copy of [mergedPayload], which
    has no [name], [email] or [phone] at its top level. *)
Definition carries_sanitized {P : Platform} (mergedPayload : value)
    (r : request) : Prop :=
  sanitizePayload mergedPayload = Ret (req_payload r)
  /\ owns (req_payload r) "name" = false
  /\ owns (req_payload r) "email" = false
  /\ owns (req_payload r) "phone" = false.

(** A request that [analyzeWithGroq] makes for [args]: it carries the
    sanitized payload, and the parameters of [args] or their defaults. *)
Definition sent_for {P : Platform} (args : adapter_args) (r : request)
  : Prop :=
  carries_sanitized (arg_mergedData args) r
  /\ r = adapter_request args (req_payload r).

(* ================================================================== *)
(** ** More vocabulary: documents and percentages *)
(* ================================================================== *)

(** The schema of the [explainability] block of the current shape. *)
Definition explainability_schema : Zod.schema :=
  Zod.ZObject [
    ("top_features",
     Zod.ZArray (Zod.ZObject [("feature", Zod.ZString);
                              ("impact", Zod.ZNumber [])]))
  ].

(** The percentage [k / 10], for an integer number [k] of tenths. *)
Definition tenths (k : Z) : float := (Num.of_Z k / 10)%float.

Local Open Scope string_scope.
Local Open Scope list_scope.

(* ================================================================== *)
(** ** Calls in flight: [await] and [Promise.allSettled] *)
(* ================================================================== *)

(** An asynchronous call runs without interruption from one [await] to
    the next, and other calls may run while it waits.  A call in flight
    is settled, with a value or a thrown error, or it has a piece to run
    up to its next [await] and goes on from the outcome of that piece. *)
Inductive task (S A : Type) : Type :=
| Settled (r : outcome A)
| Running (X : Type) (piece : M S X) (next : outcome X -> task S A).
Arguments Settled {S A} r.
Arguments Running {S A X} piece next.

(** One piece of a call, as it ran: the state it started in, the events
    it caused and the state it left. *)
Definition piece_run (S : Type) : Type := (S * list event * S)%type.

(** The pieces a call ran, in order, and the outcome it settled with. *)
Inductive runs_as {S A : Type}
  : task S A -> list (piece_run S) -> outcome A -> Prop :=
| run_settled (r : outcome A) : runs_as (Settled r) [] r
| run_piece (X : Type) (piece : M S X) (next : outcome X -> task S A)
    (s s1 : S) (r : outcome X) (t1 : list event)
    (rest : list (piece_run S)) (o : outcome A) :
    piece s = (r, s1, t1) ->
    runs_as (next r) rest o ->
    runs_as (Running piece next) ((s, t1, s1) :: rest) o.

(** A step of a run of several calls: the piece of the call at index
    [who] of the array of requests, or a step of the loop around the
    calls. *)
Record step (S : Type) : Type := {
  who : option nat;
  before : S;
  events : list event;
  after : S
}.
Arguments who {S} _.
Arguments before {S} _.
Arguments events {S} _.
Arguments after {S} _.

(** Each step of the log starts in the state the step before it left,
    the first one in [s]. *)
Fixpoint linear {S : Type} (s : S) (log : list (step S)) : Prop :=
  match log with
  | [] => True
  | st :: rest => before st = s /\ linear (after st) rest
  end.

(** The state the log leaves. *)
Fixpoint last_state {S : Type} (s : S) (log : list (step S)) : S :=
  match log with
  | [] => s
  | st :: rest => last_state (after st) rest
  end.

(** The events of the log, in order. *)
Definition events_of {S : Type} (log : list (step S)) : list event :=
  flat_map events log.

Definition is_of {S : Type} (i : nat) (st : step S) : bool :=
  match who st with
  | Some j => (j =? i)%nat
  | None => false
  end.

(** The pieces of the call of request [i] in the log, in order. *)
Definition pieces_of {S : Type} (i : nat) (log : list (step S))
  : list (piece_run S) :=
  map (fun st => (before st, events st, after st)) (filter (is_of i) log).

(** The pieces of the log belong to the requests from index [lo] to
    index [hi - 1]. *)
Definition tagged_in {S : Type} (lo hi : nat) (log : list (step S)) : Prop :=
  Forall (fun st => match who st with
                    | Some j => (lo <= j < hi)%nat
                    | None => True
                    end) log.

Module Async.

Section Tasks.
Context {S : Type}.

(** [await c], for a call [c] made of one piece. *)
Definition await {A} (c : M S A) : task S A :=
  Running c (fun r => Settled r).

(** [const a = await t; f a] *)
Fixpoint and_then {A B} (t : task S A) (f : A -> task S B) : task S B :=
  match t with
  | Settled (Ret a) => f a
  | Settled (Throw e) => Settled (Throw e)
  | Running piece next => Running piece (fun r => and_then (next r) f)
  end.

(** [try { return await t } catch (err) { h err }] *)
Fixpoint catch {A} (t : task S A) (h : value -> task S A) : task S A :=
  match t with
  | Settled (Ret a) => Settled (Ret a)
  | Settled (Throw e) => h e
  | Running piece next => Running piece (fun r => catch (next r) h)
  end.

(** The call run with no other call in between: one piece after the
    other. *)
Fixpoint alone {A} (t : task S A) : M S A :=
  match t with
  | Settled r => lift r
  | Running piece next =>
      fun s =>
        let '(r, s1, t1) := piece s in
        let '(o, s2, t2) := alone (next r) s1 in
        (o, s2, t1 ++ t2)
  end.

(** The call at index [i] of the array runs its next piece; a call that
    is settled, or an index outside the array, runs nothing. *)
Fixpoint resume {A} (i : nat) (ts : list (task S A)) (s : S)
  : list (task S A) * S * list event :=
  match ts, i with
  | [], _ => ([], s, [])
  | Running piece next :: rest, O =>
      let '(r, s1, t1) := piece s in (next r :: rest, s1, t1)
  | Settled r :: rest, O => (ts, s, [])
  | t :: rest, Datatypes.S i' =>
      let '(rest', s1, t1) := resume i' rest s in (t :: rest', s1, t1)
  end.

(** The calls run their pieces in the order of the schedule, which names
    the call that goes on at each turn. *)
Fixpoint interleave {A} (schedule : list nat) (ts : list (task S A)) (s : S)
  : list (task S A) * S * list event :=
  match schedule with
  | [] => (ts, s, [])
  | i :: later =>
      let '(ts1, s1, t1) := resume i ts s in
      let '(ts2, s2, t2) := interleave later ts1 s1 in
      (ts2, s2, t1 ++ t2)
  end.

(** [await Promise.allSettled(ts)]: the calls are in flight together and
    their pieces interleave as the schedule says; the calls that are not
    settled when the schedule ends are run to their ends, in array
    order.  The outcomes come in array order, and nothing is thrown.
    (The engine starts the calls in array order; a schedule may do
    otherwise, so that the schedules cover more runs than the engine
    makes.) *)
Definition allSettled {A} (schedule : list nat) (ts : list (task S A))
  : M S (list (outcome A)) :=
  fun s =>
    let '(ts1, s1, t1) := interleave schedule ts s in
    let '(rs, s2, t2) := Flat.allSettled (map alone ts1) s1 in
    (rs, s2, t1 ++ t2).

End Tasks.

(** *** [analyzeService.ts], flat-schema revision, with its [await]s *)

Section analyzeMerged.
Context {P : Platform} {S : Type} {Svc : Service S}.
(** The adapter this revision imports, as a call in flight. *)
Variable analyzeWithGroq : adapter_args -> task S value.
Local Open Scope io_scope.

(** [withRetries]: the [for] loop from counter [i] with [n] iterations
    left.  [await fn()] runs the pieces of the operation; the warning and
    the timer are one piece, and the loop goes on when the timer fires. *)
Fixpoint withRetries_from {T} (fn : task S T) (baseDelayMs : Z)
    (i : nat) (n : nat) (lastErr : value) : task S T :=
  match n with
  | O => Settled (Throw lastErr)
  | Datatypes.S n' =>
      catch fn (fun err =>
        match Classifying.transient err with
        | Throw e => Settled (Throw e)
        | Ret true =>
            let delay := (baseDelayMs * 2 ^ Z.of_nat i)%Z in
            Running
              (logger "warn"
                 (JObj [("err", err); ("attempt", JNum (Num.of_nat (i + 1)));
                        ("delay", JNum (Num.of_Z delay))])
                 "Transient error from analyzeWithGroq — retrying" ;;
               sleep delay)
              (fun _ => withRetries_from fn baseDelayMs (i + 1) n' err)
        | Ret false =>
            (* non-transient -> rethrow *)
            Settled (Throw err)
        end)
  end.

Definition withRetries {T} (fn : task S T) (retries : nat) (baseDelayMs : Z)
  : task S T :=
  withRetries_from fn baseDelayMs 0 retries JNull.

(** [analyzeMerged]: the guard, the adapter under [withRetries], and the
    validation of its result, which runs in one piece once the adapter
    has answered. *)
Definition analyzeMerged (userId : string) (mergedPayload : value)
    (healthDatabases : option (list string)) (options : value)
  : task S value :=
  (* Defensive: ensure we have something to send *)
  if negb (truthy mergedPayload)
  then Settled (Throw (Error "mergedPayload is required"))
  else
    (* Call Groq adapter with retries *)
    and_then
      (withRetries
         (analyzeWithGroq
            {| arg_userId := userId;
               arg_mergedData := mergedPayload;
               arg_healthDatabases := healthDatabases;
               arg_model :=
                 or_else (get_opt options "model")
                   (or_else env_GROQ_MODEL
                      (JStr "llama-3.2-70b-versatile"));
               arg_temperature :=
                 or_else (get_opt options "temperature")
                   (JNum 0x1.6666666666666p-1 (* 0.7 *));
               arg_max_tokens :=
                 or_else (get_opt options "max_tokens")
                   (JNum 1200) |})
         3 500)
      (fun rawResult => await (Flat.validate userId rawResult)).

(** The [for] loop of [analyzeBatch] from index [i]; the calls of the
    batch that starts at index [i] interleave as [schedule i] says.
    [fuel] bounds the number of iterations, and [None] is a loop that is
    still running when the fuel is spent. *)
Fixpoint analyzeBatch_from (schedule : nat -> list nat) (fuel : nat)
    (analyses : list analysis_request)
    (batchSize : nat) (delayMs : Z) (i : nat) (results : list value)
  : M S (option (list value)) :=
  if (i <? List.length analyses)%nat then
    match fuel with
    | O => ret None
    | Datatypes.S fuel' =>
        let batch := firstn batchSize (skipn i analyses) in
        (* Process batch in parallel *)
        batchResults <-
          allSettled (schedule i)
            (map (fun r =>
                    analyzeMerged (userId r) (mergedPayload r)
                      (healthDatabases r) JUndef) batch) ;;
        (* Collect results and handle failures *)
        results <- Flat.collect batch batchResults results ;;
        (* Add delay between batches to respect rate limits *)
        (if (i + batchSize <? List.length analyses)%nat
         then sleep delayMs else ret tt) ;;
        analyzeBatch_from schedule fuel' analyses batchSize delayMs
          (i + batchSize) results
    end
  else ret (Some results).

Definition analyzeBatch (schedule : nat -> list nat) (fuel : nat)
    (analyses : list analysis_request)
    (batchSize : nat) (delayMs : Z) : M S (option (list value)) :=
  analyzeBatch_from schedule fuel analyses batchSize delayMs 0 [].

End analyzeMerged.

(** *** [groqAdapter.ts] with its [await] *)

Section Adapter.
Context {P : Platform} {S : Type} {Svc : Service S}.
Local Open Scope io_scope.

(** [analyzeWithGroq]: the payload is sanitized and the request is made
    before the call waits; what the [try] block does with the
    completion, and the [catch] block, run when the service has
    answered. *)
Definition analyzeWithGroq (args : adapter_args) : task S value :=
  match sanitizePayload (arg_mergedData args) with
  | Throw e => Settled (Throw e)
  | Ret sanitized =>
      let request := adapter_request args sanitized in
      Running (call_service request) (fun answer =>
        await (try_catch
                 (chatCompletion <- lift answer ;;
                  read_completion (req_model request) chatCompletion)
                 on_error))
  end.

End Adapter.

End Async.

(** The call [analyzeBatch] makes for a request of the array. *)
Definition call_for {P : Platform} {S : Type} {Svc : Service S}
    (adapter : adapter_args -> task S value) (req : analysis_request)
  : task S value :=
  Async.analyzeMerged adapter (userId req) (mergedPayload req)
    (healthDatabases req) JUndef.

Local Open Scope string_scope.
Local Open Scope list_scope.

(* ================================================================== *)
(** ** [analyzeMerged], first revision: the rules on HbA1c and BMI *)
(* ================================================================== *)

(** The revision of [analyzeService.ts] that calls no model: two rules
    on the last HbA1c and on the body-mass index of the merged payload. *)
Module Toy.

(** [Math.min(a, b)]: [NaN] when an argument is [NaN], and [-0] below
    [+0]. *)
Definition Math_min (a b : float) : float :=
  if PrimFloat.is_nan a || PrimFloat.is_nan b then PrimFloat.nan
  else if (a <? b)%float then a
  else if (b <? a)%float then b
  else if PrimFloat.get_sign a then a else b.

Section analyzeMerged.
Context {P : Platform} {S : Type} {Svc : Service S}.

(** The conversion of a text to a number (StringToNumber of ECMA-262),
    which the engine provides. *)
Variable StringToNumber : string -> float.

(** [Number(v)]: an array or an object is converted through its string
    form, which an object that owns a [toString] key does not have (see
    [ToString]): [Number] throws the TypeError of the conversion. *)
Definition ToNumber (v : value) : outcome float :=
  match v with
  | JUndef => Ret PrimFloat.nan
  | JNull => Ret PrimFloat.zero
  | JBool true => Ret PrimFloat.one
  | JBool false => Ret PrimFloat.zero
  | JNum x => Ret x
  | JStr s => Ret (StringToNumber s)
  | JArr _ | JObj _ => obind (ToString v) (fun s => Ret (StringToNumber s))
  end.

(** The prediction of the first rule, for [x = Number(lastHbA1c)]. *)
Definition diabetes (x : float) : value :=
  JObj [("condition", JStr "Type 2 Diabetes");
        ("years", JNum 2);
        ("probability",
         JNum (Math_min 95 (Num.Math_round ((x - 4) * 12))));
        ("preventable", JBool true);
        ("interventions",
         JArr [JStr "Reduce refined carbs";
               JStr "15–30 min walk after meals"])].

(** The prediction of the second rule, for [x = Number(bmi)]. *)
Definition cardiovascular (x : float) : value :=
  JObj [("condition", JStr "Cardiovascular Disease");
        ("years", JNum 5);
        ("probability",
         JNum (Math_min 80 (Num.Math_round ((x - 20) * 3))));
        ("preventable", JBool true);
        ("interventions",
         JArr [JStr "150 min/wk moderate exercise";
               JStr "Strength training 2x/week"])].

Definition general : value :=
  JObj [("condition", JStr "Overall Risk (general)");
        ("years", JNum 5);
        ("probability", JNum 12);
        ("preventable", JBool true);
        ("interventions",
         JArr [JStr "Maintain healthy diet"; JStr "Daily walk"])].

(** [mergedPayload?.payload?.k || mergedPayload?.k || null] *)
Definition reading (mergedPayload : value) (k : string) : value :=
  or_else (get_opt (get_opt mergedPayload "payload") k)
    (or_else (get_opt mergedPayload k) JNull).

Local Open Scope outcome_scope.

(** [if (v && Number(v) >= floor) predictions.push(rule(Number(v)))] *)
Definition push_if (v : value) (floor : float) (rule : float -> value)
    (predictions : list value) : outcome (list value) :=
  if truthy v then
    x <- ToNumber v ;;
    if (floor <=? x)%float
    then x <- ToNumber v ;; Ret (predictions ++ [rule x])
    else Ret predictions
  else Ret predictions.

(** The list [predictions] after the three [if]s. *)
Definition predictions_of (lastHbA1c bmi : value) : outcome (list value) :=
  let predictions := [] in
  predictions <- push_if lastHbA1c 6.5 diabetes predictions ;;
  predictions <- push_if bmi 28 cardiovascular predictions ;;
  Ret (if (List.length predictions =? 0)%nat
       then predictions ++ [general] else predictions).

(** [v ? Number(v) : 0] *)
Definition impact (v : value) : outcome float :=
  if truthy v then ToNumber v else Ret 0%float.

Local Open Scope io_scope.

Definition analyzeMerged (userId : string) (mergedPayload : value)
  : M S value :=
  let lastHbA1c := reading mergedPayload "last_hba1c" in
  let bmi := reading mergedPayload "bmi" in
  predictions <- lift (predictions_of lastHbA1c bmi) ;;
  generated_on <- now ;;
  impact_hba1c <- lift (impact lastHbA1c) ;;
  impact_bmi <- lift (impact bmi) ;;
  ret (JObj [
    ("model_version", JStr "toy-v1");
    ("generated_on", generated_on);
    ("predictions", JArr predictions);
    ("explainability",
     JObj [("top_features",
            JArr [JObj [("feature", JStr "hbA1c");
                        ("impact", JNum impact_hba1c)];
                  JObj [("feature", JStr "bmi");
                        ("impact", JNum impact_bmi)]])])
  ]).

End analyzeMerged.
End Toy.

(** The [probability] of each prediction of a document of the first
    revision, in order. *)
Definition toy_probabilities (doc : value) : list value :=
  match get_opt doc "predictions" with
  | JArr items => map (fun p => get_opt p "probability") items
  | _ => []
  end.

Local Open Scope string_scope.
Local Open Scope list_scope.

(* ================================================================== *)
(** ** The merged payloads the routes build *)
(* ================================================================== *)

(** [routes/analyze.ts], the revision that validates the body with zod:
    the payload handed to [analyzeMerged]. *)
Module Route.

(** [{ source: d.source, payload: d.payload, createdAt: d.createdAt }],
    for a document [d] of the collection (a date is held as its ISO
    text, which is what it serialises to). *)
Definition baseline_record (d : value) : value :=
  JObj [("source", get_opt d "source");
        ("payload", get_opt d "payload");
        ("createdAt", get_opt d "createdAt")].

(** [{ baselineRecords: docs.map(...), lifestyle }] *)
Definition merged (docs : list value) (lifestyle : value) : value :=
  JObj [("baselineRecords", JArr (map baseline_record docs));
        ("lifestyle", lifestyle)].

(** What the handler does: the events of the service layer and its own
    log lines, the records it creates and the responses it sends. *)
Inductive effect : Type :=
| Inner (e : event)
| Create (doc : value)              (* HealthRecord.create(doc) *)
| Send (status : Z) (body : value). (* res.status(status).json(body) *)

(** The collection of health records: [create] returns the document it
    stored, or throws. *)
Class Store (S : Type) : Type := {
  db_create : value -> S -> outcome value * S
}.

Section handler.
Context {S : Type} {Db : Store S}.

(** A computation of the handler. *)
Definition H (A : Type) : Type := S -> outcome A * S * list effect.

Definition hret {A} (a : A) : H A := fun s => (Ret a, s, []).

Definition hbind {A B} (c : H A) (k : A -> H B) : H B :=
  fun s =>
    match c s with
    | (Ret a, s1, t1) => let '(r, s2, t2) := k a s1 in (r, s2, t1 ++ t2)
    | (Throw e, s1, t1) => (Throw e, s1, t1)
    end.

Definition hcatch {A} (c : H A) (h : value -> H A) : H A :=
  fun s =>
    match c s with
    | (Ret a, s1, t1) => (Ret a, s1, t1)
    | (Throw e, s1, t1) => let '(r, s2, t2) := h e s1 in (r, s2, t1 ++ t2)
    end.

(** A computation of the service layer, run by the handler. *)
Definition inner {A} (c : M S A) : H A :=
  fun s => let '(r, s1, t) := c s in (r, s1, map Inner t).

Definition create (doc : value) : H value :=
  fun s => let (r, s1) := db_create doc s in (r, s1, [Create doc]).

Definition send (status : Z) (body : value) : H unit :=
  fun s => (Ret tt, s, [Send status body]).

(** [analyzeMerged], as imported from the service. *)
Variable analyzeMerged :
  string -> value -> option (list string) -> M S value.
(** [process.env.OPENAI_STORE] *)
Variable env_OPENAI_STORE : value.

(** The record of an analysis, as the handler builds it. *)
Definition analysis_record (userId : string) (analysis modelVersion : value)
    (consentId : value) (ihash : string) : value :=
  JObj [("userId", JStr userId);
        ("source", JStr "analysis");
        ("payload", analysis);
        ("meta",
         JObj [("modelVersion", modelVersion);
               ("consentId", or_else consentId JNull);
               ("inputHash", JStr ihash);
               ("openaiStored",
                JBool (match env_OPENAI_STORE with
                       | JStr e => e =? "true"
                       | _ => false
                       end))])].

(** The two bodies the handler answers with. *)
Definition answer_ok (analysis : value) : value :=
  JObj [("ok", JBool true); ("analysis", analysis)].

Definition answer_failed (err_message : value) : value :=
  JObj [("ok", JBool false);
        ("error", or_else err_message (JStr "analysis failed"))].

(** The [try]/[catch] of the handler, once the body is validated, the
    records are fetched and the hash [ihash] of the merged payload is
    computed. *)
Definition analyze_and_store (userId : string) (merged_payload : value)
    (healthDatabases : option (list string)) (consentId : value)
    (ihash : string) : H unit :=
  hcatch
    (hbind (inner (analyzeMerged userId merged_payload healthDatabases))
       (fun analysis =>
     (* save analysis with meta *)
     hbind (inner (lift (get analysis "model_version"))) (fun modelVersion =>
     hbind (create (analysis_record userId analysis modelVersion consentId
                      ihash))
       (fun _ =>
     send 200 (answer_ok analysis)))))
    (fun err =>
       hbind (inner (logger "error" (JObj [("err", err)]) "analyze error"))
         (fun _ =>
       hbind (inner (lift (get err "message"))) (fun message =>
       send 500 (answer_failed message)))).

End handler.

(** The records created and the responses sent, among some effects. *)
Definition creates (t : list effect) : list value :=
  flat_map (fun e => match e with Create d => [d] | _ => [] end) t.

Definition sends (t : list effect) : list (Z * value) :=
  flat_map (fun e => match e with Send st b => [(st, b)] | _ => [] end) t.

End Route.

(** [routes/analyze.ts], the first revision: the latest record and the
    lifestyle of the request, spread into one object. *)
Module FirstRoute.

(** The decimal text of an index. *)
Definition digit (n : nat) : ascii := ascii_of_nat (48 + n).

Fixpoint index_text (fuel n : nat) (acc : string) : string :=
  match fuel with
  | O => acc
  | Datatypes.S fuel' =>
      let acc' := String (digit (n mod 10)) acc in
      if (n <? 10)%nat then acc' else index_text fuel' (n / 10) acc'
  end.

Definition index_key (n : nat) : string :=
  index_text (Datatypes.S n) n EmptyString.

Fixpoint indexed {A : Type} (f : A -> value) (i : nat) (l : list A)
  : list (string * value) :=
  match l with
  | [] => []
  | x :: rest => (index_key i, f x) :: indexed f (Datatypes.S i) rest
  end.

(** The own enumerable properties that [...v] copies: those of an
    object, the elements of an array and the code units of a string
    under their indices, and nothing of another value. *)
Definition spread (v : value) : list (string * value) :=
  match v with
  | JObj props => props
  | JArr items => indexed (fun x => x) 0 items
  | JStr s => indexed (fun u => JStr (Str.text [u])) 0 (Str.units s)
  | _ => []
  end.

(** [{ ...a, ...b }]: the properties of [a], then those of [b], which
    replace the values of the keys [a] has and come after them
    otherwise (keys are kept in the order they are written, as
    everywhere in this development). *)
Definition spread_both (a b : value) : value :=
  JObj (fold_left (fun acc kv => assign (fst kv) (snd kv) acc)
          (spread b) (spread a)).

(** [{ payload: { ...(latest?.payload || {}), ...(lifestyle || {}) } }],
    for the latest record [latest] of the user ([null] without one). *)
Definition merged (latest lifestyle : value) : value :=
  JObj [("payload",
         spread_both (or_else (get_opt latest "payload") (JObj []))
           (or_else lifestyle (JObj [])))].

End FirstRoute.

(* ================================================================== *)
(** ** The token check ([utils/jwt.ts], [authMiddleware]) *)
(* ================================================================== *)

Module Auth.

(** What a property of the payload of a token holds: a value of the
    payload, or a method the payload inherits, which is a function and
    no value of a document. *)
Inductive field : Type :=
| Data (v : value)
| Method (name : string).

(** [req.user]: [{ id, username }]. *)
Record user : Type := {
  id : field;
  username : field
}.

(** What the middleware does with a request: it hands it on, with the
    user it read from the token, or it answers. *)
Inductive verdict : Type :=
| Next (u : user)
| Respond (status : Z) (body : value).

(** [s.startsWith(p)] *)
Definition startsWith (p s : string) : bool := prefix p s.

(** [s.split(' ')]: the pieces between the spaces. *)
Fixpoint split_spaces (s : string) (piece : string) : list string :=
  match s with
  | EmptyString => [piece]
  | String c r =>
      if (c =? " ")%char then piece :: split_spaces r EmptyString
      else split_spaces r (piece ++ String c EmptyString)
  end.

Definition split (s : string) : list string := split_spaces s EmptyString.

(** [pieces[1]] *)
Definition second (pieces : list string) : value :=
  match pieces with
  | _ :: p :: _ => JStr p
  | _ => JUndef
  end.

Section authMiddleware.
(** [jwt.verify(token, secret)]: the payload of the token, or a thrown
    error. *)
Variable verify : value -> value -> outcome value.
(** [process.env.JWT_SECRET] *)
Variable env_JWT_SECRET : value.

Local Open Scope outcome_scope.

Definition no_token : value :=
  JObj [("ok", JBool false); ("error", JStr "no token")].

Definition invalid_token : value :=
  JObj [("ok", JBool false); ("error", JStr "invalid token")].

(** [payload.sub].  [jwt.verify] returns a text for a token that was
    signed over a text, and a text inherits a method of this name
    ([String.prototype.sub]); an object, an array, a number or a boolean
    has no [sub] but the one it owns. *)
Definition payload_sub (payload : value) : outcome field :=
  match payload with
  | JStr _ => Ret (Method "String.prototype.sub")
  | _ => v <- get payload "sub" ;; Ret (Data v)
  end.

(** [payload.username]: no prototype has a property of this name. *)
Definition payload_username (payload : value) : outcome field :=
  v <- get payload "username" ;; Ret (Data v).

(** The middleware on a request whose [Authorization] header is
    [authorization] ([undefined] without the header).  A header that is
    not a text has no [startsWith] to call.  [next()] is called at the
    end of the [try] block; the handlers of this server are
    asynchronous, so that nothing they throw comes back to this [try]. *)
Definition authMiddleware (authorization : value) : outcome verdict :=
  let auth := authorization in
  starts <- (if negb (truthy auth) then Ret false
             else match auth with
                  | JStr a => Ret (startsWith "Bearer " a)
                  | _ => Throw (TypeError "auth.startsWith is not a function")
                  end) ;;
  if negb starts then Ret (Respond 401 no_token)
  else
    let token :=
      match auth with
      | JStr a => second (split a)
      | _ => JUndef
      end in
    (* try *)
    match (payload <- verify token (or_else env_JWT_SECRET (JStr "changeme")) ;;
           sub <- payload_sub payload ;;
           name <- payload_username payload ;;
           Ret (Next {| id := sub; username := name |})) with
    | Ret v => Ret v
    | Throw _ => Ret (Respond 401 invalid_token)
    end.

End authMiddleware.
End Auth.

Local Open Scope string_scope.
Local Open Scope list_scope.

(* ================================================================== *)
(** ** More concrete runs *)
(* ================================================================== *)

Module MoreExamples.
Import Reference Examples.

(** A network failure: a textual code, no status. *)
Definition connection_reset : value :=
  JObj [("code", JStr "ECONNRESET"); ("message", JStr "socket hang up")].

(** The arguments of a call of the adapter. *)
Definition some_args : adapter_args :=
  {| arg_userId := "u1";
     arg_mergedData := payload;
     arg_healthDatabases := None;
     arg_model := JUndef;
     arg_max_tokens := JUndef;
     arg_temperature := JUndef |}.

(** A legacy response that fails the current shape: its [projection] is
    a text. *)
Definition legacy_document : value :=
  JObj [("projection", JStr "n/a");
        ("predictions",
         JArr [JObj [("condition", JStr "Type 2 Diabetes");
                     ("years", JNum 2);
                     ("probability_pct", JNum 40);
                     ("probability", JNum 90)]])].

(** A flat response with its metadata. *)
Definition flat_props : list (string * value) :=
  [("model_version", JStr "m1");
   ("generated_on", JStr "2024-05-01");
   ("predictions",
    JArr [JObj [("condition", JStr "Type 2 Diabetes");
                ("years", JNum 2);
                ("probability_pct", JNum 40)]])].

(** A response of the baseline/projection/deltas shape. *)
Definition current_document : value :=
  JObj [("model_version", JStr "m2");
        ("generated_on", JStr "2024-05-01");
        ("projection",
         JObj [("predictions",
                JArr [JObj [("condition", JStr "COPD");
                            ("years", JNum 10);
                            ("probability_pct", JNum 40)]])])].

(** An adapter that answers every call with the same flat document. *)
Definition steady_adapter (args : adapter_args)
  : M (list (outcome value)) value :=
  ret (JObj flat_props).

(** A collection that stores every record, and one that is down. *)
Definition storing : Route.Store (list (outcome value)) :=
  {| Route.db_create := fun doc s => (Ret doc, s) |}.

Definition store_down : Route.Store (list (outcome value)) :=
  {| Route.db_create :=
       fun doc s => (Throw (Error "connection refused"), s) |}.

(** [analyzeMerged] as the route calls it, without options. *)
Definition analyzeMerged_of_route (userId : string) (merged : value)
    (healthDatabases : option (list string))
  : M (list (outcome value)) value :=
  V2.analyzeMerged userId merged healthDatabases JUndef.

(** The latest record of a user and the lifestyle of a request. *)
Definition latest_record : value :=
  JObj [("source", JStr "lab");
        ("payload", JObj [("last_hba1c", JNum 7); ("bmi", JNum 24)])].

Definition some_lifestyle : value :=
  JObj [("bmi", JNum 31); ("last_hba1c", JNum 0)].

(** Two requests of one batch, and the two flat documents the service
    answers its first two calls with. *)
Definition two_requests : list analysis_request :=
  [ {| userId := "u1"; mergedPayload := JObj [("bmi", JNum 31)];
       healthDatabases := None |};
    {| userId := "u2"; mergedPayload := JObj [("bmi", JNum 22)];
       healthDatabases := None |} ].

Definition first_answer : string :=
  dq "{'model_version':'m1','generated_on':'2024-05-01','predictions':[{'condition':'Type 2 Diabetes','years':2,'probability_pct':40}]}".

Definition second_answer : string :=
  dq "{'model_version':'m1','generated_on':'2024-05-01','predictions':[{'condition':'Hypertension','years':5,'probability_pct':12.5}]}".

(** A schedule on which the second call of every batch runs before the
    first, and one on which the two take turns, the second call first. *)
Definition second_first (i : nat) : list nat := [1; 1; 1].

Definition taking_turns (i : nat) : list nat := [1; 0; 1; 0; 1; 0].

End MoreExamples.

Local Open Scope list_scope.
Local Open Scope string_scope.

(* ================================================================== *)
(** * Properties *)
(* ================================================================== *)

(** ** Strings *)

Module StrFacts.
Local Open Scope Z_scope.

Ltac dlia := Z.to_euclidean_division_equations; lia.

Lemma byte_char (b : Z) : 0 <= b < 256 -> Str.byte (Str.char b) = b.
Proof.
  intro H. unfold Str.byte, Str.char. rewrite N_ascii_embedding by lia. lia.
Qed.

Lemma byte_range (c : ascii) : 0 <= Str.byte c < 256.
Proof. unfold Str.byte. pose proof (N_ascii_bounded c). lia. Qed.

(** The code units of a text come back from its bytes. *)
Lemma units_text_upto (n : nat) :
  forall us, (List.length us <= n)%nat -> Forall Str.code_unit us ->
             Str.units (Str.text us) = us.
Proof.
  induction n as [|n IH]; intros us Hlen Hus.
  - destruct us; [reflexivity | simpl in Hlen; lia].
  - destruct us as [|u rest]; [reflexivity|].
    inversion Hus as [|? ? Hu Hrest]; subst. unfold Str.code_unit in Hu.
    simpl in Hlen.
    assert (IHrest : Str.units (Str.text rest) = rest)
      by (apply IH; [lia|assumption]).
    cbn [Str.text].
    destruct (u <? 128) eqn:E1;
      [apply Z.ltb_lt in E1 | apply Z.ltb_ge in E1].
    { cbn [Str.units]. cbv zeta. rewrite byte_char by dlia.
      replace (u <? 192) with true by (symmetry; apply Z.ltb_lt; dlia).
      now rewrite IHrest. }
    destruct (u <? 2048) eqn:E2;
      [apply Z.ltb_lt in E2 | apply Z.ltb_ge in E2].
    { cbn [Str.units]. cbv zeta. unfold Str.continues.
      rewrite !byte_char by dlia.
      replace (192 + u / 64 <? 192) with false
        by (symmetry; apply Z.ltb_ge; dlia).
      replace (128 <=? 128 + u mod 64) with true
        by (symmetry; apply Z.leb_le; dlia).
      replace (128 + u mod 64 <? 192) with true
        by (symmetry; apply Z.ltb_lt; dlia).
      cbn [andb negb].
      replace (192 + u / 64 <? 224) with true
        by (symmetry; apply Z.ltb_lt; dlia).
      rewrite IHrest. f_equal. dlia. }
    assert (H3 : Str.units (Str.three u (Str.text rest)) = u :: rest).
    { unfold Str.three. cbn [Str.units]. cbv zeta. unfold Str.continues.
      rewrite !byte_char by dlia.
      replace (224 + u / 4096 <? 192) with false
        by (symmetry; apply Z.ltb_ge; dlia).
      replace (128 <=? 128 + (u / 64) mod 64) with true
        by (symmetry; apply Z.leb_le; dlia).
      replace (128 + (u / 64) mod 64 <? 192) with true
        by (symmetry; apply Z.ltb_lt; dlia).
      replace (128 <=? 128 + u mod 64) with true
        by (symmetry; apply Z.leb_le; dlia).
      replace (128 + u mod 64 <? 192) with true
        by (symmetry; apply Z.ltb_lt; dlia).
      cbn [andb negb].
      replace (224 + u / 4096 <? 224) with false
        by (symmetry; apply Z.ltb_ge; dlia).
      replace (224 + u / 4096 <? 240) with true
        by (symmetry; apply Z.ltb_lt; dlia).
      rewrite IHrest. f_equal. dlia. }
    destruct rest as [|v rest']; [exact H3|].
    destruct (Str.is_high u && Str.is_low v) eqn:Ep; [|exact H3].
    apply andb_true_iff in Ep as [Eh El].
    unfold Str.is_high in Eh. unfold Str.is_low in El.
    apply andb_true_iff in Eh as [Eh1 Eh2].
    apply andb_true_iff in El as [El1 El2].
    apply Z.leb_le in Eh1, El1. apply Z.ltb_lt in Eh2, El2.
    inversion Hrest as [|? ? Hv Hrest']; subst.
    simpl in Hlen.
    assert (IH' : Str.units (Str.text rest') = rest')
      by (apply IH; [lia|assumption]).
    cbv zeta.
    set (cp := 65536 + (u - 55296) * 1024 + (v - 56320)).
    assert (Hcp : 65536 <= cp < 1114112) by (unfold cp; lia).
    cbn [Str.units]. cbv zeta. unfold Str.continues.
    rewrite !byte_char by dlia.
    replace (240 + cp / 262144 <? 192) with false
      by (symmetry; apply Z.ltb_ge; dlia).
    replace (240 + cp / 262144 <? 224) with false
      by (symmetry; apply Z.ltb_ge; dlia).
    replace (240 + cp / 262144 <? 240) with false
      by (symmetry; apply Z.ltb_ge; dlia).
    replace (128 <=? 128 + (cp / 4096) mod 64) with true
      by (symmetry; apply Z.leb_le; dlia).
    replace (128 + (cp / 4096) mod 64 <? 192) with true
      by (symmetry; apply Z.ltb_lt; dlia).
    replace (128 <=? 128 + (cp / 64) mod 64) with true
      by (symmetry; apply Z.leb_le; dlia).
    replace (128 + (cp / 64) mod 64 <? 192) with true
      by (symmetry; apply Z.ltb_lt; dlia).
    replace (128 <=? 128 + cp mod 64) with true
      by (symmetry; apply Z.leb_le; dlia).
    replace (128 + cp mod 64 <? 192) with true
      by (symmetry; apply Z.ltb_lt; dlia).
    cbn [andb negb].
    replace ((240 + cp / 262144 - 240) * 262144
             + (128 + (cp / 4096) mod 64 - 128) * 4096
             + (128 + (cp / 64) mod 64 - 128) * 64
             + (128 + cp mod 64 - 128)) with cp by dlia.
    replace (65536 <=? cp) with true by (symmetry; apply Z.leb_le; lia).
    replace (cp <? 1114112) with true by (symmetry; apply Z.ltb_lt; lia).
    cbn [andb]. unfold Str.surrogates. rewrite IH'. cbn [app].
    f_equal; [unfold cp; dlia|]. f_equal. unfold cp; dlia.
Qed.

Lemma units_text (us : list Z) :
  Forall Str.code_unit us -> Str.units (Str.text us) = us.
Proof. apply (units_text_upto (List.length us)). lia. Qed.

(** What is read off the bytes of a text are code units. *)
Lemma units_unit_upto (n : nat) :
  forall s, (String.length s <= n)%nat -> Forall Str.code_unit (Str.units s).
Proof.
  induction n as [|n IH]; intros s Hlen.
  - destruct s; [constructor | simpl in Hlen; lia].
  - destruct s as [|a r]; [constructor|]. simpl in Hlen.
    pose proof (byte_range a) as Ha.
    assert (Halone : Forall Str.code_unit (Str.byte a :: Str.units r)).
    { constructor; [unfold Str.code_unit; lia | apply IH; lia]. }
    cbn [Str.units]. cbv zeta.
    destruct (Str.byte a <? 192) eqn:E0; [exact Halone|].
    apply Z.ltb_ge in E0.
    destruct r as [|b r1]; [exact Halone|]. simpl in Hlen.
    pose proof (byte_range b) as Hb.
    destruct (Str.continues b) eqn:Cb; cbn [negb]; [|exact Halone].
    unfold Str.continues in Cb. apply andb_true_iff in Cb as [Cb1 Cb2].
    apply Z.leb_le in Cb1. apply Z.ltb_lt in Cb2.
    destruct (Str.byte a <? 224) eqn:E1;
      [apply Z.ltb_lt in E1|apply Z.ltb_ge in E1].
    { constructor; [unfold Str.code_unit; lia | apply IH; lia]. }
    destruct r1 as [|c r2]; [exact Halone|]. simpl in Hlen.
    pose proof (byte_range c) as Hc.
    destruct (Str.continues c) eqn:Cc; cbn [negb]; [|exact Halone].
    unfold Str.continues in Cc. apply andb_true_iff in Cc as [Cc1 Cc2].
    apply Z.leb_le in Cc1. apply Z.ltb_lt in Cc2.
    destruct (Str.byte a <? 240) eqn:E2;
      [apply Z.ltb_lt in E2|apply Z.ltb_ge in E2].
    { constructor; [unfold Str.code_unit; lia | apply IH; lia]. }
    destruct r2 as [|d r3]; [exact Halone|]. simpl in Hlen.
    match goal with
    | |- context [if ?c then _ else _] => destruct c eqn:E3
    end; [|exact Halone].
    apply andb_true_iff in E3 as [E3 E5].
    apply andb_true_iff in E3 as [_ E4].
    apply Z.leb_le in E4. apply Z.ltb_lt in E5.
    unfold Str.surrogates. cbn [app].
    constructor; [unfold Str.code_unit; dlia|].
    constructor; [unfold Str.code_unit; dlia|]. apply IH; lia.
Qed.

Lemma units_unit (s : string) : Forall Str.code_unit (Str.units s).
Proof. apply (units_unit_upto (String.length s)). lia. Qed.

Local Close Scope Z_scope.

Lemma Forall_firstn {A} (Q : A -> Prop) (n : nat) (l : list A) :
  Forall Q l -> Forall Q (firstn n l).
Proof.
  intro H. revert n. induction H as [|x l Hx _ IH]; intros [|n]; simpl;
    constructor; auto.
Qed.

Lemma Forall_skipn {A} (Q : A -> Prop) (n : nat) (l : list A) :
  Forall Q l -> Forall Q (skipn n l).
Proof.
  intro H. revert n. induction H as [|x l Hx Hl IH]; intros [|n]; simpl;
    auto.
Qed.

(** The code units of a slice. *)
Lemma units_slice_first (n : nat) (s : string) :
  Str.units (Str.slice_first n s) = firstn n (Str.units s).
Proof.
  unfold Str.slice_first. apply units_text, Forall_firstn, units_unit.
Qed.

Lemma units_slice_last (n : nat) (s : string) :
  Str.units (Str.slice_last n s)
  = skipn (Str.length s - n) (Str.units s).
Proof.
  unfold Str.slice_last. apply units_text, Forall_skipn, units_unit.
Qed.

Lemma slice_last_length (n : nat) (s : string) :
  Str.length (Str.slice_last n s) = Nat.min n (Str.length s).
Proof.
  unfold Str.length at 1. rewrite units_slice_last, length_skipn.
  unfold Str.length. lia.
Qed.

Lemma slice_last_length_le (n : nat) (s : string) :
  Str.length (Str.slice_last n s) <= n.
Proof. rewrite slice_last_length. lia. Qed.

Lemma slice_first_length (n : nat) (s : string) :
  Str.length (Str.slice_first n s) = Nat.min n (Str.length s).
Proof.
  unfold Str.length at 1. rewrite units_slice_first, length_firstn.
  reflexivity.
Qed.

Lemma slice_first_length_le (n : nat) (s : string) :
  Str.length (Str.slice_first n s) <= n.
Proof. rewrite slice_first_length. lia. Qed.

Lemma slice_first_idem (n : nat) (s : string) :
  Str.slice_first n (Str.slice_first n s) = Str.slice_first n s.
Proof.
  unfold Str.slice_first at 1. rewrite units_slice_first.
  rewrite firstn_firstn, Nat.min_id. reflexivity.
Qed.

(** A slice of a shorter text has all its code units. *)
Lemma slice_first_short (n : nat) (s : string) :
  Str.length s <= n -> Str.units (Str.slice_first n s) = Str.units s.
Proof.
  intro H. rewrite units_slice_first. now apply firstn_all2.
Qed.

(** The tag [user_] is five code units before those of what follows. *)
Lemma units_user (t : string) :
  Str.units ("user_" ++ t)
  = ([117; 115; 101; 114; 95]%Z ++ Str.units t)%list.
Proof. reflexivity. Qed.

Lemma length_user (t : string) :
  Str.length ("user_" ++ t) = 5 + Str.length t.
Proof. unfold Str.length. now rewrite units_user. Qed.

(** The last six code units of the tag and a slice of six are the slice. *)
Lemma slice_last_user (s : string) :
  6 <= Str.length s ->
  Str.slice_last 6 ("user_" ++ Str.slice_last 6 s) = Str.slice_last 6 s.
Proof.
  intro H. unfold Str.slice_last at 1.
  rewrite units_user, units_slice_last.
  set (l := skipn (Str.length s - 6) (Str.units s)).
  assert (Hl : List.length l = 6)
    by (unfold l; rewrite length_skipn; unfold Str.length in *; lia).
  rewrite length_app, Hl. cbn [List.length Nat.add Nat.sub skipn app].
  reflexivity.
Qed.

End StrFacts.

(** ** Objects as association lists *)

Module ObjFacts.

Lemma eqb_false_sym (a b : string) : (a =? b) = false -> (b =? a) = false.
Proof. now rewrite String.eqb_sym. Qed.

Lemma lookup_remove_other k k' ps :
  (k' =? k) = false -> lookup k (remove k' ps) = lookup k ps.
Proof.
  intro Hk. induction ps as [|[k0 v] ps IH]; simpl; [reflexivity|].
  destruct (k0 =? k') eqn:E0.
  - apply String.eqb_eq in E0. subst k0. now rewrite Hk.
  - simpl. now rewrite IH.
Qed.

Lemma has_key_remove_same k ps : has_key k (remove k ps) = false.
Proof.
  induction ps as [|[k0 v] ps IH]; simpl; [reflexivity|].
  destruct (k0 =? k) eqn:E0; simpl; [exact IH | now rewrite E0].
Qed.

Lemma has_key_remove_other k k' ps :
  has_key k ps = false -> has_key k (remove k' ps) = false.
Proof.
  induction ps as [|[k0 v] ps IH]; simpl; [reflexivity|].
  intro H. apply orb_false_iff in H as [H1 H2].
  destruct (k0 =? k'); simpl; [now apply IH | now rewrite H1, IH].
Qed.

Lemma remove_absent k ps : has_key k ps = false -> remove k ps = ps.
Proof.
  induction ps as [|[k0 v] ps IH]; simpl; [reflexivity|].
  intro H. apply orb_false_iff in H as [H1 H2]. now rewrite H1, IH.
Qed.

Lemma lookup_absent k ps : has_key k ps = false -> lookup k ps = JUndef.
Proof.
  induction ps as [|[k0 v] ps IH]; simpl; [reflexivity|].
  intro H. apply orb_false_iff in H as [H1 H2]. now rewrite H1, IH.
Qed.

Lemma lookup_assign_same k v ps : lookup k (assign k v ps) = v.
Proof.
  induction ps as [|[k0 v0] ps IH]; simpl.
  - now rewrite String.eqb_refl.
  - destruct (k0 =? k) eqn:E; simpl; [now rewrite String.eqb_refl | now rewrite E].
Qed.

Lemma lookup_assign_other k k' v ps :
  (k' =? k) = false -> lookup k (assign k' v ps) = lookup k ps.
Proof.
  intro Hk. induction ps as [|[k0 v0] ps IH]; simpl.
  - now rewrite Hk.
  - destruct (k0 =? k') eqn:E; simpl.
    + apply String.eqb_eq in E. subst k0. now rewrite Hk.
    + now rewrite IH.
Qed.

Lemma has_key_assign_same k v ps : has_key k (assign k v ps) = true.
Proof.
  induction ps as [|[k0 v0] ps IH]; simpl.
  - now rewrite String.eqb_refl.
  - destruct (k0 =? k) eqn:E; simpl; [now rewrite String.eqb_refl | now rewrite E].
Qed.

Lemma has_key_assign_other k k' v ps :
  (k' =? k) = false -> has_key k (assign k' v ps) = has_key k ps.
Proof.
  intro Hk. induction ps as [|[k0 v0] ps IH]; simpl.
  - now rewrite Hk.
  - destruct (k0 =? k') eqn:E; simpl.
    + apply String.eqb_eq in E. subst k0. now rewrite Hk.
    + now rewrite IH.
Qed.

(** Writing the value a key already holds changes nothing. *)
Lemma assign_same_value k ps :
  has_key k ps = true -> assign k (lookup k ps) ps = ps.
Proof.
  induction ps as [|[k0 v0] ps IH]; simpl; [discriminate|].
  destruct (k0 =? k) eqn:E; simpl.
  - intros _. apply String.eqb_eq in E. now subst.
  - intro H. now rewrite IH.
Qed.

Lemma assign_assign k v v' ps : assign k v (assign k v' ps) = assign k v ps.
Proof.
  induction ps as [|[k0 v0] ps IH]; simpl.
  - now rewrite String.eqb_refl.
  - destruct (k0 =? k) eqn:E; simpl.
    + now rewrite String.eqb_refl.
    + now rewrite E, IH.
Qed.

End ObjFacts.

Local Open Scope list_scope.
Local Open Scope string_scope.

(** ** The sanitizer *)

Section SanitizerFacts.
Context {P : Platform}.
Import ObjFacts StrFacts.

Lemma json_copy_object ps : json_copy (JObj ps) = JObj (copy_props ps).
Proof. reflexivity. Qed.

Lemma json_copy_defined v : json_copy v <> JUndef.
Proof.
  destruct v; simpl; try discriminate.
  destruct (PrimFloat.is_nan x || PrimFloat.is_infinity x); [discriminate|].
  destruct (PrimFloat.is_zero x); discriminate.
Qed.

Lemma json_copy_number x :
  json_copy (json_copy (JNum x)) = json_copy (JNum x).
Proof.
  simpl.
  destruct (PrimFloat.is_nan x || PrimFloat.is_infinity x) eqn:E1;
    [reflexivity|].
  destruct (PrimFloat.is_zero x) eqn:E2; simpl.
  - reflexivity.
  - now rewrite E1, E2.
Qed.

(** Copying a copy changes nothing. *)
Lemma json_copy_idempotent v : json_copy (json_copy v) = json_copy v.
Proof.
  induction v as [ | | b | x | s | items IH | ps IH ]
    using value_nested_ind; try reflexivity.
  - apply json_copy_number.
  - simpl. f_equal. rewrite map_map.
    induction IH as [|y l Hy _ IHl]; simpl; [reflexivity|].
    now rewrite Hy, IHl.
  - rewrite !json_copy_object. f_equal.
    induction IH as [|[k y] l Hy _ IHl]; simpl; [reflexivity|].
    simpl in Hy.
    assert (Hstep : copy_props ((k, json_copy y) :: copy_props l)
                    = (k, json_copy y) :: copy_props l).
    { pose proof (json_copy_defined y) as Hd.
      simpl. destruct (json_copy y) eqn:E; try congruence;
        rewrite <- E, ?Hy, IHl; rewrite ?E; reflexivity. }
    destruct y; simpl; try exact IHl; try exact Hstep.
Qed.

Lemma copy_props_copied ps : copied_props (copy_props ps).
Proof.
  induction ps as [|[k v] ps IH]; simpl; [constructor|].
  assert (H : copied_props ((k, json_copy v) :: copy_props ps)).
  { constructor; [|exact IH]. split;
      [apply json_copy_defined | apply json_copy_idempotent]. }
  destruct v; try exact IH; exact H.
Qed.

Lemma copied_props_fixed ps : copied_props ps -> copy_props ps = ps.
Proof.
  induction 1 as [|[k v] ps [Hd Hc] _ IH]; simpl; [reflexivity|].
  simpl in Hd, Hc. unfold copied in Hc.
  destruct v; try congruence; rewrite IH; try reflexivity;
    try (now rewrite Hc).
Qed.

Lemma copied_object ps : copied_props ps -> copied (JObj ps).
Proof.
  intro H. unfold copied. rewrite json_copy_object.
  now rewrite copied_props_fixed.
Qed.

Lemma copied_props_remove k ps :
  copied_props ps -> copied_props (remove k ps).
Proof.
  induction 1 as [|[k0 v] ps H _ IH]; simpl; [constructor|].
  destruct (k0 =? k); [exact IH | now constructor].
Qed.

Lemma copied_props_assign k s ps :
  copied_props ps -> copied_props (assign k (JStr s) ps).
Proof.
  assert (Hs : JStr s <> JUndef /\ copied (JStr s))
    by (split; [discriminate | reflexivity]).
  induction 1 as [|[k0 v] ps H Hps IH]; simpl.
  - constructor; [exact Hs | constructor].
  - destruct (k0 =? k); constructor; assumption.
Qed.

Lemma ToString_array items :
  ToString (JArr items)
  = obind (element_strings items) (fun parts => Ret (Str.join "," parts)).
Proof. reflexivity. Qed.

(** What a conversion to a string throws is a TypeError of the engine. *)
Lemma ToString_throws v e :
  ToString v = Throw e ->
  e = TypeError "Cannot convert object to primitive value".
Proof.
  revert e.
  induction v as [ | | b | x | s | items IH | ps IH ]
    using value_nested_ind; intro e;
    try (cbn [ToString]; discriminate);
    try (destruct b; cbn [ToString]; discriminate).
  - rewrite ToString_array.
    destruct (element_strings items) as [parts|e'] eqn:E; cbn [obind];
      [discriminate|].
    intro H. injection H as <-. revert e' E.
    induction IH as [|y l Hy _ IHl]; intros e' E; [discriminate E|].
    cbn [element_strings] in E.
    destruct (match y with
              | JUndef | JNull => Ret ""
              | _ => ToString y
              end) as [p|e1] eqn:Ey; cbn [obind] in E.
    + destruct (element_strings l) as [ps|e2]; cbn [obind] in E;
        [discriminate E|].
      injection E as <-. now apply IHl.
    + injection E as <-. apply Hy.
      destruct y; try discriminate Ey; exact Ey.
  - cbn [ToString].
    destruct (has_key "toString" ps); intro H; [|discriminate H].
    now injection H as <-.
Qed.

Lemma lookup_abha_drop ps :
  lookup "abha_id" (drop_identifiers ps) = lookup "abha_id" ps.
Proof.
  unfold drop_identifiers. now rewrite !lookup_remove_other by reflexivity.
Qed.

(** [sanitizePayload] by the shape of the copy. *)
Lemma sanitize_object raw ps :
  raw <> JUndef -> json_copy raw = JObj ps ->
  sanitizePayload raw
  = obind (abha_text ps) (fun text => Ret (JObj (sanitize_props text ps))).
Proof.
  intros Hraw Hcopy. unfold sanitizePayload, JSON_roundtrip.
  assert (Hstart : match raw with
                   | JUndef => Throw (SyntaxError "undefined is not valid JSON")
                   | _ => Ret (json_copy raw)
                   end = Ret (JObj ps))
    by (destruct raw; congruence).
  rewrite Hstart. cbn [obind delete get].
  fold (drop_identifiers ps). rewrite lookup_abha_drop.
  unfold abha_text, sanitize_props, pseudonymize, pseudonym.
  rewrite lookup_abha_drop.
  destruct (truthy (lookup "abha_id" ps)); cbn [obind].
  - destruct (ToString (lookup "abha_id" ps)) as [text|e]; cbn [obind set get];
      [|reflexivity].
    unfold trim_notes.
    match goal with
    | |- context [lookup "notes" ?l] =>
        destruct (lookup "notes" l) eqn:En; cbn [obind]; try reflexivity
    end.
    match goal with
    | |- context [truthy (JStr ?s)] =>
        destruct (truthy (JStr s)); reflexivity
    end.
  - cbn [obind set get]. unfold trim_notes.
    match goal with
    | |- context [lookup "notes" ?l] =>
        destruct (lookup "notes" l) eqn:En; cbn [obind]; try reflexivity
    end.
    match goal with
    | |- context [truthy (JStr ?s)] =>
        destruct (truthy (JStr s)); reflexivity
    end.
Qed.

Lemma sanitize_null raw :
  raw <> JUndef -> json_copy raw = JNull ->
  sanitizePayload raw
  = Throw (TypeError "Cannot convert undefined or null to object").
Proof.
  intros Hraw Hcopy. unfold sanitizePayload, JSON_roundtrip.
  destruct raw; try congruence; rewrite Hcopy; reflexivity.
Qed.

Lemma sanitize_other raw :
  raw <> JUndef ->
  (forall ps, json_copy raw <> JObj ps) -> json_copy raw <> JNull ->
  sanitizePayload raw = Ret (json_copy raw).
Proof.
  intros Hraw Hobj Hnull. unfold sanitizePayload, JSON_roundtrip.
  pose proof (json_copy_defined raw) as Hd.
  destruct raw; try congruence;
    destruct (json_copy _) eqn:E; try congruence;
    try reflexivity; exfalso; eapply Hobj; reflexivity.
Qed.

End SanitizerFacts.

Local Open Scope list_scope.
Local Open Scope string_scope.

Section SanitizerTheorems.
Context {P : Platform}.
Import ObjFacts StrFacts.

Lemma value_is_undefined (v : value) : v = JUndef \/ v <> JUndef.
Proof. destruct v; auto; right; discriminate. Qed.

Lemma truthy_pseudonym text : truthy (pseudonym text) = true.
Proof. reflexivity. Qed.

Lemma has_key_drop_identifiers ps :
  has_key "name" (drop_identifiers ps) = false
  /\ has_key "email" (drop_identifiers ps) = false
  /\ has_key "phone" (drop_identifiers ps) = false.
Proof.
  unfold drop_identifiers. repeat split.
  - do 2 apply has_key_remove_other. apply has_key_remove_same.
  - apply has_key_remove_other. apply has_key_remove_same.
  - apply has_key_remove_same.
Qed.

Lemma lookup_drop_identifiers k ps :
  ("name" =? k) = false -> ("email" =? k) = false ->
  ("phone" =? k) = false ->
  lookup k (drop_identifiers ps) = lookup k ps.
Proof.
  intros H1 H2 H3. unfold drop_identifiers.
  now rewrite !lookup_remove_other.
Qed.

Lemma has_key_pseudonymize k text ps :
  ("abha_id" =? k) = false ->
  has_key k (pseudonymize text ps) = has_key k ps.
Proof.
  intro H. unfold pseudonymize.
  destruct (truthy (lookup "abha_id" ps)); [|reflexivity].
  now apply has_key_assign_other.
Qed.

Lemma has_key_trim_notes k ps :
  ("notes" =? k) = false -> has_key k (trim_notes ps) = has_key k ps.
Proof.
  intro H. unfold trim_notes.
  destruct (lookup "notes" ps); try reflexivity.
  destruct (truthy (JStr s)); [|reflexivity].
  now apply has_key_assign_other.
Qed.

Lemma lookup_trim_notes k ps :
  ("notes" =? k) = false -> lookup k (trim_notes ps) = lookup k ps.
Proof.
  intro H. unfold trim_notes.
  destruct (lookup "notes" ps); try reflexivity.
  destruct (truthy (JStr s)); [|reflexivity].
  now apply lookup_assign_other.
Qed.

Lemma lookup_abha_pseudonymize text ps :
  lookup "abha_id" (pseudonymize text ps)
  = if truthy (lookup "abha_id" ps)
    then pseudonym text
    else lookup "abha_id" ps.
Proof.
  unfold pseudonymize. destruct (truthy (lookup "abha_id" ps)) eqn:E.
  - apply lookup_assign_same.
  - reflexivity.
Qed.

Lemma sanitize_props_no_identifiers text ps :
  has_key "name" (sanitize_props text ps) = false
  /\ has_key "email" (sanitize_props text ps) = false
  /\ has_key "phone" (sanitize_props text ps) = false.
Proof.
  destruct (has_key_drop_identifiers ps) as (H1 & H2 & H3).
  unfold sanitize_props.
  rewrite !has_key_trim_notes, !has_key_pseudonymize by reflexivity.
  now rewrite H1, H2, H3.
Qed.

Lemma lookup_abha_sanitize_props text ps :
  lookup "abha_id" (sanitize_props text ps)
  = if truthy (lookup "abha_id" ps)
    then pseudonym text
    else lookup "abha_id" ps.
Proof.
  unfold sanitize_props.
  rewrite lookup_trim_notes by reflexivity.
  rewrite lookup_abha_pseudonymize.
  now rewrite lookup_drop_identifiers by reflexivity.
Qed.

Lemma copied_props_sanitize text ps :
  copied_props ps -> copied_props (sanitize_props text ps).
Proof.
  intro H. unfold sanitize_props, trim_notes, pseudonymize, pseudonym.
  assert (H1 : copied_props (drop_identifiers ps))
    by (unfold drop_identifiers; now do 3 apply copied_props_remove).
  destruct (truthy (lookup "abha_id" (drop_identifiers ps)));
    match goal with
    | |- context [lookup "notes" ?l] =>
        destruct (lookup "notes" l); try assumption;
        try (now apply copied_props_assign)
    end;
    match goal with
    | |- context [truthy (JStr ?s)] => destruct (truthy (JStr s))
    end;
    repeat apply copied_props_assign; assumption.
Qed.

(** Trimming the notes a second time changes nothing. *)
Lemma trim_notes_idempotent ps : trim_notes (trim_notes ps) = trim_notes ps.
Proof.
  assert (Hcases :
    (exists s, lookup "notes" ps = JStr s /\ truthy (JStr s) = true
               /\ trim_notes ps
                  = assign "notes" (JStr (Str.slice_first 1000 s)) ps)
    \/ trim_notes ps = ps).
  { unfold trim_notes. destruct (lookup "notes" ps) eqn:En; auto.
    destruct (truthy (JStr s)) eqn:Et; eauto. }
  destruct Hcases as [(s & En & Et & Hs) | Hs].
  - rewrite Hs. unfold trim_notes at 1. rewrite lookup_assign_same.
    destruct (truthy (JStr (Str.slice_first 1000 s))); [|reflexivity].
    now rewrite slice_first_idem, assign_assign.
  - now rewrite !Hs.
Qed.

(** The string form the second pass takes: that of the pseudonym. *)
Lemma abha_text_sanitize_props text ps :
  abha_text (sanitize_props text ps)
  = if truthy (lookup "abha_id" ps)
    then Ret ("user_" ++ Str.slice_last 6 text)
    else Ret "".
Proof.
  unfold abha_text. rewrite lookup_abha_sanitize_props.
  destruct (truthy (lookup "abha_id" ps)) eqn:Et.
  - now rewrite truthy_pseudonym.
  - now rewrite Et.
Qed.

(** The pseudonym of a pseudonym that has its six code units is itself. *)
Lemma pseudonym_of_pseudonym text :
  6 <= Str.length text ->
  pseudonym ("user_" ++ Str.slice_last 6 text) = pseudonym text.
Proof.
  intro H. unfold pseudonym. now rewrite slice_last_user.
Qed.

Lemma sanitize_props_idempotent text text' ps :
  truthy (lookup "abha_id" ps) = false
  \/ (6 <= Str.length text
      /\ text' = "user_" ++ Str.slice_last 6 text) ->
  sanitize_props text' (sanitize_props text ps) = sanitize_props text ps.
Proof.
  intro H.
  destruct (sanitize_props_no_identifiers text ps) as (H1 & H2 & H3).
  unfold sanitize_props at 1. unfold drop_identifiers.
  rewrite (remove_absent "name") by exact H1.
  rewrite (remove_absent "email") by exact H2.
  rewrite (remove_absent "phone") by exact H3.
  unfold sanitize_props.
  set (d := drop_identifiers ps).
  assert (Hld : lookup "abha_id" d = lookup "abha_id" ps)
    by (unfold d; now rewrite lookup_drop_identifiers by reflexivity).
  (* the second pseudonymization sees the first one's result *)
  assert (Hp : pseudonymize text' (trim_notes (pseudonymize text d))
               = trim_notes (pseudonymize text d)).
  { unfold pseudonymize at 1.
    rewrite lookup_trim_notes by reflexivity.
    rewrite lookup_abha_pseudonymize, Hld.
    destruct (truthy (lookup "abha_id" ps)) eqn:Et.
    - rewrite truthy_pseudonym.
      destruct H as [H|[Hlen ->]]; [discriminate|].
      rewrite (pseudonym_of_pseudonym _ Hlen).
      assert (Hl : lookup "abha_id" (trim_notes (pseudonymize text d))
                   = pseudonym text).
      { rewrite lookup_trim_notes by reflexivity.
        rewrite lookup_abha_pseudonymize. now rewrite Hld, Et. }
      rewrite <- Hl at 1. apply assign_same_value.
      rewrite has_key_trim_notes by reflexivity.
      unfold pseudonymize. rewrite Hld, Et. apply has_key_assign_same.
    - now rewrite Et. }
  rewrite Hp. apply trim_notes_idempotent.
Qed.

Lemma copied_props_of_copy raw ps :
  json_copy raw = JObj ps -> copied_props ps.
Proof.
  intro H. destruct raw; try discriminate.
  - simpl in H.
    destruct (PrimFloat.is_nan x || PrimFloat.is_infinity x);
      [discriminate|].
    destruct (PrimFloat.is_zero x); discriminate.
  - rewrite json_copy_object in H. injection H as <-.
    apply copy_props_copied.
Qed.

Lemma abha_id_of_object raw ps :
  json_copy raw = JObj ps -> abha_id_of raw = lookup "abha_id" ps.
Proof. intro H. unfold abha_id_of. now rewrite H. Qed.

(** The three shapes of the serialised copy. *)
Lemma copy_cases raw :
  (exists ps, json_copy raw = JObj ps)
  \/ json_copy raw = JNull
  \/ ((forall ps, json_copy raw <> JObj ps) /\ json_copy raw <> JNull).
Proof.
  destruct (json_copy raw) eqn:E; eauto;
    right; right; split; congruence.
Qed.

(** Sanitizing the sanitized properties. *)
Lemma sanitize_sanitized text ps :
  copied_props ps ->
  sanitizePayload (JObj (sanitize_props text ps))
  = obind (abha_text (sanitize_props text ps))
      (fun text' =>
         Ret (JObj (sanitize_props text' (sanitize_props text ps)))).
Proof.
  intro Hc. apply sanitize_object; [discriminate|].
  apply copied_object. now apply copied_props_sanitize.
Qed.

(** C5 (as amended).  Sanitizing is idempotent on every payload whose
    [abha_id] is absent or falsy, or whose [abha_id] has a string form of
    at least six UTF-16 code units: sanitizing the sanitized payload
    gives the sanitized payload again (and a payload that makes the
    sanitizer throw makes it throw both times). *)
Theorem sanitize_idempotent_unless_short_abha_id :
  forall raw : value,
    truthy (abha_id_of raw) = false
    \/ (forall text : string,
          ToString (abha_id_of raw) = Ret text -> 6 <= Str.length text) ->
    sanitize_twice raw = sanitizePayload raw.
Proof.
  intros raw H. unfold sanitize_twice.
  destruct (value_is_undefined raw) as [-> | Hraw]; [reflexivity|].
  destruct (copy_cases raw) as [[ps Hps] | [Hnull | [Hobj Hnull]]].
  - rewrite (sanitize_object raw ps Hraw Hps).
    rewrite (abha_id_of_object raw ps Hps) in H.
    pose proof (copied_props_of_copy raw ps Hps) as Hc.
    unfold abha_text.
    destruct (truthy (lookup "abha_id" ps)) eqn:Et.
    + destruct H as [H|H]; [discriminate|].
      destruct (ToString (lookup "abha_id" ps)) as [text|e] eqn:Es;
        cbn [obind]; [|reflexivity].
      rewrite (sanitize_sanitized text ps Hc).
      rewrite abha_text_sanitize_props, Et. cbn [obind].
      rewrite sanitize_props_idempotent; [reflexivity|].
      right. split; [now apply H | reflexivity].
    + cbn [obind]. rewrite (sanitize_sanitized "" ps Hc).
      rewrite abha_text_sanitize_props, Et. cbn [obind].
      rewrite sanitize_props_idempotent; [reflexivity | now left].
  - now rewrite (sanitize_null raw Hraw Hnull).
  - rewrite (sanitize_other raw Hraw Hobj Hnull). cbn [obind].
    rewrite <- (json_copy_idempotent raw) at 2.
    apply sanitize_other; rewrite ?json_copy_idempotent; try assumption.
    apply json_copy_defined.
Qed.

(** The condition of C5 is needed: a truthy [abha_id] whose string form
    has fewer than six code units gets a longer pseudonym each time. *)
Lemma sanitize_twice_differs_on_short_abha_id :
  forall (raw : value) (text : string),
    truthy (abha_id_of raw) = true ->
    ToString (abha_id_of raw) = Ret text ->
    Str.length text < 6 ->
    sanitize_twice raw <> sanitizePayload raw.
Proof.
  intros raw text Ht Hs Hlen. unfold sanitize_twice.
  destruct (value_is_undefined raw) as [-> | Hraw]; [discriminate Ht|].
  destruct (copy_cases raw) as [[ps Hps] | [Hnull | [Hobj Hnull]]].
  - rewrite (sanitize_object raw ps Hraw Hps).
    rewrite (abha_id_of_object raw ps Hps) in Ht, Hs.
    pose proof (copied_props_of_copy raw ps Hps) as Hc.
    unfold abha_text. rewrite Ht, Hs. cbn [obind].
    rewrite (sanitize_sanitized text ps Hc).
    rewrite abha_text_sanitize_props, Ht. cbn [obind].
    intro Heq. injection Heq as Heq.
    apply (f_equal (lookup "abha_id")) in Heq.
    rewrite !lookup_abha_sanitize_props in Heq.
    rewrite Ht, truthy_pseudonym in Heq.
    unfold pseudonym in Heq.
    apply (f_equal (fun v => match v with
                             | JStr s => Str.length s
                             | _ => 0
                             end)) in Heq.
    cbv beta iota in Heq.
    change (String "u" (String "s" (String "e" (String "r" (String "_"
              (Str.slice_last 6 text))))))
      with ("user_" ++ Str.slice_last 6 text) in Heq.
    rewrite !length_user, !slice_last_length, length_user,
      slice_last_length in Heq.
    lia.
  - unfold abha_id_of in Ht. now rewrite Hnull in Ht.
  - unfold abha_id_of in Ht.
    destruct (json_copy raw); try discriminate Ht.
    exfalso. eapply Hobj. reflexivity.
Qed.

(** C6 (as amended).  The sanitizer returns for every payload but
    [undefined], those whose serialised copy is [null] ([null] itself,
    [NaN], the infinities), and those whose truthy [abha_id] has no
    string form (an object that owns a [toString] key), on which it
    throws.  Its output owns no [name], [email] or [phone] key; an
    [abha_id] that is present with a truthy value comes out as the tag
    [user_] followed by the last six UTF-16 code units of its string
    form (all of them when there are fewer), so as a string of at most
    eleven code units; an [abha_id] that is absent or falsy is left as
    it is. *)
Theorem sanitize_removes_identifiers :
  forall raw : value,
    (raw <> JUndef -> json_copy raw <> JNull ->
     (truthy (abha_id_of raw) = true ->
      exists text : string, ToString (abha_id_of raw) = Ret text) ->
     exists out : value, sanitizePayload raw = Ret out)
    /\
    forall out : value,
    sanitizePayload raw = Ret out ->
    owns out "name" = false
    /\ owns out "email" = false
    /\ owns out "phone" = false
    /\ (truthy (abha_id_of raw) = true ->
        exists text tail : string,
          ToString (abha_id_of raw) = Ret text
          /\ get_opt out "abha_id" = JStr ("user_" ++ tail)
          /\ tail = Str.slice_last 6 text
          /\ Str.length tail <= 6
          /\ Str.length ("user_" ++ tail) <= 11)
    /\ (truthy (abha_id_of raw) = false ->
        get_opt out "abha_id" = abha_id_of raw).
Proof.
  intros raw. split.
  { intros Hraw Hcopy Htext.
    destruct (copy_cases raw) as [[ps Hps] | [Hnull | [Hobj Hnull]]].
    - rewrite (sanitize_object raw ps Hraw Hps).
      rewrite (abha_id_of_object raw ps Hps) in Htext.
      unfold abha_text.
      destruct (truthy (lookup "abha_id" ps)).
      + destruct (Htext eq_refl) as [text ->]. eexists. reflexivity.
      + eexists. reflexivity.
    - contradiction.
    - eexists. exact (sanitize_other raw Hraw Hobj Hnull). }
  intros out Hout.
  destruct (value_is_undefined raw) as [-> | Hraw]; [discriminate Hout|].
  destruct (copy_cases raw) as [[ps Hps] | [Hnull | [Hobj Hnull]]].
  - rewrite (sanitize_object raw ps Hraw Hps) in Hout.
    rewrite (abha_id_of_object raw ps Hps).
    unfold abha_text in Hout.
    destruct (truthy (lookup "abha_id" ps)) eqn:Et.
    + destruct (ToString (lookup "abha_id" ps)) as [text|e] eqn:Es;
        [|discriminate Hout].
      cbn [obind] in Hout. injection Hout as <-.
      destruct (sanitize_props_no_identifiers text ps) as (H1 & H2 & H3).
      cbn [owns get_opt]. rewrite lookup_abha_sanitize_props, Et.
      repeat split; try assumption; [|discriminate].
      intros _. exists text, (Str.slice_last 6 text).
      split; [reflexivity|]. split; [reflexivity|].
      split; [reflexivity|].
      pose proof (slice_last_length_le 6 text).
      split; [assumption|]. rewrite length_user. lia.
    + cbn [obind] in Hout. injection Hout as <-.
      destruct (sanitize_props_no_identifiers "" ps) as (H1 & H2 & H3).
      cbn [owns get_opt]. rewrite lookup_abha_sanitize_props, Et.
      repeat split; try assumption; try discriminate; intros _; reflexivity.
  - now rewrite (sanitize_null raw Hraw Hnull) in Hout.
  - rewrite (sanitize_other raw Hraw Hobj Hnull) in Hout.
    injection Hout as <-. unfold abha_id_of.
    destruct (json_copy raw); cbn; repeat split;
      try discriminate; try reflexivity.
    all: exfalso; eapply Hobj; reflexivity.
Qed.

End SanitizerTheorems.

Local Open Scope list_scope.
Local Open Scope string_scope.

(** ** zod *)

Module ZodFacts.
Import Zod ObjFacts.

Lemma safeParse_array_eq elem v :
  safeParse (ZArray elem) v
  = match v with
    | JArr items => option_map JArr (parse_items elem items)
    | _ => None
    end.
Proof.
  destruct v; try reflexivity. simpl. f_equal.
  induction items as [|x items IH]; [reflexivity|].
  simpl. now rewrite IH.
Qed.

Lemma safeParse_object_eq shape v :
  safeParse (ZObject shape) v
  = match v with
    | JObj props => option_map JObj (parse_fields props shape)
    | _ => None
    end.
Proof.
  destruct v; try reflexivity. simpl. f_equal.
  induction shape as [|[k sk] shape IH]; [reflexivity|].
  simpl. now rewrite IH.
Qed.

Lemma safeParse_optional_eq inner v :
  safeParse (ZOptional inner) v
  = match v with
    | JUndef => Some JUndef
    | _ => safeParse inner v
    end.
Proof. reflexivity. Qed.

Lemma safeParse_array_inv elem v d :
  safeParse (ZArray elem) v = Some d ->
  exists items ds,
    v = JArr items /\ d = JArr ds /\ parse_items elem items = Some ds.
Proof.
  rewrite safeParse_array_eq. destruct v; try discriminate.
  destruct (parse_items elem items) as [ds|] eqn:E; [|discriminate].
  intro H. injection H as <-. eauto.
Qed.

Lemma safeParse_object_inv shape v d :
  safeParse (ZObject shape) v = Some d ->
  exists props fields,
    v = JObj props /\ d = JObj fields
    /\ parse_fields props shape = Some fields.
Proof.
  rewrite safeParse_object_eq. destruct v; try discriminate.
  destruct (parse_fields props shape) as [fs|] eqn:E; [|discriminate].
  intro H. injection H as <-. eauto.
Qed.

Lemma safeParse_optional_inv inner v d :
  safeParse (ZOptional inner) v = Some d ->
  (v = JUndef /\ d = JUndef) \/ (v <> JUndef /\ safeParse inner v = Some d).
Proof.
  rewrite safeParse_optional_eq. destruct v;
    try (intro H; right; split; [discriminate | exact H]).
  intro H. injection H as <-. now left.
Qed.

Lemma safeParse_number_inv checks v d :
  safeParse (ZNumber checks) v = Some d -> d = v /\ exists x, v = JNum x.
Proof.
  simpl. destruct v; try discriminate.
  destruct (PrimFloat.is_nan x); [discriminate|].
  destruct (forallb (check_ok x) checks); [|discriminate].
  intro H. injection H as <-. eauto.
Qed.

Lemma safeParse_string_inv v d :
  safeParse ZString v = Some d -> d = v /\ exists s, v = JStr s.
Proof.
  simpl. destruct v; try discriminate. intro H. injection H as <-. eauto.
Qed.

(** The parsed items pair up with the items, in order. *)
Lemma parse_items_Forall2 elem items ds :
  parse_items elem items = Some ds ->
  Forall2 (fun x y => safeParse elem x = Some y) items ds.
Proof.
  revert ds. induction items as [|x items IH]; simpl; intros ds H.
  - injection H as <-. constructor.
  - destruct (safeParse elem x) as [y|] eqn:Ex; [|discriminate].
    destruct (parse_items elem items) as [ys|]; [|discriminate].
    injection H as <-. constructor; auto.
Qed.

Lemma parse_items_length elem items ds :
  parse_items elem items = Some ds -> List.length ds = List.length items.
Proof.
  intro H. apply parse_items_Forall2 in H.
  symmetry. eapply Forall2_length; eassumption.
Qed.

(** The parsed fields only have keys of the shape. *)
Lemma parse_fields_keys props shape fields k :
  parse_fields props shape = Some fields ->
  ~ In k (map fst shape) -> has_key k fields = false.
Proof.
  revert fields. induction shape as [|[k0 s0] shape IH]; simpl;
    intros fields H Hk.
  - now injection H as <-.
  - destruct (parse_fields props shape) as [out|];
      [|destruct (safeParse s0 (lookup k0 props)) as [[]|]; discriminate].
    destruct (safeParse s0 (lookup k0 props)) as [y|]; [|discriminate].
    assert (Hout : has_key k out = false) by (apply IH; tauto).
    assert (Hk0 : (k0 =? k) = false) by (apply String.eqb_neq; tauto).
    destruct y; cbn iota beta in H; injection H as <-;
      try (simpl; now rewrite Hk0, Hout).
    destruct (has_key k0 props); simpl; now rewrite ?Hk0, Hout.
Qed.

(** Each field of the parsed object is the parse of the field of the
    input, by the schema the shape gives it. *)
Lemma parse_fields_lookup props shape fields k sk :
  parse_fields props shape = Some fields ->
  NoDup (map fst shape) -> In (k, sk) shape ->
  safeParse sk (lookup k props) = Some (lookup k fields).
Proof.
  revert fields. induction shape as [|[k0 s0] shape IH]; simpl;
    intros fields H Hnd Hin; [contradiction|].
  inversion Hnd as [|? ? Hk0 Hnd']; subst.
  destruct (parse_fields props shape) as [out|] eqn:Eo;
    [|destruct (safeParse s0 (lookup k0 props)) as [[]|]; discriminate].
  destruct (safeParse s0 (lookup k0 props)) as [y|] eqn:Ey; [|discriminate].
  destruct Hin as [Heq | Hin].
  - injection Heq as -> ->.
    pose proof (parse_fields_keys props shape out k Eo Hk0) as Hout.
    rewrite Ey. f_equal.
    destruct y; cbn iota beta in H; injection H as <-;
      try (simpl; now rewrite String.eqb_refl).
    destruct (has_key k props); simpl;
      [now rewrite String.eqb_refl | now rewrite lookup_absent].
  - assert (Hne : (k0 =? k) = false).
    { apply String.eqb_neq. intros ->. apply Hk0.
      apply (in_map fst) in Hin. exact Hin. }
    rewrite (IH out eq_refl Hnd' Hin). f_equal.
    destruct y; cbn iota beta in H; injection H as <-; try (simpl; now rewrite Hne).
    destruct (has_key k0 props); simpl; now rewrite ?Hne.
Qed.

(** A parsed document is the input with keys left out. *)
Lemma safeParse_trimmed s : forall v d, safeParse s v = Some d -> trimmed d v.
Proof.
  induction s as [ | checks | | | elem IH | shape IH | inner IH ]
    using schema_nested_ind; intros v d H.
  - apply safeParse_string_inv in H as [-> _]. constructor.
  - apply safeParse_number_inv in H as [-> _]. constructor.
  - simpl in H. destruct v; try discriminate. injection H as <-. constructor.
  - simpl in H. injection H as <-. constructor.
  - apply safeParse_array_inv in H as (items & ds & -> & -> & H).
    apply trimmed_array. apply parse_items_Forall2 in H.
    induction H; constructor; auto.
  - apply safeParse_object_inv in H as (props & fields & -> & -> & H).
    apply trimmed_object. revert fields H.
    induction IH as [|[k0 s0] shape Hs0 _ IHshape]; simpl; intros fields H.
    + injection H as <-. constructor.
    + destruct (parse_fields props shape) as [out|];
        [|destruct (safeParse s0 (lookup k0 props)) as [[]|]; discriminate].
      destruct (safeParse s0 (lookup k0 props)) as [y|] eqn:Ey;
        [|discriminate].
      specialize (IHshape out eq_refl). simpl in Hs0.
      pose proof (Hs0 _ _ Ey) as Hy.
      destruct y; cbn iota beta in H; injection H as <-; try (constructor; assumption).
      destruct (has_key k0 props); [constructor|]; assumption.
  - apply safeParse_optional_inv in H as [[-> ->] | [_ H]];
      [constructor | auto].
Qed.

End ZodFacts.

Local Open Scope list_scope.
Local Open Scope string_scope.

(** ** [analyzeMerged] *)

Section AnalyzeMergedFacts.
Context {P : Platform} {S : Type} {Svc : Service S}.
Import Zod ZodFacts V2Schemas FlatSchemas.

Lemma V2_analyzeMerged_eq userId mergedPayload healthDatabases options :
  truthy mergedPayload = true ->
  V2.analyzeMerged userId mergedPayload healthDatabases options
  = bind (V2_fetch userId mergedPayload healthDatabases options)
      (V2.validate userId).
Proof. intro H. unfold V2.analyzeMerged. now rewrite H. Qed.

Lemma Flat_analyzeMerged_eq adapter userId mergedPayload healthDatabases
    options :
  truthy mergedPayload = true ->
  Flat.analyzeMerged adapter userId mergedPayload healthDatabases options
  = bind (Flat_fetch adapter userId mergedPayload healthDatabases options)
      (Flat.validate userId).
Proof. intro H. unfold Flat.analyzeMerged. now rewrite H. Qed.

Lemma bind_returned {A B} (c : M S A) (k : A -> M S B) s a s1 t1 :
  c s = (Ret a, s1, t1) ->
  bind c k s = (let '(r, s2, t2) := k a s1 in (r, s2, (t1 ++ t2)%list)).
Proof. intro H. unfold bind. now rewrite H. Qed.

Lemma bind_thrown {A B} (c : M S A) (k : A -> M S B) s e s1 t1 :
  c s = (Throw e, s1, t1) -> bind c k s = (Throw e, s1, t1).
Proof. intro H. unfold bind. now rewrite H. Qed.

(** *** The three ways out of [V2.validate] *)

Lemma V2_validate_current userId raw analysis s :
  safeParse AnalysisV2 raw = Some analysis ->
  V2.validate userId raw s
  = (Ret analysis, s,
     [EvLog "info"
          (JObj [("userId", JStr userId);
                 ("model", get_opt analysis "model_version");
                 ("preds",
                  or_else
                    (length_opt
                       (get_opt (get_opt analysis "projection")
                          "predictions"))
                    (JNum 0))])
          "analysis v2 ok"]).
Proof. intro H. unfold V2.validate. rewrite H. reflexivity. Qed.

Lemma V2_validate_legacy userId raw legacyData s :
  safeParse AnalysisV2 raw = None ->
  safeParse LegacyAnalysis raw = Some legacyData ->
  V2.validate userId raw s
  = (Ret (V2.upgrade_legacy legacyData (legacy_stamp legacyData s)), s,
     [EvLog "warn" (JObj [("userId", JStr userId)])
        "legacy analysis returned, converting to v2 shape"]).
Proof.
  intros H2 HL. unfold V2.validate, legacy_stamp. rewrite H2, HL.
  destruct (truthy (get_opt legacyData "generated_on")); reflexivity.
Qed.

Lemma V2_validate_invalid userId raw s :
  safeParse AnalysisV2 raw = None ->
  safeParse LegacyAnalysis raw = None ->
  V2.validate userId raw s
  = (Throw (Error "Invalid analysis returned from model"), s,
     [EvLog "error" (JObj [("raw", raw)])
        "Invalid analysis schema from LLM"]).
Proof. intros H2 HL. unfold V2.validate. now rewrite H2, HL. Qed.

Lemma Flat_validate_invalid userId rawResult s :
  safeParse AnalysisSchema rawResult = None ->
  Flat.validate userId rawResult s
  = (Throw (Error "Invalid analysis result from Groq"), s,
     [EvLog "error" (JObj [("rawResult", rawResult)])
        "Groq returned invalid analysis schema"]).
Proof. intro H. unfold Flat.validate. now rewrite H. Qed.

(** *** What a validated legacy document holds *)

Lemma NoDup_keys_LegacyAnalysis :
  forall shape, LegacyAnalysis = ZObject shape -> NoDup (map fst shape).
Proof.
  intros shape H. injection H as <-.
  repeat constructor; simpl; intuition discriminate.
Qed.

(** The predictions of a validated legacy document: none when the
    response has no list, and as many as the response lists otherwise. *)
Lemma legacy_predictions raw legacyData :
  safeParse LegacyAnalysis raw = Some legacyData ->
  (get_opt legacyData "predictions" = JUndef /\ predictions_count raw = 0)
  \/ (exists ds, get_opt legacyData "predictions" = JArr ds
                 /\ List.length ds = predictions_count raw).
Proof.
  intro H. unfold LegacyAnalysis in H.
  pose proof (NoDup_keys_LegacyAnalysis _ eq_refl) as Hnd.
  apply safeParse_object_inv in H as (props & fields & -> & -> & H).
  pose proof (parse_fields_lookup props _ fields "predictions"
                (ZOptional (ZArray Pred)) H Hnd) as Hp.
  specialize (Hp ltac:(simpl; tauto)).
  unfold predictions_count. cbn [get_opt].
  apply safeParse_optional_inv in Hp as [[Hv Hd] | [_ Hp]].
  - left. clear H Hnd. rewrite Hv, Hd. split; reflexivity.
  - right. clear H Hnd.
    apply safeParse_array_inv in Hp as (items & ds & Hv & Hd & Hi).
    exists ds. rewrite Hv, Hd. split; [reflexivity|].
    eapply parse_items_length; eassumption.
Qed.

(** The shape of an upgraded document. *)
Lemma upgrade_legacy_shape legacyData stamp ds :
  or_else (get_opt legacyData "predictions") (JArr []) = JArr ds ->
  let out := V2.upgrade_legacy legacyData stamp in
  get_opt (get_opt out "projection") "predictions" = JArr ds
  /\ get_opt (get_opt out "baseline") "predictions" = JArr []
  /\ exists deltas,
       get_opt out "deltas" = JArr deltas
       /\ List.length deltas = List.length ds
       /\ Forall (fun d => get_opt d "baseline_pct" = JNum (-1)
                         /\ get_opt d "delta_pct" = JNum (-1)) deltas.
Proof.
  intros Hp out. subst out. unfold V2.upgrade_legacy. rewrite Hp.
  cbn [get_opt lookup String.eqb Ascii.eqb Bool.eqb array_map].
  split; [reflexivity|]. split; [reflexivity|].
  eexists. split; [reflexivity|]. split; [apply length_map|].
  apply Forall_forall. intros d Hd. apply in_map_iff in Hd as (p & <- & _).
  split; reflexivity.
Qed.

(** *** The way out of [Flat.validate] on a valid document *)

Lemma round_prediction_probability p :
  get_opt (Flat.round_prediction p) "probability_pct"
  = rounded (get_opt p "probability_pct").
Proof.
  destruct p; try reflexivity. cbn [Flat.round_prediction get_opt].
  rewrite ObjFacts.lookup_assign_same.
  destruct (lookup "probability_pct" props); reflexivity.
Qed.

Lemma round_prediction_other k p :
  ("probability_pct" =? k) = false ->
  get_opt (Flat.round_prediction p) k = get_opt p k.
Proof.
  intro Hk. destruct p; try reflexivity.
  cbn [Flat.round_prediction get_opt].
  now apply ObjFacts.lookup_assign_other.
Qed.

Lemma Flat_validate_valid userId raw fields s :
  safeParse AnalysisSchema raw = Some (JObj fields) ->
  Flat.validate userId raw s
  = (Ret (flat_result fields s), s,
     [EvLog "info"
        (JObj [("userId", JStr userId);
               ("model", get_opt (flat_result fields s) "model_version");
               ("predictions",
                length_opt (get_opt (flat_result fields s) "predictions"))])
        "analysis completed with Groq"]).
Proof.
  intro H. unfold Flat.validate. rewrite H. unfold flat_result.
  unfold bind, lift, set, logger, emit, ret, now. cbn [get_opt].
  set (f1 := assign "predictions" _ fields).
  set (f2 := assign "model_version" _ f1).
  destruct (truthy (lookup "generated_on" f2)); reflexivity.
Qed.

Lemma flat_result_predictions fields s :
  get_opt (flat_result fields s) "predictions"
  = array_map Flat.round_prediction (lookup "predictions" fields).
Proof.
  unfold flat_result. cbn [get_opt].
  rewrite !ObjFacts.lookup_assign_other by reflexivity.
  apply ObjFacts.lookup_assign_same.
Qed.

Lemma flat_result_other fields s k :
  ("predictions" =? k) = false -> ("model_version" =? k) = false ->
  ("generated_on" =? k) = false ->
  get_opt (flat_result fields s) k = lookup k fields.
Proof.
  intros H1 H2 H3. unfold flat_result. cbn [get_opt].
  now rewrite !ObjFacts.lookup_assign_other.
Qed.

Lemma flat_result_probabilities fields s :
  flat_probabilities (flat_result fields s)
  = map rounded (flat_probabilities (JObj fields)).
Proof.
  unfold flat_probabilities. rewrite flat_result_predictions.
  cbn [get_opt]. destruct (lookup "predictions" fields); try reflexivity.
  cbn [array_map]. rewrite !map_map. apply map_ext.
  intro p. apply round_prediction_probability.
Qed.

End AnalyzeMergedFacts.

Local Open Scope list_scope.
Local Open Scope string_scope.

Section AnalyzeMergedTheorems.
Context {P : Platform} {S : Type} {Svc : Service S}.
Import Zod ZodFacts V2Schemas FlatSchemas.

(** *** What a validated current-shape document holds *)

Lemma NoDup_keys_Pred :
  forall shape, Pred = ZObject shape -> NoDup (map fst shape).
Proof.
  intros shape H. injection H as <-.
  repeat constructor; simpl; intuition discriminate.
Qed.

Lemma NoDup_keys_AnalysisV2 :
  forall shape, AnalysisV2 = ZObject shape -> NoDup (map fst shape).
Proof.
  intros shape H. injection H as <-.
  repeat constructor; simpl; intuition discriminate.
Qed.

(** A validated prediction keeps the probability it came with. *)
Lemma Pred_keeps_probability x y :
  safeParse Pred x = Some y ->
  get_opt y "probability_pct" = get_opt x "probability_pct".
Proof.
  intro H. unfold Pred in H.
  pose proof (NoDup_keys_Pred _ eq_refl) as Hnd.
  apply safeParse_object_inv in H as (props & fields & -> & -> & H).
  pose proof (parse_fields_lookup props _ fields "probability_pct"
                (ZNumber []) H Hnd) as Hp.
  specialize (Hp ltac:(simpl; tauto)). clear H Hnd.
  apply safeParse_number_inv in Hp as [Hp _]. exact Hp.
Qed.

Lemma parse_items_keep_probabilities items ds :
  parse_items Pred items = Some ds ->
  map (fun p => get_opt p "probability_pct") ds
  = map (fun p => get_opt p "probability_pct") items.
Proof.
  intro H. apply parse_items_Forall2 in H.
  induction H as [|x y items ds Hxy _ IH]; [reflexivity|].
  cbn [map]. rewrite IH. f_equal. apply Pred_keeps_probability, Hxy.
Qed.

Lemma part_keeps_probabilities part raw analysis :
  safeParse (ZOptional (ZObject [("predictions", ZArray Pred)]))
    (get_opt raw part) = Some (get_opt analysis part) ->
  probabilities part analysis = probabilities part raw.
Proof.
  intro H. unfold probabilities.
  apply safeParse_optional_inv in H as [[-> ->] | [_ H]]; [reflexivity|].
  apply safeParse_object_inv in H as (props & fields & -> & -> & H).
  assert (Hnd : NoDup (map fst [("predictions", ZArray Pred)]))
    by (repeat constructor; simpl; tauto).
  pose proof (parse_fields_lookup props _ fields "predictions"
                (ZArray Pred) H Hnd) as Hp.
  specialize (Hp ltac:(simpl; tauto)). clear H Hnd.
  apply safeParse_array_inv in Hp as (items & ds & Hv & Hd & Hi).
  cbn [get_opt]. rewrite Hv, Hd.
  apply parse_items_keep_probabilities, Hi.
Qed.

Lemma current_keeps_probabilities raw analysis :
  safeParse AnalysisV2 raw = Some analysis ->
  probabilities "baseline" analysis = probabilities "baseline" raw
  /\ probabilities "projection" analysis = probabilities "projection" raw.
Proof.
  intro H. unfold AnalysisV2 in H.
  pose proof (NoDup_keys_AnalysisV2 _ eq_refl) as Hnd.
  apply safeParse_object_inv in H as (props & fields & -> & -> & H).
  pose proof (parse_fields_lookup props _ fields "baseline"
                (ZOptional (ZObject [("predictions", ZArray Pred)]))
                H Hnd) as Hb.
  specialize (Hb ltac:(simpl; tauto)).
  pose proof (parse_fields_lookup props _ fields "projection"
                (ZOptional (ZObject [("predictions", ZArray Pred)]))
                H Hnd) as Hp.
  specialize (Hp ltac:(simpl; tauto)).
  clear H Hnd. split; apply part_keeps_probabilities; assumption.
Qed.

(** The upgrader, on what reaches it.  For every result of the adapter
    that fails the validation against the current shape and passes the
    validation against the legacy shape, with a list of N predictions
    (none when the list is absent), [analyzeMerged] returns the upgraded
    document:
    [projection.predictions] has length N, [baseline.predictions] is
    empty, and [deltas] has length N with [baseline_pct = -1] and
    [delta_pct = -1] in every entry. *)
Theorem legacy_response_is_upgraded :
  forall (userId : string) (mergedPayload : value)
         (healthDatabases : option (list string)) (options : value)
         (s s1 : S) (t1 : list event) (raw legacyData : value),
    truthy mergedPayload = true ->
    V2_fetch userId mergedPayload healthDatabases options s
    = (Ret raw, s1, t1) ->
    safeParse AnalysisV2 raw = None ->
    safeParse LegacyAnalysis raw = Some legacyData ->
    exists (out : value) (projection deltas : list value),
      V2.analyzeMerged userId mergedPayload healthDatabases options s
      = (Ret out, s1,
         (t1 ++ [EvLog "warn" (JObj [("userId", JStr userId)])
                   "legacy analysis returned, converting to v2 shape"])%list)
      /\ get_opt (get_opt out "projection") "predictions" = JArr projection
      /\ List.length projection = predictions_count raw
      /\ get_opt (get_opt out "baseline") "predictions" = JArr []
      /\ get_opt out "deltas" = JArr deltas
      /\ List.length deltas = predictions_count raw
      /\ Forall (fun d => get_opt d "baseline_pct" = JNum (-1)
                        /\ get_opt d "delta_pct" = JNum (-1)) deltas.
Proof.
  intros userId mergedPayload healthDatabases options s s1 t1 raw legacyData
    Hpayload Hfetch Hv2 Hlegacy.
  rewrite (V2_analyzeMerged_eq _ _ _ _ Hpayload).
  rewrite (bind_returned _ _ _ _ _ _ Hfetch).
  rewrite (V2_validate_legacy _ _ _ _ Hv2 Hlegacy).
  set (stamp := legacy_stamp legacyData s1).
  destruct (legacy_predictions raw legacyData Hlegacy)
    as [[Hnone Hcount] | (ds & Hsome & Hcount)].
  - destruct (upgrade_legacy_shape legacyData stamp [])
      as (Hproj & Hbase & deltas & Hdeltas & Hlen & Hall).
    { now rewrite Hnone. }
    exists (V2.upgrade_legacy legacyData stamp), [], deltas.
    rewrite Hcount. repeat split; assumption.
  - destruct (upgrade_legacy_shape legacyData stamp ds)
      as (Hproj & Hbase & deltas & Hdeltas & Hlen & Hall).
    { now rewrite Hsome. }
    exists (V2.upgrade_legacy legacyData stamp), ds, deltas.
    rewrite <- Hcount. repeat split; assumption.
Qed.

(** C2 (as amended).  For every response of the model that is valid JSON
    and fails both validations (the single validation of the flat-schema
    revision), [analyzeMerged] writes an error-level log line that
    carries the raw response and then throws a plain [Error] with a fixed
    message, which does not carry the response; no result is returned. *)
Theorem invalid_response_is_logged_and_rejected :
  forall (userId : string) (mergedPayload : value)
         (healthDatabases : option (list string)) (options : value)
         (s s1 : S) (t1 : list event) (raw : value),
    (truthy mergedPayload = true ->
     V2_fetch userId mergedPayload healthDatabases options s
     = (Ret raw, s1, t1) ->
     safeParse AnalysisV2 raw = None ->
     safeParse LegacyAnalysis raw = None ->
     V2.analyzeMerged userId mergedPayload healthDatabases options s
     = (Throw (Error "Invalid analysis returned from model"), s1,
        (t1 ++ [EvLog "error" (JObj [("raw", raw)])
                  "Invalid analysis schema from LLM"])%list))
    /\
    (forall adapter : adapter_args -> M S value,
       truthy mergedPayload = true ->
       Flat_fetch adapter userId mergedPayload healthDatabases options s
       = (Ret raw, s1, t1) ->
       safeParse AnalysisSchema raw = None ->
       Flat.analyzeMerged adapter userId mergedPayload healthDatabases
         options s
       = (Throw (Error "Invalid analysis result from Groq"), s1,
          (t1 ++ [EvLog "error" (JObj [("rawResult", raw)])
                    "Groq returned invalid analysis schema"])%list)).
Proof.
  intros userId mergedPayload healthDatabases options s s1 t1 raw. split.
  - intros Hpayload Hfetch Hv2 Hlegacy.
    rewrite (V2_analyzeMerged_eq _ _ _ _ Hpayload).
    rewrite (bind_returned _ _ _ _ _ _ Hfetch).
    now rewrite (V2_validate_invalid _ _ _ Hv2 Hlegacy).
  - intros adapter Hpayload Hfetch Hflat.
    rewrite (Flat_analyzeMerged_eq _ _ _ _ _ Hpayload).
    rewrite (bind_returned _ _ _ _ _ _ Hfetch).
    now rewrite (Flat_validate_invalid _ _ _ Hflat).
Qed.

Lemma NoDup_keys_PredictionSchema :
  forall shape, PredictionSchema = ZObject shape -> NoDup (map fst shape).
Proof.
  intros shape H. injection H as <-.
  repeat constructor; simpl; intuition discriminate.
Qed.

Lemma NoDup_keys_AnalysisSchema :
  forall shape, AnalysisSchema = ZObject shape -> NoDup (map fst shape).
Proof.
  intros shape H. injection H as <-.
  repeat constructor; simpl; intuition discriminate.
Qed.

Lemma PredictionSchema_keeps_probability x y :
  safeParse PredictionSchema x = Some y ->
  get_opt y "probability_pct" = get_opt x "probability_pct".
Proof.
  intro H. unfold PredictionSchema in H.
  pose proof (NoDup_keys_PredictionSchema _ eq_refl) as Hnd.
  apply safeParse_object_inv in H as (props & fields & -> & -> & H).
  pose proof (parse_fields_lookup props _ fields "probability_pct"
                (ZNumber []) H Hnd) as Hp.
  specialize (Hp ltac:(simpl; tauto)). clear H Hnd.
  apply safeParse_number_inv in Hp as [Hp _]. exact Hp.
Qed.

Lemma flat_keeps_probabilities raw analysis :
  safeParse AnalysisSchema raw = Some analysis ->
  flat_probabilities analysis = flat_probabilities raw.
Proof.
  intro H. unfold AnalysisSchema in H.
  pose proof (NoDup_keys_AnalysisSchema _ eq_refl) as Hnd.
  apply safeParse_object_inv in H as (props & fields & -> & -> & H).
  pose proof (parse_fields_lookup props _ fields "predictions"
                (ZArray PredictionSchema) H Hnd) as Hp.
  specialize (Hp ltac:(simpl; tauto)). clear H Hnd.
  apply safeParse_array_inv in Hp as (items & ds & Hv & Hd & Hi).
  unfold flat_probabilities. cbn [get_opt]. rewrite Hv, Hd.
  clear Hv Hd. apply parse_items_Forall2 in Hi.
  induction Hi as [|x y items ds Hxy _ IH]; [reflexivity|].
  cbn [map]. rewrite IH. f_equal.
  apply PredictionSchema_keeps_probability, Hxy.
Qed.

(** C8 (as amended).  A response of the model that validates is returned
    as the validated document: the response with the keys outside the
    schema left out and every remaining value unchanged.  In the
    baseline/projection/deltas revision nothing more is done: the
    [probability_pct] of every baseline and projection prediction is the
    number the response gave, not rounded.  In the flat-schema revision
    the [probability_pct] of every prediction is rounded to one decimal
    place, the two metadata strings are kept unless they are empty, and
    every other field is the validated one. *)
Theorem validated_response_is_returned :
  forall (userId : string) (mergedPayload : value)
         (healthDatabases : option (list string)) (options : value)
         (s s1 : S) (t1 : list event) (raw analysis : value),
    truthy mergedPayload = true ->
    (V2_fetch userId mergedPayload healthDatabases options s
     = (Ret raw, s1, t1) ->
     safeParse AnalysisV2 raw = Some analysis ->
     fst (fst (V2.analyzeMerged userId mergedPayload healthDatabases
                 options s))
     = Ret analysis
     /\ trimmed analysis raw
     /\ probabilities "baseline" analysis = probabilities "baseline" raw
     /\ probabilities "projection" analysis
        = probabilities "projection" raw)
    /\
    (forall adapter : adapter_args -> M S value,
       Flat_fetch adapter userId mergedPayload healthDatabases options s
       = (Ret raw, s1, t1) ->
       safeParse AnalysisSchema raw = Some analysis ->
       exists out : value,
         fst (fst (Flat.analyzeMerged adapter userId mergedPayload
                     healthDatabases options s))
         = Ret out
         /\ trimmed analysis raw
         /\ flat_probabilities out = map rounded (flat_probabilities raw)
         /\ get_opt out "predictions"
            = array_map Flat.round_prediction
                (get_opt analysis "predictions")
         /\ (truthy (get_opt analysis "model_version") = true ->
             get_opt out "model_version"
             = get_opt analysis "model_version")
         /\ (truthy (get_opt analysis "generated_on") = true ->
             get_opt out "generated_on" = get_opt analysis "generated_on")
         /\ (forall k : string,
               ("predictions" =? k) = false ->
               ("model_version" =? k) = false ->
               ("generated_on" =? k) = false ->
               get_opt out k = get_opt analysis k)).
Proof.
  intros userId mergedPayload healthDatabases options s s1 t1 raw analysis
    Hpayload. split.
  - intros Hfetch Hv2.
    rewrite (V2_analyzeMerged_eq _ _ _ _ Hpayload).
    rewrite (bind_returned _ _ _ _ _ _ Hfetch).
    rewrite (V2_validate_current _ _ _ _ Hv2).
    split; [reflexivity|].
    split; [eapply safeParse_trimmed; eassumption|].
    apply current_keeps_probabilities, Hv2.
  - intros adapter Hfetch Hflat.
    pose proof (safeParse_trimmed _ _ _ Hflat) as Htrim.
    pose proof (flat_keeps_probabilities _ _ Hflat) as Hprob.
    destruct (safeParse_object_inv _ _ _ Hflat)
      as (props & fields & -> & -> & _).
    exists (flat_result fields s1).
    rewrite (Flat_analyzeMerged_eq _ _ _ _ _ Hpayload).
    rewrite (bind_returned _ _ _ _ _ _ Hfetch).
    rewrite (Flat_validate_valid _ _ _ _ Hflat).
    split; [reflexivity|]. split; [exact Htrim|].
    split; [now rewrite flat_result_probabilities, Hprob|].
    split; [apply flat_result_predictions|].
    split; [|split].
    + intro Ht. cbn [get_opt] in *. unfold flat_result. cbn [get_opt].
      rewrite ObjFacts.lookup_assign_other by reflexivity.
      rewrite ObjFacts.lookup_assign_same.
      rewrite ObjFacts.lookup_assign_other by reflexivity.
      unfold or_else. now rewrite Ht.
    + intro Ht. cbn [get_opt] in *. unfold flat_result. cbn [get_opt].
      rewrite ObjFacts.lookup_assign_same.
      rewrite !ObjFacts.lookup_assign_other by reflexivity.
      now rewrite Ht.
    + intros k H1 H2 H3. now apply flat_result_other.
Qed.

(** C9.  A call of [analyzeMerged] without a merged payload ([undefined]
    or [null], or any other falsy value) throws the missing-input error at
    once, in both revisions: the state of the world is left as it was and
    no event happens, so the service is not called, and nothing is
    retried or awaited. *)
Theorem missing_payload_fails_at_once :
  forall (userId : string) (mergedPayload : value)
         (healthDatabases : option (list string)) (options : value)
         (s : S),
    truthy mergedPayload = false ->
    V2.analyzeMerged userId mergedPayload healthDatabases options s
    = (Throw (Error "mergedPayload is required"), s, [])
    /\
    (forall adapter : adapter_args -> M S value,
       Flat.analyzeMerged adapter userId mergedPayload healthDatabases
         options s
       = (Throw (Error "mergedPayload is required"), s, [])).
Proof.
  intros userId mergedPayload healthDatabases options s Hpayload. split.
  - unfold V2.analyzeMerged. now rewrite Hpayload.
  - intro adapter. unfold Flat.analyzeMerged. now rewrite Hpayload.
Qed.

End AnalyzeMergedTheorems.

Local Open Scope string_scope.
Local Open Scope list_scope.

(** ** Numbers *)

Module NumFacts.

Lemma SFcompare_antisym (a b : spec_float) :
  SFcompare b a = option_map CompOpp (SFcompare a b).
Proof.
  destruct a as [sa | sa | | sa ma ea], b as [sb | sb | | sb mb eb];
    try reflexivity;
    try (destruct sa; reflexivity);
    try (destruct sb; reflexivity);
    try (destruct sa, sb; reflexivity).
  simpl. destruct sa, sb; try reflexivity; cbn [option_map]; f_equal;
    rewrite (Z.compare_antisym ea eb);
    destruct (ea ?= eb)%Z; try reflexivity; cbn [CompOpp];
    rewrite (Pos.compare_cont_antisym ma mb Eq); reflexivity.
Qed.

(** A number below [y] is not at least [y]. *)
Lemma ltb_not_geb (x y : float) :
  (x <? y)%float = true -> (y <=? x)%float = false.
Proof.
  rewrite ltb_spec, leb_spec. unfold SFltb, SFleb.
  rewrite (SFcompare_antisym (Prim2SF x) (Prim2SF y)).
  destruct (SFcompare (Prim2SF x) (Prim2SF y)) as [[]|];
    try discriminate; reflexivity.
Qed.

End NumFacts.

(** ** The retry wrappers *)

(** One iteration of the classifying loop, by the outcome of [fn]. *)
Lemma classifying_returns {S T : Type} (fn : M S T) base i n lastErr s v s1 t :
  fn s = (Ret v, s1, t) ->
  Classifying.withRetries_from fn base i (Datatypes.S n) lastErr s
  = (Ret v, s1, t).
Proof. intro H. cbn [Classifying.withRetries_from]. unfold try_catch. now rewrite H. Qed.

Lemma classifying_rethrows {S T : Type} (fn : M S T) base i n lastErr s e s1 t :
  fn s = (Throw e, s1, t) ->
  Classifying.transient e = Ret false ->
  Classifying.withRetries_from fn base i (Datatypes.S n) lastErr s
  = (Throw e, s1, t).
Proof.
  intros H Ht. cbn [Classifying.withRetries_from]. unfold try_catch.
  rewrite H. unfold bind, lift. rewrite Ht. unfold throw.
  now rewrite !app_nil_r.
Qed.

Lemma classifying_retries {S T : Type} (fn : M S T) base i n lastErr s e s1 t :
  fn s = (Throw e, s1, t) ->
  Classifying.transient e = Ret true ->
  Classifying.withRetries_from fn base i (Datatypes.S n) lastErr s
  = (let '(r, s2, t2) :=
       Classifying.withRetries_from fn base (i + 1) n e s1 in
     (r, s2,
      t ++ EvLog "warn"
             (JObj [("err", e); ("attempt", JNum (Num.of_nat (i + 1)));
                    ("delay",
                     JNum (Num.of_Z (base * 2 ^ Z.of_nat i)))])
             "Transient error from analyzeWithGroq — retrying"
        :: EvSleep (base * 2 ^ Z.of_nat i) :: t2)).
Proof.
  intros H Ht. cbn [Classifying.withRetries_from]. unfold try_catch.
  rewrite H. unfold bind, lift. rewrite Ht.
  unfold logger, sleep, emit.
  destruct (Classifying.withRetries_from fn base (i + 1) n e s1)
    as [[r s2] t2].
  reflexivity.
Qed.

Section RetryFacts.
Context {S T : Type}.

Lemma sleeps_app (t1 t2 : list event) :
  sleeps (t1 ++ t2) = sleeps t1 ++ sleeps t2.
Proof. unfold sleeps. apply flat_map_app. Qed.

Lemma requests_app (t1 t2 : list event) :
  requests (t1 ++ t2) = requests t1 ++ requests t2.
Proof. unfold requests. apply flat_map_app. Qed.

Lemma backoff_step (base : Z) (i k : nat) :
  backoff base i (Datatypes.S k)
  = (base * 2 ^ Z.of_nat i)%Z :: backoff base (i + 1) k.
Proof. unfold backoff. rewrite Nat.add_1_r. reflexivity. Qed.

Lemma non_transient_not_retried (e : value) :
  non_transient e -> Classifying.transient e = Ret false.
Proof.
  intros (x & Hstatus & Hpresent & H429 & H500 & inc & Hinc & Hfalsy).
  unfold Classifying.transient. rewrite Hinc, Hstatus. cbn [obind].
  unfold Classifying.is_429, Classifying.is_5xx.
  rewrite Hfalsy, H429, Hpresent, (NumFacts.ltb_not_geb _ _ H500).
  reflexivity.
Qed.

(** A number that is 429, or 500 or more, is truthy. *)
Lemma status_number_truthy (v : value) :
  Classifying.is_5xx v || Classifying.is_429 v = true -> truthy v = true.
Proof.
  destruct v as [ | | b | x | s | items | props ]; try discriminate.
  cbn [Classifying.is_5xx Classifying.is_429 truthy].
  unfold PrimFloat.is_zero, PrimFloat.is_nan.
  rewrite leb_spec, !eqb_spec.
  change (Prim2SF 500) with (S754_finite false 8796093022208000 (-44)).
  change (Prim2SF 429) with (S754_finite false 7547047813054464 (-44)).
  change (Prim2SF zero) with (S754_zero false).
  destruct (Prim2SF x) as [sg | sg | | sg m e].
  - destruct sg; discriminate.
  - destruct sg; [discriminate | reflexivity].
  - discriminate.
  - intros _.
    assert (Hself : SFeqb (S754_finite sg m e) (S754_finite sg m e) = true).
    { unfold SFeqb, SFcompare.
      destruct sg; rewrite Z.compare_refl, Pos.compare_cont_refl;
        reflexivity. }
    rewrite Hself. now destruct sg.
Qed.

(** The guard and the words of the specification.  An error that is
    transient in those words is accepted by the guard when it has no
    truthy [code] (and its message can be searched): the guard reads
    the status of an error without an HTTP status from its [code]. *)
Lemma transient_in_words_without_code_is_retried (e inc : value) :
  transient_in_words e = true ->
  truthy (get_opt e "code") = false ->
  Classifying.message_includes_rate_limit e = Ret inc ->
  Classifying.transient e = Ret true.
Proof.
  intros Hwords Hcode Hinc.
  unfold Classifying.transient. rewrite Hinc. cbn [obind]. f_equal.
  unfold transient_in_words in Hwords.
  assert (Hst : truthy (http_status e) = true ->
                Classifying.status_of e = http_status e).
  { unfold Classifying.status_of, http_status, or_else.
    destruct (truthy (get_opt (get_opt e "response") "status"));
      [reflexivity|].
    now intros ->. }
  destruct (Classifying.is_5xx (http_status e)
            || Classifying.is_429 (http_status e)) eqn:Hnum.
  - rewrite (Hst (status_number_truthy _ Hnum)).
    apply orb_true_iff in Hnum as [H5 | H4]; rewrite ?H5, ?H4;
      now rewrite ?orb_true_r.
  - cbn [orb] in Hwords.
    assert (Hfalsy : truthy (http_status e) = false)
      by (destruct (http_status e); try discriminate; reflexivity).
    assert (Hs : Classifying.status_of e = get_opt e "code").
    { unfold http_status, or_else in Hfalsy.
      unfold Classifying.status_of, or_else.
      destruct (truthy (get_opt (get_opt e "response") "status")) eqn:Hr;
        [congruence|].
      now rewrite Hfalsy. }
    rewrite Hs, Hcode. now rewrite orb_true_r.
Qed.

Lemma counting_eq (fn : M S T) s c r s1 t :
  fn s = (r, s1, t) -> counting fn (s, c) = (r, (s1, Datatypes.S c), t).
Proof. intro H. unfold counting. cbn [fst snd]. now rewrite H. Qed.

(** The classifying loop on an operation that fails [k] times and then
    succeeds, with more than [k] iterations left. *)
Lemma classifying_loop_succeeds (fn : M S T) base k s v s' :
  fails_then_succeeds fn k s v s' ->
  forall i n lastErr c,
    (k < n)%nat ->
    exists t,
      Classifying.withRetries_from fn base i n lastErr s = (Ret v, s', t)
      /\ Classifying.withRetries_from (counting fn) base i n lastErr (s, c)
         = (Ret v, (s', c + k + 1), t)
      /\ (never_sleeps fn -> sleeps t = backoff base i k).
Proof.
  intros Hrun.
  induction Hrun as [s v s' t Hfn | k s e s1 t v s' Hfn Htrans Hrun IH];
    intros i n lastErr c Hk.
  - destruct n as [|n]; [lia|]. exists t.
    rewrite (classifying_returns fn base i n lastErr s v s' t Hfn).
    rewrite (classifying_returns (counting fn) base i n lastErr (s, c) v
               (s', Datatypes.S c) t (counting_eq fn s c _ _ _ Hfn)).
    replace (c + 0 + 1) with (Datatypes.S c) by lia.
    repeat split. intro Hquiet.
    pose proof (Hquiet s) as Hs. now rewrite Hfn in Hs.
  - destruct n as [|n]; [lia|].
    destruct (IH (i + 1) n e (Datatypes.S c)) as (t2 & H1 & H2 & H3);
      [lia|].
    eexists.
    rewrite (classifying_retries fn base i n lastErr s e s1 t Hfn Htrans).
    rewrite (classifying_retries (counting fn) base i n lastErr (s, c) e
               (s1, Datatypes.S c) t (counting_eq fn s c _ _ _ Hfn) Htrans).
    rewrite H1, H2.
    replace (Datatypes.S c + k + 1) with (c + Datatypes.S k + 1) by lia.
    repeat split. intro Hquiet.
    rewrite sleeps_app. pose proof (Hquiet s) as Hs. rewrite Hfn in Hs.
    cbn [snd] in Hs. rewrite Hs. cbn [app].
    change (sleeps (?a :: EvSleep ?d :: ?r)) with (d :: sleeps r).
    now rewrite (H3 Hquiet), backoff_step.
Qed.

(** The errors the guard of the wrapper accepts.  If the wrapped
    operation fails with such an error exactly [k] times and then
    succeeds, with [k] below the maximum number of attempts, the
    classifying wrapper returns the value of the success, has invoked
    the operation [k + 1] times, and (the operation awaiting no timer of
    its own) has awaited exactly the [k] delays [baseDelayMs * 2^i] for
    [i = 0, ..., k - 1], in this order. *)
Theorem transient_failures_are_retried_with_backoff :
  forall (fn : M S T) (retries : nat) (baseDelayMs : Z) (k : nat)
         (s s' : S) (v : T),
    (k < retries)%nat ->
    fails_then_succeeds fn k s v s' ->
    exists t : list event,
      Classifying.withRetries fn retries baseDelayMs s = (Ret v, s', t)
      /\ Classifying.withRetries (counting fn) retries baseDelayMs (s, 0)
         = (Ret v, (s', k + 1), t)
      /\ (never_sleeps fn -> sleeps t = backoff baseDelayMs 0 k).
Proof.
  intros fn retries baseDelayMs k s s' v Hk Hrun.
  unfold Classifying.withRetries.
  exact (classifying_loop_succeeds fn baseDelayMs k s v s' Hrun
           0 retries JNull 0 Hk).
Qed.

(** C3 (as amended).  With at least one attempt allowed, if the wrapped
    operation fails with a non-transient error (its status is present,
    is not 429 and is below 500, and its message does not speak of a
    rate limit), the classifying wrapper rethrows that error after this
    one invocation: the state and the events are those the one
    invocation left, so no delay is awaited. *)
Theorem non_transient_error_is_rethrown_at_once :
  forall (fn : M S T) (retries : nat) (baseDelayMs : Z)
         (s s1 : S) (e : value) (t : list event),
    (0 < retries)%nat ->
    fn s = (Throw e, s1, t) ->
    non_transient e ->
    Classifying.withRetries fn retries baseDelayMs s = (Throw e, s1, t)
    /\ Classifying.withRetries (counting fn) retries baseDelayMs (s, 0)
       = (Throw e, (s1, 1), t)
    /\ (never_sleeps fn -> sleeps t = []).
Proof.
  intros fn retries baseDelayMs s s1 e t Hretries Hfn Hnt.
  apply non_transient_not_retried in Hnt.
  destruct retries as [|n]; [lia|].
  unfold Classifying.withRetries. split; [|split].
  - now apply classifying_rethrows.
  - apply classifying_rethrows; [|exact Hnt].
    now apply counting_eq.
  - intro Hquiet. pose proof (Hquiet s) as Hs. now rewrite Hfn in Hs.
Qed.

End RetryFacts.

(** The wrapper of the baseline/projection/deltas revision does not look
    at the error: while attempts are left it retries, after a fixed delay. *)
Lemma simple_retries {S T : Type} (fn : M S T) delayMs i n lastErr s e s1 t :
  fn s = (Throw e, s1, t) ->
  nullish e = false ->
  Simple.withRetries_from fn delayMs i (Datatypes.S n) lastErr s
  = (let '(r, s2, t2) :=
       Simple.withRetries_from fn delayMs (i + 1) n e s1 in
     (r, s2,
      t ++ EvLog "warn"
             (JObj [("attempt", JNum (Num.of_nat (i + 1)));
                    ("error", get_opt e "message")])
             "Retrying analyzeWithGroq..."
        :: (if (0 <? n)%nat then [EvSleep delayMs] else []) ++ t2)).
Proof.
  intros H Hn. cbn [Simple.withRetries_from]. unfold try_catch.
  rewrite H. unfold bind, lift, logger, sleep, emit, ret.
  assert (Hget : get e "message" = Ret (get_opt e "message"))
    by (destruct e; try discriminate; reflexivity).
  rewrite Hget. cbn [obind].
  destruct (0 <? n)%nat;
    destruct (Simple.withRetries_from fn delayMs (i + 1) n e s1)
      as [[r s2] t2];
    reflexivity.
Qed.

Section SimpleRetryFacts.
Context {S T : Type}.

Lemma simple_loop_fails (fn : M S T) delayMs :
  never_sleeps fn ->
  always_fails fn ->
  forall n i lastErr s c,
    exists e s' t,
      Simple.withRetries_from (counting fn) delayMs i (Datatypes.S n)
        lastErr (s, c)
      = (Throw e, (s', c + Datatypes.S n), t)
      /\ sleeps t = repeat delayMs n.
Proof.
  intros Hquiet Hfails. induction n as [|n IH]; intros i lastErr s c.
  - destruct (Hfails s) as (e & s1 & t & Hfn & Hne).
    exists e, s1. eexists.
    rewrite (simple_retries (counting fn) delayMs i 0 lastErr (s, c) e
               (s1, Datatypes.S c) t (counting_eq fn s c _ _ _ Hfn) Hne).
    cbn [Simple.withRetries_from throw Nat.ltb Nat.leb app].
    replace (c + 1) with (Datatypes.S c) by lia.
    split; [reflexivity|].
    rewrite sleeps_app. pose proof (Hquiet s) as Hs. rewrite Hfn in Hs.
    cbn [snd] in Hs. now rewrite Hs.
  - destruct (Hfails s) as (e & s1 & t & Hfn & Hne).
    destruct (IH (i + 1) e s1 (Datatypes.S c)) as (e' & s' & t' & H1 & H2).
    exists e', s'. eexists.
    rewrite (simple_retries (counting fn) delayMs i (Datatypes.S n) lastErr
               (s, c) e (s1, Datatypes.S c) t
               (counting_eq fn s c _ _ _ Hfn) Hne).
    rewrite H1.
    replace (Datatypes.S c + Datatypes.S n)
      with (c + Datatypes.S (Datatypes.S n)) by lia.
    split; [reflexivity|].
    rewrite sleeps_app. pose proof (Hquiet s) as Hs. rewrite Hfn in Hs.
    cbn [snd] in Hs. rewrite Hs. cbn [app Nat.ltb Nat.leb].
    change (sleeps (?a :: EvSleep ?d :: ?r)) with (d :: sleeps r).
    now rewrite H2.
Qed.

(** Whatever the errors are, the simple wrapper invokes a failing
    operation as many times as attempts are allowed, and awaits the fixed
    delay between two attempts. *)
Lemma simple_wrapper_retries_every_error :
  forall (fn : M S T) (retries : nat) (delayMs : Z) (s : S),
    (0 < retries)%nat ->
    never_sleeps fn ->
    always_fails fn ->
    exists e s' t,
      Simple.withRetries (counting fn) retries delayMs (s, 0)
      = (Throw e, (s', retries), t)
      /\ sleeps t = repeat delayMs (retries - 1).
Proof.
  intros fn retries delayMs s Hretries Hquiet Hfails.
  destruct retries as [|n]; [lia|].
  replace (Datatypes.S n - 1) with n by lia.
  unfold Simple.withRetries.
  exact (simple_loop_fails fn delayMs Hquiet Hfails n 0 JUndef s 0).
Qed.

End SimpleRetryFacts.

Local Open Scope string_scope.
Local Open Scope list_scope.

(** ** [analyzeBatch] *)

Section BatchFacts.
Context {P : Platform} {S : Type} {Svc : Service S}.
Variable adapter : adapter_args -> M S value.

(** [analyzeMerged] on a request of the batch, as [analyzeBatch] calls it. *)
Let analyze : analysis_request -> M S value :=
  fun r => Flat.analyzeMerged adapter (userId r) (mergedPayload r)
             (healthDatabases r) JUndef.

(** Every call of a batch settles, in order. *)
Lemma allSettled_settles (batch : list analysis_request) (s : S) :
  exists outs s' t,
    Flat.allSettled (map analyze batch) s = (Ret outs, s', t)
    /\ Forall2 (settled_by adapter) batch outs.
Proof.
  revert s. induction batch as [|req batch IH]; intro s.
  - exists [], s, []. split; [reflexivity | constructor].
  - cbn [map Flat.allSettled]. unfold analyze at 1.
    destruct (Flat.analyzeMerged adapter (userId req) (mergedPayload req)
                (healthDatabases req) JUndef s) as [[o s1] t1] eqn:Hreq.
    destruct (IH s1) as (outs & s2 & t2 & Hrest & Hall).
    rewrite Hrest. cbn [obind].
    exists (o :: outs), s2, (t1 ++ t2). split; [reflexivity|].
    constructor; [|exact Hall]. exists s, s1, t1. exact Hreq.
Qed.

(** The [forEach] pushes one result per settled call, in order. *)
Lemma collect_pushes (batch : list analysis_request)
    (outs : list (outcome value)) :
  List.length batch = List.length outs ->
  forall (results : list value) (s : S),
    exists t,
      Flat.collect batch outs results s
      = (Ret (results ++ map nullable outs), s, t)
      /\ sleeps t = [].
Proof.
  revert outs. induction batch as [|req batch IH]; intros outs Hlen;
    destruct outs as [|o outs]; try discriminate; intros results s.
  - exists []. cbn. now rewrite app_nil_r.
  - injection Hlen as Hlen. cbn [Flat.collect map].
    destruct o as [v | reason].
    + destruct (IH outs Hlen (results ++ [v]) s) as (t & Ht & Hs).
      exists t. rewrite Ht, <- app_assoc. split; [reflexivity | exact Hs].
    + destruct (IH outs Hlen (results ++ [JNull]) s) as (t & Ht & Hs).
      eexists. unfold bind, logger, emit. rewrite Ht, <- app_assoc.
      split; [reflexivity | exact Hs].
Qed.

(** The loop from index [i], with fuel for the batches that remain. *)
Lemma analyzeBatch_from_spec (analyses : list analysis_request)
    (batchSize : nat) (delayMs : Z) :
  (0 < batchSize)%nat ->
  forall (fuel i : nat) (results : list value) (s : S),
    (List.length analyses - i <= fuel)%nat ->
    exists outs s' t,
      Flat.analyzeBatch_from adapter fuel analyses batchSize delayMs i
        results s
      = (Ret (Some (results ++ map nullable outs)), s', t)
      /\ Forall2 (settled_by adapter) (skipn i analyses) outs.
Proof.
  intro Hsize. induction fuel as [|fuel IH]; intros i results s Hfuel.
  - assert (Hi : (i <? List.length analyses)%nat = false)
      by (apply Nat.ltb_ge; lia).
    exists [], s, []. cbn [Flat.analyzeBatch_from]. rewrite Hi.
    rewrite skipn_all2 by (apply Nat.ltb_ge in Hi; lia).
    cbn. rewrite app_nil_r. split; [reflexivity | constructor].
  - cbn [Flat.analyzeBatch_from].
    destruct (i <? List.length analyses)%nat eqn:Hi.
    + apply Nat.ltb_lt in Hi.
      set (batch := firstn batchSize (skipn i analyses)).
      destruct (allSettled_settles batch s) as (outs & s1 & t1 & Hall & Hset).
      destruct (collect_pushes batch outs (Forall2_length Hset) results s1)
        as (t2 & Hcol & _).
      destruct (IH (i + batchSize) (results ++ map nullable outs) s1)
        as (outs' & s2 & t3 & Hrec & Hset'); [lia|].
      exists (outs ++ outs'), s2.
      fold analyze. fold batch. unfold bind. rewrite Hall, Hcol.
      destruct (i + batchSize <? List.length analyses)%nat;
        unfold sleep, emit, ret; rewrite Hrec;
        rewrite map_app, (app_assoc results);
        (eexists; split; [reflexivity|]);
        rewrite <- (firstn_skipn batchSize (skipn i analyses));
        (apply Forall2_app; [exact Hset|]);
        rewrite skipn_skipn, (Nat.add_comm batchSize i); exact Hset'.
    + exists [], s, []. rewrite app_nil_r.
      apply Nat.ltb_ge in Hi. rewrite skipn_all2 by lia.
      split; [reflexivity | constructor].
Qed.

End BatchFacts.

Local Open Scope string_scope.
Local Open Scope list_scope.

(** ** [analyzeBatch], its calls in flight together *)

Module LogFacts.
Section LogFacts.
Context {S : Type}.

Lemma last_state_app (s : S) (l1 l2 : list (step S)) :
  last_state s (l1 ++ l2) = last_state (last_state s l1) l2.
Proof. revert s. induction l1 as [|st l1 IH]; intro s; [reflexivity | apply IH]. Qed.

Lemma linear_app (s : S) (l1 l2 : list (step S)) :
  linear s l1 -> linear (last_state s l1) l2 -> linear s (l1 ++ l2).
Proof.
  revert s. induction l1 as [|st l1 IH]; intros s H1 H2; [exact H2|].
  destruct H1 as [Hb H1]. split; [exact Hb | now apply IH].
Qed.

Lemma events_of_app (l1 l2 : list (step S)) :
  events_of (l1 ++ l2) = events_of l1 ++ events_of l2.
Proof. apply flat_map_app. Qed.

Lemma pieces_of_app (i : nat) (l1 l2 : list (step S)) :
  pieces_of i (l1 ++ l2) = pieces_of i l1 ++ pieces_of i l2.
Proof. unfold pieces_of. now rewrite filter_app, map_app. Qed.

Lemma pieces_of_outside (i lo hi : nat) (log : list (step S)) :
  tagged_in lo hi log -> (i < lo \/ hi <= i)%nat -> pieces_of i log = [].
Proof.
  intros Hlog Hi. unfold pieces_of.
  induction Hlog as [|st log Hst _ IH]; [reflexivity|].
  cbn [filter]. unfold is_of at 1.
  destruct (who st) as [j|]; [|exact IH].
  destruct (Nat.eqb_spec j i) as [-> | _]; [lia | exact IH].
Qed.

Lemma pieces_of_own (i : nat) (log : list (step S)) :
  Forall (fun st => who st = Some i) log ->
  pieces_of i log = map (fun st => (before st, events st, after st)) log.
Proof.
  intro Hlog. unfold pieces_of.
  induction Hlog as [|st log Hst _ IH]; [reflexivity|].
  cbn [filter map]. unfold is_of at 1. rewrite Hst, Nat.eqb_refl.
  cbn [map]. now rewrite IH.
Qed.

Lemma tagged_in_app (lo hi : nat) (l1 l2 : list (step S)) :
  tagged_in lo hi l1 -> tagged_in lo hi l2 -> tagged_in lo hi (l1 ++ l2).
Proof. intros H1 H2. apply Forall_app. now split. Qed.

Lemma tagged_in_wider (lo hi lo' hi' : nat) (log : list (step S)) :
  (lo' <= lo)%nat -> (hi <= hi')%nat ->
  tagged_in lo hi log -> tagged_in lo' hi' log.
Proof.
  intros Hlo Hhi. apply Forall_impl. intro st.
  destruct (who st); [lia | trivial].
Qed.

Lemma tagged_in_own (i : nat) (log : list (step S)) :
  Forall (fun st => who st = Some i) log -> tagged_in i (i + 1) log.
Proof.
  apply Forall_impl. intros st ->. lia.
Qed.

End LogFacts.
End LogFacts.

Module AsyncFacts.
Import LogFacts.
Section Tasks.
Context {S : Type}.

(** A call run alone runs all its pieces, one after the other. *)
Lemma alone_runs {A} (i : nat) (t : task S A) (s : S) :
  exists (log : list (step S)) (o : outcome A),
    Async.alone t s = (o, last_state s log, events_of log)
    /\ linear s log
    /\ Forall (fun st => who st = Some i) log
    /\ runs_as t (map (fun st => (before st, events st, after st)) log) o.
Proof.
  revert s. induction t as [r | X piece next IH]; intro s.
  - exists [], r. repeat split; constructor.
  - cbn [Async.alone].
    destruct (piece s) as [[r s1] t1] eqn:Hpiece.
    destruct (IH r s1) as (log & o & Hrun & Hlin & Htag & Hruns).
    rewrite Hrun.
    exists ({| who := Some i; before := s; events := t1; after := s1 |}
              :: log), o.
    split; [reflexivity|]. split; [now split|].
    split; [now constructor|].
    cbn [map before events after]. econstructor; eassumption.
Qed.

(** The calls run to their ends in array order. *)
Lemma allSettled_alone_log {A} (ts : list (task S A)) :
  forall (base : nat) (s : S),
  exists (log : list (step S)) (outs : list (outcome A)),
    Flat.allSettled (map Async.alone ts) s
    = (Ret outs, last_state s log, events_of log)
    /\ linear s log
    /\ tagged_in base (base + List.length ts) log
    /\ List.length outs = List.length ts
    /\ forall (j : nat) (t : task S A),
         nth_error ts j = Some t ->
         exists o : outcome A,
           nth_error outs j = Some o
           /\ runs_as t (pieces_of (base + j) log) o.
Proof.
  induction ts as [|t ts IH]; intros base s.
  - exists [], []. repeat split; try constructor.
    intros [|j] t H; discriminate H.
  - cbn [map Flat.allSettled].
    destruct (alone_runs base t s) as (log1 & o & Hrun & Hlin & Htag & Hruns).
    rewrite Hrun.
    destruct (IH (Datatypes.S base) (last_state s log1))
      as (log2 & outs & Hrest & Hlin2 & Htag2 & Hlen & Heach).
    rewrite Hrest. cbn [obind].
    exists (log1 ++ log2), (o :: outs).
    rewrite last_state_app, events_of_app.
    split; [reflexivity|]. split; [now apply linear_app|].
    split.
    { apply tagged_in_app.
      - apply (tagged_in_wider base (base + 1)); [lia | cbn [List.length]; lia|].
        now apply tagged_in_own.
      - apply (tagged_in_wider (Datatypes.S base)
                 (Datatypes.S base + List.length ts));
          [lia | cbn [List.length]; lia | exact Htag2]. }
    split; [cbn [List.length]; now rewrite Hlen|].
    intros [|j] t' Ht'; cbn [nth_error] in Ht' |- *.
    + injection Ht' as <-. exists o. split; [reflexivity|].
      rewrite pieces_of_app, Nat.add_0_r.
      rewrite (pieces_of_outside base (Datatypes.S base)
                 (Datatypes.S base + List.length ts) log2 Htag2)
        by lia.
      rewrite app_nil_r, pieces_of_own by exact Htag. exact Hruns.
    + destruct (Heach j t' Ht') as (o' & Ho' & Hruns').
      exists o'. split; [exact Ho'|].
      rewrite pieces_of_app.
      rewrite (pieces_of_outside (base + Datatypes.S j) base (base + 1) log1)
        by (try lia; now apply tagged_in_own).
      cbn [app].
      replace (base + Datatypes.S j)%nat with (Datatypes.S base + j)%nat by lia.
      exact Hruns'.
Qed.

(** What a turn of the schedule does. *)
Lemma resume_cases {A} (i : nat) (ts : list (task S A)) (s : S) :
  Async.resume i ts s = (ts, s, [])
  \/ exists (X : Type) (piece : M S X) (next : outcome X -> task S A)
            (r : outcome X) (s1 : S) (t1 : list event)
            (ts' : list (task S A)),
       nth_error ts i = Some (Running piece next)
       /\ piece s = (r, s1, t1)
       /\ Async.resume i ts s = (ts', s1, t1)
       /\ List.length ts' = List.length ts
       /\ nth_error ts' i = Some (next r)
       /\ forall j : nat, j <> i -> nth_error ts' j = nth_error ts j.
Proof.
  revert i. induction ts as [|t ts IH]; intro i.
  - left. destruct i; reflexivity.
  - destruct i as [|i].
    + destruct t as [r | X piece next]; [left; reflexivity|].
      right. cbn [Async.resume].
      destruct (piece s) as [[r s1] t1] eqn:Hpiece.
      exists X, piece, next, r, s1, t1, (next r :: ts).
      split; [reflexivity|]. split; [exact Hpiece|].
      do 3 (split; [reflexivity|]).
      intros [|j] Hj; [contradiction | reflexivity].
    + assert (Hstep : Async.resume (Datatypes.S i) (t :: ts) s
                      = let '(rest', s1, t1) := Async.resume i ts s in
                        (t :: rest', s1, t1))
        by (destruct t; reflexivity).
      rewrite Hstep.
      destruct (IH i) as [Hidle | (X & piece & next & r & s1 & t1 & ts' &
                                    Hnth & Hpiece & Hres & Hlen & Hi & Hj)].
      * left. now rewrite Hidle.
      * right. rewrite Hres.
        exists X, piece, next, r, s1, t1, (t :: ts').
        split; [exact Hnth|]. split; [exact Hpiece|].
        split; [reflexivity|]. split; [cbn [List.length]; now rewrite Hlen|].
        split; [exact Hi|].
        intros [|j] Hne; [reflexivity|]. cbn [nth_error]. apply Hj. lia.
Qed.

Lemma allSettled_turn {A} (i : nat) (later : list nat)
    (ts : list (task S A)) (s : S) :
  Async.allSettled (i :: later) ts s
  = let '(ts1, s1, t1) := Async.resume i ts s in
    let '(rs, s2, t2) := Async.allSettled later ts1 s1 in
    (rs, s2, t1 ++ t2).
Proof.
  unfold Async.allSettled. cbn [Async.interleave].
  destruct (Async.resume i ts s) as [[ts1 s1] t1].
  destruct (Async.interleave later ts1 s1) as [[ts2 s2] t2].
  destruct (Flat.allSettled (map Async.alone ts2) s2) as [[rs s3] t3].
  now rewrite app_assoc.
Qed.

(** [Promise.allSettled] under a schedule: every call of the array runs
    all its pieces, in its own order, and the outcomes come in array
    order. *)
Lemma allSettled_log {A} (schedule : list nat) :
  forall (ts : list (task S A)) (base : nat) (s : S),
  exists (log : list (step S)) (outs : list (outcome A)),
    Async.allSettled schedule ts s
    = (Ret outs, last_state s log, events_of log)
    /\ linear s log
    /\ tagged_in base (base + List.length ts) log
    /\ List.length outs = List.length ts
    /\ forall (j : nat) (t : task S A),
         nth_error ts j = Some t ->
         exists o : outcome A,
           nth_error outs j = Some o
           /\ runs_as t (pieces_of (base + j) log) o.
Proof.
  induction schedule as [|i later IH]; intros ts base s.
  - destruct (allSettled_alone_log ts base s)
      as (log & outs & Hrun & Hrest).
    exists log, outs. split; [|exact Hrest].
    unfold Async.allSettled. cbn [Async.interleave]. now rewrite Hrun.
  - rewrite allSettled_turn.
    destruct (resume_cases i ts s)
      as [Hidle | (X & piece & next & r & s1 & t1 & ts' &
                   Hnth & Hpiece & Hres & Hlen & Hi & Hj)].
    + rewrite Hidle.
      destruct (IH ts base s) as (log & outs & Hrun & Hrest).
      exists log, outs. rewrite Hrun. split; [reflexivity | exact Hrest].
    + rewrite Hres.
      destruct (IH ts' base s1)
        as (log & outs & Hrun & Hlin & Htag & Hlen' & Heach).
      rewrite Hrun.
      exists ({| who := Some (base + i); before := s; events := t1;
                 after := s1 |} :: log), outs.
      split; [reflexivity|]. split; [now split|].
      assert (Hlt : (i < List.length ts)%nat)
        by (apply nth_error_Some; rewrite Hnth; discriminate).
      split.
      { constructor; [cbn [who]; lia | now rewrite <- Hlen]. }
      split; [now rewrite Hlen', Hlen|].
      intros j t Ht. unfold pieces_of. cbn [filter]. unfold is_of at 1.
      cbn [who].
      destruct (Nat.eqb_spec (base + i) (base + j)) as [Heq | Hne].
      * assert (j = i) by lia. subst j.
        rewrite Hnth in Ht. injection Ht as <-.
        destruct (Heach i (next r) Hi) as (o & Ho & Hruns).
        exists o. split; [exact Ho|].
        cbn [map before events after]. econstructor; eassumption.
      * rewrite <- (Hj j) in Ht by lia.
        exact (Heach j t Ht).
Qed.

End Tasks.

Section BatchFacts.
Context {P : Platform} {S : Type} {Svc : Service S}.
Variable adapter : adapter_args -> task S value.

Lemma nth_error_batch {A} (l : list A) (i n k : nat) (x : A) :
  nth_error l (i + k) = Some x -> (k < n)%nat ->
  nth_error (firstn n (skipn i l)) k = Some x.
Proof.
  intros Hx Hk. rewrite nth_error_firstn.
  destruct (Nat.ltb_spec k n); [|lia]. now rewrite nth_error_skipn.
Qed.

(** The loop from index [i], with fuel for the batches that remain. *)
Lemma analyzeBatch_from_log (schedule : nat -> list nat)
    (analyses : list analysis_request) (batchSize : nat) (delayMs : Z) :
  (0 < batchSize)%nat ->
  forall (fuel i : nat) (results : list value) (s : S),
    (List.length analyses - i <= fuel)%nat ->
    exists (log : list (step S)) (news : list value),
      Async.analyzeBatch_from adapter schedule fuel analyses batchSize
        delayMs i results s
      = (Ret (Some (results ++ news)), last_state s log, events_of log)
      /\ linear s log
      /\ tagged_in i (List.length analyses) log
      /\ List.length news = (List.length analyses - i)%nat
      /\ forall (j : nat) (req : analysis_request),
           (i <= j)%nat ->
           nth_error analyses j = Some req ->
           exists o : outcome value,
             runs_as (call_for adapter req) (pieces_of j log) o
             /\ nth_error news (j - i) = Some (nullable o).
Proof.
  intro Hsize. induction fuel as [|fuel IH]; intros i results s Hfuel.
  - assert (Hi : (i <? List.length analyses)%nat = false)
      by (apply Nat.ltb_ge; lia).
    exists [], []. cbn [Async.analyzeBatch_from]. rewrite Hi, app_nil_r.
    split; [reflexivity|]. split; [exact I|]. split; [constructor|].
    split; [cbn; lia|].
    intros j req Hj Hreq.
    assert ((j < List.length analyses)%nat)
      by (apply nth_error_Some; rewrite Hreq; discriminate).
    apply Nat.ltb_ge in Hi. lia.
  - cbn [Async.analyzeBatch_from].
    destruct (i <? List.length analyses)%nat eqn:Hi.
    + apply Nat.ltb_lt in Hi.
      set (batch := firstn batchSize (skipn i analyses)).
      assert (Hbatch : List.length batch
                       = Nat.min batchSize (List.length analyses - i))
        by (unfold batch; now rewrite length_firstn, length_skipn).
      fold (call_for adapter).
      destruct (allSettled_log (schedule i) (map (call_for adapter) batch)
                  i s)
        as (log1 & outs & Hall & Hlin1 & Htag1 & Hlen1 & Heach1).
      rewrite length_map in Htag1, Hlen1.
      destruct (collect_pushes batch outs (eq_sym Hlen1) results
                  (last_state s log1))
        as (t2 & Hcol & _).
      destruct (IH (i + batchSize)%nat (results ++ map nullable outs)
                  (last_state s log1))
        as (log3 & news3 & Hrec & Hlin3 & Htag3 & Hlen3 & Heach3); [lia|].
      set (pause := if (i + batchSize <? List.length analyses)%nat
                    then [EvSleep delayMs] else []).
      set (around := {| who := None; before := last_state s log1;
                        events := t2 ++ pause;
                        after := last_state s log1 |}).
      exists (log1 ++ around :: log3), (map nullable outs ++ news3).
      split.
      { unfold bind. rewrite Hall, Hcol.
        rewrite last_state_app. unfold events_of. rewrite flat_map_app.
        unfold around, pause. cbn [flat_map events last_state after].
        destruct (i + batchSize <? List.length analyses)%nat;
          unfold sleep, emit, ret; rewrite Hrec; unfold events_of;
          now rewrite <- !app_assoc. }
      split.
      { apply linear_app; [exact Hlin1|]. split; [reflexivity | exact Hlin3]. }
      split.
      { apply tagged_in_app.
        - apply (tagged_in_wider i (i + List.length batch)); [lia | lia |].
          exact Htag1.
        - constructor; [exact I|].
          apply (tagged_in_wider (i + batchSize) (List.length analyses));
            [lia | lia | exact Htag3]. }
      split; [rewrite length_app, length_map, Hlen3, Hlen1, Hbatch; lia|].
      intros j req Hj Hreq.
      assert (Hjn : (j < List.length analyses)%nat)
        by (apply nth_error_Some; rewrite Hreq; discriminate).
      rewrite pieces_of_app.
      change (pieces_of j (around :: log3)) with (pieces_of j log3).
      destruct (Nat.lt_ge_cases j (i + batchSize)) as [Hin | Hout].
      * assert (Hk : nth_error batch (j - i) = Some req).
        { apply nth_error_batch; [|lia].
          now replace (i + (j - i))%nat with j by lia. }
        destruct (Heach1 (j - i)%nat (call_for adapter req)
                    (map_nth_error _ _ _ Hk))
          as (o & Ho & Hruns).
        exists o. replace (i + (j - i))%nat with j in Hruns by lia.
        rewrite (pieces_of_outside j _ _ log3 Htag3) by lia.
        rewrite app_nil_r. split; [exact Hruns|].
        rewrite nth_error_app1
          by (rewrite length_map, Hlen1, Hbatch; lia).
        now apply map_nth_error.
      * destruct (Heach3 j req Hout Hreq) as (o & Hruns & Ho).
        exists o.
        rewrite (pieces_of_outside j _ _ log1 Htag1) by lia.
        split; [exact Hruns|].
        rewrite nth_error_app2
          by (rewrite length_map, Hlen1, Hbatch; lia).
        rewrite length_map, Hlen1, Hbatch.
        replace (j - i - Nat.min batchSize (List.length analyses - i))%nat
          with (j - (i + batchSize))%nat by lia.
        exact Ho.
    + apply Nat.ltb_ge in Hi.
      exists [], []. rewrite app_nil_r.
      split; [reflexivity|]. split; [exact I|]. split; [constructor|].
      split; [cbn; lia|].
      intros j req Hj Hreq.
      assert ((j < List.length analyses)%nat)
        by (apply nth_error_Some; rewrite Hreq; discriminate).
      lia.
Qed.

End BatchFacts.

(** *** A call in flight, run alone, is the call *)

Section Alone.
Context {S : Type}.

Lemma alone_await {A} (c : M S A) (s : S) :
  Async.alone (Async.await c) s = c s.
Proof.
  unfold Async.await. cbn [Async.alone]. unfold lift.
  destruct (c s) as [[r s1] t1]. now rewrite app_nil_r.
Qed.

Lemma alone_and_then {A B} (t : task S A) (f : A -> task S B) (s : S) :
  Async.alone (Async.and_then t f) s
  = bind (Async.alone t) (fun a => Async.alone (f a)) s.
Proof.
  revert s. induction t as [[a|e] | X piece next IH]; intro s.
  - cbn [Async.and_then Async.alone]. unfold bind, lift.
    now destruct (Async.alone (f a) s) as [[r s1] t1].
  - reflexivity.
  - cbn [Async.and_then Async.alone]. unfold bind.
    cbn [Async.alone].
    destruct (piece s) as [[r s1] t1]. rewrite IH. unfold bind.
    destruct (Async.alone (next r) s1) as [[[a|e] s2] t2]; [|reflexivity].
    destruct (Async.alone (f a) s2) as [[o s3] t3].
    now rewrite app_assoc.
Qed.

Lemma alone_catch {A} (t : task S A) (h : value -> task S A) (s : S) :
  Async.alone (Async.catch t h) s
  = try_catch (Async.alone t) (fun e => Async.alone (h e)) s.
Proof.
  revert s. induction t as [[a|e] | X piece next IH]; intro s.
  - reflexivity.
  - cbn [Async.catch Async.alone]. unfold try_catch, lift.
    now destruct (Async.alone (h e) s) as [[r s1] t1].
  - cbn [Async.catch Async.alone]. unfold try_catch.
    cbn [Async.alone].
    destruct (piece s) as [[r s1] t1]. rewrite IH. unfold try_catch.
    destruct (Async.alone (next r) s1) as [[[a|e] s2] t2]; [reflexivity|].
    destruct (Async.alone (h e) s2) as [[o s3] t3].
    now rewrite app_assoc.
Qed.

Lemma try_catch_ext {A} (c c' : M S A) (h h' : value -> M S A) (s : S) :
  (forall s0, c s0 = c' s0) ->
  (forall e s0, h e s0 = h' e s0) ->
  try_catch c h s = try_catch c' h' s.
Proof.
  intros Hc Hh. unfold try_catch. rewrite Hc.
  destruct (c' s) as [[[a|e] s1] t1]; [reflexivity|]. now rewrite Hh.
Qed.

Lemma bind_ext {A B} (c c' : M S A) (k k' : A -> M S B) (s : S) :
  (forall s0, c s0 = c' s0) ->
  (forall a s0, k a s0 = k' a s0) ->
  bind c k s = bind c' k' s.
Proof.
  intros Hc Hk. unfold bind. rewrite Hc.
  destruct (c' s) as [[[a|e] s1] t1]; [|reflexivity]. now rewrite Hk.
Qed.

Lemma bind_lift_ret {A B} (a : A) (k : A -> M S B) (s : S) :
  bind (lift (Ret a)) k s = k a s.
Proof. unfold bind, lift. now destruct (k a s) as [[r s1] t1]. Qed.

Lemma try_catch_bind_run {A B} (c : M S A) (k : A -> M S B)
    (h : value -> M S B) (s s1 : S) (r : outcome A) (t1 : list event) :
  c s = (r, s1, t1) ->
  try_catch (bind c k) h s
  = let '(o, s2, t2) := try_catch (bind (lift r) k) h s1 in
    (o, s2, t1 ++ t2).
Proof.
  intro Hc. unfold try_catch, bind, lift. rewrite Hc.
  destruct r as [a|e].
  - destruct (k a s1) as [[[b|e] s2] t2]; [reflexivity|].
    destruct (h e s2) as [[o s3] t3]. cbn [app]. now rewrite app_assoc.
  - now destruct (h e s1) as [[o s3] t3].
Qed.

Lemma allSettled_ext {A} (cs cs' : list (M S A)) :
  Forall2 (fun c c' => forall s0, c s0 = c' s0) cs cs' ->
  forall s, Flat.allSettled cs s = Flat.allSettled cs' s.
Proof.
  induction 1 as [|c c' cs cs' Hc _ IH]; intro s; [reflexivity|].
  cbn [Flat.allSettled]. rewrite Hc.
  destruct (c' s) as [[r s1] t1]. now rewrite IH.
Qed.

(** The wrapper, run alone, is the wrapper around the operation run
    alone. *)
Lemma alone_withRetries_from {T} (fn : task S T) (baseDelayMs : Z) (n : nat) :
  forall (i : nat) (lastErr : value) (s : S),
    Async.alone (Async.withRetries_from fn baseDelayMs i n lastErr) s
    = Classifying.withRetries_from (Async.alone fn) baseDelayMs i n lastErr s.
Proof.
  induction n as [|n IH]; intros i lastErr s; [reflexivity|].
  cbn [Async.withRetries_from Classifying.withRetries_from].
  rewrite alone_catch. apply try_catch_ext; [reflexivity|].
  intros err s0. unfold bind at 1, lift at 1.
  destruct (Classifying.transient err) as [[|]|e]; try reflexivity.
  cbn [Async.alone]. unfold bind, logger, sleep, emit.
  rewrite IH.
  now destruct (Classifying.withRetries_from (Async.alone fn) baseDelayMs
                  (i + 1) n err s0) as [[o s1] t1].
Qed.

End Alone.

Section AloneService.
Context {P : Platform} {S : Type} {Svc : Service S}.

(** [analyzeMerged], its pieces run in a row, is the [analyzeMerged] of
    the sequential reading, around the adapter run in a row. *)
Lemma alone_analyzeMerged (adapter : adapter_args -> task S value)
    (userId : string) (mergedPayload : value)
    (healthDatabases : option (list string)) (options : value) (s : S) :
  Async.alone
    (Async.analyzeMerged adapter userId mergedPayload healthDatabases
       options) s
  = Flat.analyzeMerged (fun args => Async.alone (adapter args))
      userId mergedPayload healthDatabases options s.
Proof.
  unfold Async.analyzeMerged, Flat.analyzeMerged.
  destruct (negb (truthy mergedPayload)); [reflexivity|].
  rewrite alone_and_then. apply bind_ext.
  - intro s0. unfold Async.withRetries, Classifying.withRetries.
    apply alone_withRetries_from.
  - intros raw s0. apply alone_await.
Qed.

(** With the empty schedule for every batch, the calls of a batch run
    one after the other: the loop of the sequential reading. *)
Lemma analyzeBatch_in_a_row (adapter : adapter_args -> task S value)
    (analyses : list analysis_request) (batchSize : nat) (delayMs : Z) :
  forall (fuel i : nat) (results : list value) (s : S),
    Async.analyzeBatch_from adapter (fun _ => []) fuel analyses batchSize
      delayMs i results s
    = Flat.analyzeBatch_from (fun args => Async.alone (adapter args))
        fuel analyses batchSize delayMs i results s.
Proof.
  induction fuel as [|fuel IH]; intros i results s.
  - reflexivity.
  - cbn [Async.analyzeBatch_from Flat.analyzeBatch_from].
    destruct (i <? List.length analyses)%nat; [|reflexivity].
    apply bind_ext.
    + intro s0. unfold Async.allSettled. cbn [Async.interleave].
      rewrite map_map.
      rewrite (allSettled_ext _
                 (map (fun r =>
                         Flat.analyzeMerged
                           (fun args => Async.alone (adapter args))
                           (userId r) (mergedPayload r) (healthDatabases r)
                           JUndef)
                    (firstn batchSize (skipn i analyses)))).
      * now destruct (Flat.allSettled _ s0) as [[rs s1] t1].
      * induction (firstn batchSize (skipn i analyses)) as [|r l IHl];
          constructor; [|exact IHl].
        intro s1. apply alone_analyzeMerged.
    + intros outs s0. apply bind_ext; [reflexivity|].
      intros results' s1. apply bind_ext; [reflexivity|].
      intros _ s2. apply IH.
Qed.

(** The adapter, its two pieces run in a row, is [analyzeWithGroq]. *)
Lemma alone_analyzeWithGroq (args : adapter_args) (s : S) :
  Async.alone (Async.analyzeWithGroq args) s = analyzeWithGroq args s.
Proof.
  change (analyzeWithGroq args)
    with (bind (lift (sanitizePayload (arg_mergedData args)))
            (fun sanitized =>
               try_catch
                 (bind (call_service (adapter_request args sanitized))
                    (read_completion
                       (req_model (adapter_request args sanitized))))
                 on_error)).
  unfold Async.analyzeWithGroq.
  destruct (sanitizePayload (arg_mergedData args)) as [sanitized|e];
    [|reflexivity].
  cbv zeta. rewrite bind_lift_ret.
  set (req := adapter_request args sanitized).
  cbn [Async.alone].
  destruct (call_service req s) as [[r s1] t1] eqn:Hcall.
  rewrite alone_await. now rewrite (try_catch_bind_run _ _ _ _ _ _ _ Hcall).
Qed.

End AloneService.
End AsyncFacts.

Section BatchTheorem.
Context {P : Platform} {S : Type} {Svc : Service S}.
Variable adapter : adapter_args -> task S value.

(** C10.  The calls of a batch are in flight together, and their pieces
    may run in any order: for every schedule of the batches, every list
    of requests and every batch size of at least one, [analyzeBatch]
    returns (with fuel for as many batches as there are requests) an
    array with one entry per request.  The run is a sequence of steps,
    each from the state the step before left, whose events are those of
    the run; for every index [i], the steps of request [i] are its call
    to [analyzeMerged] run from its first piece to its last, whatever
    the other calls did in between and however they ended, and entry
    [i] of the array is what that call returned, or [null] when it
    threw. *)
Theorem batch_results_follow_the_requests :
  forall (schedule : nat -> list nat) (analyses : list analysis_request)
         (batchSize : nat) (delayMs : Z) (s : S),
    (0 < batchSize)%nat ->
    exists (results : list value) (log : list (step S)),
      Async.analyzeBatch adapter schedule (List.length analyses) analyses
        batchSize delayMs s
      = (Ret (Some results), last_state s log, events_of log)
      /\ linear s log
      /\ List.length results = List.length analyses
      /\ forall (i : nat) (req : analysis_request),
           nth_error analyses i = Some req ->
           exists o : outcome value,
             runs_as (call_for adapter req) (pieces_of i log) o
             /\ nth_error results i = Some (nullable o).
Proof.
  intros schedule analyses batchSize delayMs s Hsize.
  destruct (AsyncFacts.analyzeBatch_from_log adapter schedule analyses
              batchSize delayMs Hsize (List.length analyses) 0 [] s)
    as (log & news & Hrun & Hlin & _ & Hlen & Heach); [lia|].
  exists news, log. unfold Async.analyzeBatch.
  split; [exact Hrun|]. split; [exact Hlin|]. split; [lia|].
  intros i req Hreq.
  destruct (Heach i req (Nat.le_0_l i) Hreq) as (o & Hruns & Ho).
  exists o. split; [exact Hruns|]. now rewrite Nat.sub_0_r in Ho.
Qed.

End BatchTheorem.

Local Open Scope list_scope.
Local Open Scope string_scope.

(** ** The JSON block of a model output *)

Module RegexFacts.
Import Regex.

Lemma append_assoc (a b c : string) : (a ++ b) ++ c = a ++ (b ++ c).
Proof. induction a as [|x a IH]; simpl; [reflexivity | now rewrite IH]. Qed.

(** In front of prose without an opening brace, the match starts where
    the object starts. *)
Lemma from_first_open_after (pre rest : string) :
  free_of "{" pre = true ->
  from_first_open (pre ++ String "{" rest) = Some (String "{" rest).
Proof.
  induction pre as [|c pre IH]; simpl; intro H; [reflexivity|].
  apply andb_true_iff in H as [Hc Hpre].
  apply negb_true_iff in Hc. rewrite Hc. now apply IH.
Qed.

Lemma upto_last_close_none (post : string) :
  free_of "}" post = true -> upto_last_close post = None.
Proof.
  induction post as [|c post IH]; simpl; intro H; [reflexivity|].
  apply andb_true_iff in H as [Hc Hpost].
  apply negb_true_iff in Hc. now rewrite IH, Hc.
Qed.

(** Before prose without a closing brace, the match ends where the
    object ends. *)
Lemma upto_last_close_before (body post : string) :
  free_of "}" post = true ->
  upto_last_close (body ++ String "}" post) = Some (body ++ "}").
Proof.
  intro H. induction body as [|c body IH]; simpl.
  - now rewrite upto_last_close_none.
  - now rewrite IH.
Qed.

(** The match is the object when the prose has no brace on the wrong
    side: none that opens before it, none that closes after it. *)
Lemma match_braces_object (pre obj post : string) :
  free_of "{" pre = true -> free_of "}" post = true -> braced obj ->
  match_braces (pre ++ obj ++ post) = Some obj.
Proof.
  intros Hpre Hpost [middle ->]. unfold match_braces.
  change (String "{" (middle ++ "}") ++ post)
    with (String "{" ((middle ++ "}") ++ post)).
  rewrite from_first_open_after by exact Hpre.
  rewrite append_assoc.
  change ("}" ++ post) with (String "}" post).
  change (String "{" (middle ++ String "}" post))
    with (String "{" middle ++ String "}" post).
  now rewrite upto_last_close_before.
Qed.

End RegexFacts.

Section AdapterFacts.
Context {P : Platform}.

(** A model output that is not JSON as a whole, and holds one JSON object
    between prose that has no opening brace before the object and no
    closing brace after it: the adapter parses the object. *)
Lemma parse_output_of_embedded_object (pre obj post : string) (v : value) :
  free_of "{" pre = true -> free_of "}" post = true -> braced obj ->
  JSON_parse (pre ++ obj ++ post) = None ->
  JSON_parse obj = Some v ->
  parse_output (pre ++ obj ++ post) = Ret v.
Proof.
  intros Hpre Hpost Hobj Hwhole Hparse. unfold parse_output.
  rewrite Hwhole, (RegexFacts.match_braces_object pre obj post Hpre Hpost Hobj).
  now rewrite Hparse.
Qed.

End AdapterFacts.

Local Open Scope string_scope.
Local Open Scope list_scope.

(** ** Numbers: the operations that never make a NaN *)

Module MoreNumFacts.

Lemma is_nan_spec (x : float) :
  PrimFloat.is_nan x = false <-> Prim2SF x <> S754_nan.
Proof.
  unfold Prim2SF. destruct (PrimFloat.is_nan x); split; try congruence.
  intros _.
  destruct (PrimFloat.is_zero x); [discriminate|].
  destruct (PrimFloat.is_infinity x); [discriminate|].
  destruct (Z.frexp x) as [r e].
  destruct (shr_fexp prec emax _ _ _) as [shr e'].
  destruct (shr_m shr); discriminate.
Qed.

Lemma shr_1_nonneg mrs : (0 <= shr_m mrs)%Z -> (0 <= shr_m (shr_1 mrs))%Z.
Proof.
  destruct mrs as [m r s]. cbn [shr_m]. intro H. unfold shr_1.
  destruct m as [|[p|p|]|p]; cbn [shr_m]; lia.
Qed.

Lemma iter_shr_1_nonneg p :
  forall mrs, (0 <= shr_m mrs)%Z -> (0 <= shr_m (iter_pos shr_1 p mrs))%Z.
Proof.
  induction p as [p IH | p IH |]; intros mrs H; cbn [iter_pos].
  - apply IH, IH, shr_1_nonneg, H.
  - apply IH, IH, H.
  - apply shr_1_nonneg, H.
Qed.

Lemma shr_fexp_nonneg m e l :
  (0 <= m)%Z -> (0 <= shr_m (fst (shr_fexp prec emax m e l)))%Z.
Proof.
  intro H. unfold shr_fexp, shr.
  assert (H0 : (0 <= shr_m (shr_record_of_loc m l))%Z)
    by (destruct l as [|[]]; exact H).
  destruct (fexp prec emax (Zdigits2 m + e) - e)%Z; cbn [fst];
    try exact H0.
  now apply iter_shr_1_nonneg.
Qed.

Lemma round_nearest_even_nonneg m l :
  (0 <= m)%Z -> (0 <= round_nearest_even m l)%Z.
Proof.
  intro H. unfold round_nearest_even.
  destruct l as [|[]]; try destruct (Z.even m); lia.
Qed.

(** Rounding a mantissa that is not negative gives a zero, a finite
    number or an infinity. *)
Lemma binary_round_aux_not_nan sx mx ex lx :
  (0 <= mx)%Z -> binary_round_aux prec emax sx mx ex lx <> S754_nan.
Proof.
  intro H. unfold binary_round_aux.
  pose proof (shr_fexp_nonneg mx ex lx H) as H1.
  destruct (shr_fexp prec emax mx ex lx) as [mrs' e']. cbn [fst] in H1.
  pose proof (shr_fexp_nonneg
                (round_nearest_even (shr_m mrs') (loc_of_shr_record mrs'))
                e' loc_Exact (round_nearest_even_nonneg _ _ H1)) as H2.
  destruct (shr_fexp prec emax _ e' loc_Exact) as [mrs'' e''].
  cbn [fst] in H2.
  destruct (shr_m mrs''); try discriminate; try lia.
  destruct (e'' <=? emax - prec)%Z; discriminate.
Qed.

Lemma binary_round_not_nan sx mx ex :
  binary_round prec emax sx mx ex <> S754_nan.
Proof.
  unfold binary_round.
  destruct (shl_align mx ex _) as [mz ez].
  apply binary_round_aux_not_nan. lia.
Qed.

Lemma binary_normalize_not_nan m e szero :
  binary_normalize prec emax m e szero <> S754_nan.
Proof.
  unfold binary_normalize.
  destruct m; [discriminate | apply binary_round_not_nan ..].
Qed.

(** Subtracting a finite number from a number gives a number. *)
Lemma sub_finite_not_nan (x y : float) s m e :
  PrimFloat.is_nan x = false ->
  Prim2SF y = S754_finite s m e ->
  PrimFloat.is_nan (x - y) = false.
Proof.
  intros Hx Hy. apply is_nan_spec. apply is_nan_spec in Hx.
  rewrite sub_spec, Hy. unfold SF64sub, SFsub.
  destruct (Prim2SF x) as [sx | sx | | sx mx ex]; try congruence;
    try discriminate.
  apply binary_normalize_not_nan.
Qed.

(** Multiplying a number by a finite number gives a number. *)
Lemma mul_finite_not_nan (x y : float) s m e :
  PrimFloat.is_nan x = false ->
  Prim2SF y = S754_finite s m e ->
  PrimFloat.is_nan (x * y) = false.
Proof.
  intros Hx Hy. apply is_nan_spec. apply is_nan_spec in Hx.
  rewrite mul_spec, Hy. unfold SF64mul, SFmul.
  destruct (Prim2SF x) as [sx | sx | | sx mx ex]; try congruence;
    try discriminate.
  apply binary_round_aux_not_nan. lia.
Qed.

Lemma of_Z_not_nan (z : Z) : PrimFloat.is_nan (Num.of_Z z) = false.
Proof.
  apply is_nan_spec. unfold Num.of_Z. destruct z.
  - discriminate.
  - rewrite of_uint63_spec. apply binary_normalize_not_nan.
  - rewrite opp_spec, of_uint63_spec.
    pose proof (binary_normalize_not_nan
                  (Uint63Axioms.to_Z (Uint63.of_Z (Z.pos p))) 0 false) as H.
    destruct (binary_normalize prec emax _ 0 false); try congruence;
      discriminate.
Qed.

(** [Math.round] of a number is a number. *)
Lemma Math_round_not_nan (x : float) :
  PrimFloat.is_nan x = false -> PrimFloat.is_nan (Num.Math_round x) = false.
Proof.
  intro Hx. unfold Num.Math_round.
  destruct (Prim2SF x) as [sx | sx | | sx mx ex]; try exact Hx.
  destruct (0 <=? ex)%Z; [exact Hx|].
  match goal with
  | |- context [if ?c then _ else _] => destruct c
  end.
  - destruct sx; reflexivity.
  - apply of_Z_not_nan.
Qed.

(** What is at least some number is a number. *)
Lemma leb_true_not_nan (a x : float) :
  (a <=? x)%float = true -> PrimFloat.is_nan x = false.
Proof.
  rewrite leb_spec. intro H. apply is_nan_spec. intro Hn.
  rewrite Hn in H. unfold SFleb, SFcompare in H.
  destruct (Prim2SF a); discriminate.
Qed.

Lemma ltb_leb (x y : float) :
  (x <? y)%float = true -> (x <=? y)%float = true.
Proof.
  rewrite ltb_spec, leb_spec. unfold SFltb, SFleb.
  destruct (SFcompare (Prim2SF x) (Prim2SF y)) as [[]|];
    try discriminate; reflexivity.
Qed.

Lemma SFcompare_defined (a b : spec_float) :
  a <> S754_nan -> b <> S754_nan -> exists c, SFcompare a b = Some c.
Proof.
  intros Ha Hb.
  destruct a as [sa | sa | | sa ma ea], b as [sb | sb | | sb mb eb];
    try congruence; cbn; eauto.
Qed.

(** Two numbers of which none is below the other: each is at most the
    other. *)
Lemma not_ltb_leb (x y : float) :
  PrimFloat.is_nan x = false -> PrimFloat.is_nan y = false ->
  (y <? x)%float = false -> (x <=? y)%float = true.
Proof.
  intros Hx Hy. apply is_nan_spec in Hx. apply is_nan_spec in Hy.
  rewrite ltb_spec, leb_spec. unfold SFltb, SFleb.
  rewrite (NumFacts.SFcompare_antisym (Prim2SF x) (Prim2SF y)).
  destruct (SFcompare_defined _ _ Hx Hy) as [c ->].
  destruct c; cbn; congruence.
Qed.

End MoreNumFacts.

Local Open Scope string_scope.
Local Open Scope list_scope.

(* ================================================================== *)
(** * Further properties *)
(* ================================================================== *)

(** ** The retry wrappers, when the attempts run out *)

Lemma simple_returns {S T : Type} (fn : M S T) delayMs i n lastErr s v s1 t :
  fn s = (Ret v, s1, t) ->
  Simple.withRetries_from fn delayMs i (Datatypes.S n) lastErr s
  = (Ret v, s1, t).
Proof. intro H. cbn [Simple.withRetries_from]. unfold try_catch. now rewrite H. Qed.

Lemma backoff_one (base : Z) (i : nat) :
  backoff base i 1 = [(base * 2 ^ Z.of_nat i)%Z].
Proof. reflexivity. Qed.

Section ExhaustionFacts.
Context {S T : Type}.

Lemma quiet_call (fn : M S T) s r s1 t :
  never_sleeps fn -> fn s = (r, s1, t) -> sleeps t = [].
Proof. intros Hq Hfn. pose proof (Hq s) as H. now rewrite Hfn in H. Qed.

(** The classifying loop with exactly as many iterations left as the
    operation fails. *)
Lemma classifying_loop_exhausts (fn : M S T) base k s e s' :
  keeps_failing retried fn k s e s' ->
  forall i lastErr c,
    exists t,
      Classifying.withRetries_from fn base i k lastErr s = (Throw e, s', t)
      /\ Classifying.withRetries_from (counting fn) base i k lastErr (s, c)
         = (Throw e, (s', c + k), t)
      /\ (never_sleeps fn -> sleeps t = backoff base i k).
Proof.
  induction 1 as [s e s1 t Hfn Hok | k s e s1 t e' s' Hfn Hok Hrun IH];
    intros i lastErr c.
  - eexists.
    rewrite (classifying_retries fn base i 0 lastErr s e s1 t Hfn Hok).
    rewrite (classifying_retries (counting fn) base i 0 lastErr (s, c) e
               (s1, Datatypes.S c) t (counting_eq fn s c _ _ _ Hfn) Hok).
    cbn [Classifying.withRetries_from throw].
    replace (c + 1) with (Datatypes.S c) by lia.
    repeat split. intro Hq.
    rewrite sleeps_app, (quiet_call fn s _ _ _ Hq Hfn). reflexivity.
  - destruct (IH (i + 1) e (Datatypes.S c)) as (t2 & H1 & H2 & H3).
    eexists.
    rewrite (classifying_retries fn base i k lastErr s e s1 t Hfn Hok).
    rewrite (classifying_retries (counting fn) base i k lastErr (s, c) e
               (s1, Datatypes.S c) t (counting_eq fn s c _ _ _ Hfn) Hok).
    rewrite H1, H2.
    replace (Datatypes.S c + k) with (c + Datatypes.S k) by lia.
    repeat split. intro Hq.
    rewrite sleeps_app, (quiet_call fn s _ _ _ Hq Hfn). cbn [app].
    change (sleeps (?a :: EvSleep ?d :: ?r)) with (d :: sleeps r).
    now rewrite (H3 Hq), backoff_step.
Qed.

(** When every allowed attempt fails with an error the classifying
    wrapper retries, the wrapper invokes the operation once per attempt
    and throws the error of the last one, after a delay that follows
    every failure, the last one too: the delays are [baseDelayMs * 2^i]
    for [i = 0, ..., retries - 1]. *)
Theorem classifying_wrapper_waits_after_the_last_attempt :
  forall (fn : M S T) (retries : nat) (baseDelayMs : Z)
         (s s' : S) (e : value),
    keeps_failing retried fn retries s e s' ->
    exists t : list event,
      Classifying.withRetries fn retries baseDelayMs s = (Throw e, s', t)
      /\ Classifying.withRetries (counting fn) retries baseDelayMs (s, 0)
         = (Throw e, (s', retries), t)
      /\ (never_sleeps fn -> sleeps t = backoff baseDelayMs 0 retries).
Proof.
  intros fn retries baseDelayMs s s' e Hrun.
  exact (classifying_loop_exhausts fn baseDelayMs retries s e s' Hrun
           0 JNull 0).
Qed.

(** The simple loop with exactly as many iterations left as the
    operation fails. *)
Lemma simple_loop_exhausts (fn : M S T) delayMs k s e s' :
  keeps_failing readable fn k s e s' ->
  forall i lastErr c,
    exists t,
      Simple.withRetries_from fn delayMs i k lastErr s = (Throw e, s', t)
      /\ Simple.withRetries_from (counting fn) delayMs i k lastErr (s, c)
         = (Throw e, (s', c + k), t)
      /\ (never_sleeps fn -> sleeps t = repeat delayMs (k - 1)).
Proof.
  induction 1 as [s e s1 t Hfn Hok | k s e s1 t e' s' Hfn Hok Hrun IH];
    intros i lastErr c.
  - eexists.
    rewrite (simple_retries fn delayMs i 0 lastErr s e s1 t Hfn Hok).
    rewrite (simple_retries (counting fn) delayMs i 0 lastErr (s, c) e
               (s1, Datatypes.S c) t (counting_eq fn s c _ _ _ Hfn) Hok).
    cbn [Simple.withRetries_from throw Nat.ltb Nat.leb app].
    replace (c + 1) with (Datatypes.S c) by lia.
    repeat split. intro Hq.
    rewrite sleeps_app, (quiet_call fn s _ _ _ Hq Hfn). reflexivity.
  - destruct (IH (i + 1) e (Datatypes.S c)) as (t2 & H1 & H2 & H3).
    assert (Hk : (0 <? k)%nat = true).
    { apply Nat.ltb_lt. destruct Hrun; lia. }
    eexists.
    rewrite (simple_retries fn delayMs i k lastErr s e s1 t Hfn Hok).
    rewrite (simple_retries (counting fn) delayMs i k lastErr (s, c) e
               (s1, Datatypes.S c) t (counting_eq fn s c _ _ _ Hfn) Hok).
    rewrite H1, H2, Hk.
    replace (Datatypes.S c + k) with (c + Datatypes.S k) by lia.
    repeat split. intro Hq.
    rewrite sleeps_app, (quiet_call fn s _ _ _ Hq Hfn). cbn [app].
    change (sleeps (?a :: EvSleep ?d :: ?r)) with (d :: sleeps r).
    rewrite (H3 Hq).
    apply Nat.ltb_lt in Hk. destruct k as [|k]; [lia|].
    cbn [Nat.sub]. now rewrite Nat.sub_0_r.
Qed.

(** When every allowed attempt fails, the simple wrapper invokes the
    operation once per attempt and throws the error of the last one; it
    awaits the fixed delay between two attempts and not after the last
    one. *)
Theorem simple_wrapper_throws_the_last_error :
  forall (fn : M S T) (retries : nat) (delayMs : Z)
         (s s' : S) (e : value),
    keeps_failing readable fn retries s e s' ->
    exists t : list event,
      Simple.withRetries fn retries delayMs s = (Throw e, s', t)
      /\ Simple.withRetries (counting fn) retries delayMs (s, 0)
         = (Throw e, (s', retries), t)
      /\ (never_sleeps fn -> sleeps t = repeat delayMs (retries - 1)).
Proof.
  intros fn retries delayMs s s' e Hrun.
  exact (simple_loop_exhausts fn delayMs retries s e s' Hrun 0 JUndef 0).
Qed.

(** The simple loop on an operation that fails [k] times and then
    returns, with more than [k] iterations left. *)
Lemma simple_loop_succeeds (fn : M S T) delayMs k s v s' :
  fails_then_returns readable fn k s v s' ->
  forall i n lastErr c,
    k < n ->
    exists t,
      Simple.withRetries_from fn delayMs i n lastErr s = (Ret v, s', t)
      /\ Simple.withRetries_from (counting fn) delayMs i n lastErr (s, c)
         = (Ret v, (s', c + k + 1), t)
      /\ (never_sleeps fn -> sleeps t = repeat delayMs k).
Proof.
  induction 1 as [s v s' t Hfn | k s e s1 t v s' Hfn Hok Hrun IH];
    intros i n lastErr c Hk.
  - destruct n as [|n]; [lia|]. exists t.
    rewrite (simple_returns fn delayMs i n lastErr s v s' t Hfn).
    rewrite (simple_returns (counting fn) delayMs i n lastErr (s, c) v
               (s', Datatypes.S c) t (counting_eq fn s c _ _ _ Hfn)).
    replace (c + 0 + 1) with (Datatypes.S c) by lia.
    repeat split. intro Hq. exact (quiet_call fn s _ _ _ Hq Hfn).
  - destruct n as [|n]; [lia|].
    destruct (IH (i + 1) n e (Datatypes.S c)) as (t2 & H1 & H2 & H3);
      [lia|].
    assert (Hn : (0 <? n)%nat = true) by (apply Nat.ltb_lt; lia).
    eexists.
    rewrite (simple_retries fn delayMs i n lastErr s e s1 t Hfn Hok).
    rewrite (simple_retries (counting fn) delayMs i n lastErr (s, c) e
               (s1, Datatypes.S c) t (counting_eq fn s c _ _ _ Hfn) Hok).
    rewrite H1, H2, Hn.
    replace (Datatypes.S c + k + 1) with (c + Datatypes.S k + 1) by lia.
    repeat split. intro Hq.
    rewrite sleeps_app, (quiet_call fn s _ _ _ Hq Hfn). cbn [app].
    change (sleeps (?a :: EvSleep ?d :: ?r)) with (d :: sleeps r).
    now rewrite (H3 Hq).
Qed.

(** If the wrapped operation fails [k] times, with whatever errors, and
    then returns, with [k] below the number of attempts, the simple
    wrapper returns the value, has invoked the operation [k + 1] times
    and has awaited the fixed delay [k] times. *)
Theorem simple_wrapper_retries_until_success :
  forall (fn : M S T) (retries : nat) (delayMs : Z) (k : nat)
         (s s' : S) (v : T),
    k < retries ->
    fails_then_returns readable fn k s v s' ->
    exists t : list event,
      Simple.withRetries fn retries delayMs s = (Ret v, s', t)
      /\ Simple.withRetries (counting fn) retries delayMs (s, 0)
         = (Ret v, (s', k + 1), t)
      /\ (never_sleeps fn -> sleeps t = repeat delayMs k).
Proof.
  intros fn retries delayMs k s s' v Hk Hrun.
  exact (simple_loop_succeeds fn delayMs k s v s' Hrun 0 retries JUndef 0 Hk).
Qed.

(** An operation that throws [undefined] or [null] is not retried by
    the simple wrapper: reading the message of the thrown value throws a
    TypeError inside the handler, and this TypeError is what the caller
    gets, after the one invocation. *)
Theorem simple_wrapper_stops_on_a_nullish_throw :
  forall (fn : M S T) (retries : nat) (delayMs : Z)
         (s s1 : S) (e : value) (t : list event),
    0 < retries ->
    fn s = (Throw e, s1, t) ->
    nullish e = true ->
    Simple.withRetries fn retries delayMs s
    = (Throw (TypeError "Cannot read properties of undefined or null"),
       s1, t)
    /\ Simple.withRetries (counting fn) retries delayMs (s, 0)
       = (Throw (TypeError "Cannot read properties of undefined or null"),
          (s1, 1), t).
Proof.
  intros fn retries delayMs s s1 e t Hr Hfn He.
  destruct retries as [|n]; [lia|].
  unfold Simple.withRetries. cbn [Simple.withRetries_from].
  unfold try_catch, counting. cbn [fst snd]. rewrite Hfn.
  destruct e; try discriminate He; cbn; now rewrite app_nil_r.
Qed.

(** An error that carries a textual code and no numeric status (the
    [code] of a network failure, say) is not retried by the classifying
    wrapper, unless its message speaks of a rate limit: the wrapper
    rethrows it after the one invocation. *)
Theorem error_with_a_textual_code_is_not_retried :
  forall (fn : M S T) (retries : nat) (baseDelayMs : Z)
         (s s1 : S) (e : value) (t : list event) (code : string)
         (inc : value),
    0 < retries ->
    fn s = (Throw e, s1, t) ->
    Classifying.status_of e = JStr code ->
    code <> "" ->
    Classifying.message_includes_rate_limit e = Ret inc ->
    truthy inc = false ->
    Classifying.transient e = Ret false
    /\ Classifying.withRetries fn retries baseDelayMs s = (Throw e, s1, t)
    /\ Classifying.withRetries (counting fn) retries baseDelayMs (s, 0)
       = (Throw e, (s1, 1), t).
Proof.
  intros fn retries baseDelayMs s s1 e t code inc Hr Hfn Hst Hcode Hinc Hf.
  assert (Ht : Classifying.transient e = Ret false).
  { unfold Classifying.transient. rewrite Hinc, Hst. cbn [obind].
    rewrite Hf. cbn.
    destruct code; [congruence | reflexivity]. }
  destruct retries as [|n]; [lia|]. unfold Classifying.withRetries.
  split; [exact Ht|]. split.
  - now apply classifying_rethrows.
  - apply classifying_rethrows; [|exact Ht]. now apply counting_eq.
Qed.

End ExhaustionFacts.

Local Open Scope list_scope.
Local Open Scope string_scope.

(** ** The sanitizer: what it trims, what it leaves, when it throws *)

Section MoreSanitizerFacts.
Context {P : Platform}.
Import ObjFacts StrFacts.

Lemma lookup_notes_pseudonymize text ps :
  lookup "notes" (pseudonymize text ps) = lookup "notes" ps.
Proof.
  unfold pseudonymize. destruct (truthy (lookup "abha_id" ps)); [|reflexivity].
  now apply lookup_assign_other.
Qed.

Lemma lookup_notes_trim ps :
  lookup "notes" (trim_notes ps)
  = match lookup "notes" ps with
    | JStr s => JStr (Str.slice_first 1000 s)
    | other => other
    end.
Proof.
  unfold trim_notes. destruct (lookup "notes" ps) eqn:E; try exact E.
  destruct (truthy (JStr s)) eqn:Et.
  - apply lookup_assign_same.
  - rewrite E. cbn in Et. apply negb_false_iff, String.eqb_eq in Et.
    now subst s.
Qed.

Lemma lookup_pseudonymize k text ps :
  ("abha_id" =? k) = false ->
  lookup k (pseudonymize text ps) = lookup k ps.
Proof.
  intro H. unfold pseudonymize.
  destruct (truthy (lookup "abha_id" ps)); [|reflexivity].
  now apply lookup_assign_other.
Qed.

Lemma has_key_drop_other k ps :
  ("name" =? k) = false -> ("email" =? k) = false ->
  ("phone" =? k) = false ->
  has_key k (drop_identifiers ps) = has_key k ps.
Proof.
  intros H1 H2 H3. unfold drop_identifiers.
  assert (Hrm : forall k' l, (k' =? k) = false ->
                  has_key k (remove k' l) = has_key k l).
  { intros k' l Hk. induction l as [|[k0 v] l IH]; simpl; [reflexivity|].
    destruct (k0 =? k') eqn:E0; simpl.
    - apply String.eqb_eq in E0. subst k0. now rewrite Hk.
    - now rewrite IH. }
  now rewrite !Hrm.
Qed.

(** The shapes of a run of the sanitizer. *)
Lemma sanitize_cases raw :
  (raw = JUndef
   /\ sanitizePayload raw = Throw (SyntaxError "undefined is not valid JSON"))
  \/ (raw <> JUndef /\ json_copy raw = JNull
      /\ sanitizePayload raw
         = Throw (TypeError "Cannot convert undefined or null to object"))
  \/ (exists ps, json_copy raw = JObj ps
                 /\ sanitizePayload raw
                    = obind (abha_text ps)
                        (fun text => Ret (JObj (sanitize_props text ps))))
  \/ ((forall ps, json_copy raw <> JObj ps)
      /\ sanitizePayload raw = Ret (json_copy raw)).
Proof.
  destruct (value_is_undefined raw) as [-> | Hraw]; [left; now split|].
  destruct (copy_cases raw) as [[ps Hps] | [Hnull | [Hobj Hnull]]].
  - right; right; left. exists ps. split; [exact Hps|].
    now apply sanitize_object.
  - right; left. repeat split; try assumption. now apply sanitize_null.
  - right; right; right. split; [exact Hobj|]. now apply sanitize_other.
Qed.

(** What the sanitizer returns for a payload whose copy is an object. *)
Lemma sanitized_object ps out :
  obind (abha_text ps) (fun text => Ret (JObj (sanitize_props text ps)))
  = Ret out ->
  exists text, abha_text ps = Ret text
               /\ out = JObj (sanitize_props text ps).
Proof.
  destruct (abha_text ps) as [text|e]; cbn [obind]; intro H;
    [|discriminate H].
  injection H as <-. now exists text.
Qed.

(** The free-text notes of the output: a string of notes is cut to its
    first 1000 UTF-16 code units, so the output holds the first code
    units of the notes, at most 1000, and all of them when there are no
    more; notes that are not a string are left as they are. *)
Theorem sanitize_cuts_the_notes_to_1000_code_units :
  forall raw out : value,
    sanitizePayload raw = Ret out ->
    match get_opt (json_copy raw) "notes" with
    | JStr s =>
        exists kept : string,
          get_opt out "notes" = JStr kept
          /\ kept = Str.slice_first 1000 s
          /\ Str.units kept = firstn 1000 (Str.units s)
          /\ Str.length kept <= 1000
          /\ (Str.length s <= 1000 -> Str.units kept = Str.units s)
    | other => get_opt out "notes" = other
    end.
Proof.
  intros raw out Hout.
  destruct (sanitize_cases raw)
    as [[_ H] | [(_ & _ & H) | [(ps & Hps & H) | (Hobj & H)]]];
    rewrite H in Hout; try discriminate Hout.
  - destruct (sanitized_object ps out Hout) as (text & _ & ->).
    rewrite Hps. cbn [get_opt]. unfold sanitize_props.
    rewrite lookup_notes_trim, lookup_notes_pseudonymize.
    rewrite lookup_drop_identifiers by reflexivity.
    destruct (lookup "notes" ps); try reflexivity.
    eexists. split; [reflexivity|]. split; [reflexivity|].
    split; [apply units_slice_first|].
    split; [apply slice_first_length_le | apply slice_first_short].
  - injection Hout as <-.
    destruct (json_copy raw) eqn:E; try reflexivity.
    exfalso. eapply Hobj. reflexivity.
Qed.

(** The sanitizer looks at five keys of the top level and at nothing
    else: under every other key the output holds the serialised copy of
    what the input holds, whatever is nested in it. *)
Theorem sanitize_leaves_the_other_keys :
  forall (raw out : value) (k : string),
    sanitizePayload raw = Ret out ->
    ("name" =? k) = false -> ("email" =? k) = false ->
    ("phone" =? k) = false -> ("abha_id" =? k) = false ->
    ("notes" =? k) = false ->
    get_opt out k = get_opt (json_copy raw) k
    /\ owns out k = owns (json_copy raw) k.
Proof.
  intros raw out k Hout H1 H2 H3 H4 H5.
  destruct (sanitize_cases raw)
    as [[_ H] | [(_ & _ & H) | [(ps & Hps & H) | (Hobj & H)]]];
    rewrite H in Hout; try discriminate Hout.
  - destruct (sanitized_object ps out Hout) as (text & _ & ->).
    rewrite Hps. cbn [get_opt owns]. unfold sanitize_props.
    rewrite lookup_trim_notes, lookup_pseudonymize by assumption.
    rewrite lookup_drop_identifiers by assumption.
    rewrite has_key_trim_notes, has_key_pseudonymize by assumption.
    now rewrite has_key_drop_other by assumption.
  - injection Hout as <-. split; reflexivity.
Qed.

(** A payload whose top level holds none of the five keys comes out as
    its serialised copy. *)
Lemma sanitize_props_clean text ps :
  has_key "name" ps = false -> has_key "email" ps = false ->
  has_key "phone" ps = false -> has_key "abha_id" ps = false ->
  has_key "notes" ps = false ->
  abha_text ps = Ret "" /\ sanitize_props text ps = ps.
Proof.
  intros H1 H2 H3 H4 H5. split.
  - unfold abha_text. now rewrite (lookup_absent _ _ H4).
  - unfold sanitize_props, drop_identifiers.
    rewrite (remove_absent "name") by exact H1.
    rewrite (remove_absent "email") by exact H2.
    rewrite (remove_absent "phone") by exact H3.
    unfold pseudonymize. rewrite (lookup_absent _ _ H4). cbn [truthy].
    unfold trim_notes. now rewrite (lookup_absent _ _ H5).
Qed.

Lemma json_copy_null_cases raw :
  json_copy raw = JNull
  <-> raw = JUndef \/ raw = JNull
      \/ exists x, raw = JNum x
                   /\ PrimFloat.is_nan x || PrimFloat.is_infinity x = true.
Proof.
  split.
  - destruct raw; simpl; intro H; try discriminate; auto.
    right. right. exists x.
    destruct (PrimFloat.is_nan x || PrimFloat.is_infinity x);
      [now split|].
    destruct (PrimFloat.is_zero x); discriminate.
  - intros [-> | [-> | (x & -> & Hx)]]; try reflexivity.
    simpl. now rewrite Hx.
Qed.

(** The sanitizer throws on three kinds of payload, and on no other:
    on [undefined], which does not serialise (a SyntaxError); on [null],
    [NaN] and the two infinities, which serialise as [null], where no
    key can be deleted (a TypeError); and on a payload whose [abha_id]
    is truthy and has no string form, as an object that owns a
    [toString] key (the TypeError of the conversion). *)
Theorem sanitize_throws_on_three_kinds_of_payload :
  forall raw : value,
    (raw = JUndef ->
     exists msg : string, sanitizePayload raw = Throw (SyntaxError msg))
    /\ (raw = JNull
        \/ (exists x, raw = JNum x
                      /\ PrimFloat.is_nan x || PrimFloat.is_infinity x = true) ->
        exists msg : string, sanitizePayload raw = Throw (TypeError msg))
    /\ (forall e : value,
          truthy (abha_id_of raw) = true ->
          ToString (abha_id_of raw) = Throw e ->
          sanitizePayload raw = Throw e)
    /\ (forall props : list (string * value),
          abha_id_of raw = JObj props ->
          has_key "toString" props = true ->
          exists msg : string, sanitizePayload raw = Throw (TypeError msg))
    /\ (forall e : value,
          sanitizePayload raw = Throw e ->
          raw = JUndef \/ raw = JNull
          \/ (exists x, raw = JNum x
                        /\ PrimFloat.is_nan x || PrimFloat.is_infinity x
                           = true)
          \/ (truthy (abha_id_of raw) = true
              /\ ToString (abha_id_of raw) = Throw e)).
Proof.
  intro raw.
  assert (Hconv : forall e : value,
            truthy (abha_id_of raw) = true ->
            ToString (abha_id_of raw) = Throw e ->
            sanitizePayload raw = Throw e).
  { intros e Ht He.
    destruct (sanitize_cases raw)
      as [[-> _] | [(_ & Hn & _) | [(ps & Hps & H) | (Hobj & H)]]].
    - discriminate Ht.
    - unfold abha_id_of in Ht. rewrite Hn in Ht. discriminate Ht.
    - rewrite H. rewrite (abha_id_of_object raw ps Hps) in Ht, He.
      unfold abha_text. now rewrite Ht, He.
    - unfold abha_id_of in Ht.
      destruct (json_copy raw) eqn:E; try discriminate Ht.
      exfalso. eapply Hobj. reflexivity. }
  split; [intros ->; eexists; reflexivity|]. split.
  { intro H. eexists. apply sanitize_null.
    - destruct H as [-> | (x & -> & _)]; discriminate.
    - apply json_copy_null_cases. tauto. }
  split; [exact Hconv|]. split.
  { intros props Ha Hk. eexists. apply Hconv.
    - now rewrite Ha.
    - rewrite Ha. cbn [ToString]. rewrite Hk. reflexivity. }
  intros e He.
  destruct (sanitize_cases raw)
    as [[Hu _] | [(_ & Hn & _) | [(ps & Hps & H) | (_ & H)]]].
  - now left.
  - apply json_copy_null_cases in Hn. tauto.
  - rewrite H in He. right. right. right.
    rewrite (abha_id_of_object raw ps Hps).
    unfold abha_text in He.
    destruct (truthy (lookup "abha_id" ps)); [|discriminate He].
    destruct (ToString (lookup "abha_id" ps)); [discriminate He|].
    cbn [obind] in He. injection He as ->. now split.
  - rewrite H in He. discriminate.
Qed.

End MoreSanitizerFacts.

Local Open Scope string_scope.
Local Open Scope list_scope.

(** ** The adapter: one request, and the errors it makes *)

Lemma plain_error_retried (e : value) : plain_error e -> retried e.
Proof.
  intros (name & msg & ->). unfold retried, Classifying.transient. cbn.
  destruct (Str.includes "rate limit" msg); reflexivity.
Qed.

Section MoreAdapterFacts.
Context {P : Platform} {S : Type} {Svc : Service S}.
Import ObjFacts.

Lemma analyzeWithGroq_eq (args : adapter_args) :
  analyzeWithGroq args
  = bind (lift (sanitizePayload (arg_mergedData args)))
      (fun sanitized =>
         try_catch
           (bind (call_service (adapter_request args sanitized))
              (read_completion
                 (req_model (adapter_request args sanitized))))
           on_error).
Proof. reflexivity. Qed.

Lemma version_tag_truthy (model : string) :
  truthy (JStr (model ++ "-v1")) = true.
Proof. destruct model; reflexivity. Qed.

Lemma TypeError_plain (msg : string) : plain_error (TypeError msg).
Proof. do 2 eexists. reflexivity. Qed.

(** What the sanitizer throws is a plain error of the engine. *)
Lemma sanitize_throws_plain (raw e : value) :
  sanitizePayload raw = Throw e -> plain_error e.
Proof.
  intro Hs.
  destruct (sanitize_cases raw)
    as [[_ H] | [(_ & _ & H) | [(ps & _ & H) | (_ & H)]]];
    rewrite H in Hs; try discriminate Hs;
    try (injection Hs as <-; do 2 eexists; reflexivity).
  unfold abha_text in Hs.
  destruct (truthy (lookup "abha_id" ps)); [|discriminate Hs].
  destruct (ToString (lookup "abha_id" ps)) eqn:Em; [discriminate Hs|].
  cbn [obind] in Hs. injection Hs as <-.
  rewrite (ToString_throws _ _ Em). apply TypeError_plain.
Qed.

Lemma version_tag_spec (model mv : value) :
  (exists tag, version_tag model mv = Ret tag /\ truthy tag = true)
  \/ (exists e, version_tag model mv = Throw e /\ plain_error e).
Proof.
  unfold version_tag. destruct (truthy mv) eqn:E; [left; eauto|].
  destruct (ToString model) as [m|e] eqn:Em; cbn [obind].
  - left. eexists. split; [reflexivity | apply version_tag_truthy].
  - right. exists e. split; [reflexivity|].
    rewrite (ToString_throws _ _ Em). apply TypeError_plain.
Qed.

(** Filling in the metadata touches neither the world nor the log; it
    throws on what is not an object, and leaves an object with its two
    metadata fields. *)
Lemma ensure_metadata_spec (model parsed : value) (s : S) :
  exists r,
    ensure_metadata model parsed s = (r, s, [])
    /\ (forall e, r = Throw e -> plain_error e)
    /\ (forall out, r = Ret out ->
          has_metadata out \/ exists items, out = JArr items).
Proof.
  assert (Hthrow : forall e0 : value, plain_error e0 ->
            exists r,
              (Throw (A:=value) e0, s, @nil event) = (r, s, [])
              /\ (forall e, r = Throw e -> plain_error e)
              /\ (forall out, r = Ret out ->
                    has_metadata out \/ exists items, out = JArr items)).
  { intros e0 He0. eexists. split; [reflexivity|]. split.
    - intros e He. now injection He as <-.
    - intros out Ho. discriminate Ho. }
  unfold ensure_metadata, bind, lift, ret, now.
  destruct parsed as [ | | b | x | str | items | props ];
    cbn [get obind];
    try (apply Hthrow; apply TypeError_plain);
    fold (version_tag model JUndef);
    try fold (version_tag model (lookup "model_version" props)).
  1-3: destruct (version_tag_spec model JUndef)
         as [(tag & -> & _) | (e & -> & He)];
       cbn [set]; apply Hthrow;
       [apply TypeError_plain | exact He].
  - (* an array *)
    destruct (version_tag_spec model JUndef)
      as [(tag & -> & _) | (e & -> & He)]; [|now apply Hthrow].
    cbn [set get]. eexists. split; [reflexivity|].
    split; [intros e He; discriminate He|].
    intros out Ho. injection Ho as <-. right. eauto.
  - (* an object *)
    destruct (version_tag_spec model (lookup "model_version" props))
      as [(mv & -> & Hmv) | (e & -> & He)]; [|now apply Hthrow].
    cbn [set get].
    set (p1 := assign "model_version" mv props).
    destruct (truthy (lookup "generated_on" p1)) eqn:Ego;
      (eexists; split; [reflexivity|]; split;
       [intros e He; discriminate He|]);
      intros out Ho; injection Ho as <-; left; eexists;
      (split; [reflexivity|]);
      rewrite lookup_assign_other by reflexivity;
      unfold p1; rewrite lookup_assign_same;
      (split; [exact Hmv|]);
      rewrite has_key_assign_same, lookup_assign_same;
      (split; [reflexivity|]).
    + left. exact Ego.
    + right. exists s. reflexivity.
Qed.

(** The [catch] block always throws, after one line on the console: the
    error it caught, or a plain error of its own. *)
Lemma on_error_spec (error : value) (s : S) :
  exists e,
    on_error error s
    = (Throw e, s, [EvConsole "error" "Groq API error:" error])
    /\ (e = error \/ plain_error e).
Proof.
  unfold on_error, bind, console, emit, lift, throw.
  destruct (lowercase_message error) as [msg|e0] eqn:Hmsg.
  - destruct (Str.includes "rate limit" msg || Str.includes "quota" msg).
    + eexists. split; [reflexivity|]. right. do 2 eexists. reflexivity.
    + destruct (Str.includes "model_not_found" msg
                || Str.includes "does not exist" msg
                || Str.includes "not supported" msg).
      * destruct (ToString (get_opt error "message")) as [m|e1] eqn:Em.
        -- eexists. split; [reflexivity|]. right.
           do 2 eexists. reflexivity.
        -- eexists. split; [reflexivity|]. right.
           rewrite (ToString_throws _ _ Em). apply TypeError_plain.
      * eexists. split; [reflexivity|]. now left.
  - eexists. split; [reflexivity|]. right.
    unfold lowercase_message in Hmsg.
    destruct (or_else (get_opt error "message") (JStr ""));
      try discriminate Hmsg; injection Hmsg as <-;
      do 2 eexists; reflexivity.
Qed.

(** What the [try] block does with the content: it touches neither the
    world nor the log, throws plain errors only and returns documents
    with their metadata only. *)
Lemma use_content_spec (model content : value) (s : S) :
  exists r,
    use_content model content s = (r, s, [])
    /\ (forall e, r = Throw e -> plain_error e)
    /\ (forall out, r = Ret out ->
          has_metadata out \/ exists items, out = JArr items).
Proof.
  assert (Hthrow : forall msg : string,
            exists r,
              (Throw (A:=value) (Error msg), s, @nil event) = (r, s, [])
              /\ (forall e, r = Throw e -> plain_error e)
              /\ (forall out, r = Ret out ->
                    has_metadata out \/ exists items, out = JArr items)).
  { intros msg. eexists. split; [reflexivity|]. split.
    - intros e He. injection He as <-. do 2 eexists. reflexivity.
    - intros out Ho. discriminate Ho. }
  unfold use_content.
  destruct (truthy content && typeof_object content
            && negb (is_array content)); [apply ensure_metadata_spec|].
  destruct content; try (now apply Hthrow).
  destruct (negb (truthy (JStr s0))); [now apply Hthrow|].
  unfold bind, lift.
  destruct (parse_output s0) as [parsed|e1] eqn:Hparse.
  - destruct (ensure_metadata_spec model parsed s) as (r & -> & He & Ho).
    exists r. auto.
  - eexists. split; [reflexivity|]. split.
    + intros e He. injection He as <-.
      unfold parse_output in Hparse.
      destruct (JSON_parse s0); [discriminate|].
      destruct (Regex.match_braces s0) as [m|];
        [destruct (JSON_parse m); [discriminate|]|];
        injection Hparse as <-; do 2 eexists; reflexivity.
    + intros out Ho. discriminate Ho.
Qed.

(** The [try] block after the call: it leaves the world as it is, writes
    at most the usage line, throws plain errors only and returns
    documents with their metadata only. *)
Lemma read_completion_spec (model chat : value) (s : S) :
  exists r lines,
    read_completion model chat s = (r, s, lines)
    /\ Forall console_line lines
    /\ (forall e, r = Throw e -> plain_error e)
    /\ (forall out, r = Ret out ->
          has_metadata out \/ exists items, out = JArr items).
Proof.
  unfold read_completion, bind, lift.
  destruct (get chat "usage") as [usage|e0] eqn:Husage.
  - destruct (use_content_spec model (output_content chat) s)
      as (r & Hr & He & Ho).
    destruct (truthy usage); unfold console, emit, ret; rewrite Hr;
      do 2 eexists; (split; [reflexivity|]);
      (split; [repeat constructor|]); auto.
  - do 2 eexists. split; [reflexivity|]. split; [constructor|]. split.
    + intros e He. injection He as <-.
      destruct chat; try discriminate Husage; injection Husage as <-;
        do 2 eexists; reflexivity.
    + intros out Ho. discriminate Ho.
Qed.

(** The run of the adapter on a payload that gets through the
    sanitizer: the request, then lines on the console. *)
Lemma adapter_run (args : adapter_args) (s : S) (sanitized : value) :
  sanitizePayload (arg_mergedData args) = Ret sanitized ->
  exists (r : outcome value) (lines : list event),
    analyzeWithGroq args s
    = (r, snd (create (adapter_request args sanitized) s),
       EvRequest (adapter_request args sanitized) :: lines)
    /\ Forall console_line lines.
Proof.
  intro Hs. rewrite analyzeWithGroq_eq, Hs.
  unfold bind at 1, lift at 1. cbn iota beta.
  set (req := adapter_request args sanitized).
  unfold try_catch, bind, call_service.
  destruct (create req s) as [[chat|e] s1]; cbn [snd].
  - destruct (read_completion_spec (req_model req) chat s1)
      as (r & lines & -> & Hl & He & Ho).
    destruct r as [out|e].
    + cbn [app]. eauto.
    + destruct (on_error_spec e s1) as (e' & -> & _).
      cbn [app]. do 2 eexists. split; [reflexivity|].
      apply Forall_app. split; [exact Hl | repeat constructor].
  - destruct (on_error_spec e s1) as (e' & -> & _).
    cbn [app]. do 2 eexists. split; [reflexivity|]. repeat constructor.
Qed.

Lemma console_lines_silent (lines : list event) :
  Forall console_line lines -> requests lines = [] /\ sleeps lines = [].
Proof.
  induction 1 as [|x l Hx _ [IH1 IH2]]; [now split|].
  destruct x; try contradiction. now split.
Qed.

(** A call of the adapter whose payload gets through the sanitizer
    sends exactly one request to the service, the first thing it does:
    the request carries the sanitized payload, and the model, token
    limit and temperature given, or their defaults; what follows is
    written to the console.  A payload the sanitizer throws on makes the
    adapter throw the same error, before anything is sent or written. *)
Theorem adapter_sends_one_request :
  forall (args : adapter_args) (s : S),
    match sanitizePayload (arg_mergedData args) with
    | Ret sanitized =>
        exists (r : outcome value) (lines : list event),
          analyzeWithGroq args s
          = (r, snd (create (adapter_request args sanitized) s),
             EvRequest (adapter_request args sanitized) :: lines)
          /\ Forall console_line lines
          /\ requests (EvRequest (adapter_request args sanitized) :: lines)
             = [adapter_request args sanitized]
          /\ sleeps (EvRequest (adapter_request args sanitized) :: lines)
             = []
    | Throw e => analyzeWithGroq args s = (Throw e, s, [])
    end.
Proof.
  intros args s.
  destruct (sanitizePayload (arg_mergedData args)) as [sanitized|e] eqn:Hs.
  - destruct (adapter_run args s sanitized Hs) as (r & lines & Hr & Hl).
    exists r, lines. split; [exact Hr|]. split; [exact Hl|].
    destruct (console_lines_silent lines Hl) as [H1 H2].
    change (requests (EvRequest ?q :: lines)) with (q :: requests lines).
    change (sleeps (EvRequest ?q :: lines)) with (sleeps lines).
    now rewrite H1, H2.
  - rewrite analyzeWithGroq_eq, Hs. reflexivity.
Qed.

(** What the adapter returns is a document with its two metadata
    fields, a truthy [model_version] and a [generated_on], or an array
    (when the model wrote one): never [null], never a string, a number
    or a boolean. *)
Theorem adapter_returns_documents_with_metadata :
  forall (args : adapter_args) (s s' : S) (out : value) (t : list event),
    analyzeWithGroq args s = (Ret out, s', t) ->
    has_metadata out \/ exists items : list value, out = JArr items.
Proof.
  intros args s s' out t. rewrite analyzeWithGroq_eq.
  unfold bind at 1, lift at 1.
  destruct (sanitizePayload (arg_mergedData args)) as [sanitized|e];
    [|discriminate].
  cbn iota beta. unfold try_catch, bind, call_service.
  destruct (create (adapter_request args sanitized) s) as [[chat|e] s1].
  - destruct (read_completion_spec
                (req_model (adapter_request args sanitized)) chat s1)
      as (r & lines & -> & Hl & He & Ho).
    destruct r as [out'|e].
    + intro H. injection H as <- _ _. now apply Ho.
    + destruct (on_error_spec e s1) as (e' & -> & _). discriminate.
  - destruct (on_error_spec e s1) as (e' & -> & _). discriminate.
Qed.

(** Every error the adapter throws is the error the service threw, as
    it is, or a plain error (a name and a message, no status), which the
    classifying retry wrapper retries: a payload that cannot be
    sanitized, a completion without text, a text that cannot be parsed,
    and the errors the adapter puts in the place of rate-limit, quota
    and model errors are all retried. *)
Theorem adapter_errors_are_the_services_or_retried :
  forall (args : adapter_args) (s s' : S) (e : value) (t : list event),
    analyzeWithGroq args s = (Throw e, s', t) ->
    (exists sanitized : value,
        sanitizePayload (arg_mergedData args) = Ret sanitized
        /\ fst (create (adapter_request args sanitized) s) = Throw e)
    \/ (plain_error e /\ retried e).
Proof.
  intros args s s' e t. rewrite analyzeWithGroq_eq.
  unfold bind at 1, lift at 1.
  destruct (sanitizePayload (arg_mergedData args)) as [sanitized|e0] eqn:Hs.
  - cbn iota beta. unfold try_catch, bind, call_service.
    destruct (create (adapter_request args sanitized) s) as [[chat|e0] s1]
      eqn:Hc.
    + destruct (read_completion_spec
                  (req_model (adapter_request args sanitized)) chat s1)
        as (r & lines & -> & Hl & He & Ho).
      destruct r as [out'|e0]; [discriminate|].
      destruct (on_error_spec e0 s1) as (e' & -> & [-> | Hp]);
        intro H; injection H as <- _ _; right.
      * pose proof (He _ eq_refl) as Hp.
        split; [exact Hp | now apply plain_error_retried].
      * split; [exact Hp | now apply plain_error_retried].
    + destruct (on_error_spec e0 s1) as (e' & -> & [-> | Hp]);
        intro H; injection H as <- _ _.
      * left. exists sanitized. split; [reflexivity|]. now rewrite Hc.
      * right. split; [exact Hp | now apply plain_error_retried].
  - intro H. injection H as <- _ _. right.
    pose proof (sanitize_throws_plain _ _ Hs) as Hp.
    split; [exact Hp | now apply plain_error_retried].
Qed.

(** ** [analyzeMerged]: what reaches the service *)

Lemma adapter_calls_at_most_once (args : adapter_args) :
  calls_at_most_once (sent_for args) (analyzeWithGroq args).
Proof.
  intro s.
  destruct (sanitizePayload (arg_mergedData args)) as [sanitized|e] eqn:Hs.
  - destruct (adapter_run args s sanitized Hs) as (r & lines & -> & Hl).
    cbn [snd].
    destruct (console_lines_silent lines Hl) as [H1 H2].
    change (requests (EvRequest ?q :: lines)) with (q :: requests lines).
    change (sleeps (EvRequest ?q :: lines)) with (sleeps lines).
    rewrite H1, H2. split; [simpl; lia|]. split; [|reflexivity].
    constructor; [|constructor]. split; [|reflexivity].
    split; [exact Hs|]. cbn [req_payload adapter_request].
    destruct (sanitize_cases (arg_mergedData args))
      as [[_ H] | [(_ & _ & H) | [(ps & _ & H) | (Hobj & H)]]];
      rewrite H in Hs; try discriminate Hs.
    + destruct (sanitized_object ps sanitized Hs) as (text & _ & ->).
      cbn [owns]. apply sanitize_props_no_identifiers.
    + injection Hs as <-.
      destruct (json_copy (arg_mergedData args)) eqn:E;
        try (repeat split; reflexivity).
      exfalso. eapply Hobj. reflexivity.
  - rewrite analyzeWithGroq_eq, Hs. cbn. repeat split; [lia | constructor].
Qed.

End MoreAdapterFacts.

Lemma simple_stops {S T : Type} (fn : M S T) delayMs i n lastErr s e s1 t :
  fn s = (Throw e, s1, t) ->
  nullish e = true ->
  Simple.withRetries_from fn delayMs i (Datatypes.S n) lastErr s
  = (Throw (TypeError "Cannot read properties of undefined or null"), s1, t).
Proof.
  intros H He. cbn [Simple.withRetries_from]. unfold try_catch. rewrite H.
  destruct e; try discriminate He; cbn; now rewrite app_nil_r.
Qed.

Lemma classifying_handler_throws {S T : Type} (fn : M S T) base i n lastErr
    s e s1 t e0 :
  fn s = (Throw e, s1, t) ->
  Classifying.transient e = Throw e0 ->
  Classifying.withRetries_from fn base i (Datatypes.S n) lastErr s
  = (Throw e0, s1, t).
Proof.
  intros H Ht. cbn [Classifying.withRetries_from]. unfold try_catch.
  rewrite H. unfold bind, lift. rewrite Ht. now rewrite app_nil_r.
Qed.

Section WrapperBounds.
Context {S T : Type}.

Lemma simple_wrapper_bounds (Q : request -> Prop) (fn : M S T)
    (delayMs : Z) :
  calls_at_most_once Q fn ->
  forall n i lastErr s,
    List.length
      (requests (snd (Simple.withRetries_from fn delayMs i n lastErr s)))
    <= n
    /\ Forall Q
         (requests (snd (Simple.withRetries_from fn delayMs i n lastErr s)))
    /\ exists k,
         k <= n - 1
         /\ sleeps (snd (Simple.withRetries_from fn delayMs i n lastErr s))
            = repeat delayMs k.
Proof.
  intros Hfn. induction n as [|n IH]; intros i lastErr s.
  - cbn. split; [lia|]. split; [constructor|]. exists 0. now split.
  - destruct (Hfn s) as (H1 & H2 & H3).
    destruct (fn s) as [[[v|e] s1] t1] eqn:Hs; cbn [snd] in *.
    + rewrite (simple_returns fn delayMs i n lastErr s v s1 t1 Hs).
      cbn [snd]. split; [lia|]. split; [exact H2|].
      exists 0. split; [lia | exact H3].
    + destruct (nullish e) eqn:He.
      * rewrite (simple_stops fn delayMs i n lastErr s e s1 t1 Hs He).
        cbn [snd]. split; [lia|]. split; [exact H2|].
        exists 0. split; [lia | exact H3].
      * rewrite (simple_retries fn delayMs i n lastErr s e s1 t1 Hs He).
        specialize (IH (i + 1) e s1).
        destruct (Simple.withRetries_from fn delayMs (i + 1) n e s1)
          as [[r s2] t2]; cbn [snd] in *.
        destruct IH as (I1 & I2 & k & Hk & I3).
        rewrite requests_app, sleeps_app, H3, length_app.
        destruct (0 <? n)%nat eqn:Hn; cbn [app].
        -- change (requests (EvLog ?a ?b ?c :: EvSleep ?d :: ?r))
             with (requests r).
           change (sleeps (EvLog ?a ?b ?c :: EvSleep ?d :: ?r))
             with (d :: sleeps r).
           split; [lia|]. split; [now apply Forall_app|].
           exists (Datatypes.S k). apply Nat.ltb_lt in Hn.
           split; [lia|]. now rewrite I3.
        -- change (requests (EvLog ?a ?b ?c :: ?r)) with (requests r).
           change (sleeps (EvLog ?a ?b ?c :: ?r)) with (sleeps r).
           split; [lia|]. split; [now apply Forall_app|].
           exists k. split; [lia | exact I3].
Qed.

Lemma classifying_wrapper_bounds (Q : request -> Prop) (fn : M S T)
    (base : Z) :
  calls_at_most_once Q fn ->
  forall n i lastErr s,
    List.length
      (requests (snd (Classifying.withRetries_from fn base i n lastErr s)))
    <= n
    /\ Forall Q
         (requests
            (snd (Classifying.withRetries_from fn base i n lastErr s)))
    /\ exists k,
         k <= n
         /\ sleeps (snd (Classifying.withRetries_from fn base i n lastErr s))
            = backoff base i k.
Proof.
  intros Hfn. induction n as [|n IH]; intros i lastErr s.
  - cbn. split; [lia|]. split; [constructor|]. exists 0. now split.
  - destruct (Hfn s) as (H1 & H2 & H3).
    destruct (fn s) as [[[v|e] s1] t1] eqn:Hs; cbn [snd] in *.
    + rewrite (classifying_returns fn base i n lastErr s v s1 t1 Hs).
      cbn [snd]. split; [lia|]. split; [exact H2|].
      exists 0. split; [lia | exact H3].
    + destruct (Classifying.transient e) as [[|]|e0] eqn:Ht.
      * rewrite (classifying_retries fn base i n lastErr s e s1 t1 Hs Ht).
        specialize (IH (i + 1) e s1).
        destruct (Classifying.withRetries_from fn base (i + 1) n e s1)
          as [[r s2] t2]; cbn [snd] in *.
        destruct IH as (I1 & I2 & k & Hk & I3).
        rewrite requests_app, sleeps_app, H3, length_app. cbn [app].
        change (requests (EvLog ?a ?b ?c :: EvSleep ?d :: ?r))
          with (requests r).
        change (sleeps (EvLog ?a ?b ?c :: EvSleep ?d :: ?r))
          with (d :: sleeps r).
        split; [lia|]. split; [now apply Forall_app|].
        exists (Datatypes.S k). split; [lia|].
        now rewrite I3, backoff_step.
      * rewrite (classifying_rethrows fn base i n lastErr s e s1 t1 Hs Ht).
        cbn [snd]. split; [lia|]. split; [exact H2|].
        exists 0. split; [lia | exact H3].
      * rewrite (classifying_handler_throws fn base i n lastErr s e s1 t1
                   e0 Hs Ht).
        cbn [snd]. split; [lia|]. split; [exact H2|].
        exists 0. split; [lia | exact H3].
Qed.

End WrapperBounds.

Local Open Scope string_scope.
Local Open Scope list_scope.

Section WhatReachesTheService.
Context {P : Platform} {S : Type} {Svc : Service S}.
Import Zod ZodFacts V2Schemas FlatSchemas.

Lemma bind_trace {A B} (c : M S A) (k : A -> M S B) (s : S) :
  snd (bind c k s)
  = snd (c s)
    ++ match fst (fst (c s)) with
       | Ret a => snd (k a (snd (fst (c s))))
       | Throw _ => []
       end.
Proof.
  unfold bind. destruct (c s) as [[[a|e] s1] t1]; cbn [fst snd].
  - destruct (k a s1) as [[r s2] t2]. reflexivity.
  - now rewrite app_nil_r.
Qed.

(** The validation of the adapter's result writes log lines and does
    nothing else. *)
Lemma V2_validate_writes_only (userId : string) (raw : value) (s : S) :
  requests (snd (V2.validate userId raw s)) = []
  /\ sleeps (snd (V2.validate userId raw s)) = [].
Proof.
  destruct (safeParse AnalysisV2 raw) as [analysis|] eqn:H2.
  - rewrite (V2_validate_current userId raw analysis s H2). now split.
  - destruct (safeParse LegacyAnalysis raw) as [legacyData|] eqn:Hl.
    + rewrite (V2_validate_legacy userId raw legacyData s H2 Hl). now split.
    + rewrite (V2_validate_invalid userId raw s H2 Hl). now split.
Qed.

Lemma Flat_validate_writes_only (userId : string) (raw : value) (s : S) :
  requests (snd (Flat.validate userId raw s)) = []
  /\ sleeps (snd (Flat.validate userId raw s)) = [].
Proof.
  destruct (safeParse AnalysisSchema raw) as [analysis|] eqn:H.
  - destruct (safeParse_object_inv _ _ _ H) as (props & fields & _ & -> & _).
    rewrite (Flat_validate_valid userId raw fields s H). now split.
  - rewrite (Flat_validate_invalid userId raw s H). now split.
Qed.

(** The requests and the delays of a run of [analyzeMerged]
    (baseline/projection/deltas revision). *)
Lemma V2_analyzeMerged_effects (userId : string) (mergedPayload : value)
    (healthDatabases : option (list string)) (options : value) (s : S) :
  let args :=
    {| arg_userId := userId;
       arg_mergedData := mergedPayload;
       arg_healthDatabases := healthDatabases;
       arg_model := get_opt options "model";
       arg_max_tokens := get_opt options "max_tokens";
       arg_temperature := get_opt options "temperature" |} in
  let t :=
    snd (V2.analyzeMerged userId mergedPayload healthDatabases options s) in
  List.length (requests t) <= 3
  /\ Forall (sent_for args) (requests t)
  /\ exists k : nat, k <= 2 /\ sleeps t = repeat 1000%Z k.
Proof.
  cbv zeta.
  destruct (truthy mergedPayload) eqn:Ht.
  - rewrite (V2_analyzeMerged_eq userId mergedPayload healthDatabases
               options Ht).
    rewrite bind_trace.
    set (args := {| arg_userId := userId;
                    arg_mergedData := mergedPayload;
                    arg_healthDatabases := healthDatabases;
                    arg_model := get_opt options "model";
                    arg_max_tokens := get_opt options "max_tokens";
                    arg_temperature := get_opt options "temperature" |}).
    destruct (simple_wrapper_bounds (sent_for args) (analyzeWithGroq args)
                1000%Z (adapter_calls_at_most_once args) 3 0 JUndef s)
      as (H1 & H2 & k & Hk & H3).
    change (Simple.withRetries_from (analyzeWithGroq args) 1000 0 3 JUndef s)
      with (V2_fetch userId mergedPayload healthDatabases options s)
      in H1, H2, H3.
    set (fetched := V2_fetch userId mergedPayload healthDatabases options s)
      in *.
    assert (Hrest :
      requests
        (match fst (fst fetched) with
         | Ret a => snd (V2.validate userId a (snd (fst fetched)))
         | Throw _ => []
         end) = []
      /\ sleeps
           (match fst (fst fetched) with
            | Ret a => snd (V2.validate userId a (snd (fst fetched)))
            | Throw _ => []
            end) = []).
    { destruct (fst (fst fetched)); [apply V2_validate_writes_only|].
      now split. }
    destruct Hrest as [Hr Hs].
    rewrite requests_app, sleeps_app, Hr, Hs, !app_nil_r.
    split; [exact H1|]. split; [exact H2|].
    exists k. split; [lia | exact H3].
  - unfold V2.analyzeMerged. rewrite Ht. cbn.
    split; [lia|]. split; [constructor|]. exists 0.
    split; [lia | reflexivity].
Qed.

(** Whatever the model answers, a call of [analyzeMerged]
    (baseline/projection/deltas revision) sends at most three requests
    to the service.  Each of them carries the sanitized copy of the
    merged payload, which has no [name], [email] or [phone] at its top
    level, and the temperature of the options or, without one, 0.  The
    call awaits at most two delays, of one second each. *)
Theorem analyzeMerged_sends_at_most_three_sanitized_requests :
  forall (userId : string) (mergedPayload : value)
         (healthDatabases : option (list string)) (options : value) (s : S),
    let t :=
      snd (V2.analyzeMerged userId mergedPayload healthDatabases options s) in
    List.length (requests t) <= 3
    /\ Forall (fun r => carries_sanitized mergedPayload r
                        /\ req_temperature r
                           = default_to (JNum 0)
                               (get_opt options "temperature"))
         (requests t)
    /\ exists k : nat, k <= 2 /\ sleeps t = repeat 1000%Z k.
Proof.
  intros userId mergedPayload healthDatabases options s. cbv zeta.
  destruct (V2_analyzeMerged_effects userId mergedPayload healthDatabases
              options s) as (H1 & H2 & H3).
  split; [exact H1|]. split; [|exact H3].
  eapply Forall_impl; [|exact H2].
  intros r [Hc Hr']. split; [exact Hc|]. rewrite Hr'. reflexivity.
Qed.

(** The requests and the delays of a run of [analyzeMerged] (flat-schema
    revision, on this adapter). *)
Lemma Flat_analyzeMerged_effects (userId : string) (mergedPayload : value)
    (healthDatabases : option (list string)) (options : value) (s : S) :
  let args :=
    {| arg_userId := userId;
       arg_mergedData := mergedPayload;
       arg_healthDatabases := healthDatabases;
       arg_model :=
         or_else (get_opt options "model")
           (or_else env_GROQ_MODEL (JStr "llama-3.2-70b-versatile"));
       arg_max_tokens :=
         or_else (get_opt options "max_tokens") (JNum 1200);
       arg_temperature :=
         or_else (get_opt options "temperature")
           (JNum 0x1.6666666666666p-1) |} in
  let t :=
    snd (Flat.analyzeMerged analyzeWithGroq userId mergedPayload
           healthDatabases options s) in
  List.length (requests t) <= 3
  /\ Forall (sent_for args) (requests t)
  /\ exists k : nat, k <= 3 /\ sleeps t = backoff 500 0 k.
Proof.
  cbv zeta.
  destruct (truthy mergedPayload) eqn:Ht.
  - rewrite (Flat_analyzeMerged_eq analyzeWithGroq userId mergedPayload
               healthDatabases options Ht).
    rewrite bind_trace.
    set (args :=
           {| arg_userId := userId;
              arg_mergedData := mergedPayload;
              arg_healthDatabases := healthDatabases;
              arg_model :=
                or_else (get_opt options "model")
                  (or_else env_GROQ_MODEL (JStr "llama-3.2-70b-versatile"));
              arg_max_tokens :=
                or_else (get_opt options "max_tokens") (JNum 1200);
              arg_temperature :=
                or_else (get_opt options "temperature")
                  (JNum 0x1.6666666666666p-1) |}).
    destruct (classifying_wrapper_bounds (sent_for args)
                (analyzeWithGroq args) 500%Z
                (adapter_calls_at_most_once args) 3 0 JNull s)
      as (H1 & H2 & k & Hk & H3).
    change (Classifying.withRetries_from (analyzeWithGroq args) 500 0 3
              JNull s)
      with (Flat_fetch analyzeWithGroq userId mergedPayload healthDatabases
              options s)
      in H1, H2, H3.
    set (fetched := Flat_fetch analyzeWithGroq userId mergedPayload
                      healthDatabases options s) in *.
    assert (Hrest :
      requests
        (match fst (fst fetched) with
         | Ret a => snd (Flat.validate userId a (snd (fst fetched)))
         | Throw _ => []
         end) = []
      /\ sleeps
           (match fst (fst fetched) with
            | Ret a => snd (Flat.validate userId a (snd (fst fetched)))
            | Throw _ => []
            end) = []).
    { destruct (fst (fst fetched)); [apply Flat_validate_writes_only|].
      now split. }
    destruct Hrest as [Hr Hs].
    rewrite requests_app, sleeps_app, Hr, Hs, !app_nil_r.
    split; [exact H1|]. split; [exact H2|].
    exists k. split; [lia | exact H3].
  - unfold Flat.analyzeMerged. rewrite Ht. cbn.
    split; [lia|]. split; [constructor|]. exists 0.
    split; [lia | reflexivity].
Qed.

(** Whatever the model answers, a call of [analyzeMerged] (flat-schema
    revision, on this adapter) sends at most three requests to the
    service.  Each of them carries the sanitized copy of the merged
    payload, and a truthy temperature: that of the options or, when it
    is absent or 0, 0.7 (the adapter's own default of 0 is never used).
    The delays the call awaits are the first ones of 500, 1000 and 2000
    milliseconds. *)
Theorem flat_analyzeMerged_sends_at_most_three_sanitized_requests :
  forall (userId : string) (mergedPayload : value)
         (healthDatabases : option (list string)) (options : value) (s : S),
    let t :=
      snd (Flat.analyzeMerged analyzeWithGroq userId mergedPayload
             healthDatabases options s) in
    List.length (requests t) <= 3
    /\ Forall (fun r => carries_sanitized mergedPayload r
                        /\ req_temperature r
                           = or_else (get_opt options "temperature")
                               (JNum 0x1.6666666666666p-1)
                        /\ truthy (req_temperature r) = true)
         (requests t)
    /\ exists k : nat, k <= 3 /\ sleeps t = backoff 500 0 k.
Proof.
  intros userId mergedPayload healthDatabases options s. cbv zeta.
  destruct (Flat_analyzeMerged_effects userId mergedPayload healthDatabases
              options s) as (H1 & H2 & H3).
  split; [exact H1|]. split; [|exact H3].
  eapply Forall_impl; [|exact H2].
  intros r [Hc Hr']. split; [exact Hc|]. rewrite Hr'.
  cbn [req_temperature adapter_request arg_temperature].
  assert (Htemp : truthy (or_else (get_opt options "temperature")
                            (JNum 0x1.6666666666666p-1)) = true).
  { unfold or_else.
    destruct (truthy (get_opt options "temperature")) eqn:E;
      [exact E | reflexivity]. }
  assert (Hdef : forall v, truthy v = true -> default_to (JNum 0) v = v)
    by (intros v Hv; destruct v; try reflexivity; discriminate Hv).
  rewrite (Hdef _ Htemp). now split.
Qed.

End WhatReachesTheService.

Local Open Scope string_scope.
Local Open Scope list_scope.

(** ** Validation: what passes, what is dropped, what comes out *)

Module MoreZodFacts.
Import Zod ZodFacts.

(** One field that fails makes the object fail. *)
Lemma parse_fields_fails props shape k sk :
  In (k, sk) shape ->
  safeParse sk (lookup k props) = None ->
  parse_fields props shape = None.
Proof.
  induction shape as [|[k0 s0] shape IH]; simpl; intros Hin Hf;
    [contradiction|].
  destruct Hin as [Heq | Hin].
  - injection Heq as -> ->. now rewrite Hf.
  - rewrite (IH Hin Hf).
    destruct (safeParse s0 (lookup k0 props)) as [[]|]; reflexivity.
Qed.

(** A key that the input does not own, under an optional schema, is
    left out of the parsed object. *)
Lemma parse_fields_absent props k inner rest out :
  has_key k props = false ->
  parse_fields props rest = Some out ->
  parse_fields props ((k, ZOptional inner) :: rest) = Some out.
Proof.
  intros Hk Hr. change (parse_fields props ((k, ZOptional inner) :: rest))
    with (match safeParse (ZOptional inner) (lookup k props),
                parse_fields props rest with
          | Some JUndef, Some out =>
              Some (if has_key k props then (k, JUndef) :: out else out)
          | Some y, Some out => Some ((k, y) :: out)
          | _, _ => None
          end).
  rewrite Hr, (ObjFacts.lookup_absent _ _ Hk), Hk. reflexivity.
Qed.

(** A key that the input owns with the value [undefined], under an
    optional schema, is kept with that value. *)
Lemma parse_fields_kept_undefined props k inner rest out :
  has_key k props = true ->
  lookup k props = JUndef ->
  parse_fields props rest = Some out ->
  parse_fields props ((k, ZOptional inner) :: rest)
  = Some ((k, JUndef) :: out).
Proof.
  intros Hk Hl Hr. change (parse_fields props ((k, ZOptional inner) :: rest))
    with (match safeParse (ZOptional inner) (lookup k props),
                parse_fields props rest with
          | Some JUndef, Some out =>
              Some (if has_key k props then (k, JUndef) :: out else out)
          | Some y, Some out => Some ((k, y) :: out)
          | _, _ => None
          end).
  rewrite Hr, Hl, Hk. reflexivity.
Qed.

(** A field that parses to a value that is not [undefined] is kept. *)
Lemma parse_fields_present props k sk rest y out :
  safeParse sk (lookup k props) = Some y ->
  y <> JUndef ->
  parse_fields props rest = Some out ->
  parse_fields props ((k, sk) :: rest) = Some ((k, y) :: out).
Proof.
  intros Hy Hd Hr. change (parse_fields props ((k, sk) :: rest))
    with (match safeParse sk (lookup k props), parse_fields props rest with
          | Some JUndef, Some out =>
              Some (if has_key k props then (k, JUndef) :: out else out)
          | Some y, Some out => Some ((k, y) :: out)
          | _, _ => None
          end).
  rewrite Hr, Hy. destruct y; congruence.
Qed.

End MoreZodFacts.

Section MoreValidationFacts.
Context {P : Platform} {S : Type} {Svc : Service S}.
Import Zod ZodFacts MoreZodFacts V2Schemas FlatSchemas ObjFacts.

(** A validated prediction has a condition, a string, and a
    probability, a number. *)
Lemma Pred_fields x y :
  safeParse Pred x = Some y ->
  (exists c, get_opt y "condition" = JStr c)
  /\ exists p, get_opt y "probability_pct" = JNum p.
Proof.
  intro H. unfold Pred in H.
  pose proof (NoDup_keys_Pred _ eq_refl) as Hnd.
  apply safeParse_object_inv in H as (props & fields & -> & -> & H).
  pose proof (parse_fields_lookup props _ fields "condition" ZString
                H Hnd) as Hc.
  specialize (Hc ltac:(simpl; tauto)).
  pose proof (parse_fields_lookup props _ fields "probability_pct"
                (ZNumber []) H Hnd) as Hp.
  specialize (Hp ltac:(simpl; tauto)). clear H Hnd.
  apply safeParse_string_inv in Hc as [Hc [c Hc']].
  apply safeParse_number_inv in Hp as [Hp [p Hp']].
  cbn [get_opt]. rewrite Hc, Hc', Hp, Hp'. eauto.
Qed.

(** The predictions of a validated legacy document are validated
    predictions. *)
Lemma legacy_predictions_validated raw legacyData :
  safeParse LegacyAnalysis raw = Some legacyData ->
  get_opt legacyData "predictions" = JUndef
  \/ exists items ds,
       get_opt legacyData "predictions" = JArr ds
       /\ Forall2 (fun x y => safeParse Pred x = Some y) items ds.
Proof.
  intro H. unfold LegacyAnalysis in H.
  pose proof (NoDup_keys_LegacyAnalysis _ eq_refl) as Hnd.
  apply safeParse_object_inv in H as (props & fields & -> & -> & H).
  pose proof (parse_fields_lookup props _ fields "predictions"
                (ZOptional (ZArray Pred)) H Hnd) as Hp.
  specialize (Hp ltac:(simpl; tauto)). clear H Hnd.
  cbn [get_opt].
  apply safeParse_optional_inv in Hp as [[Hv Hd] | [_ Hp]].
  - left. exact Hd.
  - right. apply safeParse_array_inv in Hp as (items & ds & Hv & Hd & Hi).
    exists items, ds. split; [exact Hd|]. now apply parse_items_Forall2.
Qed.

(** In an upgraded document every delta is made from the prediction at
    the same place of the projection: it has the condition of the
    prediction, and its [projection_pct] is the [probability_pct] of the
    prediction, a number; the fallbacks to a [probability] field and to
    0 are never taken on a validated prediction. *)
Theorem upgraded_deltas_mirror_the_predictions :
  forall (userId : string) (raw legacyData : value) (s : S),
    safeParse AnalysisV2 raw = None ->
    safeParse LegacyAnalysis raw = Some legacyData ->
    exists (out : value) (predictions deltas : list value),
      fst (fst (V2.validate userId raw s)) = Ret out
      /\ get_opt (get_opt out "projection") "predictions" = JArr predictions
      /\ get_opt out "deltas" = JArr deltas
      /\ Forall2
           (fun p d =>
              get_opt d "condition" = get_opt p "condition"
              /\ get_opt d "projection_pct" = get_opt p "probability_pct"
              /\ (exists c : string, get_opt p "condition" = JStr c)
              /\ exists x : float, get_opt p "probability_pct" = JNum x)
           predictions deltas.
Proof.
  intros userId raw legacyData s H2 Hl.
  rewrite (V2_validate_legacy userId raw legacyData s H2 Hl). cbn [fst].
  eexists.
  destruct (legacy_predictions_validated raw legacyData Hl)
    as [Hu | (items & ds & Hd & Hall)].
  - exists [], []. split; [reflexivity|].
    unfold V2.upgrade_legacy. rewrite Hu.
    cbn. repeat split. constructor.
  - exists ds. eexists. split; [reflexivity|].
    unfold V2.upgrade_legacy. rewrite Hd.
    cbn [or_else truthy get_opt lookup String.eqb Ascii.eqb Bool.eqb
         array_map].
    split; [reflexivity|]. split; [reflexivity|].
    clear Hd. induction Hall as [|x y items ds Hxy _ IH]; cbn [map];
      constructor; [|exact IH].
    destruct (Pred_fields x y Hxy) as [[c Hc] [p Hp]].
    cbn [get_opt lookup String.eqb Ascii.eqb Bool.eqb].
    rewrite Hp. cbn [coalesce nullish]. rewrite Hc. eauto 6.
Qed.

(** The document the upgrader makes is not always of the current shape:
    when the legacy document has no [explainability] (or a falsy one),
    the upgrader puts an empty object there, which has no
    [top_features], and when it has one that is not of the form of the
    current shape, the upgrader copies it; in both cases the upgraded
    document fails the validation against the current shape. *)
Theorem upgraded_document_can_fail_the_current_shape :
  forall (userId : string) (raw legacyData : value) (s : S),
    safeParse AnalysisV2 raw = None ->
    safeParse LegacyAnalysis raw = Some legacyData ->
    truthy (get_opt legacyData "explainability") = false
    \/ safeParse explainability_schema (get_opt legacyData "explainability")
       = None ->
    exists out : value,
      fst (fst (V2.validate userId raw s)) = Ret out
      /\ get_opt out "explainability"
         = or_else (get_opt legacyData "explainability") (JObj [])
      /\ safeParse AnalysisV2 out = None.
Proof.
  intros userId raw legacyData s H2 Hl Hex.
  rewrite (V2_validate_legacy userId raw legacyData s H2 Hl). cbn [fst].
  eexists. split; [reflexivity|]. split; [reflexivity|].
  unfold V2.upgrade_legacy. unfold AnalysisV2.
  rewrite safeParse_object_eq.
  rewrite (parse_fields_fails _ _ "explainability"
             (ZOptional explainability_schema));
    [reflexivity | simpl; tauto |].
  cbn [lookup String.eqb Ascii.eqb Bool.eqb].
  rewrite safeParse_optional_eq.
  unfold or_else.
  destruct Hex as [Hf | Hn].
  - rewrite Hf. reflexivity.
  - destruct (truthy (get_opt legacyData "explainability")) eqn:Ht;
      [|reflexivity].
    destruct (get_opt legacyData "explainability"); try discriminate Ht;
      exact Hn.
Qed.

(** A flat document whose two metadata fields are strings validates
    against the current shape, whatever its [predictions] are (the
    current shape has no such key, and every other key of it is
    optional): [analyzeMerged] returns the metadata, and the summary if
    there is one, without predictions, projection or deltas, and the
    upgrader is not run. *)
Theorem flat_document_with_metadata_loses_its_predictions :
  forall (userId : string) (props : list (string * value))
         (mv go : string) (s : S),
    lookup "model_version" props = JStr mv ->
    lookup "generated_on" props = JStr go ->
    (lookup "summary" props = JUndef
     \/ exists text : string, lookup "summary" props = JStr text) ->
    has_key "baseline" props = false ->
    has_key "projection" props = false ->
    has_key "deltas" props = false ->
    has_key "explainability" props = false ->
    exists out : value,
      fst (fst (V2.validate userId (JObj props) s)) = Ret out
      /\ get_opt out "model_version" = JStr mv
      /\ get_opt out "generated_on" = JStr go
      /\ get_opt out "summary" = lookup "summary" props
      /\ owns out "predictions" = false
      /\ owns out "projection" = false
      /\ owns out "deltas" = false.
Proof.
  intros userId props mv go s Hmv Hgo Hsum Hb Hp Hd He.
  assert (Hparse : exists fields,
            safeParse AnalysisV2 (JObj props) = Some (JObj fields)
            /\ lookup "model_version" fields = JStr mv
            /\ lookup "generated_on" fields = JStr go
            /\ lookup "summary" fields = lookup "summary" props
            /\ has_key "predictions" fields = false
            /\ has_key "projection" fields = false
            /\ has_key "deltas" fields = false).
  { unfold AnalysisV2. rewrite safeParse_object_eq.
    assert (E1 : parse_fields props
                   [("baseline",
                     ZOptional (ZObject [("predictions", ZArray Pred)]));
                    ("projection",
                     ZOptional (ZObject [("predictions", ZArray Pred)]));
                    ("deltas",
                     ZOptional (ZArray (ZObject [
                       ("condition", ZString);
                       ("baseline_pct", ZNumber []);
                       ("projection_pct", ZNumber []);
                       ("delta_pct", ZNumber [])])));
                    ("explainability",
                     ZOptional (ZObject [
                       ("top_features",
                        ZArray (ZObject [("feature", ZString);
                                         ("impact", ZNumber [])]))]))]
                 = Some []).
    { repeat (apply parse_fields_absent; [assumption|]). reflexivity. }
    assert (E2 : exists tail,
              parse_fields props
                (("summary", ZOptional ZString)
                 :: [("baseline",
                      ZOptional (ZObject [("predictions", ZArray Pred)]));
                     ("projection",
                      ZOptional (ZObject [("predictions", ZArray Pred)]));
                     ("deltas",
                      ZOptional (ZArray (ZObject [
                        ("condition", ZString);
                        ("baseline_pct", ZNumber []);
                        ("projection_pct", ZNumber []);
                        ("delta_pct", ZNumber [])])));
                     ("explainability",
                      ZOptional (ZObject [
                        ("top_features",
                         ZArray (ZObject [("feature", ZString);
                                          ("impact", ZNumber [])]))]))])
              = Some tail
              /\ lookup "summary" tail = lookup "summary" props
              /\ has_key "predictions" tail = false
              /\ has_key "projection" tail = false
              /\ has_key "deltas" tail = false).
    { destruct Hsum as [Hs | [text Hs]].
      - destruct (has_key "summary" props) eqn:Hk.
        + exists [("summary", JUndef)].
          rewrite (parse_fields_kept_undefined _ _ _ _ _ Hk Hs E1).
          rewrite Hs. repeat split; reflexivity.
        + exists []. rewrite (parse_fields_absent _ _ _ _ _ Hk E1).
          rewrite Hs. repeat split; reflexivity.
      - exists [("summary", JStr text)].
        rewrite (parse_fields_present props "summary" (ZOptional ZString)
                   _ (JStr text) [] ltac:(now rewrite Hs)
                   ltac:(discriminate) E1).
        rewrite Hs. repeat split; reflexivity. }
    destruct E2 as (tail & E2 & T1 & T2 & T3 & T4).
    rewrite (parse_fields_present props "model_version" ZString _ (JStr mv)
               (("generated_on", JStr go) :: tail)
               ltac:(now rewrite Hmv) ltac:(discriminate)).
    - eexists. split; [reflexivity|]. cbn [lookup has_key String.eqb Ascii.eqb Bool.eqb orb].
      repeat split; assumption.
    - apply (parse_fields_present props "generated_on" ZString _ (JStr go)
               tail ltac:(now rewrite Hgo) ltac:(discriminate) E2). }
  destruct Hparse as (fields & Hparse & H1 & H2 & H3 & H4 & H5 & H6).
  rewrite (V2_validate_current userId (JObj props) (JObj fields) s Hparse).
  cbn [fst]. eexists. split; [reflexivity|]. cbn [get_opt owns].
  repeat split; assumption.
Qed.

(** The flat-schema revision requires a list of predictions: a response
    that has none (as a response of the baseline/projection/deltas
    shape) is rejected, whatever else it holds. *)
Theorem flat_revision_rejects_a_response_without_predictions :
  forall (userId : string) (raw : value) (s : S),
    is_array (get_opt raw "predictions") = false ->
    safeParse AnalysisSchema raw = None
    /\ Flat.validate userId raw s
       = (Throw (Error "Invalid analysis result from Groq"), s,
          [EvLog "error" (JObj [("rawResult", raw)])
             "Groq returned invalid analysis schema"]).
Proof.
  intros userId raw s H.
  assert (Hn : safeParse AnalysisSchema raw = None).
  { unfold AnalysisSchema. rewrite safeParse_object_eq.
    destruct raw; try reflexivity.
    rewrite (parse_fields_fails _ _ "predictions" (ZArray PredictionSchema));
      [reflexivity | simpl; tauto |].
    cbn [get_opt] in H. rewrite safeParse_array_eq.
    destruct (lookup "predictions" props); try reflexivity.
    discriminate H. }
  split; [exact Hn | now apply Flat_validate_invalid].
Qed.

End MoreValidationFacts.

(** ** Rounding *)

Module RoundingFacts.

Definition fixed_by_rounding (k : Z) : bool :=
  PrimFloat.Leibniz.eqb (Num.round_1_decimal (tenths k)) (tenths k).

Lemma all_fixed :
  forallb fixed_by_rounding (map (fun n => (Z.of_nat n - 10)%Z) (seq 0 1011))
  = true.
Proof. vm_compute. reflexivity. Qed.

End RoundingFacts.

(** On the percentages that have at most one decimal place, from the
    sentinel -1 to 100, the rounding of the flat-schema revision changes
    nothing: the sentinel and the whole percentages come back as they
    are, and rounding a rounded percentage gives it back. *)
Theorem rounding_keeps_percentages_of_one_decimal :
  forall k : Z,
    (-10 <= k <= 1000)%Z ->
    Num.round_1_decimal (tenths k) = tenths k.
Proof.
  intros k Hk.
  pose proof RoundingFacts.all_fixed as H.
  rewrite forallb_forall in H.
  apply FloatAxioms.Leibniz.eqb_spec.
  apply (H k). apply in_map_iff.
  exists (Z.to_nat (k + 10)). split; [lia|].
  apply in_seq. lia.
Qed.

Local Open Scope string_scope.
Local Open Scope list_scope.

(** ** [analyzeBatch]: the pauses, and a batch size of zero *)

Section MoreBatchFacts.
Context {P : Platform} {S : Type} {Svc : Service S}.
Variable adapter : adapter_args -> M S value.

(** With a batch size of zero and at least one request, the loop of
    [analyzeBatch] never ends: every iteration runs an empty batch,
    awaits the pause and starts again at the same index, so that no
    amount of fuel gives a result, and no request is ever run. *)
Theorem batch_size_zero_never_finishes :
  forall (analyses : list analysis_request) (delayMs : Z) (fuel : nat)
         (s : S),
    analyses <> [] ->
    Flat.analyzeBatch adapter fuel analyses 0 delayMs s
    = (Ret None, s, repeat (EvSleep delayMs) fuel).
Proof.
  intros analyses delayMs fuel s Hne. unfold Flat.analyzeBatch.
  generalize (@nil value) as results.
  destruct analyses as [|a l]; [congruence|]. clear Hne.
  induction fuel as [|fuel IH]; intro results; [reflexivity|].
  cbn [Flat.analyzeBatch_from List.length Nat.ltb Nat.leb firstn map
       Flat.allSettled Nat.add].
  unfold bind, ret. cbn [Flat.collect]. unfold ret, sleep, emit.
  rewrite IH. reflexivity.
Qed.

Lemma allSettled_quiet (batch : list analysis_request) :
  (forall req s0, In req batch ->
     sleeps (snd (Flat.analyzeMerged adapter (userId req) (mergedPayload req)
                    (healthDatabases req) JUndef s0)) = []) ->
  forall s,
    sleeps
      (snd (Flat.allSettled
              (map (fun r => Flat.analyzeMerged adapter (userId r)
                               (mergedPayload r) (healthDatabases r) JUndef)
                 batch) s)) = [].
Proof.
  induction batch as [|req batch IH]; intros Hq s; [reflexivity|].
  cbn [map Flat.allSettled].
  pose proof (Hq req s (or_introl eq_refl)) as H1.
  destruct (Flat.analyzeMerged adapter (userId req) (mergedPayload req)
              (healthDatabases req) JUndef s) as [[o s1] t1].
  specialize (IH (fun r s0 Hr => Hq r s0 (or_intror Hr)) s1).
  destruct (Flat.allSettled _ s1) as [[rs s2] t2].
  cbn [snd] in *. now rewrite sleeps_app, H1, IH.
Qed.

Lemma pauses_step (m b : nat) :
  0 < b -> b <= m -> m / b = Datatypes.S ((m - b) / b).
Proof.
  intros Hb Hm.
  replace m with ((m - b) + 1 * b) at 1 by lia.
  rewrite Nat.div_add by lia. lia.
Qed.

Lemma analyzeBatch_from_pauses (analyses : list analysis_request)
    (batchSize : nat) (delayMs : Z) :
  0 < batchSize ->
  (forall req s0, In req analyses ->
     sleeps (snd (Flat.analyzeMerged adapter (userId req) (mergedPayload req)
                    (healthDatabases req) JUndef s0)) = []) ->
  forall (fuel i : nat) (results : list value) (s : S),
    List.length analyses - i <= fuel ->
    sleeps
      (snd (Flat.analyzeBatch_from adapter fuel analyses batchSize delayMs i
              results s))
    = repeat delayMs ((List.length analyses - i - 1) / batchSize).
Proof.
  intros Hsize Hq. induction fuel as [|fuel IH]; intros i results s Hfuel.
  - assert (Hi : (i <? List.length analyses)%nat = false)
      by (apply Nat.ltb_ge; lia).
    cbn [Flat.analyzeBatch_from]. rewrite Hi. cbn.
    replace (List.length analyses - i - 1) with 0 by lia.
    now rewrite Nat.Div0.div_0_l.
  - cbn [Flat.analyzeBatch_from].
    destruct (i <? List.length analyses)%nat eqn:Hi.
    + apply Nat.ltb_lt in Hi.
      set (batch := firstn batchSize (skipn i analyses)).
      assert (Hin : forall req, In req batch -> In req analyses).
      { intros req Hr. unfold batch in Hr.
        rewrite <- (firstn_skipn i analyses). apply in_or_app. right.
        rewrite <- (firstn_skipn batchSize (skipn i analyses)).
        apply in_or_app. now left. }
      pose proof (allSettled_quiet batch
                    (fun r s0 Hr => Hq r s0 (Hin r Hr)) s) as Hall.
      destruct (allSettled_settles adapter batch s)
        as (outs & s1 & t1 & Hrun & Hset).
      destruct (collect_pushes batch outs (Forall2_length Hset) results s1)
        as (t2 & Hcol & Hsl).
      unfold bind. fold batch.
      rewrite Hrun in Hall |- *. cbn [snd] in Hall. rewrite Hcol.
      specialize (IH (i + batchSize) (results ++ map nullable outs) s1).
      destruct (i + batchSize <? List.length analyses)%nat eqn:Hmore;
        unfold sleep, emit, ret;
        destruct (Flat.analyzeBatch_from adapter fuel analyses batchSize
                    delayMs (i + batchSize) (results ++ map nullable outs)
                    s1) as [[r s2] t3]; cbn [snd] in *;
        rewrite !sleeps_app, Hall, Hsl; cbn [app];
        rewrite IH by lia.
      * apply Nat.ltb_lt in Hmore.
        change (sleeps [EvSleep delayMs]) with [delayMs]. cbn [app].
        rewrite (pauses_step (List.length analyses - i - 1) batchSize)
          by lia.
        cbn [repeat]. do 3 f_equal. lia.
      * apply Nat.ltb_ge in Hmore.
        rewrite (Nat.div_small (List.length analyses - i - 1)) by lia.
        replace (List.length analyses - (i + batchSize) - 1) with 0 by lia.
        now rewrite Nat.Div0.div_0_l.
    + apply Nat.ltb_ge in Hi. cbn.
      replace (List.length analyses - i - 1) with 0 by lia.
      now rewrite Nat.Div0.div_0_l.
Qed.


End MoreBatchFacts.

Local Open Scope string_scope.
Local Open Scope list_scope.

(** ** The first revision of [analyzeMerged] *)

Module ToyFacts.
Import MoreNumFacts.

Lemma ltb_irrefl (c : float) : (c <? c)%float = false.
Proof.
  rewrite ltb_spec. unfold SFltb.
  pose proof (NumFacts.SFcompare_antisym (Prim2SF c) (Prim2SF c)) as H.
  destruct (SFcompare (Prim2SF c) (Prim2SF c)) as [[]|];
    try reflexivity; discriminate H.
Qed.

Lemma leb_refl (c : float) :
  PrimFloat.is_nan c = false -> (c <=? c)%float = true.
Proof. intro H. apply not_ltb_leb; [exact H | exact H | apply ltb_irrefl]. Qed.

(** [Math.min(c, y)] of two numbers is a number, at most [c]. *)
Lemma Math_min_cap (c y : float) :
  PrimFloat.is_nan c = false -> PrimFloat.is_nan y = false ->
  PrimFloat.is_nan (Toy.Math_min c y) = false
  /\ (Toy.Math_min c y <=? c)%float = true.
Proof.
  intros Hc Hy. unfold Toy.Math_min. rewrite Hc, Hy. cbn [orb].
  destruct (c <? y)%float eqn:E1; [split; [exact Hc | now apply leb_refl]|].
  destruct (y <? c)%float eqn:E2; [split; [exact Hy | now apply ltb_leb]|].
  destruct (PrimFloat.get_sign c);
    [split; [exact Hc | now apply leb_refl]|].
  split; [exact Hy | now apply not_ltb_leb].
Qed.

Section Rules.
Context {P : Platform}.
Variable StringToNumber : string -> float.

(** The probability of a rule that fires: a number, at most the cap. *)
Lemma rule_probability (cap floor offset factor x : float)
    s1 m1 e1 s2 m2 e2 :
  PrimFloat.is_nan cap = false ->
  Prim2SF offset = S754_finite s1 m1 e1 ->
  Prim2SF factor = S754_finite s2 m2 e2 ->
  (floor <=? x)%float = true ->
  let p := Toy.Math_min cap (Num.Math_round ((x - offset) * factor)) in
  PrimFloat.is_nan p = false /\ (p <=? cap)%float = true.
Proof.
  intros Hcap Ho Hf Hv p. subst p. apply Math_min_cap; [exact Hcap|].
  apply Math_round_not_nan.
  eapply mul_finite_not_nan; [|exact Hf].
  eapply sub_finite_not_nan; [|exact Ho].
  eapply leb_true_not_nan. exact Hv.
Qed.

Lemma diabetes_probability (x : float) :
  (6.5 <=? x)%float = true ->
  exists p,
    get_opt (Toy.diabetes x) "probability" = JNum p
    /\ PrimFloat.is_nan p = false /\ (p <=? 95)%float = true.
Proof.
  intro H. eexists. split; [reflexivity|].
  eapply (rule_probability 95 6.5 4 12 x); try exact H;
    vm_compute; reflexivity.
Qed.

Lemma cardiovascular_probability (x : float) :
  (28 <=? x)%float = true ->
  exists p,
    get_opt (Toy.cardiovascular x) "probability" = JNum p
    /\ PrimFloat.is_nan p = false /\ (p <=? 80)%float = true.
Proof.
  intro H. eexists. split; [reflexivity|].
  eapply (rule_probability 80 28 20 3 x); try exact H;
    vm_compute; reflexivity.
Qed.

(** One [if] of the three: the rule fires on a truthy reading whose
    number reaches the floor. *)
Lemma push_if_returns (v : value) (floor x : float)
    (rule : float -> value) (predictions : list value) :
  Toy.impact StringToNumber v = Ret x ->
  Toy.push_if StringToNumber v floor rule predictions
  = Ret (if truthy v && (floor <=? x)%float
         then predictions ++ [rule x] else predictions).
Proof.
  unfold Toy.impact, Toy.push_if. destruct (truthy v); [|reflexivity].
  intros ->. cbn [obind andb]. now destruct (floor <=? x)%float.
Qed.

Lemma push_if_throws (v e : value) (floor : float)
    (rule : float -> value) (predictions : list value) :
  Toy.impact StringToNumber v = Throw e ->
  Toy.push_if StringToNumber v floor rule predictions = Throw e.
Proof.
  unfold Toy.impact, Toy.push_if. destruct (truthy v); [|discriminate].
  now intros ->.
Qed.

(** The four outcomes of the three [if]s. *)
Lemma predictions_cases (lastHbA1c bmi : value) (xh xb : float) :
  Toy.impact StringToNumber lastHbA1c = Ret xh ->
  Toy.impact StringToNumber bmi = Ret xb ->
  let fires_h := truthy lastHbA1c && (6.5 <=? xh)%float in
  let fires_b := truthy bmi && (28 <=? xb)%float in
  Toy.predictions_of StringToNumber lastHbA1c bmi
  = Ret match fires_h, fires_b with
        | true, true => [Toy.diabetes xh; Toy.cardiovascular xb]
        | true, false => [Toy.diabetes xh]
        | false, true => [Toy.cardiovascular xb]
        | false, false => [Toy.general]
        end.
Proof.
  intros Hh Hb. cbv zeta. unfold Toy.predictions_of.
  rewrite (push_if_returns _ _ _ _ _ Hh). cbn [obind].
  rewrite (push_if_returns _ _ _ _ _ Hb). cbn [obind].
  destruct (truthy lastHbA1c && (6.5 <=? xh)%float);
    destruct (truthy bmi && (28 <=? xb)%float); reflexivity.
Qed.

(** A reading that has no number is an object or an array whose
    conversion to a string throws. *)
Lemma impact_throws (v e : value) :
  Toy.impact StringToNumber v = Throw e ->
  truthy v = true /\ ToString v = Throw e
  /\ e = TypeError "Cannot convert object to primitive value".
Proof.
  unfold Toy.impact. destruct (truthy v); [|discriminate].
  intro H. split; [reflexivity|].
  assert (Hs : ToString v = Throw e).
  { destruct v as [ | | [|] | x | s | items | props ];
      try discriminate H; cbn [Toy.ToNumber] in H;
      match type of H with
      | obind ?c _ = _ =>
          destruct c; cbn [obind] in H;
          [discriminate H | now injection H as ->]
      end. }
  split; [exact Hs | exact (ToString_throws _ _ Hs)].
Qed.

End Rules.
End ToyFacts.

Section ToyTheorems.
Context {P : Platform} {S : Type} {Svc : Service S}.
Variable StringToNumber : string -> float.
Import ToyFacts.

Lemma toy_returns (userId : string) (mergedPayload : value) (s : S)
    (xh xb : float) :
  let h := Toy.reading mergedPayload "last_hba1c" in
  let b := Toy.reading mergedPayload "bmi" in
  Toy.impact StringToNumber h = Ret xh ->
  Toy.impact StringToNumber b = Ret xb ->
  exists out : value,
    Toy.analyzeMerged StringToNumber userId mergedPayload s = (Ret out, s, [])
    /\ get_opt out "model_version" = JStr "toy-v1"
    /\ get_opt out "predictions"
       = JArr match truthy h && (6.5 <=? xh)%float,
                    truthy b && (28 <=? xb)%float with
              | true, true => [Toy.diabetes xh; Toy.cardiovascular xb]
              | true, false => [Toy.diabetes xh]
              | false, true => [Toy.cardiovascular xb]
              | false, false => [Toy.general]
              end.
Proof.
  intros h b Hh Hb. unfold Toy.analyzeMerged, bind, lift, now, ret.
  fold h. fold b.
  rewrite (predictions_cases StringToNumber h b xh xb Hh Hb), Hh, Hb.
  cbv zeta. eexists. split; [reflexivity|]. split; reflexivity.
Qed.

Lemma toy_throws (userId : string) (mergedPayload : value) (s : S)
    (e : value) :
  let h := Toy.reading mergedPayload "last_hba1c" in
  let b := Toy.reading mergedPayload "bmi" in
  Toy.impact StringToNumber h = Throw e
  \/ ((exists xh, Toy.impact StringToNumber h = Ret xh)
      /\ Toy.impact StringToNumber b = Throw e) ->
  Toy.analyzeMerged StringToNumber userId mergedPayload s = (Throw e, s, []).
Proof.
  intros h b H. unfold Toy.analyzeMerged, bind, lift.
  fold h. fold b. unfold Toy.predictions_of.
  destruct H as [Hh | [[xh Hh] Hb]].
  - now rewrite (push_if_throws _ _ _ _ _ _ Hh).
  - rewrite (push_if_returns _ _ _ _ _ _ Hh). cbn [obind].
    now rewrite (push_if_throws _ _ _ _ _ _ Hb).
Qed.

(** The first revision of [analyzeMerged] calls no service.  When each
    of the two readings is falsy or has a number, it returns a document
    with one or two predictions: the rules that fire, in the order
    diabetes, cardiovascular, or, when none fires, the general risk
    alone.  When a truthy reading has no number (an object that owns a
    [toString] key, say), [Number] throws, and the call throws this
    TypeError. *)
Theorem first_revision_predicts_or_throws :
  forall (userId : string) (mergedPayload : value) (s : S),
    let h := Toy.reading mergedPayload "last_hba1c" in
    let b := Toy.reading mergedPayload "bmi" in
    (forall xh xb : float,
        Toy.impact StringToNumber h = Ret xh ->
        Toy.impact StringToNumber b = Ret xb ->
        exists (out : value) (predictions : list value),
          Toy.analyzeMerged StringToNumber userId mergedPayload s
          = (Ret out, s, [])
          /\ get_opt out "model_version" = JStr "toy-v1"
          /\ get_opt out "predictions" = JArr predictions
          /\ 1 <= List.length predictions <= 2
          /\ (In Toy.general predictions -> predictions = [Toy.general])
          /\ (predictions = [Toy.general]
              <-> truthy h && (6.5 <=? xh)%float = false
                  /\ truthy b && (28 <=? xb)%float = false))
    /\ (forall e : value,
          Toy.impact StringToNumber h = Throw e
          \/ ((exists xh, Toy.impact StringToNumber h = Ret xh)
              /\ Toy.impact StringToNumber b = Throw e) ->
          Toy.analyzeMerged StringToNumber userId mergedPayload s
          = (Throw e, s, [])
          /\ e = TypeError "Cannot convert object to primitive value")
    /\ (forall (v : value) (props : list (string * value)),
          v = JObj props -> has_key "toString" props = true ->
          exists e, Toy.impact StringToNumber v = Throw e).
Proof.
  intros userId mergedPayload s h b. split; [|split].
  - intros xh xb Hh Hb.
    destruct (toy_returns userId mergedPayload s xh xb Hh Hb)
      as (out & Hrun & Hmv & Hp).
    fold h in Hp. fold b in Hp.
    eexists. eexists. split; [exact Hrun|]. split; [exact Hmv|].
    split; [exact Hp|].
    destruct (truthy h && (6.5 <=? xh)%float);
      destruct (truthy b && (28 <=? xb)%float);
      (split; [simpl; lia|]); split;
      try (intros [H | [H | []]]; discriminate H);
      try (intros [H | []]; discriminate H);
      try (intros _; reflexivity);
      split; try (intro H; discriminate H);
      try (intros [H1 H2]; discriminate);
      try (intros _; split; reflexivity).
  - intros e H. split; [now apply toy_throws|].
    destruct H as [H | [_ H]];
      now destruct (impact_throws StringToNumber _ _ H) as (_ & _ & ->).
  - intros v props -> Hk. eexists. unfold Toy.impact.
    cbn [truthy Toy.ToNumber ToString]. rewrite Hk. reflexivity.
Qed.

(** The probabilities of a document the first revision returns are
    numbers within their caps, whatever the readings are: at most 95 for
    diabetes, at most 80 for the cardiovascular rule, 12 for the general
    risk; a reading whose number is [NaN] fires no rule, so that no
    probability is [NaN]. *)
Theorem first_revision_probabilities_are_capped :
  forall (userId : string) (mergedPayload : value) (s s' : S)
         (out : value) (t : list event),
    Toy.analyzeMerged StringToNumber userId mergedPayload s
    = (Ret out, s', t) ->
    exists predictions : list value,
      get_opt out "predictions" = JArr predictions
      /\ Forall
           (fun p =>
              exists x : float,
                get_opt p "probability" = JNum x
                /\ PrimFloat.is_nan x = false
                /\ ((get_opt p "condition" = JStr "Type 2 Diabetes"
                     /\ (x <=? 95)%float = true)
                    \/ (get_opt p "condition" = JStr "Cardiovascular Disease"
                        /\ (x <=? 80)%float = true)
                    \/ (get_opt p "condition" = JStr "Overall Risk (general)"
                        /\ x = 12%float)))
           predictions.
Proof.
  intros userId mergedPayload s s' out t Hrun.
  set (h := Toy.reading mergedPayload "last_hba1c").
  set (b := Toy.reading mergedPayload "bmi").
  destruct (Toy.impact StringToNumber h) as [xh|e] eqn:Hh.
  2:{ rewrite (toy_throws userId mergedPayload s e) in Hrun;
        [discriminate Hrun | left; exact Hh]. }
  destruct (Toy.impact StringToNumber b) as [xb|e] eqn:Hb.
  2:{ rewrite (toy_throws userId mergedPayload s e) in Hrun;
        [discriminate Hrun | right; split; [eauto | exact Hb]]. }
  destruct (toy_returns userId mergedPayload s xh xb Hh Hb)
    as (out' & Hrun' & _ & Hp).
  rewrite Hrun' in Hrun. injection Hrun as -> _ _.
  fold h in Hp. fold b in Hp.
  eexists. split; [exact Hp|].
  assert (Hd : (6.5 <=? xh)%float = true ->
               exists x : float,
                 get_opt (Toy.diabetes xh) "probability" = JNum x
                 /\ PrimFloat.is_nan x = false
                 /\ ((get_opt (Toy.diabetes xh) "condition"
                      = JStr "Type 2 Diabetes"
                      /\ (x <=? 95)%float = true)
                     \/ (get_opt (Toy.diabetes xh) "condition"
                         = JStr "Cardiovascular Disease"
                         /\ (x <=? 80)%float = true)
                     \/ (get_opt (Toy.diabetes xh) "condition"
                         = JStr "Overall Risk (general)"
                         /\ x = 12%float))).
  { intro H. destruct (diabetes_probability xh H) as (x & H1 & H2 & H3).
    exists x. split; [exact H1|]. split; [exact H2|].
    left. split; [reflexivity | exact H3]. }
  assert (Hc : (28 <=? xb)%float = true ->
               exists x : float,
                 get_opt (Toy.cardiovascular xb) "probability" = JNum x
                 /\ PrimFloat.is_nan x = false
                 /\ ((get_opt (Toy.cardiovascular xb) "condition"
                      = JStr "Type 2 Diabetes"
                      /\ (x <=? 95)%float = true)
                     \/ (get_opt (Toy.cardiovascular xb) "condition"
                         = JStr "Cardiovascular Disease"
                         /\ (x <=? 80)%float = true)
                     \/ (get_opt (Toy.cardiovascular xb) "condition"
                         = JStr "Overall Risk (general)"
                         /\ x = 12%float))).
  { intro H. destruct (cardiovascular_probability xb H)
      as (x & H1 & H2 & H3).
    exists x. split; [exact H1|]. split; [exact H2|].
    right. left. split; [reflexivity | exact H3]. }
  assert (Hg : exists x : float,
                 get_opt Toy.general "probability" = JNum x
                 /\ PrimFloat.is_nan x = false
                 /\ ((get_opt Toy.general "condition"
                      = JStr "Type 2 Diabetes"
                      /\ (x <=? 95)%float = true)
                     \/ (get_opt Toy.general "condition"
                         = JStr "Cardiovascular Disease"
                         /\ (x <=? 80)%float = true)
                     \/ (get_opt Toy.general "condition"
                         = JStr "Overall Risk (general)"
                         /\ x = 12%float))).
  { exists 12%float. split; [reflexivity|]. split; [reflexivity|].
    right. right. split; reflexivity. }
  destruct (truthy h && (6.5 <=? xh)%float) eqn:Eh;
    destruct (truthy b && (28 <=? xb)%float) eqn:Eb;
    try (apply andb_true_iff in Eh as [_ Eh]);
    try (apply andb_true_iff in Eb as [_ Eb]);
    repeat constructor; auto.
Qed.

End ToyTheorems.

(** ** The merged payloads of the routes *)

Section RoutePayloadFacts.
Context {P : Platform} {S : Type} {Svc : Service S}.
Import ObjFacts.

(** What the serialised copy of the route's payload holds. *)
Lemma copy_of_merged (docs : list value) (lifestyle : value) :
  exists ps,
    json_copy (Route.merged docs lifestyle) = JObj ps
    /\ lookup "baselineRecords" ps
       = JArr (map (fun d => json_copy (Route.baseline_record d)) docs)
    /\ lookup "lifestyle" ps
       = match lifestyle with
         | JUndef => JUndef
         | _ => json_copy lifestyle
         end
    /\ has_key "name" ps = false /\ has_key "email" ps = false
    /\ has_key "phone" ps = false /\ has_key "abha_id" ps = false
    /\ has_key "notes" ps = false.
Proof.
  unfold Route.merged. rewrite json_copy_object.
  cbn [copy_props json_copy]. rewrite map_map.
  destruct lifestyle; eexists; (split; [reflexivity|]);
    repeat split; reflexivity.
Qed.

(** The payload the route builds has two keys, [baselineRecords] and
    [lifestyle], so the sanitizer finds none of its five keys: the
    payload reaches the service as its serialised copy, with every
    record as it is stored, the names, emails and phones inside the
    records included; and it is an object, so that [analyzeMerged] never
    misses its payload on this route. *)
Theorem route_payload_reaches_the_service_as_it_is :
  forall (docs : list value) (lifestyle : value),
    truthy (Route.merged docs lifestyle) = true
    /\ sanitizePayload (Route.merged docs lifestyle)
       = Ret (json_copy (Route.merged docs lifestyle))
    /\ get_opt (json_copy (Route.merged docs lifestyle)) "baselineRecords"
       = JArr (map (fun d => json_copy (Route.baseline_record d)) docs)
    /\ (forall d : value,
          get_opt d "payload" <> JUndef ->
          get_opt (json_copy (Route.baseline_record d)) "payload"
          = json_copy (get_opt d "payload"))
    /\ (forall (userId : string) (healthDatabases : option (list string))
               (options : value) (s : S),
          Forall (fun r =>
                    req_payload r = json_copy (Route.merged docs lifestyle))
            (requests
               (snd (V2.analyzeMerged userId (Route.merged docs lifestyle)
                       healthDatabases options s)))).
Proof.
  intros docs lifestyle.
  destruct (copy_of_merged docs lifestyle)
    as (ps & Hps & Hb & _ & H1 & H2 & H3 & H4 & H5).
  assert (Hsan : sanitizePayload (Route.merged docs lifestyle)
                 = Ret (json_copy (Route.merged docs lifestyle))).
  { assert (Hne : Route.merged docs lifestyle <> JUndef) by discriminate.
    rewrite (sanitize_object _ ps Hne Hps), Hps.
    destruct (sanitize_props_clean "" ps H1 H2 H3 H4 H5) as [Ha Hc].
    rewrite Ha. cbn [obind]. now rewrite Hc. }
  split; [reflexivity|]. split; [exact Hsan|].
  split; [rewrite Hps; exact Hb|]. split.
  - intros d Hd. unfold Route.baseline_record. rewrite json_copy_object.
    cbn [copy_props].
    destruct (get_opt d "source"), (get_opt d "payload") eqn:Ep,
      (get_opt d "createdAt"); try congruence; reflexivity.
  - intros userId healthDatabases options s.
    destruct (V2_analyzeMerged_effects userId (Route.merged docs lifestyle)
                healthDatabases options s) as (_ & Hall & _).
    eapply Forall_impl; [|exact Hall].
    intros r [[Hr _] _]. cbn [arg_mergedData] in Hr.
    rewrite Hsan in Hr. now injection Hr as <-.
Qed.

End RoutePayloadFacts.

Module SpreadFacts.
Import ObjFacts.

Lemma has_key_In k ps : has_key k ps = true <-> In k (map fst ps).
Proof.
  induction ps as [|[k0 v] ps IH]; simpl; [split; [discriminate | tauto]|].
  rewrite orb_true_iff, IH, String.eqb_eq. tauto.
Qed.

Lemma has_key_not_In k ps : ~ In k (map fst ps) -> has_key k ps = false.
Proof.
  intro H. destruct (has_key k ps) eqn:E; [|reflexivity].
  apply has_key_In in E. contradiction.
Qed.

(** Writing the properties of [b] over [a]: a key of [b] has the value
    [b] gives it, another key the value [a] gives it. *)
Lemma lookup_fold_assign (b : list (string * value)) :
  NoDup (map fst b) ->
  forall (a : list (string * value)) (k : string),
    lookup k (fold_left (fun acc kv => assign (fst kv) (snd kv) acc) b a)
    = if has_key k b then lookup k b else lookup k a.
Proof.
  induction b as [|[k0 v0] b IH]; intros Hnd a k; [reflexivity|].
  inversion Hnd as [|? ? Hk0 Hnd']; subst.
  cbn [fold_left fst snd]. rewrite (IH Hnd'). cbn [has_key lookup].
  destruct (k0 =? k) eqn:E.
  - apply String.eqb_eq in E. subst k0.
    rewrite (has_key_not_In _ _ Hk0). cbn [orb].
    apply lookup_assign_same.
  - cbn [orb]. destruct (has_key k b); [reflexivity|].
    now apply lookup_assign_other.
Qed.

End SpreadFacts.

Section FirstRouteFacts.
Context {P : Platform}.

(** On the first route, a reading of the analysis comes from the
    lifestyle of the request when the lifestyle has the key, and from
    the latest record of the user otherwise: the lifestyle is spread
    over the record.  A falsy value in the lifestyle hides the value of
    the record: the reading is then [null]. *)
Theorem first_route_reads_the_lifestyle_first :
  forall (latest lifestyle : value) (k : string),
    truthy lifestyle = true ->
    NoDup (map fst (FirstRoute.spread lifestyle)) ->
    ("payload" =? k) = false ->
    Toy.reading (FirstRoute.merged latest lifestyle) k
    = or_else
        (if has_key k (FirstRoute.spread lifestyle)
         then lookup k (FirstRoute.spread lifestyle)
         else lookup k
                (FirstRoute.spread
                   (or_else (get_opt latest "payload") (JObj []))))
        JNull.
Proof.
  intros latest lifestyle k Ht Hnd Hk.
  unfold Toy.reading, FirstRoute.merged, FirstRoute.spread_both.
  cbn [get_opt lookup]. rewrite Hk.
  change ("payload" =? "payload") with true. cbn iota. cbn [get_opt].
  assert (Hl : or_else lifestyle (JObj []) = lifestyle)
    by (unfold or_else; now rewrite Ht).
  rewrite Hl, (SpreadFacts.lookup_fold_assign _ Hnd). reflexivity.
Qed.

End FirstRouteFacts.

(** ** The token check *)

Module AuthFacts.
Import Auth.
Local Open Scope string_scope.

Lemma split_spaces_word (word rest piece : string) :
  free_of " " word = true ->
  split_spaces (word ++ String " " rest) piece
  = (piece ++ word) :: split_spaces rest EmptyString.
Proof.
  revert piece. induction word as [|c word IH]; intros piece H.
  - cbn. f_equal. clear. induction piece as [|c p IHp]; simpl; congruence.
  - cbn [String.append free_of] in *. apply andb_true_iff in H as [Hc Hw].
    apply negb_true_iff in Hc. cbn [split_spaces]. rewrite Hc.
    rewrite (IH _ Hw). f_equal. rewrite RegexFacts.append_assoc.
    reflexivity.
Qed.

Lemma split_spaces_last (word piece : string) :
  free_of " " word = true ->
  split_spaces word piece = [piece ++ word].
Proof.
  revert piece. induction word as [|c word IH]; intros piece H.
  - cbn. f_equal. clear. induction piece as [|c p IHp]; simpl; congruence.
  - cbn [free_of] in H. apply andb_true_iff in H as [Hc Hw].
    apply negb_true_iff in Hc. cbn [split_spaces]. rewrite Hc.
    rewrite (IH _ Hw). f_equal. rewrite RegexFacts.append_assoc.
    reflexivity.
Qed.

(** The token of a header: the word after [Bearer]. *)
Lemma token_of_header (token : string) :
  free_of " " token = true ->
  second (split ("Bearer " ++ token)) = JStr token
  /\ forall rest : string,
       second (split ("Bearer " ++ token ++ String " " rest)) = JStr token.
Proof.
  intro H. unfold split. split.
  - change ("Bearer " ++ token) with ("Bearer" ++ String " " token).
    rewrite split_spaces_word by reflexivity.
    now rewrite split_spaces_last.
  - intro rest.
    change ("Bearer " ++ token ++ String " " rest)
      with ("Bearer" ++ String " " (token ++ String " " rest)).
    rewrite split_spaces_word by reflexivity.
    now rewrite split_spaces_word.
Qed.

End AuthFacts.

Section AuthTheorems.
Local Open Scope string_scope.
Variable verify : value -> value -> outcome value.
Variable env_JWT_SECRET : value.
Import Auth.

(** The token check hands a request on only when its [Authorization]
    header is a text that starts with [Bearer] and a space, and
    [jwt.verify] accepts the word after that space against the secret
    of the environment, or against [changeme] when the environment has
    none; the user of the request is then read from the payload of the
    token: its [username] is the one the payload owns, and its [id] the
    [sub] the payload owns, or, when the payload is a text, the method
    [sub] that every text inherits, a function.  What follows a second
    space in the header is not looked at. *)
Theorem token_check_hands_on_verified_tokens_only :
  (forall (authorization : value) (u : user),
      authMiddleware verify env_JWT_SECRET authorization = Ret (Next u) ->
      exists (header : string) (token payload : value),
        authorization = JStr header
        /\ prefix "Bearer " header = true
        /\ token = second (split header)
        /\ verify token (or_else env_JWT_SECRET (JStr "changeme"))
           = Ret payload
        /\ nullish payload = false
        /\ id u = match payload with
                  | JStr _ => Method "String.prototype.sub"
                  | _ => Data (get_opt payload "sub")
                  end
        /\ username u = Data (get_opt payload "username"))
  /\ (forall token rest : string,
        free_of " " token = true ->
        authMiddleware verify env_JWT_SECRET
          (JStr ("Bearer " ++ token ++ String " " rest))
        = authMiddleware verify env_JWT_SECRET (JStr ("Bearer " ++ token))).
Proof.
  split.
  - intros authorization u. unfold authMiddleware.
    destruct (truthy authorization) eqn:Ht; cbn [negb obind];
      [|discriminate].
    destruct authorization as [ | | b | x | header | items | props ];
      try discriminate.
    cbn [obind]. unfold startsWith.
    destruct (prefix "Bearer " header) eqn:Hp; cbn [negb]; [|discriminate].
    destruct (verify (second (split header))
                (or_else env_JWT_SECRET (JStr "changeme")))
      as [payload|e] eqn:Hv; cbn [obind]; [|discriminate].
    destruct (payload_sub payload) as [sub|e] eqn:Hsub; cbn [obind];
      [|discriminate].
    destruct (payload_username payload) as [name|e] eqn:Hu; cbn [obind];
      [|discriminate].
    intro H. injection H as <-.
    exists header, (second (split header)), payload.
    split; [reflexivity|]. split; [exact Hp|]. split; [reflexivity|].
    split; [exact Hv|]. cbn [id username].
    unfold payload_sub, payload_username in *.
    destruct payload; cbn [get obind] in *; try discriminate Hsub;
      injection Hsub as <-; injection Hu as <-; repeat split.
  - intros token rest H. unfold authMiddleware. cbn [obind].
    destruct (AuthFacts.token_of_header token H) as [H1 H2].
    rewrite H1, (H2 rest).
    assert (Ht : forall t, truthy (JStr ("Bearer " ++ t)) = true)
      by reflexivity.
    assert (Hs : forall t, startsWith "Bearer " ("Bearer " ++ t) = true)
      by (intro t; destruct t; reflexivity).
    rewrite (Ht token), (Ht (token ++ String " " rest)). cbn [negb obind].
    rewrite (Hs token), (Hs (token ++ String " " rest)). reflexivity.
Qed.

End AuthTheorems.

Local Open Scope string_scope.
Local Open Scope list_scope.

Section HandlerTheorems.
Context {S : Type} {Db : Route.Store S}.
Variable analyzeMerged : string -> value -> option (list string) -> M S value.
Variable env_OPENAI_STORE : value.
Import Route.

Lemma creates_inner (t : list event) : creates (map Inner t) = [].
Proof. induction t as [|e t IH]; [reflexivity | exact IH]. Qed.

Lemma sends_inner (t : list event) : sends (map Inner t) = [].
Proof. induction t as [|e t IH]; [reflexivity | exact IH]. Qed.

Lemma creates_app (t u : list effect) :
  creates (t ++ u) = creates t ++ creates u.
Proof. unfold creates. now rewrite flat_map_app. Qed.

Lemma sends_app (t u : list effect) : sends (t ++ u) = sends t ++ sends u.
Proof. unfold sends. now rewrite flat_map_app. Qed.

Ltac tidy :=
  cbn [snd map app];
  repeat rewrite ?app_nil_r, ?sends_app, ?creates_app, ?sends_inner,
    ?creates_inner;
  cbn.

Lemma get_readable (v : value) (k : string) :
  nullish v = false -> get v k = Ret (get_opt v k).
Proof. destruct v; intro H; try discriminate H; reflexivity. Qed.

Lemma get_nullish (v : value) (k : string) :
  nullish v = true -> exists e, get v k = Throw e.
Proof. destruct v; intro H; try discriminate H; eexists; reflexivity. Qed.

(** The handler of [POST /api/analyze] stores an analysis before it
    answers with it: a response of status 200 carries the analysis
    [analyzeMerged] returned, and the record of that analysis was
    created without an error before.  When [analyzeMerged] throws, no
    record is created; when it throws an error that is not [null] or
    [undefined], the one response is of status 500 with the message of
    the error or, without one, [analysis failed].  When the creation of
    the record throws such an error, the response is this 500 too, and
    the analysis is not sent.  No run sends two responses. *)
Theorem analysis_is_stored_before_it_is_sent :
  forall (userId : string) (merged_payload : value)
         (healthDatabases : option (list string)) (consentId : value)
         (ihash : string) (s : S),
    let called := analyzeMerged userId merged_payload healthDatabases s in
    let t :=
      snd (analyze_and_store analyzeMerged env_OPENAI_STORE userId
             merged_payload healthDatabases consentId ihash s) in
    let record analysis :=
      analysis_record env_OPENAI_STORE userId analysis
        (get_opt analysis "model_version") consentId ihash in
    List.length (sends t) <= 1
    /\ (forall body : value,
          In (200%Z, body) (sends t) ->
          exists (analysis stored : value),
            fst (fst called) = Ret analysis
            /\ body = answer_ok analysis
            /\ creates t = [record analysis]
            /\ fst (db_create (record analysis) (snd (fst called)))
               = Ret stored)
    /\ (forall err : value,
          fst (fst called) = Throw err ->
          creates t = []
          /\ (nullish err = false ->
              sends t = [(500%Z, answer_failed (get_opt err "message"))]))
    /\ (forall analysis err : value,
          fst (fst called) = Ret analysis ->
          nullish analysis = false ->
          fst (db_create (record analysis) (snd (fst called))) = Throw err ->
          nullish err = false ->
          creates t = [record analysis]
          /\ sends t = [(500%Z, answer_failed (get_opt err "message"))]).
Proof.
  intros userId merged_payload healthDatabases consentId ihash s. cbv zeta.
  unfold analyze_and_store, hcatch, hbind, inner, lift, logger, emit, send,
    create.
  cbn beta.
  destruct (analyzeMerged userId merged_payload healthDatabases s)
    as [[[analysis|err] s1] t1] eqn:Hcall; cbn [fst snd].
  - (* analyzeMerged returned *)
    destruct (nullish analysis) eqn:Hn.
    + (* analysis.model_version throws *)
      destruct (get_nullish analysis "model_version" Hn) as [e He].
      rewrite He.
      assert (Hr : nullish e = false).
      { destruct analysis; try discriminate Hn; injection He as <-;
          reflexivity. }
      rewrite (get_readable e "message" Hr). tidy. split; [lia|]. split.
      * intros body [Hb|[]]. discriminate Hb.
      * split; [intros err Herr; discriminate Herr|].
        intros a err Ha Hna. injection Ha as <-. congruence.
    + rewrite (get_readable analysis "model_version" Hn).
      destruct (db_create
                  (analysis_record env_OPENAI_STORE userId analysis
                     (get_opt analysis "model_version") consentId ihash) s1)
        as [[stored|e] s2] eqn:Hdb; cbn [fst snd map app].
      * tidy. split; [lia|]. split.
        -- intros body [Hb|[]]. injection Hb as <-.
           exists analysis, stored. rewrite Hdb. repeat split; reflexivity.
        -- split; [intros err Herr; discriminate Herr|].
           intros a err Ha Hna Hd. injection Ha as <-.
           rewrite Hdb in Hd. discriminate Hd.
      * destruct (nullish e) eqn:Hne.
        -- destruct (get_nullish e "message" Hne) as [e' He'].
           rewrite He'. tidy. split; [lia|]. split.
           ++ intros body [].
           ++ split; [intros err Herr; discriminate Herr|].
              intros a err Ha Hna Hd Hr. injection Ha as <-.
              rewrite Hdb in Hd. injection Hd as <-. congruence.
        -- rewrite (get_readable e "message" Hne). tidy. split; [lia|]. split.
           ++ intros body [Hb|[]]. discriminate Hb.
           ++ split; [intros err Herr; discriminate Herr|].
              intros a err Ha Hna Hd Hr. injection Ha as <-.
              rewrite Hdb in Hd. injection Hd as <-. now split.
  - (* analyzeMerged threw *)
    destruct (nullish err) eqn:Hne.
    + destruct (get_nullish err "message" Hne) as [e' He'].
      rewrite He'. tidy. split; [lia|]. split.
      * intros body [].
      * split.
        -- intros e He. injection He as <-. split; [reflexivity|].
           congruence.
        -- intros a e Ha. discriminate Ha.
    + rewrite (get_readable err "message" Hne). tidy. split; [lia|]. split.
      * intros body [Hb|[]]. discriminate Hb.
      * split.
        -- intros e He. injection He as <-. now split.
        -- intros a e Ha. discriminate Ha.
Qed.

End HandlerTheorems.

(** ** A model output without a JSON block *)

Module BlockFacts.
Import Regex.
Local Open Scope string_scope.

Lemma free_of_app (c : ascii) (a b : string) :
  free_of c (a ++ b) = free_of c a && free_of c b.
Proof.
  induction a as [|x a IH]; simpl; [reflexivity|].
  now rewrite IH, andb_assoc.
Qed.

Lemma from_first_open_none (text : string) :
  from_first_open text = None -> free_of "{" text = true.
Proof.
  induction text as [|c text IH]; simpl; [reflexivity|].
  destruct (c =? "{")%char; [discriminate|].
  intro H. now rewrite IH.
Qed.

Lemma from_first_open_some (text t : string) :
  from_first_open text = Some t ->
  exists pre r : string,
    text = pre ++ String "{" r /\ t = String "{" r
    /\ free_of "{" pre = true.
Proof.
  induction text as [|c text IH]; simpl; [discriminate|].
  destruct (c =? "{")%char eqn:Hc.
  - intro H. injection H as <-. apply Ascii.eqb_eq in Hc as ->.
    exists EmptyString, text. now repeat split.
  - intro H. destruct (IH H) as (pre & r & -> & -> & Hpre).
    exists (String c pre), r. simpl. rewrite Hc. now repeat split.
Qed.

Lemma upto_last_close_free (t : string) :
  upto_last_close t = None -> free_of "}" t = true.
Proof.
  induction t as [|c t IH]; simpl; [reflexivity|].
  destruct (upto_last_close t); [discriminate|].
  destruct (c =? "}")%char; [discriminate|].
  intros _. now rewrite IH.
Qed.

(** What follows the first opening brace holds what follows any other. *)
Lemma after_first_open (pre0 r0 pre rest : string) :
  free_of "{" pre0 = true ->
  pre0 ++ String "{" r0 = pre ++ String "{" rest ->
  exists mid : string, r0 = mid ++ rest.
Proof.
  revert pre. induction pre0 as [|c pre0 IH]; intros pre Hfree Heq.
  - destruct pre as [|d pre]; simpl in Heq.
    + injection Heq as ->. now exists EmptyString.
    + injection Heq as _ ->. now exists (pre ++ "{")%string ;
        rewrite RegexFacts.append_assoc.
  - simpl in Hfree. apply andb_true_iff in Hfree as [Hc Hfree].
    destruct pre as [|d pre]; simpl in Heq.
    + injection Heq as -> _. now rewrite Ascii.eqb_refl in Hc.
    + injection Heq as _ Heq. exact (IH pre Hfree Heq).
Qed.

(** The pattern matches nothing exactly when no opening brace of the text
    has a closing brace after it. *)
Lemma match_braces_none (text : string) :
  match_braces text = None
  <-> forall pre rest : string,
        text = pre ++ String "{" rest -> free_of "}" rest = true.
Proof.
  unfold match_braces. split.
  - destruct (from_first_open text) as [t|] eqn:Hopen.
    + destruct (from_first_open_some text t Hopen)
        as (pre0 & r0 & -> & -> & Hpre0).
      intros Hclose pre rest Heq.
      apply upto_last_close_free in Hclose. simpl in Hclose.
      destruct (after_first_open pre0 r0 pre rest Hpre0 Heq) as [mid ->].
      rewrite free_of_app in Hclose.
      now apply andb_true_iff in Hclose as [_ Hclose].
    + intros _ pre rest ->. apply from_first_open_none in Hopen.
      rewrite free_of_app in Hopen. cbn in Hopen.
      rewrite ?Ascii.eqb_refl, ?andb_false_r in Hopen. cbn in Hopen.
      rewrite ?andb_false_r in Hopen. discriminate Hopen.
  - intro H. destruct (from_first_open text) as [t|] eqn:Hopen;
      [|reflexivity].
    destruct (from_first_open_some text t Hopen)
      as (pre0 & r0 & Htext & -> & Hpre0).
    apply RegexFacts.upto_last_close_none. simpl.
    now rewrite (H pre0 r0 Htext).
Qed.

End BlockFacts.

Section OutputTheorems.
Context {P : Platform}.
Local Open Scope string_scope.


End OutputTheorems.

Local Open Scope string_scope.
Local Open Scope list_scope.

(* ================================================================== *)
(** ** The theorems on concrete runs *)
(* ================================================================== *)

Module Runs.
Import Reference Examples MoreExamples Zod V2Schemas FlatSchemas.

(** *** C1 *)

(** C1.  The model answers with a legacy response: one prediction, and
    nothing else.  That response fails the current shape and fits the
    legacy shape; the claim has [analyzeMerged] return a document whose
    projection holds the one prediction and whose deltas hold one entry.
    The adapter writes the two metadata strings into the response before
    it returns it, so that [analyzeMerged] finds a document that fits
    the current shape, whose other fields are all optional: the
    upgrader is not reached, the prediction is dropped, and the document
    that comes back has no projection, no baseline and no deltas. *)
Theorem legacy_response_loses_its_predictions :
  let run :=
    V2.analyzeMerged "u1" payload None JUndef
      [Ret (completion plain_legacy_text)] in
  let out :=
    JObj [("model_version", JStr "llama-3.3-70b-versatile-v1");
          ("generated_on", JStr "2025-01-01T00:00:00.000Z")] in
  (exists response legacyData fromAdapter : value,
      JSON_parse plain_legacy_text = Some response
      /\ safeParse AnalysisV2 response = None
      /\ safeParse LegacyAnalysis response = Some legacyData
      /\ predictions_count response = 1
      /\ fst (fst (analyzeWithGroq some_args
                     [Ret (completion plain_legacy_text)]))
         = Ret fromAdapter
      /\ predictions_count fromAdapter = 1
      /\ safeParse AnalysisV2 fromAdapter = Some out)
  /\ fst (fst run) = Ret out
  /\ get_opt out "projection" = JUndef
  /\ get_opt out "baseline" = JUndef
  /\ get_opt out "deltas" = JUndef
  /\ Forall (fun e => match e with
                      | EvLog "warn" _ _ => False
                      | _ => True
                      end) (snd run).
Proof.
  cbv zeta. split.
  - do 3 eexists.
    split; [vm_compute; reflexivity|].
    split; [vm_compute; reflexivity|].
    split; [vm_compute; reflexivity|].
    split; [vm_compute; reflexivity|].
    split; [vm_compute; reflexivity|].
    split; vm_compute; reflexivity.
  - split; [vm_compute; reflexivity|].
    split; [reflexivity|]. split; [reflexivity|]. split; [reflexivity|].
    vm_compute. repeat constructor.
Qed.

(** The same with a legacy response that has its two metadata strings
    already: it validates against the current shape and is returned as
    such, without its prediction. *)
Example legacy_response_with_metadata_is_not_upgraded :
  let run :=
    V2.analyzeMerged "u1" payload None JUndef
      [Ret (completion legacy_text)] in
  let out :=
    JObj [("model_version", JStr "m1");
          ("generated_on", JStr "2024-05-01")] in
  (exists raw legacyData : value,
      JSON_parse legacy_text = Some raw
      /\ safeParse LegacyAnalysis raw = Some legacyData
      /\ predictions_count raw = 1)
  /\ fst (fst run) = Ret out
  /\ get_opt out "projection" = JUndef
  /\ get_opt out "deltas" = JUndef.
Proof.
  cbv zeta. split.
  - do 2 eexists.
    split; [vm_compute; reflexivity|].
    split; vm_compute; reflexivity.
  - split; [vm_compute; reflexivity|]. split; reflexivity.
Qed.

Lemma legacy_response_is_upgraded_witness :
  exists (s1 : list (outcome value)) (t1 : list event)
         (raw legacyData : value),
    truthy payload = true
    /\ V2_fetch "u1" payload None JUndef
         [Ret (completion legacy_freeform_text)]
       = (Ret raw, s1, t1)
    /\ safeParse AnalysisV2 raw = None
    /\ safeParse LegacyAnalysis raw = Some legacyData
    /\ predictions_count raw = 2
    /\ exists (out : value) (projection deltas : list value),
      V2.analyzeMerged "u1" payload None JUndef
        [Ret (completion legacy_freeform_text)]
      = (Ret out, s1,
         t1 ++ [EvLog "warn" (JObj [("userId", JStr "u1")])
                   "legacy analysis returned, converting to v2 shape"])
      /\ get_opt (get_opt out "projection") "predictions" = JArr projection
      /\ List.length projection = predictions_count raw
      /\ get_opt (get_opt out "baseline") "predictions" = JArr []
      /\ get_opt out "deltas" = JArr deltas
      /\ List.length deltas = predictions_count raw
      /\ Forall (fun d => get_opt d "baseline_pct" = JNum (-1)
                        /\ get_opt d "delta_pct" = JNum (-1)) deltas.
Proof.
  do 4 eexists.
  split; [reflexivity|].
  split; [vm_compute; reflexivity|].
  split; [vm_compute; reflexivity|].
  split; [vm_compute; reflexivity|].
  split; [vm_compute; reflexivity|].
  eapply legacy_response_is_upgraded; vm_compute; reflexivity.
Defined.

(** *** C2 *)

(** Two different responses that fit neither shape make [analyzeMerged]
    throw the same value, an [Error] that has a name and a message and
    nothing else: the response is in the log line, not in the error. *)
Lemma invalid_response_is_not_carried_by_the_error :
  let run_a :=
    V2.analyzeMerged "u1" payload None JUndef
      [Ret (completion invalid_text_a)] in
  let run_b :=
    V2.analyzeMerged "u1" payload None JUndef
      [Ret (completion invalid_text_b)] in
  let thrown := Error "Invalid analysis returned from model" in
  JSON_parse invalid_text_a <> JSON_parse invalid_text_b
  /\ fst (fst run_a) = Throw thrown
  /\ fst (fst run_b) = Throw thrown
  /\ thrown = JObj [("name", JStr "Error");
                    ("message",
                     JStr "Invalid analysis returned from model")]
  /\ owns thrown "raw" = false.
Proof.
  cbv zeta. split; [vm_compute; discriminate|].
  repeat (split; [vm_compute; reflexivity|]); vm_compute; reflexivity.
Qed.

Lemma invalid_response_is_logged_and_rejected_witness :
  exists (s1 : list (outcome value)) (t1 : list event) (raw : value),
    truthy payload = true
    /\ V2_fetch "u1" payload None JUndef [Ret (completion invalid_text_a)]
       = (Ret raw, s1, t1)
    /\ safeParse AnalysisV2 raw = None
    /\ safeParse LegacyAnalysis raw = None
    /\ V2.analyzeMerged "u1" payload None JUndef
         [Ret (completion invalid_text_a)]
       = (Throw (Error "Invalid analysis returned from model"), s1,
          t1 ++ [EvLog "error" (JObj [("raw", raw)])
                   "Invalid analysis schema from LLM"]).
Proof.
  do 3 eexists.
  split; [reflexivity|].
  split; [vm_compute; reflexivity|].
  split; [vm_compute; reflexivity|].
  split; [vm_compute; reflexivity|].
  eapply (proj1 (invalid_response_is_logged_and_rejected
                   "u1" payload None JUndef _ _ _ _));
    vm_compute; reflexivity.
Defined.

(** *** C3 *)

(** The wrapper of the baseline/projection/deltas revision on a service
    that answers 400 each time: three invocations and two delays of one
    second for an error the specification calls non-transient. *)
Lemma simple_wrapper_retries_a_bad_request :
  let run :=
    Simple.withRetries (counting one_call) 3 1000
      ([Throw bad_request; Throw bad_request; Throw bad_request], 0) in
  Classifying.status_of bad_request = JNum 400
  /\ Classifying.transient bad_request = Ret false
  /\ fst (fst run) = Throw bad_request
  /\ snd (snd (fst run)) = 3
  /\ sleeps (snd run) = [1000%Z; 1000%Z]
  /\ List.length (requests (snd run)) = 3.
Proof. cbv zeta. repeat (split; [vm_compute; reflexivity|]); vm_compute; reflexivity. Qed.

Lemma bad_request_is_non_transient : non_transient bad_request.
Proof.
  exists 400%float. repeat split; try (vm_compute; reflexivity).
  exists (JBool false). split; vm_compute; reflexivity.
Qed.

Lemma one_call_never_sleeps : never_sleeps one_call.
Proof.
  intro s. unfold one_call, call_service.
  destruct (create a_request s); reflexivity.
Qed.

Lemma non_transient_error_is_rethrown_at_once_witness :
  (0 < 3)%nat
  /\ one_call [Throw bad_request; Ret JNull]
     = (Throw bad_request, [Ret JNull], [EvRequest a_request])
  /\ non_transient bad_request
  /\ Classifying.withRetries one_call 3 500 [Throw bad_request; Ret JNull]
     = (Throw bad_request, [Ret JNull], [EvRequest a_request])
  /\ Classifying.withRetries (counting one_call) 3 500
       ([Throw bad_request; Ret JNull], 0)
     = (Throw bad_request, ([Ret JNull], 1), [EvRequest a_request])
  /\ (never_sleeps one_call -> sleeps [EvRequest a_request] = []).
Proof.
  split; [lia|]. split; [reflexivity|].
  split; [exact bad_request_is_non_transient|].
  apply (non_transient_error_is_rethrown_at_once one_call 3 500
           [Throw bad_request; Ret JNull] [Ret JNull] bad_request
           [EvRequest a_request]);
    [lia | reflexivity | exact bad_request_is_non_transient].
Defined.

(** *** C4 *)

(** C4.  An operation that fails once with a failure of the network, as
    Node reports them (a textual [code], no HTTP status), and succeeds
    on its next call.  The error is transient in the words of the
    specification and of the comment on the guard, and one failure is
    below the three attempts: the claim has the wrapper return the
    success after two invocations and one delay of 500 ms.  The wrapper
    reads the status of the error from its [code], finds it truthy and
    no number, and rethrows the error after the one invocation, without
    a delay; the success is never asked for. *)
Theorem network_failure_is_rethrown_at_once :
  let script := [Throw connection_reset; Ret (JStr "done")] in
  let run :=
    Classifying.withRetries (counting one_call) 3 500 (script, 0) in
  http_status connection_reset = JUndef
  /\ transient_in_words connection_reset = true
  /\ one_call script
     = (Throw connection_reset, [Ret (JStr "done")], [EvRequest a_request])
  /\ one_call [Ret (JStr "done")]
     = (Ret (JStr "done"), [], [EvRequest a_request])
  /\ Classifying.status_of connection_reset = JStr "ECONNRESET"
  /\ Classifying.transient connection_reset = Ret false
  /\ run = (Throw connection_reset, ([Ret (JStr "done")], 1),
            [EvRequest a_request])
  /\ sleeps (snd run) = [].
Proof.
  cbv zeta. repeat (split; [vm_compute; reflexivity|]).
  vm_compute; reflexivity.
Qed.

(** The same failure without its [code] is retried. *)
Example network_failure_without_a_code_is_retried :
  let hang_up := JObj [("message", JStr "socket hang up")] in
  let run :=
    Classifying.withRetries (counting one_call) 3 500
      ([Throw hang_up; Ret (JStr "done")], 0) in
  transient_in_words hang_up = true
  /\ Classifying.transient hang_up = Ret true
  /\ fst (fst run) = Ret (JStr "done")
  /\ snd (snd (fst run)) = 2
  /\ sleeps (snd run) = [500%Z].
Proof.
  cbv zeta. repeat (split; [vm_compute; reflexivity|]).
  vm_compute; reflexivity.
Qed.

Lemma transient_failures_are_retried_with_backoff_witness :
  (2 < 3)%nat
  /\ fails_then_succeeds one_call 2
       [Throw unavailable; Throw too_many; Ret (JStr "done")]
       (JStr "done") []
  /\ exists t : list event,
       Classifying.withRetries one_call 3 500
         [Throw unavailable; Throw too_many; Ret (JStr "done")]
       = (Ret (JStr "done"), [], t)
       /\ Classifying.withRetries (counting one_call) 3 500
            ([Throw unavailable; Throw too_many; Ret (JStr "done")], 0)
          = (Ret (JStr "done"), ([], 2 + 1), t)
       /\ (never_sleeps one_call -> sleeps t = backoff 500 0 2).
Proof.
  assert (Hrun : fails_then_succeeds one_call 2
                   [Throw unavailable; Throw too_many; Ret (JStr "done")]
                   (JStr "done") []).
  { eapply fails_once_more; [reflexivity | reflexivity |].
    eapply fails_once_more; [reflexivity | reflexivity |].
    eapply succeeds_at_once; reflexivity. }
  split; [lia|]. split; [exact Hrun|].
  apply (transient_failures_are_retried_with_backoff one_call 3 500 2);
    [lia | exact Hrun].
Defined.

(** That run: three calls to the service, and the two delays. *)
Example two_transient_failures :
  let run :=
    Classifying.withRetries (counting one_call) 3 500
      ([Throw unavailable; Throw too_many; Ret (JStr "done")], 0) in
  fst (fst run) = Ret (JStr "done")
  /\ snd (snd (fst run)) = 3
  /\ sleeps (snd run) = [500%Z; 1000%Z]
  /\ List.length (requests (snd run)) = 3.
Proof. cbv zeta. repeat (split; [vm_compute; reflexivity|]); vm_compute; reflexivity. Qed.

(** The delays of that run: half a second, then one second. *)
Example backoff_of_two_retries : backoff 500 0 2 = [500%Z; 1000%Z].
Proof. reflexivity. Qed.

(** *** C5 *)

(** A three-character [abha_id]: the pseudonym of the second pass is not
    that of the first. *)
Lemma sanitize_is_not_idempotent_on_a_short_abha_id :
  let x := JObj [("abha_id", JStr "123")] in
  sanitizePayload x = Ret (JObj [("abha_id", JStr "user_123")])
  /\ sanitize_twice x = Ret (JObj [("abha_id", JStr "user_er_123")])
  /\ sanitize_twice x <> sanitizePayload x.
Proof.
  cbv zeta. split; [vm_compute; reflexivity|].
  split; [vm_compute; reflexivity|].
  vm_compute. discriminate.
Qed.

(** The length that counts is that of the code units: three accented
    letters take six bytes in UTF-8 and are three code units, and the
    second pass changes their pseudonym. *)
Example three_accented_letters_are_a_short_abha_id :
  let x := JObj [("abha_id", JStr "ééé")] in
  String.length "ééé" = 6
  /\ Str.length "ééé" = 3
  /\ sanitizePayload x = Ret (JObj [("abha_id", JStr "user_ééé")])
  /\ sanitize_twice x = Ret (JObj [("abha_id", JStr "user_er_ééé")]).
Proof.
  cbv zeta. repeat (split; [vm_compute; reflexivity|]).
  vm_compute; reflexivity.
Qed.

Lemma sanitize_idempotent_unless_short_abha_id_witness :
  let x :=
    JObj [("name", JStr "Asha"); ("abha_id", JStr "91123456789012");
          ("notes", JStr "fasting sample")] in
  (truthy (abha_id_of x) = false
   \/ (forall text : string,
         ToString (abha_id_of x) = Ret text -> 6 <= Str.length text))
  /\ sanitize_twice x = sanitizePayload x.
Proof.
  cbv zeta.
  assert (H : forall text : string,
            ToString
              (abha_id_of
                 (JObj [("name", JStr "Asha");
                        ("abha_id", JStr "91123456789012");
                        ("notes", JStr "fasting sample")]))
            = Ret text ->
            6 <= Str.length text).
  { intros text Ht. vm_compute in Ht. injection Ht as <-.
    vm_compute. lia. }
  split; [right; exact H|].
  apply sanitize_idempotent_unless_short_abha_id. right. exact H.
Defined.

(** *** C6 *)

(** An [abha_id] that is present and empty stays as it is: it does not
    come out as the tag followed by characters of the original.  And the
    payload the route builds keeps the names, emails and phones of its
    records: the sanitizer looks at the top level only. *)
Lemma sanitize_leaves_an_empty_abha_id_and_nested_identifiers :
  let x := JObj [("abha_id", JStr ""); ("name", JStr "Asha")] in
  let record :=
    JObj [("source", JStr "upload");
          ("payload", JObj [("name", JStr "Asha");
                            ("phone", JStr "5550100")])] in
  let merged :=
    JObj [("baselineRecords", JArr [record]); ("lifestyle", JObj [])] in
  owns x "abha_id" = true
  /\ sanitizePayload x = Ret (JObj [("abha_id", JStr "")])
  /\ ToString (JStr "") = Ret ""
  /\ JStr "" <> JStr ("user_" ++ Str.slice_last 6 "")%string
  /\ sanitizePayload merged = Ret merged
  /\ owns (get_opt record "payload") "name" = true.
Proof.
  cbv zeta. split; [reflexivity|]. split; [vm_compute; reflexivity|].
  split; [reflexivity|].
  split; [vm_compute; discriminate|].
  split; vm_compute; reflexivity.
Qed.

(** An [abha_id] that has no string form: an object that owns a
    [toString] key, which is no function in a document.  The sanitizer
    throws the TypeError of the conversion. *)
Example sanitize_throws_on_an_abha_id_without_a_string_form :
  let x := JObj [("abha_id", JObj [("toString", JNum 1)])] in
  x <> JUndef
  /\ json_copy x <> JNull
  /\ truthy (abha_id_of x) = true
  /\ sanitizePayload x
     = Throw (TypeError "Cannot convert object to primitive value").
Proof.
  cbv zeta. split; [discriminate|]. split; [vm_compute; discriminate|].
  split; vm_compute; reflexivity.
Qed.

Lemma sanitize_removes_identifiers_witness :
  let x :=
    JObj [("name", JStr "Asha"); ("email", JStr "asha@example.org");
          ("phone", JStr "5550100"); ("abha_id", JStr "91123456789012");
          ("bmi", JNum 31)] in
  let out := JObj [("abha_id", JStr "user_789012"); ("bmi", JNum 31)] in
  sanitizePayload x = Ret out
  /\ owns out "name" = false
  /\ owns out "email" = false
  /\ owns out "phone" = false
  /\ (truthy (abha_id_of x) = true ->
      exists text tail : string,
        ToString (abha_id_of x) = Ret text
        /\ get_opt out "abha_id" = JStr ("user_" ++ tail)%string
        /\ tail = Str.slice_last 6 text
        /\ Str.length tail <= 6
        /\ Str.length ("user_" ++ tail)%string <= 11)
  /\ (truthy (abha_id_of x) = false ->
      get_opt out "abha_id" = abha_id_of x).
Proof.
  cbv zeta.
  assert (Hout : sanitizePayload
                   (JObj [("name", JStr "Asha");
                          ("email", JStr "asha@example.org");
                          ("phone", JStr "5550100");
                          ("abha_id", JStr "91123456789012");
                          ("bmi", JNum 31)])
                 = Ret (JObj [("abha_id", JStr "user_789012");
                              ("bmi", JNum 31)]))
    by (vm_compute; reflexivity).
  split; [exact Hout|].
  exact (proj2 (sanitize_removes_identifiers
                  (JObj [("name", JStr "Asha");
                         ("email", JStr "asha@example.org");
                         ("phone", JStr "5550100");
                         ("abha_id", JStr "91123456789012");
                         ("bmi", JNum 31)]))
           _ Hout).
Defined.

(** *** C7 *)

(** C7.  A model output that is not JSON as a whole and holds exactly one
    JSON object in prose: when the prose after the object has a closing
    brace, the pattern runs to that brace, and the adapter throws instead
    of parsing the object. *)
Theorem embedded_object_is_lost_to_a_later_brace :
  let pre := "Here is the analysis: " in
  let obj := dq "{'summary':'ok'}" in
  let post := " (ends with the closing })" in
  prose_text = (pre ++ obj ++ post)%string
  /\ JSON_parse prose_text = None
  /\ JSON_parse obj = Some (JObj [("summary", JStr "ok")])
  /\ free_of "{" pre = true /\ free_of "{" post = true
  /\ Regex.match_braces prose_text
     = Some (obj ++ " (ends with the closing }")%string
  /\ parse_output prose_text
     = Throw (Error "Failed to parse JSON from the model output after extracting JSON block").
Proof. cbv zeta. repeat (split; [vm_compute; reflexivity|]); vm_compute; reflexivity. Qed.

(** Without that closing brace the object is parsed. *)
Example embedded_object_is_parsed :
  parse_output (dq "Here is the analysis: {'summary':'ok'} (the end)")
  = Ret (JObj [("summary", JStr "ok")]).
Proof. vm_compute. reflexivity. Qed.

(** *** C8 *)

(** A current-shape response with a projection prediction at 40.25: the
    document comes back with 40.25, which has two decimal places (rounded
    to one, it would be 40.3). *)
Lemma current_response_is_not_rounded :
  let run :=
    V2.analyzeMerged "u1" payload None JUndef
      [Ret (completion current_text)] in
  let out :=
    JObj [("model_version", JStr "m2");
          ("generated_on", JStr "2024-05-01");
          ("projection",
           JObj [("predictions",
                  JArr [JObj [("condition", JStr "COPD");
                              ("years", JNum 10);
                              ("probability_pct", JNum 40.25)]])])] in
  fst (fst run) = Ret out
  /\ probabilities "projection" out = [JNum 40.25]
  /\ has_one_decimal 40.25 = false
  /\ Number_toString (Num.round_1_decimal 40.25) = "40.3".
Proof. cbv zeta. repeat (split; [vm_compute; reflexivity|]); vm_compute; reflexivity. Qed.

Lemma validated_response_is_returned_witness :
  exists (s1 : list (outcome value)) (t1 : list event)
         (raw analysis : value),
    truthy payload = true
    /\ V2_fetch "u1" payload None JUndef [Ret (completion current_text)]
       = (Ret raw, s1, t1)
    /\ safeParse AnalysisV2 raw = Some analysis
    /\ fst (fst (V2.analyzeMerged "u1" payload None JUndef
                   [Ret (completion current_text)]))
       = Ret analysis
    /\ trimmed analysis raw
    /\ probabilities "baseline" analysis = probabilities "baseline" raw
    /\ probabilities "projection" analysis = probabilities "projection" raw.
Proof.
  do 4 eexists.
  split; [reflexivity|].
  split; [vm_compute; reflexivity|].
  split; [vm_compute; reflexivity|].
  eapply (proj1 (validated_response_is_returned "u1" payload None JUndef
                   _ _ _ _ _ eq_refl));
    vm_compute; reflexivity.
Defined.

(** The flat-schema revision on a flat response at 40.25: 40.3 comes back. *)
Example flat_response_is_rounded :
  let run :=
    Flat.analyzeMerged analyzeWithGroq "u1" payload None JUndef
      [Ret (completion (dq "{'model_version':'m1','generated_on':'2024-05-01','predictions':[{'condition':'COPD','years':10,'probability_pct':40.25}]}"))] in
  match fst (fst run) with
  | Ret out => flat_probabilities out
  | Throw _ => []
  end = [JNum (Num.round_1_decimal 40.25)]
  /\ Number_toString (Num.round_1_decimal 40.25) = "40.3".
Proof. cbv zeta. split; vm_compute; reflexivity. Qed.

(** *** C9 *)

Lemma missing_payload_fails_at_once_witness :
  truthy JUndef = false
  /\ V2.analyzeMerged "u1" JUndef None JUndef
       [Ret (completion current_text)]
     = (Throw (Error "mergedPayload is required"),
        [Ret (completion current_text)], [])
  /\ (forall adapter : adapter_args -> M (list (outcome value)) value,
        Flat.analyzeMerged adapter "u1" JUndef None JUndef
          [Ret (completion current_text)]
        = (Throw (Error "mergedPayload is required"),
           [Ret (completion current_text)], [])).
Proof.
  split; [reflexivity|].
  apply (missing_payload_fails_at_once "u1" JUndef None JUndef
           [Ret (completion current_text)]).
  reflexivity.
Defined.

(** *** C10 *)

Lemma batch_results_follow_the_requests_witness :
  let s := [Ret (completion legacy_text); Ret (completion legacy_text)] in
  (0 < 2)%nat
  /\ exists (results : list value) (log : list (step (list (outcome value)))),
       Async.analyzeBatch Async.analyzeWithGroq taking_turns
         (List.length requests_of_batch) requests_of_batch 2 2000 s
       = (Ret (Some results), last_state s log, events_of log)
       /\ linear s log
       /\ List.length results = List.length requests_of_batch
       /\ forall (i : nat) (req : analysis_request),
            nth_error requests_of_batch i = Some req ->
            exists o : outcome value,
              runs_as (call_for Async.analyzeWithGroq req)
                (pieces_of i log) o
              /\ nth_error results i = Some (nullable o).
Proof.
  cbv zeta. split; [lia|].
  apply (batch_results_follow_the_requests Async.analyzeWithGroq
           taking_turns requests_of_batch 2 2000). lia.
Defined.

(** Three requests in batches of two, the second without a payload: the
    second entry is [null], the third request is still run, and one pause
    separates the two batches. *)
Example batch_of_three :
  let run :=
    Async.analyzeBatch Async.analyzeWithGroq taking_turns 3
      requests_of_batch 2 2000
      [Ret (completion legacy_text); Ret (completion legacy_text)] in
  let analysis :=
    JObj [("model_version", JStr "m1");
          ("generated_on", JStr "2024-05-01");
          ("predictions",
           JArr [JObj [("condition", JStr "Type 2 Diabetes");
                       ("years", JNum 2);
                       ("probability_pct", JNum 40)]])] in
  fst (fst run) = Ret (Some [analysis; JNull; analysis])
  /\ List.length (requests (snd run)) = 2
  /\ sleeps (snd run) = [2000%Z].
Proof. cbv zeta. repeat (split; [vm_compute; reflexivity|]); vm_compute; reflexivity. Qed.

(** Two requests in one batch, on a service that answers its first call
    with one document and its second call with another.  When the calls
    run in array order the first request gets the first document; when
    the second call runs first it is the second request that gets it.
    In both runs each entry of the result is at the index of its
    request. *)
Example batch_answered_out_of_order :
  let s := [Ret (completion first_answer); Ret (completion second_answer)] in
  let in_order :=
    Async.analyzeBatch Async.analyzeWithGroq (fun _ => []) 2 two_requests
      5 2000 s in
  let out_of_order :=
    Async.analyzeBatch Async.analyzeWithGroq second_first 2 two_requests
      5 2000 s in
  let condition_of (v : value) :=
    get_opt (first_opt (get_opt v "predictions")) "condition" in
  map req_payload (requests (snd in_order))
  = [JObj [("bmi", JNum 31)]; JObj [("bmi", JNum 22)]]
  /\ match fst (fst in_order) with
     | Ret (Some results) => map condition_of results
     | _ => []
     end = [JStr "Type 2 Diabetes"; JStr "Hypertension"]
  /\ map req_payload (requests (snd out_of_order))
     = [JObj [("bmi", JNum 22)]; JObj [("bmi", JNum 31)]]
  /\ match fst (fst out_of_order) with
     | Ret (Some results) => map condition_of results
     | _ => []
     end = [JStr "Hypertension"; JStr "Type 2 Diabetes"]
  /\ in_order
     = Flat.analyzeBatch analyzeWithGroq 2 two_requests 5 2000 s.
Proof. cbv zeta. repeat (split; [vm_compute; reflexivity|]); vm_compute; reflexivity. Qed.

End Runs.

Local Open Scope string_scope.
Local Open Scope list_scope.

(* ================================================================== *)
(** ** The further properties on concrete runs *)
(* ================================================================== *)

Module MoreRuns.
Import Reference Examples MoreExamples Zod V2Schemas FlatSchemas.

(** *** The retry wrappers *)

Lemma classifying_wrapper_waits_after_the_last_attempt_witness :
  keeps_failing retried one_call 3
    [Throw unavailable; Throw too_many; Throw unavailable] unavailable []
  /\ exists t : list event,
       Classifying.withRetries one_call 3 500
         [Throw unavailable; Throw too_many; Throw unavailable]
       = (Throw unavailable, [], t)
       /\ Classifying.withRetries (counting one_call) 3 500
            ([Throw unavailable; Throw too_many; Throw unavailable], 0)
          = (Throw unavailable, ([], 3), t)
       /\ (never_sleeps one_call -> sleeps t = backoff 500 0 3).
Proof.
  assert (Hrun : keeps_failing retried one_call 3
                   [Throw unavailable; Throw too_many; Throw unavailable]
                   unavailable []).
  { eapply fails_again; [reflexivity | reflexivity |].
    eapply fails_again; [reflexivity | reflexivity |].
    eapply fails_last; reflexivity. }
  split; [exact Hrun|].
  apply (classifying_wrapper_waits_after_the_last_attempt one_call 3 500 _ _ _
           Hrun).
Defined.

(** That run: three calls, and three delays before the error comes out. *)
Example three_transient_failures :
  let run :=
    Classifying.withRetries (counting one_call) 3 500
      ([Throw unavailable; Throw too_many; Throw unavailable], 0) in
  fst (fst run) = Throw unavailable
  /\ snd (snd (fst run)) = 3
  /\ sleeps (snd run) = [500%Z; 1000%Z; 2000%Z].
Proof. cbv zeta. repeat (split; [vm_compute; reflexivity|]); vm_compute; reflexivity. Qed.

Lemma simple_wrapper_throws_the_last_error_witness :
  keeps_failing readable one_call 3
    [Throw bad_request; Throw unavailable; Throw too_many] too_many []
  /\ exists t : list event,
       Simple.withRetries one_call 3 1000
         [Throw bad_request; Throw unavailable; Throw too_many]
       = (Throw too_many, [], t)
       /\ Simple.withRetries (counting one_call) 3 1000
            ([Throw bad_request; Throw unavailable; Throw too_many], 0)
          = (Throw too_many, ([], 3), t)
       /\ (never_sleeps one_call -> sleeps t = repeat 1000%Z (3 - 1)).
Proof.
  assert (Hrun : keeps_failing readable one_call 3
                   [Throw bad_request; Throw unavailable; Throw too_many]
                   too_many []).
  { eapply fails_again; [reflexivity | reflexivity |].
    eapply fails_again; [reflexivity | reflexivity |].
    eapply fails_last; reflexivity. }
  split; [exact Hrun|].
  apply (simple_wrapper_throws_the_last_error one_call 3 1000 _ _ _ Hrun).
Defined.

Lemma simple_wrapper_retries_until_success_witness :
  2 < 3
  /\ fails_then_returns readable one_call 2
       [Throw bad_request; Throw unavailable; Ret (JStr "done")]
       (JStr "done") []
  /\ exists t : list event,
       Simple.withRetries one_call 3 1000
         [Throw bad_request; Throw unavailable; Ret (JStr "done")]
       = (Ret (JStr "done"), [], t)
       /\ Simple.withRetries (counting one_call) 3 1000
            ([Throw bad_request; Throw unavailable; Ret (JStr "done")], 0)
          = (Ret (JStr "done"), ([], 2 + 1), t)
       /\ (never_sleeps one_call -> sleeps t = repeat 1000%Z 2).
Proof.
  assert (Hrun : fails_then_returns readable one_call 2
                   [Throw bad_request; Throw unavailable; Ret (JStr "done")]
                   (JStr "done") []).
  { eapply fails_before; [reflexivity | reflexivity |].
    eapply fails_before; [reflexivity | reflexivity |].
    eapply returns_at_once; reflexivity. }
  split; [lia|]. split; [exact Hrun|].
  apply (simple_wrapper_retries_until_success one_call 3 1000 2 _ _ _);
    [lia | exact Hrun].
Defined.

Lemma simple_wrapper_stops_on_a_nullish_throw_witness :
  0 < 3
  /\ one_call [Throw JNull; Ret (JStr "done")]
     = (Throw JNull, [Ret (JStr "done")], [EvRequest a_request])
  /\ nullish JNull = true
  /\ Simple.withRetries one_call 3 1000 [Throw JNull; Ret (JStr "done")]
     = (Throw (TypeError "Cannot read properties of undefined or null"),
        [Ret (JStr "done")], [EvRequest a_request])
  /\ Simple.withRetries (counting one_call) 3 1000
       ([Throw JNull; Ret (JStr "done")], 0)
     = (Throw (TypeError "Cannot read properties of undefined or null"),
        ([Ret (JStr "done")], 1), [EvRequest a_request]).
Proof.
  split; [lia|]. split; [reflexivity|]. split; [reflexivity|].
  apply (simple_wrapper_stops_on_a_nullish_throw one_call 3 1000
           [Throw JNull; Ret (JStr "done")] [Ret (JStr "done")] JNull
           [EvRequest a_request]);
    [lia | reflexivity | reflexivity].
Defined.

Lemma error_with_a_textual_code_is_not_retried_witness :
  0 < 3
  /\ one_call [Throw connection_reset; Ret (JStr "done")]
     = (Throw connection_reset, [Ret (JStr "done")], [EvRequest a_request])
  /\ Classifying.status_of connection_reset = JStr "ECONNRESET"
  /\ "ECONNRESET" <> ""
  /\ Classifying.message_includes_rate_limit connection_reset
     = Ret (JBool false)
  /\ truthy (JBool false) = false
  /\ Classifying.transient connection_reset = Ret false
  /\ Classifying.withRetries one_call 3 500
       [Throw connection_reset; Ret (JStr "done")]
     = (Throw connection_reset, [Ret (JStr "done")], [EvRequest a_request])
  /\ Classifying.withRetries (counting one_call) 3 500
       ([Throw connection_reset; Ret (JStr "done")], 0)
     = (Throw connection_reset, ([Ret (JStr "done")], 1),
        [EvRequest a_request]).
Proof.
  split; [lia|]. split; [reflexivity|]. split; [reflexivity|].
  split; [discriminate|]. split; [reflexivity|]. split; [reflexivity|].
  apply (error_with_a_textual_code_is_not_retried one_call 3 500
           [Throw connection_reset; Ret (JStr "done")] [Ret (JStr "done")]
           connection_reset [EvRequest a_request] "ECONNRESET"
           (JBool false));
    [lia | reflexivity | reflexivity | discriminate | reflexivity
    | reflexivity].
Defined.

(** *** The sanitizer *)

Lemma sanitize_cuts_the_notes_to_1000_code_units_witness :
  let x := JObj [("notes", JStr "fasting sample, 7.2 mmol/l"); ("bmi", JNum 31)] in
  sanitizePayload x = Ret x
  /\ match get_opt (json_copy x) "notes" with
     | JStr s =>
         exists kept : string,
           get_opt x "notes" = JStr kept
           /\ kept = Str.slice_first 1000 s
           /\ Str.units kept = firstn 1000 (Str.units s)
           /\ Str.length kept <= 1000
           /\ (Str.length s <= 1000 -> Str.units kept = Str.units s)
     | other => get_opt x "notes" = other
     end.
Proof.
  cbv zeta.
  assert (Hout : sanitizePayload
                   (JObj [("notes", JStr "fasting sample, 7.2 mmol/l");
                          ("bmi", JNum 31)])
                 = Ret (JObj [("notes", JStr "fasting sample, 7.2 mmol/l");
                              ("bmi", JNum 31)]))
    by (vm_compute; reflexivity).
  split; [exact Hout|].
  exact (sanitize_cuts_the_notes_to_1000_code_units _ _ Hout).
Defined.

(** Notes of 1001 code units are cut to 1000; a character outside the
    basic plane counts for two, and a cut between its two code units
    leaves the first of them. *)
Example long_notes_are_cut :
  let long := String.concat "" (repeat "ab" 500) in
  Str.length (long ++ "c") = 1001
  /\ sanitizePayload (JObj [("notes", JStr (long ++ "c"))])
     = Ret (JObj [("notes", JStr long)])
  /\ Str.units "a😀" = [97; 55357; 56832]%Z
  /\ Str.units (Str.slice_first 2 "a😀") = [97; 55357]%Z.
Proof.
  cbv zeta. repeat (split; [vm_compute; reflexivity|]).
  vm_compute; reflexivity.
Qed.

Lemma sanitize_leaves_the_other_keys_witness :
  let record :=
    JObj [("name", JStr "Asha"); ("phone", JStr "5550100")] in
  let x := JObj [("name", JStr "Asha"); ("records", JArr [record])] in
  let out := JObj [("records", JArr [record])] in
  sanitizePayload x = Ret out
  /\ ("name" =? "records") = false /\ ("email" =? "records") = false
  /\ ("phone" =? "records") = false /\ ("abha_id" =? "records") = false
  /\ ("notes" =? "records") = false
  /\ get_opt out "records" = get_opt (json_copy x) "records"
  /\ owns out "records" = owns (json_copy x) "records".
Proof.
  cbv zeta. split; [reflexivity|].
  do 5 (split; [reflexivity|]).
  apply (sanitize_leaves_the_other_keys
           (JObj [("name", JStr "Asha");
                  ("records",
                   JArr [JObj [("name", JStr "Asha");
                               ("phone", JStr "5550100")]])]));
    reflexivity.
Defined.

(** *** The adapter *)

Lemma adapter_returns_documents_with_metadata_witness :
  exists (s' : list (outcome value)) (out : value) (t : list event),
    analyzeWithGroq some_args [Ret (completion legacy_freeform_text)]
    = (Ret out, s', t)
    /\ (has_metadata (S:=list (outcome value)) out
        \/ exists items : list value, out = JArr items).
Proof.
  do 3 eexists. split; [vm_compute; reflexivity|].
  eapply (adapter_returns_documents_with_metadata some_args
            [Ret (completion legacy_freeform_text)]).
  vm_compute. reflexivity.
Defined.

Lemma adapter_errors_are_the_services_or_retried_witness :
  exists (s' : list (outcome value)) (t : list event),
    analyzeWithGroq some_args [Throw bad_request]
    = (Throw bad_request, s', t)
    /\ ((exists sanitized : value,
            sanitizePayload (arg_mergedData some_args) = Ret sanitized
            /\ fst (create (adapter_request some_args sanitized)
                      [Throw bad_request])
               = Throw bad_request)
        \/ (plain_error bad_request /\ retried bad_request)).
Proof.
  do 2 eexists. split; [vm_compute; reflexivity|].
  eapply (adapter_errors_are_the_services_or_retried some_args
            [Throw bad_request]).
  vm_compute. reflexivity.
Defined.

(** A completion whose text cannot be parsed: the adapter throws a plain
    error, which the classifying wrapper retries; the flat-schema
    [analyzeMerged] asks the service three times. *)
Example unparsable_output_is_asked_for_again :
  let script :=
    [Ret (completion "no json"); Ret (completion "no json");
     Ret (completion "no json")] in
  let run :=
    Flat.analyzeMerged analyzeWithGroq "u1" payload None JUndef script in
  fst (fst run)
  = Throw (Error "Failed to parse JSON from model output and no JSON block found")
  /\ List.length (requests (snd run)) = 3
  /\ sleeps (snd run) = [500%Z; 1000%Z; 2000%Z].
Proof. cbv zeta. repeat (split; [vm_compute; reflexivity|]); vm_compute; reflexivity. Qed.

Lemma parse_output_of_embedded_object_witness :
  let pre := "Here is the analysis: " in
  let obj := dq "{'summary':'ok'}" in
  let post := " (the end)" in
  free_of "{" pre = true /\ free_of "}" post = true /\ braced obj
  /\ JSON_parse (pre ++ obj ++ post)%string = None
  /\ JSON_parse obj = Some (JObj [("summary", JStr "ok")])
  /\ parse_output (pre ++ obj ++ post)%string
     = Ret (JObj [("summary", JStr "ok")]).
Proof.
  cbv zeta.
  assert (Hb : braced (dq "{'summary':'ok'}"))
    by (exists (dq "'summary':'ok'"); reflexivity).
  split; [reflexivity|]. split; [reflexivity|]. split; [exact Hb|].
  split; [vm_compute; reflexivity|]. split; [vm_compute; reflexivity|].
  apply (parse_output_of_embedded_object "Here is the analysis: "
           (dq "{'summary':'ok'}") " (the end)");
    [reflexivity | reflexivity | exact Hb | vm_compute; reflexivity
    | vm_compute; reflexivity].
Defined.

(** *** Validation *)

Lemma upgraded_deltas_mirror_the_predictions_witness :
  exists legacyData : value,
    safeParse AnalysisV2 legacy_document = None
    /\ safeParse LegacyAnalysis legacy_document = Some legacyData
    /\ exists (out : value) (predictions deltas : list value),
         fst (fst (V2.validate "u1" legacy_document
                     ([] : list (outcome value))))
         = Ret out
         /\ get_opt (get_opt out "projection") "predictions"
            = JArr predictions
         /\ get_opt out "deltas" = JArr deltas
         /\ Forall2
              (fun p d =>
                 get_opt d "condition" = get_opt p "condition"
                 /\ get_opt d "projection_pct" = get_opt p "probability_pct"
                 /\ (exists c : string, get_opt p "condition" = JStr c)
                 /\ exists x : float, get_opt p "probability_pct" = JNum x)
              predictions deltas.
Proof.
  eexists. split; [vm_compute; reflexivity|].
  split; [vm_compute; reflexivity|].
  eapply (upgraded_deltas_mirror_the_predictions "u1" legacy_document _
           ([] : list (outcome value)));
    vm_compute; reflexivity.
Defined.

(** That run: the projection is 40, the [probability] of 90 is not read. *)
Example upgraded_delta_of_a_prediction :
  let run := V2.validate "u1" legacy_document ([] : list (outcome value)) in
  match fst (fst run) with
  | Ret out => get_opt out "deltas"
  | Throw _ => JUndef
  end
  = JArr [JObj [("condition", JStr "Type 2 Diabetes");
                ("baseline_pct", JNum (-1));
                ("projection_pct", JNum 40);
                ("delta_pct", JNum (-1))]].
Proof. vm_compute. reflexivity. Qed.

Lemma upgraded_document_can_fail_the_current_shape_witness :
  exists legacyData : value,
    safeParse AnalysisV2 legacy_document = None
    /\ safeParse LegacyAnalysis legacy_document = Some legacyData
    /\ (truthy (get_opt legacyData "explainability") = false
        \/ safeParse explainability_schema
             (get_opt legacyData "explainability") = None)
    /\ exists out : value,
         fst (fst (V2.validate "u1" legacy_document
                     ([] : list (outcome value))))
         = Ret out
         /\ get_opt out "explainability"
            = or_else (get_opt legacyData "explainability") (JObj [])
         /\ safeParse AnalysisV2 out = None.
Proof.
  eexists. split; [vm_compute; reflexivity|].
  split; [vm_compute; reflexivity|].
  split; [left; vm_compute; reflexivity|].
  eapply (upgraded_document_can_fail_the_current_shape "u1" legacy_document _
           ([] : list (outcome value)));
    [vm_compute; reflexivity | vm_compute; reflexivity
    | left; vm_compute; reflexivity].
Defined.

Lemma flat_document_with_metadata_loses_its_predictions_witness :
  lookup "model_version" flat_props = JStr "m1"
  /\ lookup "generated_on" flat_props = JStr "2024-05-01"
  /\ (lookup "summary" flat_props = JUndef
      \/ exists text : string, lookup "summary" flat_props = JStr text)
  /\ has_key "baseline" flat_props = false
  /\ has_key "projection" flat_props = false
  /\ has_key "deltas" flat_props = false
  /\ has_key "explainability" flat_props = false
  /\ exists out : value,
       fst (fst (V2.validate "u1" (JObj flat_props)
                   ([] : list (outcome value))))
       = Ret out
       /\ get_opt out "model_version" = JStr "m1"
       /\ get_opt out "generated_on" = JStr "2024-05-01"
       /\ get_opt out "summary" = lookup "summary" flat_props
       /\ owns out "predictions" = false
       /\ owns out "projection" = false
       /\ owns out "deltas" = false.
Proof.
  split; [reflexivity|]. split; [reflexivity|].
  split; [left; reflexivity|].
  do 4 (split; [reflexivity|]).
  apply (flat_document_with_metadata_loses_its_predictions "u1" flat_props
           "m1" "2024-05-01" ([] : list (outcome value)));
    try reflexivity.
  left. reflexivity.
Defined.

Lemma flat_revision_rejects_a_response_without_predictions_witness :
  is_array (get_opt current_document "predictions") = false
  /\ safeParse AnalysisSchema current_document = None
  /\ Flat.validate "u1" current_document ([] : list (outcome value))
     = (Throw (Error "Invalid analysis result from Groq"), [],
        [EvLog "error" (JObj [("rawResult", current_document)])
           "Groq returned invalid analysis schema"]).
Proof.
  split; [reflexivity|].
  apply (flat_revision_rejects_a_response_without_predictions "u1"
           current_document ([] : list (outcome value))).
  reflexivity.
Defined.

Lemma rounding_keeps_percentages_of_one_decimal_witness :
  (-10 <= 403 <= 1000)%Z
  /\ Num.round_1_decimal (tenths 403) = tenths 403.
Proof.
  split; [lia|].
  apply (rounding_keeps_percentages_of_one_decimal 403). lia.
Defined.

(** The sentinel and a percentage of one decimal, as they are written. *)
Example sentinel_and_tenths :
  Number_toString (tenths (-10)) = "-1"
  /\ Number_toString (tenths 403) = "40.3"
  /\ Number_toString (Num.round_1_decimal (tenths (-10))) = "-1".
Proof. repeat (split; [vm_compute; reflexivity|]); vm_compute; reflexivity. Qed.

(** *** The batch *)

Lemma batch_size_zero_never_finishes_witness :
  requests_of_batch <> []
  /\ Flat.analyzeBatch analyzeWithGroq 5 requests_of_batch 0 2000
       [Ret (completion legacy_text)]
     = (Ret None, [Ret (completion legacy_text)],
        repeat (EvSleep 2000) 5).
Proof.
  split; [discriminate|].
  apply (batch_size_zero_never_finishes analyzeWithGroq requests_of_batch
           2000 5 [Ret (completion legacy_text)]).
  discriminate.
Defined.


(** *** The model output *)


(** *** The first revision and the routes *)

(** Numeric readings: the conversion of texts is not used. *)
Example first_revision_on_two_readings :
  let merged :=
    JObj [("payload", JObj [("last_hba1c", JNum 7); ("bmi", JNum 31)])] in
  let run :=
    Toy.analyzeMerged (fun _ => PrimFloat.nan) "u1" merged
      ([] : list (outcome value)) in
  option_map toy_probabilities
    (match fst (fst run) with Ret out => Some out | Throw _ => None end)
  = Some [JNum 36; JNum 33].
Proof. vm_compute. reflexivity. Qed.

Example first_revision_without_readings :
  let run :=
    Toy.analyzeMerged (fun _ => PrimFloat.nan) "u1" (JObj [])
      ([] : list (outcome value)) in
  option_map toy_probabilities
    (match fst (fst run) with Ret out => Some out | Throw _ => None end)
  = Some [JNum 12].
Proof. vm_compute. reflexivity. Qed.

(** A reading that has no number: an object that owns a [toString]
    key.  [Number] throws, and so does the call. *)
Example first_revision_on_a_reading_without_a_number :
  let merged :=
    JObj [("payload",
           JObj [("bmi", JObj [("toString", JNum 1)])])] in
  Toy.analyzeMerged (fun _ => PrimFloat.nan) "u1" merged
    ([] : list (outcome value))
  = (Throw (TypeError "Cannot convert object to primitive value"), [], []).
Proof. vm_compute. reflexivity. Qed.

Lemma first_revision_probabilities_are_capped_witness :
  let merged :=
    JObj [("payload", JObj [("last_hba1c", JNum 7); ("bmi", JNum 31)])] in
  exists out : value,
    Toy.analyzeMerged (fun _ => PrimFloat.nan) "u1" merged
      ([] : list (outcome value))
    = (Ret out, [], [])
    /\ exists predictions : list value,
      get_opt out "predictions" = JArr predictions
      /\ Forall
           (fun p =>
              exists x : float,
                get_opt p "probability" = JNum x
                /\ PrimFloat.is_nan x = false
                /\ ((get_opt p "condition" = JStr "Type 2 Diabetes"
                     /\ (x <=? 95)%float = true)
                    \/ (get_opt p "condition" = JStr "Cardiovascular Disease"
                        /\ (x <=? 80)%float = true)
                    \/ (get_opt p "condition" = JStr "Overall Risk (general)"
                        /\ x = 12%float)))
           predictions.
Proof.
  cbv zeta. eexists. split; [vm_compute; reflexivity|].
  eapply (first_revision_probabilities_are_capped
            (fun _ => PrimFloat.nan) "u1"
            (JObj [("payload",
                    JObj [("last_hba1c", JNum 7); ("bmi", JNum 31)])])
            ([] : list (outcome value))).
  vm_compute. reflexivity.
Defined.

Lemma first_route_reads_the_lifestyle_first_witness :
  truthy some_lifestyle = true
  /\ NoDup (map fst (FirstRoute.spread some_lifestyle))
  /\ Toy.reading (FirstRoute.merged latest_record some_lifestyle) "bmi"
     = JNum 31
  /\ Toy.reading (FirstRoute.merged latest_record some_lifestyle)
       "last_hba1c"
     = JNull.
Proof.
  assert (Hd : NoDup (map fst (FirstRoute.spread some_lifestyle))).
  { repeat constructor; simpl; intuition discriminate. }
  split; [reflexivity|]. split; [exact Hd|]. split.
  - rewrite (first_route_reads_the_lifestyle_first latest_record
               some_lifestyle "bmi" eq_refl Hd eq_refl).
    reflexivity.
  - rewrite (first_route_reads_the_lifestyle_first latest_record
               some_lifestyle "last_hba1c" eq_refl Hd eq_refl).
    reflexivity.
Defined.

(** The route of the later revision, on a stored record and a lifestyle:
    the one request carries both. *)
Example route_payload_of_one_record :
  let merged := Route.merged [latest_record] some_lifestyle in
  let run :=
    analyzeMerged_of_route "u1" merged None [Ret (completion legacy_text)] in
  map req_payload (requests (snd run))
  = [JObj [("baselineRecords",
            JArr [JObj [("source", JStr "lab");
                        ("payload",
                         JObj [("last_hba1c", JNum 7); ("bmi", JNum 24)])]]);
           ("lifestyle", some_lifestyle)]].
Proof. vm_compute. reflexivity. Qed.

(** The handler on a model that answers at once: the record is created,
    then the analysis is sent; when the collection is down, the answer is
    the error of the collection. *)
Example handler_stores_then_answers :
  let script := [Ret (completion (dq "{'summary':'ok'}"))] in
  let merged := Route.merged [latest_record] some_lifestyle in
  let run Db :=
    Route.analyze_and_store (Db := Db) analyzeMerged_of_route JUndef "u1"
      merged None JUndef "abc" script in
  (exists analysis : value,
     fst (fst (analyzeMerged_of_route "u1" merged None script)) = Ret analysis
     /\ Route.creates (snd (run storing))
        = [Route.analysis_record JUndef "u1" analysis
             (get_opt analysis "model_version") JUndef "abc"]
     /\ Route.sends (snd (run storing))
        = [(200%Z, Route.answer_ok analysis)])
  /\ Route.sends (snd (run store_down))
     = [(500%Z,
         JObj [("ok", JBool false); ("error", JStr "connection refused")])]
  /\ List.length (Route.creates (snd (run store_down))) = 1.
Proof.
  cbv zeta. split.
  - eexists. split; [vm_compute; reflexivity|].
    split; vm_compute; reflexivity.
  - split; vm_compute; reflexivity.
Qed.

(** The token check on three headers, and on a token that was signed
    over a text: the [id] of the user is then the method every text
    inherits. *)
Example token_check_on_some_headers :
  let verify token secret :=
    match token, secret with
    | JStr "good", JStr "changeme" =>
        Ret (JObj [("sub", JStr "u1"); ("username", JStr "asha")])
    | JStr "text", JStr "changeme" => Ret (JStr "hello")
    | _, _ => Throw (Error "invalid token")
    end in
  Auth.authMiddleware verify JUndef (JStr "Bearer good")
  = Ret (Auth.Next {| Auth.id := Auth.Data (JStr "u1");
                      Auth.username := Auth.Data (JStr "asha") |})
  /\ Auth.authMiddleware verify JUndef (JStr "Bearer text")
     = Ret (Auth.Next {| Auth.id := Auth.Method "String.prototype.sub";
                         Auth.username := Auth.Data JUndef |})
  /\ Auth.authMiddleware verify JUndef (JStr "Bearer bad")
     = Ret (Auth.Respond 401 Auth.invalid_token)
  /\ Auth.authMiddleware verify JUndef JUndef
     = Ret (Auth.Respond 401 Auth.no_token).
Proof.
  cbv zeta. repeat (split; [vm_compute; reflexivity|]).
  vm_compute; reflexivity.
Qed.

End MoreRuns.
